(** * The survey bot's research agent, command parser and generation router

    A shallow embedding of [examples/cis/bot/llm.js] (the LLM wrapper:
    command parser, research loop, vote and suggestion recovery, image
    routing) and of the search module that follows [index.js] (query
    sanitising, Brave search with retries, pacing), with the properties
    the specification states about them.

    JavaScript strings are sequences of UTF-16 code units; they are
    modelled as lists of code units ([N]).  JavaScript values that reach
    the code come out of [JSON.parse], so the value type is the JSON
    value type extended with [undefined].  Exceptions are explicit: a
    computation that can throw returns a [result], and so does every
    call to the outside (the chat provider, the network).  What the
    runtime decides and the source does not (how a number prints, the
    lower-case form of a string beyond ASCII, the text of a built-in
    function) is a parameter. *)

From Stdlib Require Import String Ascii DecimalString.
From Stdlib Require Import List NArith ZArith Bool Arith Lia.
Import ListNotations.
Local Open Scope list_scope.

Set Warnings "-register-all".

(* ------------------------------------------------------------------ *)
(** ** Strings as code-unit sequences                                   *)
(* ------------------------------------------------------------------ *)

Definition char := N.
Definition jsstring := list char.

(** An ASCII literal as a JavaScript string. *)
Definition str (s : string) : jsstring :=
  map N_of_ascii (list_ascii_of_string s).

(** A literal in which every apostrophe stands for a double quote: the
    way JSON texts are written down in examples. *)
Definition jq (s : string) : jsstring :=
  map (fun c => if N.eqb c 39 then 34%N else c) (str s).

Definition c_dquote : char := 34%N.
Definition c_squote : char := 39%N.
Definition c_backtick : char := 96%N.
Definition c_lbrace : char := 123%N.
Definition c_rbrace : char := 125%N.
Definition c_lbracket : char := 91%N.
Definition c_rbracket : char := 93%N.
Definition c_backslash : char := 92%N.
Definition c_colon : char := 58%N.
Definition c_comma : char := 44%N.
Definition c_minus : char := 45%N.
Definition c_newline : char := 10%N.

Fixpoint string_eqb (a b : jsstring) : bool :=
  match a, b with
  | [], [] => true
  | x :: a', y :: b' => N.eqb x y && string_eqb a' b'
  | _, _ => false
  end.

(** [\s] of a regular expression and the characters [trim] removes:
    WhiteSpace and LineTerminator of ECMA-262. *)
Definition is_space (c : char) : bool :=
  (N.leb 9 c && N.leb c 13) || N.eqb c 32 || N.eqb c 160 ||
  N.eqb c 5760 || (N.leb 8192 c && N.leb c 8202) ||
  N.eqb c 8232 || N.eqb c 8233 || N.eqb c 8239 || N.eqb c 8287 ||
  N.eqb c 12288 || N.eqb c 65279.

Definition is_digit (c : char) : bool := N.leb 48 c && N.leb c 57.

(** [\w] of a regular expression without the unicode flag. *)
Definition is_word (c : char) : bool :=
  is_digit c || (N.leb 65 c && N.leb c 90) || (N.leb 97 c && N.leb c 122) ||
  N.eqb c 95.

Fixpoint drop_space (s : jsstring) : jsstring :=
  match s with
  | c :: s' => if is_space c then drop_space s' else s
  | [] => []
  end.

Definition trimEnd (s : jsstring) : jsstring := rev (drop_space (rev s)).
Definition trim (s : jsstring) : jsstring := trimEnd (drop_space s).

(** [s.slice(0, n)] for a non-negative integer [n]. *)
Definition slice0 (n : nat) (s : jsstring) : jsstring := firstn n s.

Fixpoint starts_with (p s : jsstring) : bool :=
  match p, s with
  | [], _ => true
  | x :: p', y :: s' => N.eqb x y && starts_with p' s'
  | _ :: _, [] => false
  end.

(** [s.includes(needle)]. *)
Fixpoint includes (s needle : jsstring) : bool :=
  starts_with needle s ||
  match s with
  | [] => false
  | _ :: s' => includes s' needle
  end.

(** [s.indexOf(needle)], counted from [i]; [None] is the result -1. *)
Fixpoint indexOf_from (i : nat) (s needle : jsstring) : option nat :=
  if starts_with needle s then Some i
  else match s with
       | [] => None
       | _ :: s' => indexOf_from (S i) s' needle
       end.

Definition indexOf (s needle : jsstring) : option nat := indexOf_from 0 s needle.

Definition is_ascii (c : char) : bool := N.ltb c 128.

Definition lower_ascii (c : char) : char :=
  if N.leb 65 c && N.leb c 90 then (c + 32)%N else c.

(** [s.toLowerCase()].  On a string of ASCII code units the built-in
    lowers the letters A to Z and keeps the rest.  A string that holds
    any other code unit is lowered by the case mapping of the Unicode
    tables of the runtime (with its context rules and its mappings to
    more than one code unit), which is taken as given:
    [lower_unicode]. *)
Definition toLowerCase (lower_unicode : jsstring -> jsstring) (s : jsstring)
  : jsstring :=
  if forallb is_ascii s then map lower_ascii s else lower_unicode s.

(** [parts.join(sep)] on strings. *)
Fixpoint join (sep : jsstring) (parts : list jsstring) : jsstring :=
  match parts with
  | [] => []
  | [p] => p
  | p :: rest => p ++ sep ++ join sep rest
  end.

(** Decimal digits of a natural number, as [String(n)] prints an
    integer index. *)
Definition nat_to_string (n : nat) : jsstring :=
  str (NilZero.string_of_uint (Nat.to_uint n)).

(* ------------------------------------------------------------------ *)
(** ** Exceptions                                                       *)
(* ------------------------------------------------------------------ *)

Inductive exn : Type :=
| TypeError
| SyntaxError
| Error (message : jsstring).

Inductive result (A : Type) : Type :=
| Return (a : A)
| Throw (e : exn).

Arguments Return {A} a.
Arguments Throw {A} e.

Definition bind {A B : Type} (r : result A) (k : A -> result B) : result B :=
  match r with
  | Return a => k a
  | Throw e => Throw e
  end.

Notation "x <- r ;; k" := (bind r (fun x => k))
  (at level 61, r at next level, right associativity).

(** Sequencing of a function over an array, as [map] with a callback
    that may throw. *)
Fixpoint map_result {A B : Type} (f : A -> result B) (xs : list A)
  : result (list B) :=
  match xs with
  | [] => Return []
  | x :: rest =>
      y <- f x ;;
      ys <- map_result f rest ;;
      Return (y :: ys)
  end.

(* ------------------------------------------------------------------ *)
(** ** Values                                                           *)
(* ------------------------------------------------------------------ *)

(** A number read from a JSON text, kept exactly as the decimal
    [mantissa * 10 ^ exponent]. *)
Record jsnum : Type := { mantissa : Z; exponent : Z }.

Inductive value : Type :=
| VUndefined
| VNull
| VBool (b : bool)
| VNumber (n : jsnum)
| VString (s : jsstring)
| VArray (items : list value)
| VObject (members : list (jsstring * value)).

(** The double nearest to a decimal is zero exactly when the decimal is
    zero or at most 2^-1075 in magnitude (round to nearest, ties to
    even). *)
Definition num_is_zero (n : jsnum) : bool :=
  Z.eqb (mantissa n) 0 ||
  (Z.ltb (exponent n) 0 &&
   Z.leb (Z.abs (mantissa n) * 2 ^ 1075) (10 ^ (- exponent n))).

(** ToBoolean. *)
Definition truthy (v : value) : bool :=
  match v with
  | VUndefined | VNull => false
  | VBool b => b
  | VNumber n => negb (num_is_zero n)
  | VString s => match s with [] => false | _ => true end
  | VArray _ | VObject _ => true
  end.

(** [a || b]. *)
Definition js_or (a b : value) : value := if truthy a then a else b.

(** The last binding of a key: [JSON.parse] lets a later duplicate
    member overwrite an earlier one. *)
Fixpoint lookup (k : jsstring) (ms : list (jsstring * value)) : option value :=
  match ms with
  | [] => None
  | (k', v) :: rest =>
      match lookup k rest with
      | Some v' => Some v'
      | None => if string_eqb k k' then Some v else None
      end
  end.

(** [v.name] for a value other than [null] and [undefined] and a
    property name that is neither [length], an index nor a member of a
    built-in prototype: only an object's own member answers. *)
Definition get (v : value) (name : jsstring) : value :=
  match v with
  | VObject ms => match lookup name ms with Some x => x | None => VUndefined end
  | _ => VUndefined
  end.

(** [v.name] where [v] may be [null] or [undefined]. *)
Definition get_checked (v : value) (name : jsstring) : result value :=
  match v with
  | VUndefined | VNull => Throw TypeError
  | _ => Return (get v name)
  end.

(** [v?.name]. *)
Definition get_optional (v : value) (name : jsstring) : value :=
  match v with
  | VUndefined | VNull => VUndefined
  | _ => get v name
  end.

(** Strict equality of [v] with a string literal. *)
Definition is_string (v : value) (s : jsstring) : bool :=
  match v with
  | VString t => string_eqb t s
  | _ => false
  end.

Section ToString.

(** [Number.prototype.toString] is left to the caller: no property
    below depends on how a number prints. *)
Variable number_to_string : jsnum -> jsstring.

(** ToString: [String(v)] and the conversion of a template literal.
    An object is converted by the first callable of its [toString] and
    [valueOf] that answers with a primitive.  A value read from JSON is
    never callable, so an own member named toString hides the method of
    the prototype, the [valueOf] that is left answers with the object
    itself, and the conversion is a TypeError; without such a member
    the method of the prototype answers.  An array is converted by
    [join], which converts its elements and prints [null] and
    [undefined] as nothing. *)
Fixpoint to_string (v : value) : result jsstring :=
  match v with
  | VUndefined => Return (str "undefined")
  | VNull => Return (str "null")
  | VBool true => Return (str "true")
  | VBool false => Return (str "false")
  | VNumber n => Return (number_to_string n)
  | VString s => Return s
  | VArray items =>
      parts <- map_result (fun x => match x with
                                    | VUndefined | VNull => Return []
                                    | _ => to_string x
                                    end) items ;;
      Return (join [c_comma] parts)
  | VObject ms =>
      match lookup (str "toString") ms with
      | Some _ => Throw TypeError
      | None => Return (str "[object Object]")
      end
  end.

End ToString.

(** [v.length] for a value other than [null] and [undefined]. *)
Definition num_of_nat (n : nat) : jsnum := {| mantissa := Z.of_nat n; exponent := 0 |}.

Definition get_length (v : value) : result value :=
  match v with
  | VUndefined | VNull => Throw TypeError
  | VString s => Return (VNumber (num_of_nat (length s)))
  | VArray items => Return (VNumber (num_of_nat (length items)))
  | VObject _ => Return (get v (str "length"))
  | _ => Return VUndefined
  end.

(** [v.slice(0, n)]: strings and arrays have the method; on anything
    else the call is a TypeError. *)
Definition slice_value (n : nat) (v : value) : result value :=
  match v with
  | VString s => Return (VString (firstn n s))
  | VArray items => Return (VArray (firstn n items))
  | _ => Throw TypeError
  end.

(** [a && b]. *)
Definition js_and (a b : value) : value := if truthy a then b else a.

(** The names every plain object inherits from [Object.prototype]:
    reading one of them off an object that has no member of that name
    gives a built-in, which is truthy and has no member of its own that
    the source asks for. *)
Definition object_prototype_names : list jsstring :=
  [str "constructor"; str "__defineGetter__"; str "__defineSetter__";
   str "hasOwnProperty"; str "__lookupGetter__"; str "__lookupSetter__";
   str "isPrototypeOf"; str "propertyIsEnumerable"; str "toString";
   str "valueOf"; str "__proto__"; str "toLocaleString"].

Definition inherited_name (k : jsstring) : bool :=
  existsb (string_eqb k) object_prototype_names.

(* ------------------------------------------------------------------ *)
(** ** JSON.parse                                                       *)
(* ------------------------------------------------------------------ *)

(** The grammar of ECMA-404 as [JSON.parse] reads it.  The parser is a
    recursive descent over the code units; [fuel] bounds the nesting of
    calls and [JSON_parse_fuel] shows that the bound handed to it by
    [JSON_parse] is never reached. *)

Inductive parsed (A : Type) : Type :=
| POk (a : A) (rest : jsstring)
| PErr
| PFuel.

Arguments POk {A} a rest.
Arguments PErr {A}.
Arguments PFuel {A}.

Definition pmap {A B : Type} (f : A -> B) (p : parsed A) : parsed B :=
  match p with
  | POk a r => POk (f a) r
  | PErr => PErr
  | PFuel => PFuel
  end.

Definition is_json_ws (c : char) : bool :=
  N.eqb c 9 || N.eqb c 10 || N.eqb c 13 || N.eqb c 32.

Fixpoint skip_ws (s : jsstring) : jsstring :=
  match s with
  | c :: s' => if is_json_ws c then skip_ws s' else s
  | [] => []
  end.

Definition hex_val (c : char) : option N :=
  if is_digit c then Some (c - 48)%N
  else if N.leb 97 c && N.leb c 102 then Some (c - 87)%N
  else if N.leb 65 c && N.leb c 70 then Some (c - 55)%N
  else None.

Definition hex4 (a b c d : char) : option char :=
  match hex_val a, hex_val b, hex_val c, hex_val d with
  | Some x, Some y, Some z, Some w => Some (((x * 16 + y) * 16 + z) * 16 + w)%N
  | _, _, _, _ => None
  end.

(** The character a single-letter escape stands for. *)
Definition escape_char (e : char) : option char :=
  if N.eqb e 34 then Some 34%N            (* quote *)
  else if N.eqb e 92 then Some 92%N       (* backslash *)
  else if N.eqb e 47 then Some 47%N       (* solidus *)
  else if N.eqb e 98 then Some 8%N        (* b: backspace *)
  else if N.eqb e 102 then Some 12%N      (* f: form feed *)
  else if N.eqb e 110 then Some 10%N      (* n: line feed *)
  else if N.eqb e 114 then Some 13%N      (* r: carriage return *)
  else if N.eqb e 116 then Some 9%N       (* t: tab *)
  else None.

(** The characters of a string literal, read after its opening quote up
    to and including its closing quote. *)
Fixpoint parse_chars (s : jsstring) : parsed jsstring :=
  match s with
  | [] => PErr
  | c :: r =>
      if N.eqb c c_dquote then POk [] r
      else if N.eqb c c_backslash then
        match r with
        | [] => PErr
        | e :: r' =>
            if N.eqb e 117 then
              match r' with
              | h1 :: h2 :: h3 :: h4 :: r'' =>
                  match hex4 h1 h2 h3 h4 with
                  | Some u => pmap (cons u) (parse_chars r'')
                  | None => PErr
                  end
              | _ => PErr
              end
            else
              match escape_char e with
              | Some x => pmap (cons x) (parse_chars r')
              | None => PErr
              end
        end
      else if N.ltb c 32 then PErr
      else pmap (cons c) (parse_chars r)
  end.

Fixpoint span_digits (s : jsstring) : jsstring * jsstring :=
  match s with
  | c :: r =>
      if is_digit c then let (ds, rest) := span_digits r in (c :: ds, rest)
      else ([], s)
  | [] => ([], [])
  end.

Definition digits_value (ds : jsstring) : Z :=
  fold_left (fun acc d => (acc * 10 + (Z.of_N d - 48))%Z) ds 0%Z.

(** [int]: a single [0], or digits that do not start with [0]. *)
Definition number_int (s : jsstring) : option (jsstring * jsstring) :=
  match s with
  | c :: r =>
      if N.eqb c 48 then Some ([c], r)
      else if is_digit c then Some (span_digits s)
      else None
  | [] => None
  end.

(** [frac?]: a point followed by at least one digit. *)
Definition number_frac (s : jsstring) : option (jsstring * jsstring) :=
  match s with
  | c :: r =>
      if N.eqb c 46 then
        match span_digits r with
        | ([], _) => None
        | (fds, r') => Some (fds, r')
        end
      else Some ([], s)
  | [] => Some ([], s)
  end.

(** [exp?]: [e] or [E], an optional sign, at least one digit. *)
Definition number_exp (s : jsstring) : option (Z * jsstring) :=
  match s with
  | c :: r =>
      if N.eqb c 101 || N.eqb c 69 then
        let (eneg, r1) :=
          match r with
          | sg :: r' =>
              if N.eqb sg 45 then (true, r')
              else if N.eqb sg 43 then (false, r')
              else (false, r)
          | [] => (false, r)
          end in
        match span_digits r1 with
        | ([], _) => None
        | (eds, r2) =>
            Some ((if eneg then - digits_value eds else digits_value eds)%Z, r2)
        end
      else Some (0%Z, s)
  | [] => Some (0%Z, s)
  end.

(** [-? int frac? exp?]. *)
Definition parse_number (s : jsstring) : parsed jsnum :=
  let (neg, s1) :=
    match s with
    | c :: r => if N.eqb c c_minus then (true, r) else (false, s)
    | [] => (false, s)
    end in
  match number_int s1 with
  | None => PErr
  | Some (ids, s2) =>
      match number_frac s2 with
      | None => PErr
      | Some (fds, s3) =>
          match number_exp s3 with
          | None => PErr
          | Some (e, s4) =>
              let m := digits_value (ids ++ fds) in
              POk {| mantissa := if neg then (- m)%Z else m;
                     exponent := (e - Z.of_nat (length fds))%Z |} s4
          end
      end
  end.

Fixpoint parse_value (fuel : nat) (s : jsstring) {struct fuel} : parsed value :=
  match fuel with
  | 0 => PFuel
  | S f =>
      match skip_ws s with
      | [] => PErr
      | c :: r =>
          if N.eqb c c_lbrace then
            match skip_ws r with
            | [] => PErr
            | c' :: r' =>
                if N.eqb c' c_rbrace then POk (VObject []) r'
                else pmap VObject (parse_members f (c' :: r'))
            end
          else if N.eqb c c_lbracket then
            match skip_ws r with
            | [] => PErr
            | c' :: r' =>
                if N.eqb c' c_rbracket then POk (VArray []) r'
                else pmap VArray (parse_elements f (c' :: r'))
            end
          else if N.eqb c c_dquote then pmap VString (parse_chars r)
          else if N.eqb c c_minus || is_digit c then
            pmap VNumber (parse_number (c :: r))
          else if starts_with (str "true") (c :: r) then
            POk (VBool true) (skipn 4 (c :: r))
          else if starts_with (str "false") (c :: r) then
            POk (VBool false) (skipn 5 (c :: r))
          else if starts_with (str "null") (c :: r) then
            POk VNull (skipn 4 (c :: r))
          else PErr
      end
  end

with parse_elements (fuel : nat) (s : jsstring) {struct fuel}
  : parsed (list value) :=
  match fuel with
  | 0 => PFuel
  | S f =>
      match parse_value f s with
      | POk v r =>
          match skip_ws r with
          | [] => PErr
          | c :: r' =>
              if N.eqb c c_comma then pmap (cons v) (parse_elements f r')
              else if N.eqb c c_rbracket then POk [v] r'
              else PErr
          end
      | PErr => PErr
      | PFuel => PFuel
      end
  end

with parse_members (fuel : nat) (s : jsstring) {struct fuel}
  : parsed (list (jsstring * value)) :=
  match fuel with
  | 0 => PFuel
  | S f =>
      match skip_ws s with
      | [] => PErr
      | q :: r =>
          if N.eqb q c_dquote then
            match parse_chars r with
            | POk k r1 =>
                match skip_ws r1 with
                | [] => PErr
                | c :: r2 =>
                    if N.eqb c c_colon then
                      match parse_value f r2 with
                      | POk v r3 =>
                          match skip_ws r3 with
                          | [] => PErr
                          | c' :: r4 =>
                              if N.eqb c' c_comma then
                                pmap (cons (k, v)) (parse_members f r4)
                              else if N.eqb c' c_rbrace then POk [(k, v)] r4
                              else PErr
                          end
                      | PErr => PErr
                      | PFuel => PFuel
                      end
                    else PErr
                end
            | PErr => PErr
            | PFuel => PFuel
            end
          else PErr
      end
  end.

Definition json_fuel (s : jsstring) : nat := 2 * length s + 1.

(** [JSON.parse(text)]: one value, then nothing but white space. *)
Definition JSON_parse (text : jsstring) : result value :=
  match parse_value (json_fuel text) text with
  | POk v rest =>
      match skip_ws rest with
      | [] => Return v
      | _ :: _ => Throw SyntaxError
      end
  | PErr => Throw SyntaxError
  | PFuel => Throw SyntaxError
  end.

(* ------------------------------------------------------------------ *)
(** ** Regular expressions of the source                                *)
(* ------------------------------------------------------------------ *)

(** [s.replace(/pattern/g, rep)] for a pattern that never matches the
    empty string.  [match_at s] is the length of the match that starts
    at the head of [s], if there is one; [skip] counts the code units of
    the current match that are still to be dropped.  Scanning resumes
    right after a match, as [lastIndex] does. *)
Fixpoint replace_all (match_at : jsstring -> option nat) (rep : jsstring)
  (skip : nat) (s : jsstring) : jsstring :=
  match s with
  | [] => []
  | c :: r =>
      match skip with
      | S k => replace_all match_at rep k r
      | 0 =>
          match match_at s with
          | Some (S k) => rep ++ replace_all match_at rep k r
          | _ => c :: replace_all match_at rep 0 r
          end
      end
  end.

(** A letter of the pattern against a code unit under the [i] flag:
    the lower-case ASCII letter [l] matches itself and its capital. *)
Definition ci_eq (l c : char) : bool := N.eqb c l || N.eqb c (l - 32).

Fixpoint starts_with_ci (p s : jsstring) : bool :=
  match p, s with
  | [], _ => true
  | l :: p', c :: s' => ci_eq l c && starts_with_ci p' s'
  | _ :: _, [] => false
  end.

Fixpoint count_space (s : jsstring) : nat :=
  match s with
  | c :: r => if is_space c then S (count_space r) else 0
  | [] => 0
  end.

Fixpoint count_nonspace (s : jsstring) : nat :=
  match s with
  | c :: r => if is_space c then 0 else S (count_nonspace r)
  | [] => 0
  end.

Definition fence : jsstring := [c_backtick; c_backtick; c_backtick].

(** The pattern [```(?:json)?\s*] under the flags [gi]. *)
Definition fence_at (s : jsstring) : option nat :=
  if starts_with fence s then
    let r := skipn 3 s in
    let j := if starts_with_ci (str "json") r then 4 else 0 in
    Some (3 + j + count_space (skipn j r))
  else None.

(** The pattern [```]. *)
Definition backticks_at (s : jsstring) : option nat :=
  if starts_with fence s then Some 3 else None.

Definition replace_fences (s : jsstring) : jsstring :=
  replace_all fence_at [] 0 s.

Definition replace_backticks (s : jsstring) : jsstring :=
  replace_all backticks_at [] 0 s.

(** Line 215: both replacements, then [trim]. *)
Definition strip_fences (text : jsstring) : jsstring :=
  trim (replace_backticks (replace_fences text)).

Fixpoint count_nonquote (s : jsstring) : nat :=
  match s with
  | c :: r => if N.eqb c c_dquote then 0 else S (count_nonquote r)
  | [] => 0
  end.

Definition action_key : jsstring := c_dquote :: str "action" ++ [c_dquote].

(** The part of the command pattern after the brace-free run: the
    quoted word action, a colon between optional white space, and a
    non-empty quoted run that holds no quote.  Each starred class is
    disjoint from the character that follows it, so the greedy match is
    the only one.  Returns the number of code units matched at the head
    of [s]. *)
Definition action_tail (s : jsstring) : option nat :=
  if starts_with action_key s then
    let s1 := skipn 8 s in
    let w1 := count_space s1 in
    match skipn w1 s1 with
    | c :: s2 =>
        if N.eqb c c_colon then
          let w2 := count_space s2 in
          match skipn w2 s2 with
          | q :: s3 =>
              if N.eqb q c_dquote then
                let run := count_nonquote s3 in
                match run, skipn run s3 with
                | S _, _ :: _ => Some (8 + w1 + 1 + w2 + 1 + run + 1)
                | _, _ => None
                end
              else None
          | [] => None
          end
        else None
    | [] => None
    end
  else None.

Definition is_brace (c : char) : bool := N.eqb c c_lbrace || N.eqb c c_rbrace.

(** The brace-free run followed by [action_tail], after an opening
    brace.  The run is greedy: the longest run that lets the rest match
    wins.  Returns the number of code units matched. *)
Fixpoint action_body (s : jsstring) : option nat :=
  match s with
  | [] => None
  | c :: r =>
      if is_brace c then None
      else match action_body r with
           | Some n => Some (S n)
           | None => action_tail s
           end
  end.

(** [s.match(/\{[^{}]*'action'\s*:\s*'[^']+'/)], each apostrophe
    standing for a double quote: the leftmost match, as the matched
    text [match[0]]. *)
Fixpoint action_match (s : jsstring) : option jsstring :=
  match s with
  | [] => None
  | c :: r =>
      if N.eqb c c_lbrace then
        match action_body r with
        | Some n => Some (firstn (S n) s)
        | None => action_match r
        end
      else action_match r
  end.

(** The longest prefix of [s] that ends with a closing brace. *)
Fixpoint through_last_rbrace (s : jsstring) : option jsstring :=
  match s with
  | [] => None
  | c :: r =>
      match through_last_rbrace r with
      | Some p => Some (c :: p)
      | None => if N.eqb c c_rbrace then Some [c] else None
      end
  end.

(** [s.match(/\{[\s\S]*\}/)]: from the first opening brace that has a
    closing brace after it to the last closing brace. *)
Fixpoint brace_match (s : jsstring) : option jsstring :=
  match s with
  | [] => None
  | c :: r =>
      if N.eqb c c_lbrace then
        match through_last_rbrace r with
        | Some p => Some (c :: p)
        | None => brace_match r
        end
      else brace_match r
  end.

(* ------------------------------------------------------------------ *)
(** ** llm.js: the command parser                                       *)
(* ------------------------------------------------------------------ *)

(** Lines 228-235: the walk from [start] that counts braces and stops at
    the first position where the depth is zero.  [s] is the text from
    [start] on; the result is the length of the slice handed to
    [JSON.parse]. *)
Fixpoint brace_walk (depth : Z) (len : nat) (s : jsstring) : option nat :=
  match s with
  | [] => None
  | c :: r =>
      let d1 := if N.eqb c c_lbrace then (depth + 1)%Z else depth in
      let d2 := if N.eqb c c_rbrace then (d1 - 1)%Z else d1 in
      if Z.eqb d2 0 then Some (S len) else brace_walk d2 (S len) r
  end.

(** A [try] block of the parser either returns from the function
    ([Some]) or runs to its end ([None]); a [catch] that only falls
    through turns an exception into the latter. *)
Definition fall_through {A : Type} (body : result (option A)) : option A :=
  match body with
  | Return x => x
  | Throw _ => None
  end.

(** Lines 216-220: the whole text as JSON. *)
Definition whole_text_attempt (cleaned : jsstring) : result (option value) :=
  full <- JSON_parse cleaned ;;
  if truthy full && truthy (get full (str "action"))
  then Return (Some full) else Return None.

(** Lines 221-237: an object found anywhere in the text. *)
Definition scan_attempt (cleaned : jsstring) : result (option value) :=
  match action_match cleaned with
  | Some m =>
      match indexOf cleaned m with
      | Some start =>
          match brace_walk 0 0 (skipn start cleaned) with
          | Some n =>
              v <- JSON_parse (firstn n (skipn start cleaned)) ;;
              Return (Some v)
          | None => Return None
          end
      | None =>
          (* indexOf answers -1: the code unit at -1 is undefined,
             the depth is zero at once and the empty slice is parsed *)
          v <- JSON_parse [] ;; Return (Some v)
      end
  | None => Return None
  end.

Definition _parseJsonCommand (text : jsstring) : result (option value) :=
  match text with
  | [] => Return None
  | _ :: _ =>
      let cleaned := strip_fences text in
      match fall_through (whole_text_attempt cleaned) with
      | Some full => Return (Some full)
      | None =>
          match fall_through (scan_attempt cleaned) with
          | Some v => Return (Some v)
          | None => Return None
          end
      end
  end.

(* ------------------------------------------------------------------ *)
(** ** Notions used to state the properties of the parser               *)
(* ------------------------------------------------------------------ *)

Definition all_space (s : jsstring) : bool := forallb is_space s.

(** What follows an opening fence once the fence is consumed. *)
Definition after_fence (r : jsstring) : jsstring :=
  drop_space (skipn (if starts_with_ci (str "json") r then 4 else 0) r).

(** A fenced block opened by three backticks and the word json. *)
Definition fenced_json (w1 w2 t : jsstring) : jsstring :=
  fence ++ str "json" ++ w1 ++ t ++ w2 ++ fence.

(** A fenced block opened by three backticks alone. *)
Definition fenced_plain (w1 w2 t : jsstring) : jsstring :=
  fence ++ w1 ++ t ++ w2 ++ fence.

Definition is_object (v : value) : bool :=
  match v with
  | VObject _ => true
  | _ => false
  end.

(** What the parser does once the text is known not to be empty. *)
Definition after_cleaning (cleaned : jsstring) : result (option value) :=
  match fall_through (whole_text_attempt cleaned) with
  | Some full => Return (Some full)
  | None =>
      match fall_through (scan_attempt cleaned) with
      | Some v => Return (Some v)
      | None => Return None
      end
  end.

Definition no_backtick (s : jsstring) : bool :=
  forallb (fun c => negb (N.eqb c c_backtick)) s.

Definition no_lbrace (s : jsstring) : bool :=
  forallb (fun c => negb (N.eqb c c_lbrace)) s.

(** Prose that the strip and the scan pass over: no backtick and no
    opening brace. *)
Definition plain_prose (p : jsstring) : bool := no_backtick p && no_lbrace p.

(** A command text as the scan recognises it: free of backticks, the
    command pattern matches at its first code unit, and the brace walk
    from there closes at its last code unit. *)
Definition command_text (t : jsstring) : bool :=
  no_backtick t &&
  match t with
  | c :: r =>
      N.eqb c c_lbrace &&
      match action_body r with Some _ => true | None => false end &&
      match brace_walk 0 0 t with
      | Some n => Nat.eqb n (length t)
      | None => false
      end
  | [] => false
  end.

(* ------------------------------------------------------------------ *)
(** ** Effects                                                          *)
(* ------------------------------------------------------------------ *)

Inductive role : Type := System | User | Assistant.

Record message : Type := { msg_role : role; content : jsstring }.

(** One entry of the array that [search] resolves to. *)
Record search_result : Type := { title : value; snippet : value; url : value }.

(** What a run does to the outside, in order.  [EvStep] is the log line
    that opens an iteration of the research loop; a temperature is given
    in tenths.  [EvImagen] is the request to the Imagen endpoint,
    [EvUpload] the request to the image store, [EvImagesGenerate] the
    call of an OpenAI-compatible images API, [EvSleep] a timer and
    [EvFetch] a request to the search endpoint. *)
Inductive event : Type :=
| EvStep (step : nat)
| EvChat (messages : list message) (temperature : Z)
| EvSearch (query : value)
| EvFetchPage (page : value)
| EvImagen (model description : jsstring)
| EvUpload (store : jsstring) (bytes : jsstring)
| EvImagesGenerate (model prompt : jsstring)
| EvSleep (ms : Z)
| EvFetch (query : jsstring) (count : nat).

(** An asynchronous function of the source: the effects it performs and
    the value it resolves to, or the exception it rejects with. *)
Definition io (A : Type) : Type := (list event * result A)%type.

Definition io_ret {A : Type} (a : A) : io A := ([], Return a).

Definition io_bind {A B : Type} (m : io A) (k : A -> io B) : io B :=
  match m with
  | (ev, Return a) => let (ev', r) := k a in (ev ++ ev', r)
  | (ev, Throw e) => (ev, Throw e)
  end.

Definition io_lift {A : Type} (r : result A) : io A := ([], r).

(** [try { body } catch (e) { handler }] around awaited calls. *)
Definition io_try {A : Type} (body : io A) (handler : exn -> io A) : io A :=
  match body with
  | (ev, Return a) => (ev, Return a)
  | (ev, Throw e) => let (ev', r) := handler e in (ev ++ ev', r)
  end.

Definition emit (e : event) : io unit := ([e], Return tt).

Notation "x <-- m ;; k" := (io_bind m (fun x => k))
  (at level 61, m at next level, right associativity).

Definition count_steps (tr : list event) : nat :=
  length (filter (fun e => match e with EvStep _ => true | _ => false end) tr).

Definition count_chats (tr : list event) : nat :=
  length (filter (fun e => match e with EvChat _ _ => true | _ => false end) tr).

Definition is_dispatch (e : event) : bool :=
  match e with
  | EvSearch _ | EvFetchPage _ => true
  | _ => false
  end.

Definition count_dispatches (tr : list event) : nat :=
  length (filter is_dispatch tr).

(* ------------------------------------------------------------------ *)
(** ** llm.js: the research agent                                       *)
(* ------------------------------------------------------------------ *)

(** The [searchTools] object handed to [createLLM]. *)
Record search_tools : Type := {
  search : value -> list search_result;
  fetchPage : value -> jsstring
}.

(** The line of [formatSearchResults] for the result at index [i]; the
    three fields are converted in the order of the template. *)
Definition result_line (number_to_string : jsnum -> jsstring)
  (ir : nat * search_result) : result jsstring :=
  let (i, r) := ir in
  t <- to_string number_to_string (title r) ;;
  s <- to_string number_to_string (snippet r) ;;
  u <- to_string number_to_string (url r) ;;
  Return (nat_to_string (i + 1) ++ str ". [" ++ t ++ str "] " ++ s ++
          [c_newline] ++ str "   URL: " ++ u).

(** search.js, [formatSearchResults]. *)
Definition formatSearchResults (number_to_string : jsnum -> jsstring)
  (results : list search_result) : result jsstring :=
  match results with
  | [] => Return (str "(no results)")
  | _ :: _ =>
      lines <- map_result (result_line number_to_string)
                 (combine (seq 0 (length results)) results) ;;
      Return (join [c_newline] lines)
  end.

Definition RESEARCH_SYSTEM : jsstring :=
  join [c_newline] [
    str "You are a research agent. Browse the web to gather information about a topic.";
    [];
    str "IMPORTANT: Each reply must be EXACTLY one raw JSON object. No markdown, no explanation, no code fences.";
    [];
    str "Available commands:";
    jq "{'action':'search','query':'your search query'}";
    jq "{'action':'read','url':'https://example.com/page'}";
    jq "{'action':'done','summary':'Your findings summarized here'}";
    [];
    str "Workflow:";
    jq "1. Start with a search: {'action':'search','query':'...'}";
    str "2. Read 1-3 promising pages from the results.";
    str "3. Do follow-up searches if needed.";
    jq "4. When ready, finish: {'action':'done','summary':'...'}";
    [];
    str "Keep summaries factual and concise (under 300 words). If the topic is obvious, go straight to done."
  ].

Definition NUDGE : jsstring :=
  jq "Please reply with ONLY a raw JSON object. Example: {'action':'search','query':'your query here'}".

Definition FORCING : jsstring :=
  str "You've reached the research step limit. Please respond with a DONE action and your summary now.".

Definition NEXT_COMMAND : jsstring :=
  [c_newline; c_newline] ++ str "Respond with your next JSON command.".

Definition push (messages : list message) (r : role) (text : jsstring)
  : list message :=
  messages ++ [{| msg_role := r; content := text |}].

(** How an iteration of the research loop ends. *)
Inductive step_outcome : Type :=
| StepReturn (summary : jsstring)
| StepNext (messages : list message)
| StepBreak (messages : list message).

(** [!cmd || !cmd.action], line 274. *)
Definition no_valid_command (cmd : option value) : bool :=
  match cmd with
  | None => true
  | Some c => negb (truthy c) || negb (truthy (get c (str "action")))
  end.

(** One survey choice. *)
Record survey_option : Type := { key : jsstring; label : jsstring }.

Record survey : Type := { survey_title : jsstring; survey_question : jsstring }.

(** What [suggestOption] resolves to.  [wantsImage] is the value of
    [canGenerateImages && !!parsed.wantsImage]: a boolean, or whatever
    falsy value [canGenerateImages] is. *)
Record suggestion : Type := {
  suggestion_label : jsstring;
  wantsImage : value;
  imageDescription : jsstring
}.

Inductive image_backend : Type :=
| OpenaiCompat
| AnthropicRefine
| GeminiNative.

(** An entry of [PROVIDERS], lines 31-60. *)
Record preset : Type := {
  baseURL : jsstring;
  chatModel : jsstring;
  imageModel : jsstring;
  supportsImages : bool;
  imageBackend : image_backend
}.

Definition preset_openai : preset :=
  {| baseURL := str "https://api.openai.com/v1";
     chatModel := str "gpt-4o";
     imageModel := str "dall-e-3";
     supportsImages := true;
     imageBackend := OpenaiCompat |}.

Definition preset_anthropic : preset :=
  {| baseURL := str "https://api.anthropic.com/v1";
     chatModel := str "claude-sonnet-4-20250514";
     imageModel := str "dall-e-3";
     supportsImages := true;
     imageBackend := AnthropicRefine |}.

Definition preset_gemini : preset :=
  {| baseURL := str "https://generativelanguage.googleapis.com/v1beta/openai";
     chatModel := str "gemini-2.0-flash";
     imageModel := str "imagen-3.0-generate-002";
     supportsImages := true;
     imageBackend := GeminiNative |}.

Definition preset_grok : preset :=
  {| baseURL := str "https://api.x.ai/v1";
     chatModel := str "grok-3-mini";
     imageModel := str "grok-2-image";
     supportsImages := true;
     imageBackend := OpenaiCompat |}.

(** What reading a name off the table gives: an entry of the table, a
    member of [Object.prototype] (the table is a plain object), or
    [undefined]. *)
Inductive table_member : Type :=
| Entry (p : preset)
| Builtin
| NoMember.

(** [PROVIDERS[id]]. *)
Definition PROVIDERS (id : jsstring) : table_member :=
  if string_eqb id (str "openai") then Entry preset_openai
  else if string_eqb id (str "anthropic") then Entry preset_anthropic
  else if string_eqb id (str "gemini") then Entry preset_gemini
  else if string_eqb id (str "grok") then Entry preset_grok
  else if inherited_name id then Builtin
  else NoMember.

(** [PROVIDERS[id] || PROVIDERS.openai]: a built-in is truthy and is
    kept; [None] stands for it, since it has none of the five fields. *)
Definition preset_or_openai (id : jsstring) : option preset :=
  match PROVIDERS id with
  | Entry p => Some p
  | Builtin => None
  | NoMember => Some preset_openai
  end.

(** The fields as the source reads them off [PROVIDERS[id] ||
    PROVIDERS.openai]; an absent string is the empty string. *)
Definition preset_baseURL (e : option preset) : jsstring :=
  match e with Some p => baseURL p | None => [] end.

Definition preset_imageModel (e : option preset) : jsstring :=
  match e with Some p => imageModel p | None => [] end.

Definition preset_supportsImages (e : option preset) : value :=
  match e with Some p => VBool (supportsImages p) | None => VUndefined end.

(** [preset.imageBackend || 'openai-compat']. *)
Definition preset_imageBackend (e : option preset) : image_backend :=
  match e with Some p => imageBackend p | None => OpenaiCompat end.

(** [a || b] on strings. *)
Definition or_string (a b : jsstring) : jsstring :=
  match a with
  | [] => b
  | _ :: _ => a
  end.

Definition nonempty (s : jsstring) : bool :=
  match s with
  | [] => false
  | _ :: _ => true
  end.

(** An HTTP response as the code reads it: the status, and what
    [text()] and [json()] resolve to. *)
Record response : Type := {
  status : nat;
  body_text : result jsstring;
  body_json : result value
}.

(** [resp.ok]. *)
Definition ok (r : response) : bool :=
  Nat.leb 200 (status r) && Nat.leb (status r) 299.

(** A client of the OpenAI SDK: the key and the endpoint it was built
    with. *)
Record client : Type := { client_key : jsstring; client_url : jsstring }.

(** [v[0]]. *)
Definition get_index0 (v : value) : result value :=
  match v with
  | VUndefined | VNull => Throw TypeError
  | VArray (x :: _) => Return x
  | VString (c :: _) => Return (VString [c])
  | VObject ms =>
      Return (match lookup (str "0") ms with Some x => x | None => VUndefined end)
  | _ => Return VUndefined
  end.

(** [v?.[0]]. *)
Definition get_index0_optional (v : value) : value :=
  match get_index0 v with
  | Return x => x
  | Throw _ => VUndefined
  end.

Definition is_quote_char (c : char) : bool :=
  N.eqb c c_squote || N.eqb c c_dquote || N.eqb c c_backtick.

Section CreateLLM.

(** The chat endpoint behind the client: what
    [chat.completions.create] resolves to for a conversation and a
    temperature, or the exception it rejects with. *)
Variable completions_create : list message -> Z -> result value.

(** [dateContext()], a sentence that depends on the clock only. *)
Variable dateContext : jsstring.

Variable number_to_string : jsnum -> jsstring.

(** The text of the built-in function that [Object.prototype] holds
    under a name, as a template literal prints it. *)
Variable builtin_text : jsstring -> jsstring.

Variable lower_unicode : jsstring -> jsstring.

Variable searchTools : option search_tools.
Variable maxResearchSteps : nat.

Definition String_ (v : value) : result jsstring := to_string number_to_string v.

(** [(resp.choices[0].message.content || '').trim()], lines 170 and
    179: a response without a first choice or without a message is a
    TypeError, and so is a content that is truthy and not a string. *)
Definition first_content (resp : value) : result jsstring :=
  choices <- get_checked resp (str "choices") ;;
  first <- get_index0 choices ;;
  message <- get_checked first (str "message") ;;
  content <- get_checked message (str "content") ;;
  match js_or content (VString []) with
  | VString s => Return (trim s)
  | _ => Throw TypeError
  end.

(** What the request of a completion comes to: the trimmed content of
    the first choice, or the exception of the request or of its
    reading. *)
Definition ask (messages : list message) (temperature : Z) : result jsstring :=
  resp <- completions_create messages temperature ;;
  first_content resp.

(** Lines 173-180. *)
Definition chatMultiTurn (messages : list message) (temperature : Z)
  : io jsstring :=
  _ <-- emit (EvChat messages temperature) ;;
  io_lift (ask messages temperature).

(** Lines 161-171. *)
Definition chat (systemPrompt userPrompt : jsstring) (temperature : Z)
  : io jsstring :=
  chatMultiTurn [{| msg_role := System; content := systemPrompt |};
                 {| msg_role := User; content := userPrompt |}] temperature.

(** Lines 255-272: one completion, and at step 0 a second one after a
    nudge when the first reply holds no command.  Resolves to the reply
    the loop goes on with, the conversation and the command. *)
Definition research_ask (step : nat) (messages : list message)
  : io (jsstring * list message * option value) :=
  response <-- chatMultiTurn messages 3 ;;
  let messages1 := push messages Assistant response in
  cmd <-- io_lift (_parseJsonCommand response) ;;
  if match cmd with None => true | Some c => negb (truthy c) end
     && Nat.eqb step 0
  then
    let messages2 := push messages1 User NUDGE in
    response2 <-- chatMultiTurn messages2 2 ;;
    let messages3 := push messages2 Assistant response2 in
    cmd2 <-- io_lift (_parseJsonCommand response2) ;;
    io_ret (response2, messages3, cmd2)
  else io_ret (response, messages1, cmd).

(** Lines 279-282: the log line prints the length of the summary, then
    the summary (or the reply) is converted and cut. *)
Definition research_done (c : value) (response : jsstring) : result jsstring :=
  len <- get_length (js_or (get c (str "summary")) (VString [])) ;;
  _ <- String_ len ;;
  summary <- String_ (js_or (get c (str "summary")) (VString response)) ;;
  Return (slice0 1500 summary).

(** Lines 284-291: the log line prints the query before the search. *)
Definition research_search (tools : search_tools) (topic : jsstring)
  (messages : list message) (c : value) : io step_outcome :=
  queryText <-- io_lift (String_ (get c (str "query"))) ;;
  let query := js_or (get c (str "query")) (VString topic) in
  _ <-- emit (EvSearch query) ;;
  formatted <-- io_lift (formatSearchResults number_to_string (search tools query)) ;;
  io_ret (StepNext
            (push messages User
               (str "Search results for " ++ [c_dquote] ++ queryText ++
                [c_dquote] ++ str ":" ++ [c_newline; c_newline] ++
                formatted ++ NEXT_COMMAND))).

(** Lines 292-298: the log line slices the address and prints the
    slice before the page is fetched; the whole address is printed
    after it. *)
Definition research_read (tools : search_tools) (messages : list message)
  (c : value) : io step_outcome :=
  let page := js_or (get c (str "url")) (VString []) in
  shown <-- io_lift (slice_value 60 page) ;;
  _ <-- io_lift (String_ shown) ;;
  _ <-- emit (EvFetchPage page) ;;
  let content := fetchPage tools page in
  urlText <-- io_lift (String_ (get c (str "url"))) ;;
  io_ret (StepNext
            (push messages User
               (str "Page content from " ++ urlText ++ str ":" ++
                [c_newline; c_newline] ++ content ++ NEXT_COMMAND))).

(** Lines 274-302: what the loop does with the command. *)
Definition research_dispatch (tools : search_tools) (topic : jsstring)
  (response : jsstring) (messages : list message) (cmd : option value)
  : io step_outcome :=
  match cmd with
  | None => io_ret (StepReturn (slice0 1500 response))
  | Some c =>
      if no_valid_command cmd then io_ret (StepReturn (slice0 1500 response))
      else if is_string (get c (str "action")) (str "done") then
        summary <-- io_lift (research_done c response) ;;
        io_ret (StepReturn summary)
      else if is_string (get c (str "action")) (str "search") then
        research_search tools topic messages c
      else if is_string (get c (str "action")) (str "read") then
        research_read tools messages c
      else
        (* line 300: the log line prints the action before the break *)
        _ <-- io_lift (String_ (get c (str "action"))) ;;
        io_ret (StepBreak messages)
  end.

(** The body of the loop, lines 252-302. *)
Definition research_step (tools : search_tools) (topic : jsstring)
  (step : nat) (messages : list message) : io step_outcome :=
  _ <-- emit (EvStep step) ;;
  asked <-- research_ask step messages ;;
  let '(response, messages', cmd) := asked in
  research_dispatch tools topic response messages' cmd.

(** Lines 311-316: the summary read off the last reply; a reply
    without an object that parses and holds a summary that converts is
    returned itself. *)
Definition forced_summary (finalResp : jsstring) : jsstring :=
  let attempt : result (option jsstring) :=
    cmd <- match brace_match finalResp with
           | Some m => JSON_parse m
           | None => Return VNull
           end ;;
    if truthy cmd && truthy (get cmd (str "summary"))
    then
      summary <- String_ (get cmd (str "summary")) ;;
      Return (Some (slice0 1500 summary))
    else Return None in
  match fall_through attempt with
  | Some summary => summary
  | None => slice0 1500 finalResp
  end.

(** Lines 305-316: the forcing instruction and the last completion. *)
Definition research_finish (messages : list message) : io jsstring :=
  let messages' := push messages User FORCING in
  finalResp <-- chatMultiTurn messages' 3 ;;
  io_ret (forced_summary finalResp).

(** The loop of line 251; [remaining] is [maxResearchSteps - step]. *)
Fixpoint research_loop (tools : search_tools) (topic : jsstring)
  (remaining step : nat) (messages : list message) : io jsstring :=
  match remaining with
  | 0 => research_finish messages
  | S remaining' =>
      out <-- research_step tools topic step messages ;;
      match out with
      | StepReturn summary => io_ret summary
      | StepBreak messages' => research_finish messages'
      | StepNext messages' =>
          research_loop tools topic remaining' (S step) messages'
      end
  end.

(** The two messages a research run starts from, lines 246-249. *)
Definition research_opening (topic : jsstring) : list message :=
  [{| msg_role := System;
      content := RESEARCH_SYSTEM ++ [c_newline; c_newline] ++ dateContext |};
   {| msg_role := User;
      content := str "Research this topic thoroughly:" ++
                 [c_newline; c_newline] ++ topic |}].

Definition research (topic : jsstring) : io jsstring :=
  match searchTools with
  | None => io_ret []
  | Some tools =>
      research_loop tools topic maxResearchSteps 0 (research_opening topic)
  end.

(* ---- configuration, lines 66-120 ---- *)

(** The arguments of [createLLM]; an absent string is the empty string,
    which the source treats alike.  [provider] is the argument after its
    default ([openai]) has been applied, and [apiKey] is not empty in a
    constructed wrapper (line 82 throws otherwise); no property below
    needs either fact. *)
Variable provider : jsstring.
Variable apiKey : jsstring.
Variable baseURL_arg : jsstring.
Variable imageProvider : jsstring.
Variable imageApiKey : jsstring.
Variable imageBaseURL : jsstring.
Variable imageModel_arg : jsstring.
Variable imageStoreURL : jsstring.

(** Lines 85-88: the chat client.  An empty address stands for an
    absent one, which the SDK replaces by its own default. *)
Definition chatClient : client :=
  {| client_key := apiKey;
     client_url := or_string baseURL_arg
                     (preset_baseURL (preset_or_openai provider)) |}.

Definition imgProvider : jsstring := or_string imageProvider provider.
Definition imgPreset : option preset := preset_or_openai imgProvider.
Definition imgApiKey : jsstring := or_string imageApiKey apiKey.
Definition imgBaseURL : jsstring :=
  or_string imageBaseURL (preset_baseURL imgPreset).
Definition imgModel : jsstring :=
  or_string imageModel_arg (preset_imageModel imgPreset).
Definition imgBackend : image_backend := preset_imageBackend imgPreset.

(** Line 97: [imgPreset.supportsImages && !!imgModel]. *)
Definition canGenerateImages : value :=
  js_and (preset_supportsImages imgPreset) (VBool (nonempty imgModel)).

(** Lines 99-109. *)
Definition renderProvider : jsstring :=
  if nonempty imageProvider && negb (string_eqb imageProvider (str "anthropic"))
  then imageProvider else str "openai".

Definition renderModel : jsstring :=
  or_string imageModel_arg
    (or_string (preset_imageModel (preset_or_openai renderProvider))
       (str "dall-e-3")).

Definition renderClient : option client :=
  match imgBackend with
  | AnthropicRefine =>
      Some {| client_key := or_string imageApiKey apiKey;
              client_url := or_string imageBaseURL
                              (preset_baseURL (preset_or_openai renderProvider)) |}
  | _ => None
  end.

(** Lines 111-118. *)
Definition imgClient : option client :=
  match imgBackend with
  | OpenaiCompat =>
      if truthy canGenerateImages then
        if string_eqb imgProvider provider && string_eqb imgApiKey apiKey
        then Some chatClient
        else Some {| client_key := imgApiKey; client_url := imgBaseURL |}
      else None
  | _ => None
  end.

(* ---- chooseVote, lines 323-383 ---- *)

(** [counts[k] || 0] in the template of line 327.  [counts] is a plain
    object, given by its own members: a key without a member of its own
    reads the member of [Object.prototype] of that name when there is
    one, which is a function (or, under the name __proto__, the
    prototype itself) and is printed in place of the count. *)
Definition count_text (counts : list (jsstring * value)) (k : jsstring)
  : result jsstring :=
  match lookup k counts with
  | Some v => if truthy v then String_ v else Return (str "0")
  | None =>
      if inherited_name k then
        Return (if string_eqb k (str "__proto__") then str "[object Object]"
                else builtin_text k)
      else Return (str "0")
  end.

Definition quoted (s : jsstring) : jsstring := [c_dquote] ++ s ++ [c_dquote].

(** The line of an option in the prompt, line 327. *)
Definition vote_line (counts : list (jsstring * value)) (o : survey_option)
  : result jsstring :=
  c <- count_text counts (key o) ;;
  Return (str "- " ++ quoted (label o) ++ str " (key: " ++ key o ++
          str ", current votes: " ++ c ++ str ")").

(** Lines 324-329. *)
Definition vote_option_list (options : list survey_option)
  (counts : list (jsstring * value)) : result jsstring :=
  lines <- map_result (vote_line counts) options ;;
  Return (join [c_newline] lines).

(** Line 364: the reply trimmed, its quote characters removed. *)
Definition vote_key (response : jsstring) : jsstring :=
  filter (fun c => negb (is_quote_char c)) (trim response).

Definition lower (s : jsstring) : jsstring := toLowerCase lower_unicode s.

(** Lines 364-382: the recovery ladder on the reply. *)
Definition recover_vote (options : list survey_option) (response : jsstring)
  : option jsstring :=
  let k := vote_key response in
  match find (fun o => string_eqb (key o) k) options with
  | Some _ => Some k
  | None =>
      let lowered := lower k in
      match find (fun o => string_eqb (lower (label o)) lowered ||
                           string_eqb (lower (key o)) lowered) options with
      | Some byLabel => Some (key byLabel)
      | None =>
          match find (fun o => includes lowered (lower (key o)) ||
                               includes lowered (lower (label o))) options with
          | Some bySub => Some (key bySub)
          | None =>
              match options with
              | o :: _ => if nonempty (key o) then Some (key o) else None
              | [] => None
              end
          end
      end
  end.

Definition research_block (researchSummary : jsstring) : jsstring :=
  match researchSummary with
  | [] => []
  | _ :: _ =>
      [c_newline; c_newline] ++ str "Your research findings:" ++ [c_newline] ++
      researchSummary ++ [c_newline]
  end.


Definition vote_topic (s : survey) (options : list survey_option) : jsstring :=
  str "Survey: " ++ quoted (survey_title s) ++ [c_newline] ++
  str "Question: " ++ quoted (survey_question s) ++ [c_newline] ++
  str "Options: " ++ join (str ", ") (map label options) ++
  [c_newline; c_newline] ++
  str "Research these options to decide which is the best answer. " ++
  str "Look for current information, comparisons, and expert opinions.".

Definition vote_system : jsstring :=
  join (str " ") [
    dateContext;
    str "You are a thoughtful, independent-minded participant in a survey.";
    str "Pick the option you genuinely believe is the best answer to the question.";
    str "Do not just follow the crowd " ++ [8212%N] ++
      str " vote for what you think is right.";
    str "Use your research findings to make an informed decision.";
    str "Reply with ONLY the option key (the exact string), nothing else."
  ].

Definition vote_user (s : survey) (optionList researchSummary : jsstring)
  : jsstring :=
  join [c_newline] [
    str "Survey: " ++ quoted (survey_title s);
    str "Question: " ++ quoted (survey_question s);
    [];
    str "Options:";
    optionList;
    research_block researchSummary;
    str "Reply with the key of the option you vote for."
  ].

Definition chooseVote (s : survey) (options : list survey_option)
  (counts : list (jsstring * value)) : io (option jsstring) :=
  optionList <-- io_lift (vote_option_list options counts) ;;
  researchSummary <-- research (vote_topic s options) ;;
  response <-- chat vote_system (vote_user s optionList researchSummary) 5 ;;
  io_ret (recover_vote options response).

(* ---- suggestOption, lines 389-462 ---- *)

Definition suggest_topic (s : survey) (existingOptions : list survey_option)
  : jsstring :=
  str "Survey: " ++ quoted (survey_title s) ++ [c_newline] ++
  str "Question: " ++ quoted (survey_question s) ++ [c_newline] ++
  str "Existing options: " ++
  or_string (join (str ", ") (map label existingOptions)) (str "(none)") ++
  [c_newline; c_newline] ++
  str "Research this topic to come up with a great new option that isn't already listed. " ++
  str "Look for current trends, overlooked answers, and strong candidates. " ++
  str "If you find a relevant article or source, note its URL.".

Definition suggest_system : jsstring :=
  join [c_newline] [
    dateContext;
    str "You are a creative participant in a survey.";
    str "Suggest ONE new option that is not already covered by the existing options.";
    str "The option should be reasonable and add value.";
    str "Use your research to suggest something well-informed and current.";
    [];
    str "You can include a URL in your option label to link to a relevant source,";
    str "article, or reference. Just append it to the label text, e.g.:";
    str "  " ++ quoted (str "Label text https://example.com/article");
    str "The URL will be rendered as a clickable link. Only include a URL if it";
    str "adds genuine value (a source, reference, or relevant page). Don't force it.";
    [];
    str "Set wantsImage to true ONLY if the survey question explicitly asks for";
    str "an image, meme, drawing, visual, logo, or artwork.";
    str "For regular text-based surveys (opinions, preferences, rankings, etc.),";
    str "ALWAYS set wantsImage to false.";
    [];
    str "Reply ONLY with a JSON object in this exact format:";
    jq "{'label': 'Your option text https://optional-source-url.com', 'wantsImage': true, 'imageDescription': 'A brief description for image generation'}";
    str "If no image is needed, set wantsImage to false and imageDescription to an empty string."
  ].

Definition suggest_user (s : survey) (existingOptions : list survey_option)
  (researchSummary : jsstring) : jsstring :=
  join [c_newline] [
    str "Survey: " ++ quoted (survey_title s);
    str "Question: " ++ quoted (survey_question s);
    [];
    str "Existing options:";
    or_string
      (join [c_newline] (map (fun o => str "- " ++ quoted (label o)) existingOptions))
      (str "(none yet)");
    research_block researchSummary;
    str "Suggest a new option."
  ].

(** Lines 443-461: the suggestion read off the reply. *)
Definition read_suggestion (response : jsstring) : suggestion :=
  let attempt : result (option suggestion) :=
    match brace_match response with
    | Some m =>
        parsed <- JSON_parse m ;;
        l <- get_checked parsed (str "label") ;;
        labelText <- String_ (js_or l (VString [])) ;;
        descriptionText <-
          String_ (js_or (get parsed (str "imageDescription")) (VString [])) ;;
        Return (Some
          {| suggestion_label := slice0 200 (trim labelText);
             wantsImage :=
               js_and canGenerateImages
                 (VBool (truthy (get parsed (str "wantsImage"))));
             imageDescription := trim descriptionText |})
    | None => Return None
    end in
  match fall_through attempt with
  | Some s => s
  | None =>
      {| suggestion_label := slice0 200 response;
         wantsImage := VBool false;
         imageDescription := [] |}
  end.

Definition suggestOption (s : survey) (existingOptions : list survey_option)
  : io suggestion :=
  researchSummary <-- research (suggest_topic s existingOptions) ;;
  response <-- chat suggest_system (suggest_user s existingOptions researchSummary) 7 ;;
  io_ret (read_suggestion response).

(* ---- generateImage, lines 468-573 ---- *)

(** The network behind the image backends: a request resolves to a
    response or rejects. *)
Variable imagen_fetch : jsstring -> jsstring -> jsstring -> result response.
Variable store_fetch : jsstring -> jsstring -> result response.
Variable images_generate : client -> jsstring -> jsstring -> result value.

(** [Buffer.from(b64, 'base64')], which rejects some arguments. *)
Variable Buffer_from : value -> result jsstring.

(** Lines 487-500; an absent [client] is [None], an absent [model] the
    empty string.  The log line of line 498 slices a truthy address and
    prints the slice. *)
Definition _generateImageOpenAICompat (description : jsstring)
  (client_arg : option client) (model_arg : jsstring) : io value :=
  let c := match client_arg with Some c => Some c | None => imgClient end in
  let m := or_string model_arg imgModel in
  match c with
  | None => io_ret VNull
  | Some c =>
      _ <-- emit (EvImagesGenerate m description) ;;
      resp <-- io_lift (images_generate c m description) ;;
      data <-- io_lift (get_checked resp (str "data")) ;;
      first <-- io_lift (get_index0 data) ;;
      let address := js_or (get_optional first (str "url")) VNull in
      if truthy address then
        shown <-- io_lift (slice_value 80 address) ;;
        _ <-- io_lift (String_ shown) ;;
        io_ret address
      else io_ret address
  end.

(** Lines 502-548. *)
Definition _generateImageGemini (description : jsstring) : io value :=
  _ <-- emit (EvImagen imgModel description) ;;
  resp <-- io_lift (imagen_fetch imgModel imgApiKey description) ;;
  if negb (ok resp) then
    let body := match body_text resp with Return b => b | Throw _ => [] end in
    io_lift (Throw (Error (str "Imagen API " ++ nat_to_string (status resp) ++
                           str ": " ++ slice0 200 body)))
  else
    data <-- io_lift (body_json resp) ;;
    predictions <-- io_lift (get_checked data (str "predictions")) ;;
    let b64 :=
      get_optional (get_index0_optional predictions) (str "bytesBase64Encoded") in
    if negb (truthy b64) then io_ret VNull
    else if negb (nonempty imageStoreURL) then io_ret VNull
    else
      buf <-- io_lift (Buffer_from b64) ;;
      _ <-- emit (EvUpload imageStoreURL buf) ;;
      uploadResp <-- io_lift (store_fetch imageStoreURL buf) ;;
      if negb (ok uploadResp) then
        io_lift (Throw (Error (str "Image store upload failed: " ++
                               nat_to_string (status uploadResp))))
      else
        body <-- io_lift (body_json uploadResp) ;;
        u <-- io_lift (get_checked body (str "url")) ;;
        (* line 546: the log line prints the address *)
        _ <-- io_lift (String_ u) ;;
        io_ret u.

Definition refine_system : jsstring :=
  join [c_newline] [
    str "You are Claude, an AI with a distinctive aesthetic sensibility.";
    str "Your task: take the image description below and reimagine it as a";
    str "detailed, evocative image generation prompt in YOUR OWN creative voice.";
    str "Add artistic details, mood, composition, and style choices that reflect";
    str "your unique perspective. The result should feel distinctly Claude-like " ++
      [8212%N];
    str "thoughtful, nuanced, and aesthetically refined.";
    [];
    str "Reply with ONLY the refined prompt text, nothing else. Keep it under 200 words."
  ].

(** Lines 550-573. *)
Definition _generateImageClaudeRefine (description : jsstring) : io value :=
  refinedPrompt <-- chat refine_system
                      (str "Original description: " ++ quoted description) 9 ;;
  match renderClient with
  | None => io_ret VNull
  | Some rc => _generateImageOpenAICompat refinedPrompt (Some rc) renderModel
  end.

(** Lines 474-480: the body of the [try]. *)
Definition image_backend_call (description : jsstring) : io value :=
  match imgBackend with
  | GeminiNative => _generateImageGemini description
  | AnthropicRefine => _generateImageClaudeRefine description
  | OpenaiCompat => _generateImageOpenAICompat description None []
  end.

(** Lines 468-485. *)
Definition generateImage (description : jsstring) : io value :=
  if negb (truthy canGenerateImages) then io_ret VNull
  else io_try (image_backend_call description) (fun _ => io_ret VNull).

End CreateLLM.

(* ------------------------------------------------------------------ *)
(** ** search.js                                                        *)
(* ------------------------------------------------------------------ *)

Definition MAX_RETRIES : nat := 3.
Definition BASE_DELAY_MS : Z := 1200.
Definition MAX_QUERY_LEN : nat := 300.

(** The pattern [https?:\/\/\S+] under the flags [gi]. *)
Definition url_at (s : jsstring) : option nat :=
  if starts_with_ci (str "http") s then
    let after (k : nat) (r : jsstring) : option nat :=
      if starts_with (str "://") r then
        match count_nonspace (skipn 3 r) with
        | 0 => None
        | S n => Some (4 + k + 3 + S n)
        end
      else None in
    match skipn 4 s with
    | c :: r => if ci_eq 115%N c then after 1 r else after 0 (c :: r)
    | [] => None
    end
  else None.

(** The negated class of line 332: every code unit that is not a word
    character, white space, a hyphen, an apostrophe, a double quote, a
    comma, a question mark or an exclamation mark becomes a space. *)
Definition query_char (c : char) : char :=
  if is_word c || is_space c || N.eqb c c_minus || N.eqb c c_squote ||
     N.eqb c c_dquote || N.eqb c c_comma || N.eqb c 63 || N.eqb c 33
  then c else 32%N.

(** The pattern [\s{2,}]. *)
Definition spaces_at (s : jsstring) : option nat :=
  match count_space s with
  | S (S n) => Some (S (S n))
  | _ => None
  end.

(** Lines 329-336.  Anything but a string has no [replace] method. *)
Definition sanitizeQuery (raw : value) : result jsstring :=
  match raw with
  | VString s =>
      Return (slice0 MAX_QUERY_LEN
                (trim (replace_all spaces_at [32%N] 0
                         (map query_char (replace_all url_at [] 0 s)))))
  | _ => Throw TypeError
  end.

(** Lines 374-381: the results read off the response body. *)
Definition brave_results (maxResults : nat) (data : value)
  : result (list search_result) :=
  web <- get_checked data (str "web") ;;
  match js_or (get_optional web (str "results")) (VArray []) with
  | VArray items =>
      map_result
        (fun r =>
           t <- get_checked r (str "title") ;;
           Return {| title := js_or t (VString []);
                     snippet := js_or (get r (str "description")) (VString []);
                     url := js_or (get r (str "url")) (VString []) |})
        (firstn maxResults items)
  | _ => Throw TypeError
  end.

Section Search.

(** The search endpoint: what the request of a given attempt resolves
    to, or the exception it rejects with. *)
Variable brave_fetch : nat -> result response.

Variable apiKey : jsstring.
Variable maxResults : nat.

(** The loop of lines 350-382; [remaining] is [MAX_RETRIES + 1 -
    attempt]. *)
Fixpoint brave_attempts (cleaned : jsstring) (remaining attempt : nat)
  : io (list search_result) :=
  match remaining with
  | 0 => io_ret []
  | S remaining' =>
      _ <-- (if Nat.ltb 0 attempt
             then emit (EvSleep (BASE_DELAY_MS * 2 ^ Z.of_nat (attempt - 1)))
             else io_ret tt) ;;
      _ <-- emit (EvFetch cleaned maxResults) ;;
      resp <-- io_lift (brave_fetch attempt) ;;
      if Nat.eqb (status resp) 429 && Nat.ltb attempt MAX_RETRIES
      then brave_attempts cleaned remaining' (S attempt)
      else if negb (ok resp) then io_ret []
      else
        data <-- io_lift (body_json resp) ;;
        io_lift (brave_results maxResults data)
  end.

(** Lines 342-385. *)
Definition braveSearch (query : value) : io (list search_result) :=
  if negb (nonempty apiKey) then io_ret []
  else
    cleaned <-- io_lift (sanitizeQuery query) ;;
    if negb (nonempty cleaned) then io_ret []
    else brave_attempts cleaned (MAX_RETRIES + 1) 0.

(** Lines 443-447: the delay a call asks for when it starts running at
    [now]. *)
Definition pacing_delay (lastSearchMs now : Z) : option Z :=
  let elapsed := (now - lastSearchMs)%Z in
  if Z.ltb elapsed BASE_DELAY_MS then Some (BASE_DELAY_MS - elapsed)%Z else None.

(** Lines 441-454, for a call that starts running at [now] with the
    shared time stamp [lastSearchMs]. *)
Definition search_ (lastSearchMs now : Z) (query : value)
  : io (list search_result) :=
  io_try
    (_ <-- match pacing_delay lastSearchMs now with
           | Some d => emit (EvSleep d)
           | None => io_ret tt
           end ;;
     braveSearch query)
    (fun _ => io_ret []).

End Search.

(* ------------------------------------------------------------------ *)
(** ** search.js: pacing over time                                      *)
(* ------------------------------------------------------------------ *)

(** A call of [search] runs in two turns of the event loop when it has
    to wait: the first reads the clock and the shared time stamp and
    starts the timer, the second, after the timer, writes the time
    stamp and starts the request.  A call that need not wait does both
    in one turn. *)
Inductive turn : Type :=
| Enter (caller : nat) (now : Z)
| Resume (caller : nat) (now : Z).

Record pacer : Type := {
  lastSearchMs : Z;
  sleeping : list (nat * Z);
  begun : list (nat * Z)
}.

(** The state of a fresh [createSearchTools] instance, line 439. *)
Definition pacer_init : pacer :=
  {| lastSearchMs := 0; sleeping := []; begun := [] |}.

Definition turn_time (t : turn) : Z :=
  match t with
  | Enter _ now | Resume _ now => now
  end.

(** One turn.  The request of a caller begins when line 448 stamps the
    clock; [begun] lists the callers with the time their request began,
    [sleeping] the callers whose timer is running with the time it is
    due. *)
Definition pace (p : pacer) (t : turn) : pacer :=
  match t with
  | Enter c now =>
      match pacing_delay (lastSearchMs p) now with
      | Some d =>
          {| lastSearchMs := lastSearchMs p;
             sleeping := sleeping p ++ [(c, (now + d)%Z)];
             begun := begun p |}
      | None =>
          {| lastSearchMs := now;
             sleeping := sleeping p;
             begun := begun p ++ [(c, now)] |}
      end
  | Resume c now =>
      {| lastSearchMs := now;
         sleeping := filter (fun s => negb (Nat.eqb (fst s) c)) (sleeping p);
         begun := begun p ++ [(c, now)] |}
  end.

Definition run_turns (ts : list turn) : pacer := fold_left pace ts pacer_init.

(** A turn can happen: a caller resumes only when its timer is due, and
    is not entered twice while it sleeps. *)
Definition turn_ok (p : pacer) (t : turn) : bool :=
  match t with
  | Enter c _ => negb (existsb (fun s => Nat.eqb (fst s) c) (sleeping p))
  | Resume c now =>
      existsb (fun s => Nat.eqb (fst s) c && Z.leb (snd s) now) (sleeping p)
  end.

(** A schedule the event loop can produce: the clock does not run
    backwards and every turn can happen. *)
Fixpoint schedule_ok (p : pacer) (clock : Z) (ts : list turn) : bool :=
  match ts with
  | [] => true
  | t :: rest =>
      Z.leb clock (turn_time t) && turn_ok p t &&
      schedule_ok (pace p t) (turn_time t) rest
  end.

(** No caller starts while another one sleeps: the calls are awaited
    one after the other. *)
Fixpoint sequential (p : pacer) (ts : list turn) : bool :=
  match ts with
  | [] => true
  | t :: rest =>
      match t with
      | Enter _ _ => match sleeping p with [] => true | _ :: _ => false end
      | Resume _ _ => true
      end && sequential (pace p t) rest
  end.

(** Any two requests begin at least [BASE_DELAY_MS] apart. *)
Fixpoint spaced (starts : list (nat * Z)) : bool :=
  match starts with
  | [] => true
  | (_, t) :: rest =>
      forallb (fun s => Z.leb (t + BASE_DELAY_MS) (snd s)) rest && spaced rest
  end.

(* ------------------------------------------------------------------ *)
(** ** Notions used to state the properties of the agent                *)
(* ------------------------------------------------------------------ *)

(** An object with a member named action. *)
Definition has_action (v : value) : bool :=
  match v with
  | VObject ms =>
      match lookup (str "action") ms with
      | Some _ => true
      | None => false
      end
  | _ => false
  end.

(** The three tests of the ladder of [chooseVote], on one option. *)
Definition exact_key (k : jsstring) (o : survey_option) : bool :=
  string_eqb (key o) k.

Section Ladder.

Variable lower_unicode : jsstring -> jsstring.

Definition same_ignoring_case (k : jsstring) (o : survey_option) : bool :=
  string_eqb (toLowerCase lower_unicode (label o)) (toLowerCase lower_unicode k) ||
  string_eqb (toLowerCase lower_unicode (key o)) (toLowerCase lower_unicode k).

Definition contained (k : jsstring) (o : survey_option) : bool :=
  includes (toLowerCase lower_unicode k) (toLowerCase lower_unicode (key o)) ||
  includes (toLowerCase lower_unicode k) (toLowerCase lower_unicode (label o)).

(** The same two tests as the claim words them: the lower-case forms
    are equal; the lower-case form of the reply holds that of the key
    or of the label somewhere. *)
Definition equal_up_to_case (k : jsstring) (o : survey_option) : Prop :=
  toLowerCase lower_unicode (label o) = toLowerCase lower_unicode k \/
  toLowerCase lower_unicode (key o) = toLowerCase lower_unicode k.

Definition holds_up_to_case (k : jsstring) (o : survey_option) : Prop :=
  (exists a b, toLowerCase lower_unicode k =
               a ++ toLowerCase lower_unicode (key o) ++ b) \/
  (exists a b, toLowerCase lower_unicode k =
               a ++ toLowerCase lower_unicode (label o) ++ b).

End Ladder.

(** [x] is the first element of [l] with the property [P]. *)
Definition first_such {A : Type} (P : A -> Prop) (l : list A) (x : A) : Prop :=
  exists pre post, l = pre ++ x :: post /\ P x /\ forall y, In y pre -> ~ P y.

(** The reply of line 364 as the claim words it: the white space at
    both ends is gone, then every apostrophe, double quote and backtick
    is. *)
(** The code units [String.prototype.trim] removes: WhiteSpace and
    LineTerminator of ECMA-262. *)
Definition white_space (c : char) : Prop :=
  In c [9; 10; 11; 12; 13; 32; 160; 5760; 8192; 8193; 8194; 8195; 8196; 8197;
        8198; 8199; 8200; 8201; 8202; 8232; 8233; 8239; 8287; 12288; 65279]%N.

Definition stripped_reply (response : jsstring) : jsstring :=
  filter (fun c => negb (N.eqb c 39 || N.eqb c 34 || N.eqb c 96)) (trim response).

(** What a run that asks for the forced summary on the conversation
    [messages] ends with: the summary read off the last reply, or the
    exception of the last completion. *)
Definition forced_result (completions_create : list message -> Z -> result value)
  (number_to_string : jsnum -> jsstring) (messages : list message)
  : result jsstring :=
  finalResp <- ask completions_create (push messages User FORCING) 3 ;;
  Return (forced_summary number_to_string finalResp).

(** The exception [e] is the one a completion of the trace [tr] failed
    with. *)
Definition failed_completion
  (completions_create : list message -> Z -> result value)
  (tr : list event) (e : exn) : Prop :=
  exists m t, In (EvChat m t) tr /\ ask completions_create m t = Throw e.

(** The action of a command is none of the three the loop knows. *)
Definition unknown_action (c : value) : bool :=
  truthy c && truthy (get c (str "action")) &&
  negb (is_string (get c (str "action")) (str "done")) &&
  negb (is_string (get c (str "action")) (str "search")) &&
  negb (is_string (get c (str "action")) (str "read")).

(** The answer of the endpoint to an attempt is a rate-limit
    response. *)
Definition rate_limited (brave_fetch : nat -> result response) (attempt : nat)
  : bool :=
  match brave_fetch attempt with
  | Return resp => Nat.eqb (status resp) 429
  | Throw _ => false
  end.

(** The attempt that ends the loop of [braveSearch]: the first one whose
    answer is not a rate-limit response, the fourth at the latest. *)
Definition last_attempt (brave_fetch : nat -> result response) : nat :=
  if rate_limited brave_fetch 0 then
    if rate_limited brave_fetch 1 then
      if rate_limited brave_fetch 2 then 3 else 2
    else 1
  else 0.

(** The requests of [count] attempts from attempt [from] on, each but
    attempt 0 after its delay. *)
Fixpoint attempts_trace (cleaned : jsstring) (maxResults : nat)
  (from count : nat) : list event :=
  match count with
  | 0 => []
  | S count' =>
      (if Nat.ltb 0 from
       then [EvSleep (BASE_DELAY_MS * 2 ^ Z.of_nat (from - 1))]
       else []) ++
      EvFetch cleaned maxResults :: attempts_trace cleaned maxResults (S from) count'
  end.

(** The timer of the pacing, when there is one. *)
Definition pacing_trace (lastSearchMs now : Z) : list event :=
  match pacing_delay lastSearchMs now with
  | Some d => [EvSleep d]
  | None => []
  end.

(** What an attempt that ends the loop resolves to. *)
Definition attempt_outcome (maxResults : nat) (answer : result response)
  : result (list search_result) :=
  match answer with
  | Return resp =>
      if ok resp
      then data <- body_json resp ;; brave_results maxResults data
      else Return []
  | Throw e => Throw e
  end.

(** What the answer to the last attempt makes of the search. *)
Definition search_outcome (maxResults : nat) (answer : result response)
  : list search_result :=
  match answer with
  | Return resp =>
      if ok resp then
        match (data <- body_json resp ;; brave_results maxResults data) with
        | Return rs => rs
        | Throw _ => []
        end
      else []
  | Throw _ => []
  end.

Definition is_upload (e : event) : bool :=
  match e with
  | EvUpload _ _ => true
  | _ => false
  end.

(* ------------------------------------------------------------------ *)
(** ** Example inputs                                                   *)
(* ------------------------------------------------------------------ *)

(** A reply whose only key ends in an escaped quote followed by the
    word action. *)
Definition escaped_key_reply : jsstring :=
  [c_lbrace; c_dquote; c_backslash; c_dquote] ++ str "action" ++ jq "':'x'}".

(** A command whose summary holds a closing brace. *)
Definition brace_in_summary : jsstring := jq "{'action':'done','summary':'a } b'}".

Definition sample_prose : jsstring := str "Sure, here it is: ".
Definition sample_command : jsstring := jq "{'action':'search','query':'rust'}".

Definition sample_tools : search_tools :=
  {| search := fun _ => []; fetchPage := fun _ => str "(No readable content)" |}.

Definition plain_number (n : jsnum) : jsstring := str "0".

(** The response of the chat endpoint that carries [text] as the
    content of the message of its first choice. *)
Definition chat_response (text : jsstring) : value :=
  VObject [(str "choices",
            VArray [VObject [(str "message",
                              VObject [(str "role", VString (str "assistant"));
                                       (str "content", VString text)])]])].

Definition answers (text : jsstring) : result value :=
  Return (chat_response text).

(** An endpoint that is down. *)
Definition provider_down (_ : list message) (_ : Z) : result value :=
  Throw (Error (str "503")).

Definition no_builtin (_ : jsstring) : jsstring := [].
Definition no_unicode (s : jsstring) : jsstring := s.

Definition red_blue : list survey_option :=
  [{| key := str "a"; label := str "Red" |};
   {| key := str "b"; label := str "Blue" |}].

(** A model that asks for a search whatever it is told. *)
Definition always_search (_ : list message) (_ : Z) : result value :=
  answers (jq "{'action':'search','query':'rust'}").

(** A model that answers with an action the loop does not know. *)
Definition always_think (_ : list message) (_ : Z) : result value :=
  answers (jq "{'action':'think'}").

Definition long_summary : jsstring := repeat 97%N 1600.

(** A model that is done at once, with a summary of 1600 code units. *)
Definition long_done_text : jsstring :=
  jq "{'action':'done','summary':'" ++ long_summary ++ jq "'}".

Definition long_done (_ : list message) (_ : Z) : result value :=
  answers long_done_text.

(** Three callers: the first finds the pacer free, the other two arrive
    110 and 100 ms later, while no 1200 ms have passed, and both wake
    when the interval is over. *)
Definition overlapping_callers : list turn :=
  [Enter 0 10000; Enter 1 10100; Enter 2 10110; Resume 1 11200; Resume 2 11200]%Z.

(** Three calls, each awaited before the next one starts. *)
Definition awaited_callers : list turn :=
  [Enter 0 10000; Enter 1 10100; Resume 1 11200; Enter 2 11210; Resume 2 12405]%Z.

Definition no_store (_ _ : jsstring) : result response := Throw (Error []).
Definition no_images (_ : client) (_ _ : jsstring) : result value :=
  Throw (Error []).
Definition no_buffer (_ : value) : result jsstring := Throw TypeError.

(** The Imagen endpoint answering with one prediction. *)
Definition imagen_ok (_ _ _ : jsstring) : result response :=
  Return {| status := 200;
            body_text := Return [];
            body_json :=
              JSON_parse (jq "{'predictions':[{'bytesBase64Encoded':'aGk='}]}") |}.

(** What holds of the pacer between the turns of awaited calls: the
    requests so far are spaced and none began after the time stamp, and
    the one caller that may be asleep is due a full interval after the
    time stamp. *)
Definition paced (p : pacer) : Prop :=
  spaced (begun p) = true /\
  (forall c t, In (c, t) (begun p) -> (t <= lastSearchMs p)%Z) /\
  (sleeping p = [] \/
   exists c due, sleeping p = [(c, due)] /\
                 (lastSearchMs p + BASE_DELAY_MS <= due)%Z).

(* ------------------------------------------------------------------ *)
(** ** search.js: what a sanitised query looks like                     *)
(* ------------------------------------------------------------------ *)

(** The code units the class of line 332 keeps. *)
Definition in_query_class (c : char) : bool :=
  is_word c || is_space c || N.eqb c c_minus || N.eqb c c_squote ||
  N.eqb c c_dquote || N.eqb c c_comma || N.eqb c 63 || N.eqb c 33.

(** No two white-space code units stand side by side. *)
Fixpoint single_spaced (s : jsstring) : bool :=
  match s with
  | [] => true
  | c :: r =>
      match r with
      | d :: _ => negb (is_space c && is_space d)
      | [] => true
      end && single_spaced r
  end.

Definition starts_with_space (s : jsstring) : bool :=
  match s with
  | c :: _ => is_space c
  | [] => false
  end.

(** A field of a search result is the value of the response or, when
    that is missing or falsy, the empty string. *)
Definition field_ok (v : value) : bool :=
  truthy v || is_string v [].

Definition result_ok (r : search_result) : bool :=
  field_ok (title r) && field_ok (snippet r) && field_ok (url r).

(* ------------------------------------------------------------------ *)
(** ** search.js: the page reader                                       *)
(* ------------------------------------------------------------------ *)

Definition MAX_PAGE_CHARS : nat := 3000.

Definition c_lt : char := 60%N.
Definition c_gt : char := 62%N.
Definition c_amp : char := 38%N.
Definition c_semicolon : char := 59%N.
Definition c_ellipsis : char := 8230%N.

(** The canonical form of a code unit under the [i] flag (without the
    [u] flag), as far as a match against an ASCII pattern goes: the
    upper-case form of an ASCII letter, and else the code unit itself,
    since a code unit above 127 is never folded onto an ASCII one. *)
Definition fold_case (c : char) : char :=
  if N.leb 97 c && N.leb c 122 then (c - 32)%N else c.

Fixpoint starts_with_i (p s : jsstring) : bool :=
  match p, s with
  | [], _ => true
  | l :: p', c :: s' => N.eqb (fold_case l) (fold_case c) && starts_with_i p' s'
  | _ :: _, [] => false
  end.

(** The first place at or after the head of [s] where [p] matches. *)
Fixpoint find_i (p s : jsstring) : option nat :=
  if starts_with_i p s then Some 0
  else match s with
       | [] => None
       | _ :: r => option_map S (find_i p r)
       end.

(** A pattern [<name[\s\S]*?<\/name>] under the flags [gi]: the opening
    text, then as little as possible up to the first closing text. *)
Definition block_at (name : jsstring) (s : jsstring) : option nat :=
  let opening := c_lt :: name in
  let closing := [c_lt; 47%N] ++ name ++ [c_gt] in
  if starts_with_i opening s then
    match find_i closing (skipn (length opening) s) with
    | Some k => Some (length opening + k + length closing)
    | None => None
    end
  else None.

Fixpoint count_until (x : char) (s : jsstring) : nat :=
  match s with
  | c :: r => if N.eqb c x then 0 else S (count_until x r)
  | [] => 0
  end.

(** The pattern [<[^>]+>]: the run cannot pass a closing angle, so the
    match ends at the first one, and needs a code unit before it. *)
Definition tag_at (s : jsstring) : option nat :=
  match s with
  | c :: r =>
      if N.eqb c c_lt then
        match count_until c_gt r with
        | S n =>
            match skipn (S n) r with
            | _ :: _ => Some (S n + 2)
            | [] => None
            end
        | 0 => None
        end
      else None
  | [] => None
  end.

Definition is_letter (c : char) : bool :=
  (N.leb 65 c && N.leb c 90) || (N.leb 97 c && N.leb c 122).

Fixpoint count_letters (s : jsstring) : nat :=
  match s with
  | c :: r => if is_letter c then S (count_letters r) else 0
  | [] => 0
  end.

(** The pattern [&[a-z]+;] under the flags [gi]. *)
Definition entity_at (s : jsstring) : option nat :=
  match s with
  | c :: r =>
      if N.eqb c c_amp then
        match count_letters r with
        | S n =>
            match skipn (S n) r with
            | d :: _ => if N.eqb d c_semicolon then Some (S n + 2) else None
            | [] => None
            end
        | 0 => None
        end
      else None
  | [] => None
  end.

Definition strip_block (name : string) (s : jsstring) : jsstring :=
  replace_all (block_at (str name)) [32%N] 0 s.

(** Lines 411-420: the readable text of a page. *)
Definition readable_text (html : jsstring) : jsstring :=
  trim
    (replace_all spaces_at [32%N] 0
       (replace_all entity_at [32%N] 0
          (replace_all tag_at [32%N] 0
             (strip_block "footer"
                (strip_block "header"
                   (strip_block "nav"
                      (strip_block "style"
                         (strip_block "script" html)))))))).

Section FetchPage.

(** The request of line 397: what it resolves to, or the exception it
    rejects with (a network failure, a time-out, a malformed address). *)
Variable page_fetch : value -> result response.

(** [e.message] as the template of line 425 prints it. *)
Variable error_message : exn -> jsstring.

Definition reading_error (e : exn) : jsstring :=
  str "(Error reading page: " ++ error_message e ++ str ")".

(** Lines 395-427. *)
Definition fetchPage_ (pageUrl : value) : jsstring :=
  match page_fetch pageUrl with
  | Throw e => reading_error e
  | Return resp =>
      if negb (ok resp) then
        str "(Failed to fetch: " ++ nat_to_string (status resp) ++ str ")"
      else
        match body_text resp with
        | Throw e => reading_error e
        | Return html =>
            let text := readable_text html in
            match text with
            | [] => str "(No readable content)"
            | _ :: _ =>
                slice0 MAX_PAGE_CHARS text ++
                (if Nat.ltb MAX_PAGE_CHARS (length text) then [c_ellipsis] else [])
            end
        end
  end.

End FetchPage.

(** Some text of [s] matches [<[^>]+>]. *)
Fixpoint has_tag (s : jsstring) : bool :=
  match tag_at s with
  | Some _ => true
  | None =>
      match s with
      | [] => false
      | _ :: r => has_tag r
      end
  end.

Definition no_gt (s : jsstring) : bool :=
  forallb (fun c => negb (N.eqb c c_gt)) s.

(** What the scan of a replacement by a space keeps of its input when
    no match starts at a closing angle: it adds no closing angle, and a
    closing angle at the head stays there. *)
Definition angles_kept (s out : jsstring) : Prop :=
  (no_gt s = true -> no_gt out = true) /\
  (forall r', s = c_gt :: r' -> exists o', out = c_gt :: o').

(** A page with a script, a tag, an entity and a run of white space. *)
Definition sample_page : jsstring :=
  str "<p>Rust <b>1.0</b> &amp; more</p><SCRIPT>var a = '<i>';</script>   done".

(** A page server that answers every request with [sample_page]. *)
Definition sample_fetch (_ : value) : result response :=
  Return {| status := 200;
            body_text := Return sample_page;
            body_json := Throw SyntaxError |}.

Definition no_message (_ : exn) : jsstring := [].

(** A search endpoint that answers every attempt with one result. *)
Definition one_result (_ : nat) : result response :=
  Return {| status := 200;
            body_text := Return [];
            body_json :=
              JSON_parse (jq "{'web':{'results':[{'title':'Rust','url':'https://rust-lang.org'}]}}") |}.

(* ------------------------------------------------------------------ *)
(** ** llm.js: the conversation of a research run                       *)
(* ------------------------------------------------------------------ *)

(** The completion that follows the format nudge of line 269, the only
    one asked at temperature 0.2. *)
Definition is_nudge (e : event) : bool :=
  match e with
  | EvChat _ t => Z.eqb t 2
  | _ => false
  end.

Definition count_nudges (tr : list event) : nat := length (filter is_nudge tr).

(** The conversations put to the model, in order, each with its
    temperature. *)
Fixpoint chat_log (tr : list event) : list (list message * Z) :=
  match tr with
  | [] => []
  | EvChat m t :: rest => (m, t) :: chat_log rest
  | _ :: rest => chat_log rest
  end.

Definition is_user (m : message) : bool :=
  match msg_role m with
  | User => true
  | _ => false
  end.

Section Conversation.

Variable completions_create : list message -> Z -> result value.

(** The reply to a conversation as [chatMultiTurn] resolves to it, or
    the exception it rejects with. *)
Definition reply_to (asked : list message * Z) : result jsstring :=
  ask completions_create (fst asked) (snd asked).

(** The conversation [next] takes up [asked]: it is [asked], then the
    reply the model gave to it as an assistant turn, then one or two
    user turns. *)
Definition takes_up (asked : list message * Z) (next : list message) : Prop :=
  exists reply us,
    reply_to asked = Return reply /\
    next = fst asked ++
           {| msg_role := Assistant; content := reply |} :: us /\
    forallb is_user us = true /\ 1 <= length us <= 2.

(** Each conversation of a log takes up the one before it. *)
Fixpoint linked (log : list (list message * Z)) : Prop :=
  match log with
  | [] => True
  | a :: rest =>
      match rest with
      | b :: _ => takes_up a (fst b)
      | [] => True
      end /\ linked rest
  end.

(** A completion of a research run is asked at temperature 0.3, or at
    0.2 right after the nudge. *)
Definition research_chat (c : list message * Z) : Prop :=
  snd c = 3%Z \/
  (snd c = 2%Z /\ exists m0, fst c = push m0 User NUDGE).

End Conversation.

(** A model that answers in prose first and asks for a search once it
    has been nudged, and is done after that. *)
Definition needs_nudge (messages : list message) (temperature : Z)
  : result value :=
  answers match length messages with
          | 2 => str "Let me think about it."
          | 4 => jq "{'action':'search','query':'rust'}"
          | _ => jq "{'action':'done','summary':'Rust is a language.'}"
          end.

(* ------------------------------------------------------------------ *)
(** ** llm.js: the requests of the image backends                       *)
(* ------------------------------------------------------------------ *)

(** The conversation in which [_generateImageClaudeRefine] asks for a
    refined prompt, lines 551-564. *)
Definition refine_conversation (description : jsstring) : list message :=
  [{| msg_role := System; content := refine_system |};
   {| msg_role := User;
      content := str "Original description: " ++ quoted description |}].

(** An images endpoint that answers with one picture. *)
Definition one_image (_ : client) (_ _ : jsstring) : result value :=
  JSON_parse (jq "{'data':[{'url':'https://img.example/1.png'}]}").

Definition rust_result : search_result :=
  {| title := VString (str "Rust");
     snippet := VString (str "A language");
     url := VString (str "https://rust-lang.org") |}.

(* ------------------------------------------------------------------ *)
(** ** JSON.stringify                                                   *)
(* ------------------------------------------------------------------ *)

(** [JSON.stringify] as ECMA-262 defines it (QuoteJSONString and
    SerializeJSONProperty), without a replacer and without indentation,
    on the values of this development. *)

Definition hex_digit (n : N) : char :=
  if N.ltb n 10 then (48 + n)%N else (87 + n)%N.

(** UnicodeEscape: a backslash, the letter u and four lower-case
    hexadecimal digits. *)
Definition unicode_escape (c : char) : jsstring :=
  [c_backslash; 117%N;
   hex_digit (c / 4096); hex_digit ((c / 256) mod 16);
   hex_digit ((c / 16) mod 16); hex_digit (c mod 16)].

Definition is_lead (c : char) : bool := N.leb 55296 c && N.leb c 56319.
Definition is_trail (c : char) : bool := N.leb 56320 c && N.leb c 57343.

(** A code point that is a single code unit: the short escapes of the
    table, a unicode escape for the other control characters and for a
    surrogate on its own, and else the code unit itself. *)
Definition escape_unit (c : char) : jsstring :=
  if N.eqb c 8 then [c_backslash; 98%N]
  else if N.eqb c 9 then [c_backslash; 116%N]
  else if N.eqb c 10 then [c_backslash; 110%N]
  else if N.eqb c 12 then [c_backslash; 102%N]
  else if N.eqb c 13 then [c_backslash; 114%N]
  else if N.eqb c c_dquote then [c_backslash; c_dquote]
  else if N.eqb c c_backslash then [c_backslash; c_backslash]
  else if N.ltb c 32 || is_lead c || is_trail c then unicode_escape c
  else [c].

(** The string is read by code points: a leading surrogate followed by
    a trailing one is a pair and is kept as it is. *)
Fixpoint quote_units (s : jsstring) : jsstring :=
  match s with
  | [] => []
  | c :: r =>
      if is_lead c then
        match r with
        | d :: r' =>
            if is_trail d then c :: d :: quote_units r'
            else escape_unit c ++ quote_units r
        | [] => escape_unit c
        end
      else escape_unit c ++ quote_units r
  end.

(** QuoteJSONString. *)
Definition JSON_quote (s : jsstring) : jsstring :=
  [c_dquote] ++ quote_units s ++ [c_dquote].

Section Stringify.

(** How a number prints in JSON: [Number.prototype.toString] for a
    finite number and the word null for the others.  No property below
    depends on it. *)
Variable number_to_json : jsnum -> jsstring.

(** SerializeJSONProperty; [None] is the result [undefined].  An array
    prints [undefined] as null and an object leaves such a member out.
    The members of an object are taken in the order of the list, which
    is the order of the properties when no key is an array index and
    none occurs twice. *)
Fixpoint JSON_stringify (v : value) : option jsstring :=
  match v with
  | VUndefined => None
  | VNull => Some (str "null")
  | VBool true => Some (str "true")
  | VBool false => Some (str "false")
  | VNumber n => Some (number_to_json n)
  | VString s => Some (JSON_quote s)
  | VArray items =>
      Some ([c_lbracket] ++
            join [c_comma]
              (map (fun x => match JSON_stringify x with
                             | Some t => t
                             | None => str "null"
                             end) items) ++
            [c_rbracket])
  | VObject ms =>
      Some ([c_lbrace] ++
            join [c_comma]
              (flat_map (fun kv : jsstring * value =>
                           let (k, x) := kv in
                           match JSON_stringify x with
                           | Some t => [JSON_quote k ++ [c_colon] ++ t]
                           | None => []
                           end) ms) ++
            [c_rbrace])
  end.

End Stringify.

(** Values without numbers and without [undefined]: what [JSON.parse]
    gives back as it was. *)
Fixpoint plain_json (v : value) : bool :=
  match v with
  | VUndefined | VNumber _ => false
  | VNull | VBool _ | VString _ => true
  | VArray items => forallb plain_json items
  | VObject ms => forallb (fun kv : jsstring * value => plain_json (snd kv)) ms
  end.

Definition index_like (k : jsstring) : bool :=
  match k with
  | c :: _ => is_digit c
  | [] => false
  end.

Fixpoint distinct_keys (ks : list jsstring) : bool :=
  match ks with
  | [] => true
  | k :: rest => negb (existsb (string_eqb k) rest) && distinct_keys rest
  end.

(** The members of every object are listed in property order: no key
    occurs twice and none starts with a digit, as an array index
    does. *)
Fixpoint property_order (v : value) : bool :=
  match v with
  | VArray items => forallb property_order items
  | VObject ms =>
      distinct_keys (map fst ms) &&
      forallb (fun kv : jsstring * value => negb (index_like (fst kv))) ms &&
      forallb (fun kv : jsstring * value => property_order (snd kv)) ms
  | _ => true
  end.

(** A command with a line break, a quote, a backslash and a surrogate
    on its own in its summary. *)
Definition awkward_command : value :=
  VObject [(str "action", VString (str "done"));
           (str "summary",
            VString (str "two" ++ [c_newline] ++ str "lines, a " ++
                     [c_dquote; c_backslash; 55357%N] ++ str " and more"));
           (str "sources", VArray [VString (str "a"); VNull; VBool true])].

(** The code units a serialised value can start with when it holds no
    number: a brace, a bracket, a quote, or the first letter of true,
    false and null. *)
Definition opens_value (c : char) : bool :=
  N.eqb c c_lbrace || N.eqb c c_lbracket || N.eqb c c_dquote ||
  N.eqb c 116 || N.eqb c 102 || N.eqb c 110.

(** [text] is the serialisation of [v], and [JSON.parse] reads [v] back
    from it whatever follows, with the fuel [JSON_parse] has for it. *)
Definition reads_back (number_to_json : jsnum -> jsstring) (v : value)
  (text : jsstring) : Prop :=
  JSON_stringify number_to_json v = Some text /\
  (exists c t, text = c :: t /\ opens_value c = true) /\
  forall f rest,
    2 * length text + 1 <= f -> parse_value f (text ++ rest) = POk v rest.

Definition element_text (number_to_json : jsnum -> jsstring) (x : value)
  : jsstring :=
  match JSON_stringify number_to_json x with
  | Some t => t
  | None => str "null"
  end.

Definition member_text (number_to_json : jsnum -> jsstring)
  (kv : jsstring * value) : jsstring :=
  JSON_quote (fst kv) ++ [c_colon] ++ element_text number_to_json (snd kv).

(* ------------------------------------------------------------------ *)
(** ** index.js: the bot                                                *)
(* ------------------------------------------------------------------ *)

(** What the bot does to the outside, in order: what its LLM wrapper
    does, the transactions it sends (each with its memo; the node, the
    sender and the recipient are the same for all), the download of a
    generated image and the upload to the image store. *)
Inductive bot_event : Type :=
| BotLlm (e : event)
| BotSend (memo : value)
| BotDownload (address : value)
| BotStore (contentType : value) (bytes : jsstring).

(** An asynchronous function of the bot. *)
Definition bot (A : Type) : Type := (list bot_event * result A)%type.

Definition bot_ret {A : Type} (a : A) : bot A := ([], Return a).

Definition bot_bind {A B : Type} (m : bot A) (k : A -> bot B) : bot B :=
  match m with
  | (ev, Return a) => let (ev', r) := k a in (ev ++ ev', r)
  | (ev, Throw e) => (ev, Throw e)
  end.

Definition bot_lift {A : Type} (r : result A) : bot A := ([], r).

Definition bot_emit (e : bot_event) : bot unit := ([e], Return tt).

(** [try { body } catch (e) { handler }]. *)
Definition bot_try {A : Type} (body : bot A) (handler : exn -> bot A) : bot A :=
  match body with
  | (ev, Return a) => (ev, Return a)
  | (ev, Throw e) => let (ev', r) := handler e in (ev ++ ev', r)
  end.

(** A call of a function of the LLM wrapper. *)
Definition of_llm {A : Type} (m : io A) : bot A := (map BotLlm (fst m), snd m).

Notation "x <== m ;; k" := (bot_bind m (fun x => k))
  (at level 61, m at next level, right associativity).

(** The memos of the transactions sent. *)
Fixpoint sends (tr : list bot_event) : list value :=
  match tr with
  | [] => []
  | BotSend memo :: rest => memo :: sends rest
  | _ :: rest => sends rest
  end.

(** What the download of line 66 resolves to: the status, the content
    type header (a string, or null when there is none) and the body. *)
Record download : Type := {
  dl_status : nat;
  dl_content_type : value;
  dl_bytes : result jsstring
}.

Definition dl_ok (d : download) : bool :=
  Nat.leb 200 (dl_status d) && Nat.leb (dl_status d) 299.

(** [typeof v === 'object'] for a truthy [v]. *)
Definition is_object_type (v : value) : bool :=
  match v with
  | VObject _ | VArray _ => true
  | _ => false
  end.

Definition is_alnum (c : char) : bool := is_digit c || is_letter c.

(** The pattern [_[A-Za-z0-9]{6}] at the head of [s], with nothing
    after it. *)
Definition name_tag (s : jsstring) : bool :=
  match s with
  | c :: r => N.eqb c 95 && Nat.eqb (length r) 6 && forallb is_alnum r
  | [] => false
  end.

(** [name.replace(/_[A-Za-z0-9]{6}$/, '')]: the pattern is tied to the
    end of the text, so the one place it can match is the last seven
    code units. *)
Definition strip_name_tag (name : jsstring) : jsstring :=
  let n := length name - 7 in
  if name_tag (skipn n name) then firstn n name else name.

Definition memo_object (type : string) (fields : list (jsstring * value))
  : value :=
  VObject ((str "app", VString (str "cis")) ::
           (str "type", VString (str type)) :: fields).

Section Bot.

(** The configuration of lines 37-47.  The two periods are read as
    whole numbers. *)
Variable BOT_ADDRESS : jsstring.
Variable BOT_NAME : jsstring.
Variable VOTE_RECONSIDER_S : Z.
Variable ENABLE_IMAGES : bool.

(** The functions of [cis-client] the bot calls: the suffix of a user
    name and the slug of a label are strings; a transaction is sent or
    the call rejects. *)
Variable usernameSuffix : jsstring -> jsstring.
Variable slugify : jsstring -> jsstring.
Variable sendTransaction : value -> result unit.

(** The network behind [rehostImage]: the download of the image and
    the upload to the store at [IMAGE_STORE_URL]. *)
Variable image_download : value -> result download.
Variable store_upload : value -> jsstring -> result response.

Variable number_to_string : jsnum -> jsstring.
Variable number_to_json : jsnum -> jsstring.

(** Lines 60-62. *)
Definition makeMemo (obj : value) : value :=
  match JSON_stringify number_to_json obj with
  | Some text => VString text
  | None => VUndefined
  end.

(** Lines 87-94. *)
Definition botUsername : jsstring :=
  let suffix := usernameSuffix BOT_ADDRESS in
  let base := slice0 (Nat.max 1 (24 - length suffix)) (strip_name_tag BOT_NAME) in
  or_string base (str "bot") ++ suffix.

(** Line 114. *)
Definition tx_sender (tx : value) : value :=
  js_or (js_or (js_or (get tx (str "from_pubkey")) (get tx (str "from")))
           (get tx (str "source"))) VNull.

(** Lines 116-125: the conversion and the parse stand in one [try]. *)
Definition tx_memo (tx : value) : value :=
  match get tx (str "memo") with
  | VUndefined | VNull => VNull
  | m =>
      match bind (to_string number_to_string m) JSON_parse with
      | Return v => v
      | Throw _ => VNull
      end
  end.

(** Lines 126-131. *)
Definition names_bot (target : jsstring) (memo : value) : bool :=
  truthy memo &&
  (is_string (get memo (str "app")) (str "cis") ||
   is_string (get memo (str "app")) (str "exocortex")) &&
  is_string (get memo (str "type")) (str "set_username") &&
  is_string (get memo (str "username")) target.

(** The loop of lines 108-134: whether a transaction of the list sets
    the user name.  [String(from)] of line 115 stands outside every
    [try]: a sender that does not convert ends the loop with its
    TypeError. *)
Fixpoint username_is_set (target : jsstring) (txs : list value) : result bool :=
  match txs with
  | [] => Return false
  | rawTx :: rest =>
      if is_object_type rawTx then
        sender <- to_string number_to_string (tx_sender rawTx) ;;
        if string_eqb sender BOT_ADDRESS && names_bot target (tx_memo rawTx)
        then Return true
        else username_is_set target rest
      else username_is_set target rest
  end.

Definition username_memo (target : jsstring) : value :=
  memo_object "set_username" [(str "username", VString target)].

(** Lines 105-144. *)
Definition ensureUsername (txs : list value) : bot unit :=
  let target := botUsername in
  found <== bot_lift (username_is_set target txs) ;;
  if found then bot_ret tt
  else
    let memo := makeMemo (username_memo target) in
    _ <== bot_emit (BotSend memo) ;;
    bot_lift (sendTransaction memo).

(** The LLM wrapper the bot works with, as [createLLM] builds it. *)
Variable completions_create : list message -> Z -> result value.
Variable dateContext : jsstring.
Variable builtin_text : jsstring -> jsstring.
Variable lower_unicode : jsstring -> jsstring.
Variable searchTools : option search_tools.
Variable maxResearchSteps : nat.
Variables provider apiKey baseURL_arg imageProvider imageApiKey imageBaseURL
  imageModel_arg imageStoreURL : jsstring.
Variable imagen_fetch : jsstring -> jsstring -> jsstring -> result response.
Variable store_fetch : jsstring -> jsstring -> result response.
Variable images_generate : client -> jsstring -> jsstring -> result value.
Variable Buffer_from : value -> result jsstring.

Definition vote_memo (id : value) (choice : jsstring) : value :=
  memo_object "vote" [(str "survey", id); (str "choice", VString choice)].

(** [botEntry && botEntry.voteKey], line 152. *)
Definition already_voted (botEntry : value) : bool :=
  truthy botEntry && truthy (get botEntry (str "voteKey")).

(** Lines 146-188.  The map [lastVoteConsideredAt] is read and written
    at the key of this survey only: [entry] is its binding there when
    the call starts, and the call resolves to its binding when the call
    ends.  When the choice of the vote rejects, the binding is as it
    was.  The log line of lines 157-160 prints the key of the vote the
    bot has cast. *)
Definition considerVoting (entry : option Z) (now : Z) (id : value)
  (s : survey) (options : list survey_option)
  (counts : list (jsstring * value)) (botEntry : value) : bot (option Z) :=
  match options with
  | [] => bot_ret entry
  | _ :: _ =>
      let lastConsidered := match entry with Some t => t | None => 0%Z end in
      if already_voted botEntry &&
         Z.ltb (now - lastConsidered) (VOTE_RECONSIDER_S * 1000)
      then bot_ret entry
      else
        _ <== bot_lift (if already_voted botEntry
                        then to_string number_to_string
                               (get botEntry (str "voteKey"))
                        else Return []) ;;
        chosenKey <== of_llm (chooseVote completions_create dateContext
                                number_to_string builtin_text lower_unicode
                                searchTools maxResearchSteps s options counts) ;;
        match chosenKey with
        | None => bot_ret (Some now)
        | Some k =>
            if negb (nonempty k) then bot_ret (Some now)
            else if already_voted botEntry &&
                    is_string (get botEntry (str "voteKey")) k
            then bot_ret (Some now)
            else
              let memo := makeMemo (vote_memo id k) in
              _ <== bot_emit (BotSend memo) ;;
              _ <== bot_lift (sendTransaction memo) ;;
              bot_ret (Some now)
        end
  end.

(** Lines 64-85. *)
Definition rehostImage (temporaryUrl : value) : bot value :=
  _ <== bot_emit (BotDownload temporaryUrl) ;;
  downloadResp <== bot_lift (image_download temporaryUrl) ;;
  if negb (dl_ok downloadResp) then
    bot_lift (Throw (Error (str "Failed to download image: " ++
                            nat_to_string (dl_status downloadResp))))
  else
    let contentType :=
      js_or (dl_content_type downloadResp) (VString (str "image/png")) in
    buf <== bot_lift (dl_bytes downloadResp) ;;
    _ <== bot_emit (BotStore contentType buf) ;;
    uploadResp <== bot_lift (store_upload contentType buf) ;;
    if negb (ok uploadResp) then
      bot_lift (Throw (Error (str "Failed to upload to image store: " ++
                              nat_to_string (status uploadResp))))
    else
      body <== bot_lift (body_json uploadResp) ;;
      address <== bot_lift (get_checked body (str "url")) ;;
      (* line 83: the log line prints the address *)
      _ <== bot_lift (to_string number_to_string address) ;;
      bot_ret address.

Definition option_memo (id : value) (optionKey label : jsstring) : value :=
  memo_object "add_option"
    [(str "survey", id);
     (str "option", VObject [(str "key", VString optionKey);
                             (str "label", VString label)])].

(** Lines 204-219: the label, with the address of a generated image
    after it.  The template of line 213 stands in the [try], the one of
    line 216 in its [catch]. *)
Definition illustrated_label (sg : suggestion) : bot jsstring :=
  let label := suggestion_label sg in
  if ENABLE_IMAGES && truthy (wantsImage sg) && nonempty (imageDescription sg)
  then
    tempUrl <== of_llm (generateImage completions_create number_to_string
                          provider apiKey baseURL_arg
                          imageProvider imageApiKey imageBaseURL imageModel_arg
                          imageStoreURL imagen_fetch store_fetch images_generate
                          Buffer_from (imageDescription sg)) ;;
    if truthy tempUrl then
      bot_try
        (permanentUrl <== rehostImage tempUrl ;;
         address <== bot_lift (to_string number_to_string permanentUrl) ;;
         bot_ret (label ++ [32%N] ++ address))
        (fun _ =>
           address <== bot_lift (to_string number_to_string tempUrl) ;;
           bot_ret (label ++ [32%N] ++ address))
    else bot_ret label
  else bot_ret label.

(** Lines 190-232.  [stamp] is the clock of line 221 in base 36. *)
Definition considerAddingOption (id : value) (s : survey)
  (options : list survey_option) (botAddedOption : value) (stamp : jsstring)
  : bot unit :=
  if truthy botAddedOption then bot_ret tt
  else
    sg <== of_llm (suggestOption completions_create dateContext number_to_string
                     searchTools maxResearchSteps provider imageProvider
                     imageModel_arg s options) ;;
    if negb (nonempty (suggestion_label sg)) then bot_ret tt
    else
      label <== illustrated_label sg ;;
      let optionKey :=
        or_string (slugify (suggestion_label sg)) (str "opt_" ++ stamp) in
      let memo := makeMemo (option_memo id optionKey label) in
      _ <== bot_emit (BotSend memo) ;;
      bot_lift (sendTransaction memo).

End Bot.

(** A username transaction as the bot reads it back from the node. *)
Definition own_transaction (sender : jsstring) (memo : value) : value :=
  VObject [(str "from_pubkey", VString sender); (str "memo", memo)].

Definition sample_suffix (_ : jsstring) : jsstring := str "_a1b2c3".

(** A model that always answers with the key b. *)
Definition votes_b (_ : list message) (_ : Z) : result value :=
  answers (str "b").

(** A model that suggests an option without an image. *)
Definition suggests_green (_ : list message) (_ : Z) : result value :=
  answers (jq "{'label':'Green','wantsImage':false,'imageDescription':''}").

Definition sends_ok (_ : value) : result unit := Return tt.
Definition no_download (_ : value) : result download := Throw (Error []).
Definition no_upload (_ : value) (_ : jsstring) : result response :=
  Throw (Error []).
Definition no_imagen (_ _ _ : jsstring) : result response := Throw (Error []).
Definition plain_slug (label : jsstring) : jsstring := map lower_ascii label.

Definition colour_survey : survey :=
  {| survey_title := str "Colour"; survey_question := str "Which one?" |}.

(** The entry of a bot that has voted for the key a. *)
Definition voted_a : value := VObject [(str "voteKey", VString (str "a"))].

(* ------------------------------------------------------------------ *)
(** ** llm.js: the prompts and the replies of the decision functions    *)
(* ------------------------------------------------------------------ *)

(** The line of an option in the prompt of [suggestOption], line 391. *)
Definition suggest_line (o : survey_option) : jsstring :=
  str "- " ++ quoted (label o).

(** The reply the prompt of [suggestOption] asks for. *)
Definition suggestion_reply (l : jsstring) (w : bool) (d : jsstring) : value :=
  VObject [(str "label", VString l);
           (str "wantsImage", VBool w);
           (str "imageDescription", VString d)].

Definition no_rbrace (s : jsstring) : bool :=
  forallb (fun c => negb (N.eqb c c_rbrace)) s.

(* ------------------------------------------------------------------ *)
(** ** The image store                                                  *)
(* ------------------------------------------------------------------ *)

(** [extFromContentType]; a request without the header has the empty
    string here, which the first test treats like an absent one. *)
Definition extFromContentType (ct : jsstring) : jsstring :=
  if negb (nonempty ct) then str ".png"
  else if includes ct (str "jpeg") || includes ct (str "jpg") then str ".jpg"
  else if includes ct (str "gif") then str ".gif"
  else if includes ct (str "webp") then str ".webp"
  else if includes ct (str "svg") then str ".svg"
  else str ".png".

(** The content type a stored file is served with, from the extension
    of its name. *)
Definition served_type (lower_unicode : jsstring -> jsstring)
  (extname : jsstring) : jsstring :=
  let ext := toLowerCase lower_unicode extname in
  if string_eqb ext (str ".jpg") || string_eqb ext (str ".jpeg")
  then str "image/jpeg"
  else if string_eqb ext (str ".gif") then str "image/gif"
  else if string_eqb ext (str ".webp") then str "image/webp"
  else if string_eqb ext (str ".svg") then str "image/svg+xml"
  else str "image/png".

(** The command that ends a research run. *)
Definition done_command (summary : jsstring) : value :=
  VObject [(str "action", VString (str "done"));
           (str "summary", VString summary)].

(** A model that is done at once. *)
Definition done_at_once (_ : list message) (_ : Z) : result value :=
  answers (jq "{'action':'done','summary':'Rust is a language.'}").

(** A query [sanitizeQuery] has nothing to do on: code units of the
    class only, no white space at either end, no two white-space code
    units side by side, and no more than [MAX_QUERY_LEN] code units. *)
Definition clean_query (q : jsstring) : bool :=
  forallb in_query_class q && single_spaced q &&
  negb (starts_with_space q) && negb (starts_with_space (rev q)) &&
  Nat.leb (length q) MAX_QUERY_LEN.

Definition has_colon (s : jsstring) : bool := existsb (N.eqb c_colon) s.

Definition double_spaced (s : jsstring) : bool := negb (single_spaced s).

(** The one completion of [chooseVote] when there is nothing to
    research with. *)
Definition vote_chat (dateContext : jsstring) (s : survey)
  (optionList : jsstring) : event :=
  EvChat [{| msg_role := System; content := vote_system dateContext |};
          {| msg_role := User; content := vote_user s optionList [] |}] 5%Z.

(** A model that suggests an option with a picture. *)
Definition suggests_picture (_ : list message) (_ : Z) : result value :=
  answers
    (jq "{'label':'Green','wantsImage':true,'imageDescription':'a green field'}").

Definition green_with_picture : suggestion :=
  {| suggestion_label := str "Green";
     wantsImage := VBool true;
     imageDescription := str "a green field" |}.

(* ------------------------------------------------------------------ *)
(** ** Facts about the parser                                           *)
(* ------------------------------------------------------------------ *)

Ltac break_if :=
  match goal with
  | |- context [if ?b then _ else _] => destruct b eqn:?
  | H : context [if ?b then _ else _] |- _ => destruct b eqn:?
  end.

Ltac break_match_hyp :=
  match goal with
  | H : context [match ?x with _ => _ end] |- _ => destruct x eqn:?
  end.

Ltac break_match_goal :=
  match goal with
  | |- context [match ?x with _ => _ end] => destruct x eqn:?
  end.

Lemma skip_ws_length (s : jsstring) : length (skip_ws s) <= length s.
Proof.
  induction s as [|c s IH]; simpl; [lia|].
  destruct (is_json_ws c); simpl; lia.
Qed.

Lemma skip_ws_cons_length (s r : jsstring) (c : char) :
  skip_ws s = c :: r -> length r < length s.
Proof.
  intros H. pose proof (skip_ws_length s) as L. rewrite H in L. simpl in L. lia.
Qed.

Lemma pmap_ok {A B : Type} (f : A -> B) (p : parsed A) (b : B) (r : jsstring) :
  pmap f p = POk b r -> exists a, p = POk a r /\ b = f a.
Proof.
  destruct p; simpl; intros H; inversion H; subst; eauto.
Qed.

Lemma pmap_fuel {A B : Type} (f : A -> B) (p : parsed A) :
  pmap f p = PFuel -> p = PFuel.
Proof.
  destruct p; simpl; intros H; congruence.
Qed.

Lemma parse_chars_spec (s : jsstring) :
  parse_chars s <> PFuel /\
  forall k r, parse_chars s = POk k r -> length r < length s.
Proof.
  remember (length s) as n eqn:Hn.
  revert s Hn. induction n as [n IH] using lt_wf_ind. intros s Hn.
  destruct s as [|c r]; simpl.
  - split; [congruence | intros k r H; discriminate].
  - destruct (N.eqb c c_dquote).
    { split; [congruence|]. intros k r0 H; inversion H; subst; simpl; lia. }
    destruct (N.eqb c c_backslash).
    + destruct r as [|e r']; [split; [congruence | intros; discriminate]|].
      destruct (N.eqb e 117).
      * destruct r' as [|h1 [|h2 [|h3 [|h4 r'']]]];
          try (split; [congruence | intros; discriminate]).
        destruct (hex4 h1 h2 h3 h4); [|split; [congruence | intros; discriminate]].
        destruct (IH (length r'') ltac:(subst n; simpl; lia) r'' eq_refl) as [F D].
        split.
        -- intros H. apply pmap_fuel in H. auto.
        -- intros k r0 H. apply pmap_ok in H. destruct H as [a [H _]].
           apply D in H. simpl in *. lia.
      * destruct (escape_char e); [|split; [congruence | intros; discriminate]].
        destruct (IH (length r') ltac:(subst n; simpl; lia) r' eq_refl) as [F D].
        split.
        -- intros H. apply pmap_fuel in H. auto.
        -- intros k r0 H. apply pmap_ok in H. destruct H as [a [H _]].
           apply D in H. simpl in *. lia.
    + destruct (N.ltb c 32); [split; [congruence | intros; discriminate]|].
      destruct (IH (length r) ltac:(subst n; simpl; lia) r eq_refl) as [F D].
      split.
      * intros H. apply pmap_fuel in H. auto.
      * intros k r0 H. apply pmap_ok in H. destruct H as [a [H _]].
        apply D in H. simpl in *. lia.
Qed.

Lemma span_digits_length (s ds r : jsstring) :
  span_digits s = (ds, r) -> length s = length ds + length r.
Proof.
  revert ds r. induction s as [|c s IH]; simpl; intros ds r H.
  - inversion H; reflexivity.
  - destruct (is_digit c).
    + destruct (span_digits s) as [ds' r'] eqn:E. inversion H; subst.
      simpl. rewrite (IH ds' r eq_refl). reflexivity.
    + inversion H; subst. reflexivity.
Qed.

Lemma number_int_length (s ids r : jsstring) :
  number_int s = Some (ids, r) -> length r < length s.
Proof.
  unfold number_int. destruct s as [|c s']; [discriminate|].
  destruct (N.eqb c 48).
  - intros H; inversion H; subst; simpl; lia.
  - destruct (is_digit c) eqn:D; [|discriminate].
    intros H. assert (H1 : span_digits (c :: s') = (ids, r)) by congruence.
    pose proof (span_digits_length _ _ _ H1) as L.
    simpl in H1. rewrite D in H1. destruct (span_digits s'); inversion H1; subst.
    simpl in *. lia.
Qed.

Lemma number_frac_length (s fds r : jsstring) :
  number_frac s = Some (fds, r) -> length r <= length s.
Proof.
  unfold number_frac. destruct s as [|c s']; [intros H; inversion H; subst; lia|].
  destruct (N.eqb c 46).
  - destruct (span_digits s') as [ds r'] eqn:E. apply span_digits_length in E.
    destruct ds; [discriminate|]. intros H; inversion H; subst. simpl in *. lia.
  - intros H; inversion H; subst; lia.
Qed.

Lemma number_exp_length (s r : jsstring) (e : Z) :
  number_exp s = Some (e, r) -> length r <= length s.
Proof.
  unfold number_exp. destruct s as [|c s']; [intros H; inversion H; subst; lia|].
  destruct (N.eqb c 101 || N.eqb c 69).
  - destruct s' as [|sg r'].
    + simpl. discriminate.
    + destruct (N.eqb sg 45).
      * destruct (span_digits r') as [ds r2] eqn:E. apply span_digits_length in E.
        destruct ds; [discriminate|]. intros H; inversion H; subst. simpl in *. lia.
      * destruct (N.eqb sg 43).
        -- destruct (span_digits r') as [ds r2] eqn:E. apply span_digits_length in E.
           destruct ds; [discriminate|]. intros H; inversion H; subst. simpl in *. lia.
        -- destruct (span_digits (sg :: r')) as [ds r2] eqn:E.
           apply span_digits_length in E.
           destruct ds; [discriminate|]. intros H; inversion H; subst. simpl in *. lia.
  - intros H; inversion H; subst; lia.
Qed.

Lemma parse_number_spec (s : jsstring) :
  parse_number s <> PFuel /\
  forall n r, parse_number s = POk n r -> length r < length s.
Proof.
  unfold parse_number.
  set (p := match s with
            | [] => (false, s)
            | c :: r => if N.eqb c c_minus then (true, r) else (false, s)
            end).
  assert (Hp : length (snd p) <= length s).
  { subst p. destruct s as [|c r]; simpl; [lia|].
    destruct (N.eqb c c_minus); simpl; lia. }
  destruct p as [neg s1]. simpl in Hp.
  destruct (number_int s1) as [[ids s2]|] eqn:E1; [|split; [congruence|discriminate]].
  destruct (number_frac s2) as [[fds s3]|] eqn:E2; [|split; [congruence|discriminate]].
  destruct (number_exp s3) as [[e s4]|] eqn:E3; [|split; [congruence|discriminate]].
  split; [congruence|].
  intros n r H; inversion H; subst.
  apply number_int_length in E1. apply number_frac_length in E2.
  apply number_exp_length in E3. lia.
Qed.

Lemma parse_value_S (f : nat) (s : jsstring) :
  parse_value (S f) s =
      match skip_ws s with
      | [] => PErr
      | c :: r =>
          if N.eqb c c_lbrace then
            match skip_ws r with
            | [] => PErr
            | c' :: r' =>
                if N.eqb c' c_rbrace then POk (VObject []) r'
                else pmap VObject (parse_members f (c' :: r'))
            end
          else if N.eqb c c_lbracket then
            match skip_ws r with
            | [] => PErr
            | c' :: r' =>
                if N.eqb c' c_rbracket then POk (VArray []) r'
                else pmap VArray (parse_elements f (c' :: r'))
            end
          else if N.eqb c c_dquote then pmap VString (parse_chars r)
          else if N.eqb c c_minus || is_digit c then
            pmap VNumber (parse_number (c :: r))
          else if starts_with (str "true") (c :: r) then
            POk (VBool true) (skipn 4 (c :: r))
          else if starts_with (str "false") (c :: r) then
            POk (VBool false) (skipn 5 (c :: r))
          else if starts_with (str "null") (c :: r) then
            POk VNull (skipn 4 (c :: r))
          else PErr
      end.
Proof. reflexivity. Qed.

Lemma parse_elements_S (f : nat) (s : jsstring) :
  parse_elements (S f) s =
      match parse_value f s with
      | POk v r =>
          match skip_ws r with
          | [] => PErr
          | c :: r' =>
              if N.eqb c c_comma then pmap (cons v) (parse_elements f r')
              else if N.eqb c c_rbracket then POk [v] r'
              else PErr
          end
      | PErr => PErr
      | PFuel => PFuel
      end.
Proof. reflexivity. Qed.

Lemma parse_members_S (f : nat) (s : jsstring) :
  parse_members (S f) s =
      match skip_ws s with
      | [] => PErr
      | q :: r =>
          if N.eqb q c_dquote then
            match parse_chars r with
            | POk k r1 =>
                match skip_ws r1 with
                | [] => PErr
                | c :: r2 =>
                    if N.eqb c c_colon then
                      match parse_value f r2 with
                      | POk v r3 =>
                          match skip_ws r3 with
                          | [] => PErr
                          | c' :: r4 =>
                              if N.eqb c' c_comma then
                                pmap (cons (k, v)) (parse_members f r4)
                              else if N.eqb c' c_rbrace then POk [(k, v)] r4
                              else PErr
                          end
                      | PErr => PErr
                      | PFuel => PFuel
                      end
                    else PErr
                end
            | PErr => PErr
            | PFuel => PFuel
            end
          else PErr
      end.
Proof. reflexivity. Qed.

(** Every successful parse consumes at least one code unit. *)
Lemma parse_consumes (fuel : nat) :
  (forall s v r, parse_value fuel s = POk v r -> length r < length s) /\
  (forall s vs r, parse_elements fuel s = POk vs r -> length r < length s) /\
  (forall s ms r, parse_members fuel s = POk ms r -> length r < length s).
Proof.
  induction fuel as [|f [IHv [IHe IHm]]]; [repeat split; intros; discriminate|].
  repeat split.
  - intros s v r. rewrite parse_value_S.
    destruct (skip_ws s) as [|c r0] eqn:Es; [discriminate|].
    pose proof (skip_ws_cons_length _ _ _ Es) as Ls.
    destruct (N.eqb c c_lbrace).
    { destruct (skip_ws r0) as [|c' r'] eqn:Er; [discriminate|].
      pose proof (skip_ws_cons_length _ _ _ Er) as Lr.
      destruct (N.eqb c' c_rbrace).
      - intros H; inversion H; subst; lia.
      - intros H. apply pmap_ok in H. destruct H as [ms [H _]].
        apply IHm in H. simpl in H. lia. }
    destruct (N.eqb c c_lbracket).
    { destruct (skip_ws r0) as [|c' r'] eqn:Er; [discriminate|].
      pose proof (skip_ws_cons_length _ _ _ Er) as Lr.
      destruct (N.eqb c' c_rbracket).
      - intros H; inversion H; subst; lia.
      - intros H. apply pmap_ok in H. destruct H as [ms [H _]].
        apply IHe in H. simpl in H. lia. }
    destruct (N.eqb c c_dquote).
    { intros H. apply pmap_ok in H. destruct H as [k [H _]].
      apply parse_chars_spec in H. lia. }
    destruct (N.eqb c c_minus || is_digit c).
    { intros H. apply pmap_ok in H. destruct H as [k [H _]].
      apply parse_number_spec in H. simpl in H. lia. }
    destruct (starts_with (str "true") (c :: r0)).
    { intros H. assert (Hr : r = skipn 4 (c :: r0)) by congruence.
      rewrite Hr, length_skipn. simpl. lia. }
    destruct (starts_with (str "false") (c :: r0)).
    { intros H. assert (Hr : r = skipn 5 (c :: r0)) by congruence.
      rewrite Hr, length_skipn. simpl. lia. }
    destruct (starts_with (str "null") (c :: r0)).
    { intros H. assert (Hr : r = skipn 4 (c :: r0)) by congruence.
      rewrite Hr, length_skipn. simpl. lia. }
    discriminate.
  - intros s vs r. rewrite parse_elements_S.
    destruct (parse_value f s) as [v r0| |] eqn:Ev; try discriminate.
    apply IHv in Ev.
    destruct (skip_ws r0) as [|c r'] eqn:Er; [discriminate|].
    pose proof (skip_ws_cons_length _ _ _ Er) as Lr.
    destruct (N.eqb c c_comma).
    { intros H. apply pmap_ok in H. destruct H as [k [H _]].
      apply IHe in H. lia. }
    destruct (N.eqb c c_rbracket); [|discriminate].
    intros H; inversion H; subst; lia.
  - intros s ms r. rewrite parse_members_S.
    destruct (skip_ws s) as [|q r0] eqn:Es; [discriminate|].
    pose proof (skip_ws_cons_length _ _ _ Es) as Ls.
    destruct (N.eqb q c_dquote); [|discriminate].
    destruct (parse_chars r0) as [k r1| |] eqn:Ek; try discriminate.
    apply parse_chars_spec in Ek.
    destruct (skip_ws r1) as [|c r2] eqn:E1; [discriminate|].
    pose proof (skip_ws_cons_length _ _ _ E1) as L1.
    destruct (N.eqb c c_colon); [|discriminate].
    destruct (parse_value f r2) as [v r3| |] eqn:Ev; try discriminate.
    apply IHv in Ev.
    destruct (skip_ws r3) as [|c' r4] eqn:E3; [discriminate|].
    pose proof (skip_ws_cons_length _ _ _ E3) as L3.
    destruct (N.eqb c' c_comma).
    { intros H. apply pmap_ok in H. destruct H as [k' [H _]].
      apply IHm in H. lia. }
    destruct (N.eqb c' c_rbrace); [|discriminate].
    intros H; inversion H; subst; lia.
Qed.

(** The fuel [JSON_parse] supplies is never used up. *)
Lemma parse_fuel_enough (fuel : nat) :
  (forall s, 2 * length s + 1 <= fuel -> parse_value fuel s <> PFuel) /\
  (forall s, 2 * length s + 2 <= fuel -> parse_elements fuel s <> PFuel) /\
  (forall s, 2 * length s + 2 <= fuel -> parse_members fuel s <> PFuel).
Proof.
  induction fuel as [|f [IHv [IHe IHm]]]; [repeat split; intros; lia|].
  destruct (parse_consumes f) as [Cv [Ce Cm]].
  repeat split.
  - intros s L. rewrite parse_value_S.
    destruct (skip_ws s) as [|c r0] eqn:Es; [congruence|].
    pose proof (skip_ws_cons_length _ _ _ Es) as Ls.
    destruct (N.eqb c c_lbrace).
    { destruct (skip_ws r0) as [|c' r'] eqn:Er; [congruence|].
      pose proof (skip_ws_cons_length _ _ _ Er) as Lr.
      destruct (N.eqb c' c_rbrace); [congruence|].
      intros H. apply pmap_fuel in H. revert H. apply IHm. simpl. lia. }
    destruct (N.eqb c c_lbracket).
    { destruct (skip_ws r0) as [|c' r'] eqn:Er; [congruence|].
      pose proof (skip_ws_cons_length _ _ _ Er) as Lr.
      destruct (N.eqb c' c_rbracket); [congruence|].
      intros H. apply pmap_fuel in H. revert H. apply IHe. simpl. lia. }
    destruct (N.eqb c c_dquote).
    { intros H. apply pmap_fuel in H. revert H. apply parse_chars_spec. }
    destruct (N.eqb c c_minus || is_digit c).
    { intros H. apply pmap_fuel in H. revert H. apply parse_number_spec. }
    repeat (break_if; try congruence).
  - intros s L. rewrite parse_elements_S.
    destruct (parse_value f s) as [v r0| |] eqn:Ev; try congruence.
    + apply Cv in Ev.
      destruct (skip_ws r0) as [|c r'] eqn:Er; [congruence|].
      pose proof (skip_ws_cons_length _ _ _ Er) as Lr.
      destruct (N.eqb c c_comma).
      { intros H. apply pmap_fuel in H. revert H. apply IHe. lia. }
      destruct (N.eqb c c_rbracket); congruence.
    + exfalso. revert Ev. apply IHv. lia.
  - intros s L. rewrite parse_members_S.
    destruct (skip_ws s) as [|q r0] eqn:Es; [congruence|].
    pose proof (skip_ws_cons_length _ _ _ Es) as Ls.
    destruct (N.eqb q c_dquote); [|congruence].
    destruct (parse_chars r0) as [k r1| |] eqn:Ek; try congruence.
    + apply parse_chars_spec in Ek.
      destruct (skip_ws r1) as [|c r2] eqn:E1; [congruence|].
      pose proof (skip_ws_cons_length _ _ _ E1) as L1.
      destruct (N.eqb c c_colon); [|congruence].
      destruct (parse_value f r2) as [v r3| |] eqn:Ev; try congruence.
      * apply Cv in Ev.
        destruct (skip_ws r3) as [|c' r4] eqn:E3; [congruence|].
        pose proof (skip_ws_cons_length _ _ _ E3) as L3.
        destruct (N.eqb c' c_comma).
        { intros H. apply pmap_fuel in H. revert H. apply IHm. lia. }
        destruct (N.eqb c' c_rbrace); congruence.
      * exfalso. revert Ev. apply IHv. lia.
    + exfalso. revert Ek. apply parse_chars_spec.
Qed.

Lemma JSON_parse_fuel (text : jsstring) :
  parse_value (json_fuel text) text <> PFuel.
Proof.
  apply parse_fuel_enough. unfold json_fuel. lia.
Qed.

Lemma starts_with_refl (s t : jsstring) : starts_with s (s ++ t) = true.
Proof.
  induction s as [|c s IH]; simpl; [reflexivity|].
  rewrite N.eqb_refl, IH. reflexivity.
Qed.

Lemma starts_with_firstn (n : nat) (s : jsstring) :
  starts_with (firstn n s) s = true.
Proof.
  revert n. induction s as [|c s IH]; intros [|n]; simpl; try reflexivity.
  rewrite N.eqb_refl, IH. reflexivity.
Qed.

Lemma starts_with_cons (c : char) (p s : jsstring) :
  starts_with (c :: p) s = true -> exists s', s = c :: s'.
Proof.
  destruct s as [|d s']; simpl; [discriminate|].
  destruct (N.eqb c d) eqn:E; [|discriminate].
  apply N.eqb_eq in E. subst. eauto.
Qed.

Lemma drop_space_all (w s : jsstring) :
  all_space w = true -> drop_space (w ++ s) = drop_space s.
Proof.
  induction w as [|c w IH]; simpl; [reflexivity|].
  intros H. apply andb_prop in H. destruct H as [Hc Hw].
  rewrite Hc. auto.
Qed.

Lemma drop_space_nonspace (a b : jsstring) (c : char) :
  is_space c = false -> drop_space (a ++ c :: b) = drop_space a ++ c :: b.
Proof.
  intros Hc. induction a as [|x a IH]; simpl.
  - rewrite Hc. reflexivity.
  - destruct (is_space x); [exact IH | reflexivity].
Qed.

Lemma drop_space_app (a b : jsstring) :
  drop_space (a ++ b) = if all_space a then drop_space b else drop_space a ++ b.
Proof.
  induction a as [|x a IH]; simpl; [reflexivity|].
  destruct (is_space x); simpl; [exact IH | reflexivity].
Qed.

Lemma drop_space_all_nil (w : jsstring) : all_space w = true -> drop_space w = [].
Proof.
  intros H. rewrite <- (app_nil_r w). rewrite drop_space_all; auto.
Qed.

Lemma drop_space_length (s : jsstring) : length (drop_space s) <= length s.
Proof.
  induction s as [|c s IH]; simpl; [lia|].
  destruct (is_space c); simpl; lia.
Qed.

Lemma drop_space_head (s : jsstring) :
  match drop_space s with
  | [] => True
  | c :: _ => is_space c = false
  end.
Proof.
  induction s as [|c s IH]; simpl; [exact I|].
  destruct (is_space c) eqn:E; [exact IH | exact E].
Qed.

Lemma skipn_count_space (s : jsstring) : skipn (count_space s) s = drop_space s.
Proof.
  induction s as [|c s IH]; simpl; [reflexivity|].
  destruct (is_space c); simpl; [exact IH | reflexivity].
Qed.

(** A string is its leading white space followed by the rest. *)
Lemma leading_space_split (s : jsstring) :
  exists w, all_space w = true /\ s = w ++ drop_space s.
Proof.
  induction s as [|c s [w [Hw Hs]]]; simpl.
  - exists []. split; reflexivity.
  - destruct (is_space c) eqn:E.
    + exists (c :: w). simpl. rewrite E, Hw. split; [reflexivity|].
      f_equal. exact Hs.
    + exists []. split; reflexivity.
Qed.

Lemma all_space_app (a b : jsstring) :
  all_space (a ++ b) = all_space a && all_space b.
Proof. unfold all_space. apply forallb_app. Qed.

Lemma all_space_rev (a : jsstring) : all_space (rev a) = all_space a.
Proof.
  induction a as [|c a IH]; simpl; [reflexivity|].
  rewrite all_space_app, IH. simpl. rewrite andb_true_r. apply andb_comm.
Qed.

Lemma trimEnd_space (z w : jsstring) :
  all_space w = true -> trimEnd (z ++ w) = trimEnd z.
Proof.
  intros H. unfold trimEnd. rewrite rev_app_distr.
  rewrite drop_space_all; [reflexivity|]. rewrite all_space_rev. exact H.
Qed.

Lemma trim_space_suffix (z w : jsstring) :
  all_space w = true -> trim (z ++ w) = trim z.
Proof.
  intros H. unfold trim. rewrite drop_space_app.
  destruct (all_space z) eqn:Ez.
  - rewrite (drop_space_all_nil _ H), (drop_space_all_nil _ Ez). reflexivity.
  - apply trimEnd_space. exact H.
Qed.

Lemma trim_space_prefix (w z : jsstring) :
  all_space w = true -> trim (w ++ z) = trim z.
Proof.
  intros H. unfold trim. rewrite drop_space_all; auto.
Qed.

Lemma trimEnd_nonspace (a : jsstring) (c : char) :
  is_space c = false -> trimEnd (a ++ [c]) = a ++ [c].
Proof.
  intros H. unfold trimEnd. rewrite rev_app_distr. simpl. rewrite H.
  simpl. rewrite rev_involutive. reflexivity.
Qed.

(* ------------------------------------------------------------------ *)
(** ** Facts about fence stripping                                      *)
(* ------------------------------------------------------------------ *)

Section ReplaceAll.

Variable match_at : jsstring -> option nat.
Variable rep : jsstring.

Lemma replace_all_skip (k : nat) (s : jsstring) :
  replace_all match_at rep k s = replace_all match_at rep 0 (skipn k s).
Proof.
  revert k. induction s as [|c r IH]; intros [|k]; simpl; try reflexivity.
  apply IH.
Qed.

Lemma replace_all_match (s : jsstring) (n : nat) :
  s <> [] -> match_at s = Some (S n) ->
  replace_all match_at rep 0 s =
  rep ++ replace_all match_at rep 0 (skipn (S n) s).
Proof.
  destruct s as [|c r]; [congruence|]. intros _ H. simpl. rewrite H.
  rewrite replace_all_skip. reflexivity.
Qed.

Lemma replace_all_pass (c : char) (r : jsstring) :
  match_at (c :: r) = None ->
  replace_all match_at rep 0 (c :: r) = c :: replace_all match_at rep 0 r.
Proof.
  intros H. simpl. rewrite H. reflexivity.
Qed.

End ReplaceAll.

Lemma strip_fences_eq (text : jsstring) : strip_fences text = trim (replace_backticks (replace_fences text)).
Proof. reflexivity. Qed.

Lemma space_not_backtick (c : char) : is_space c = true -> N.eqb c_backtick c = false.
Proof.
  intros H. destruct (N.eqb c_backtick c) eqn:E; [|reflexivity].
  apply N.eqb_eq in E. subst c. discriminate.
Qed.

Lemma fence_at_head (c : char) (r : jsstring) :
  N.eqb c_backtick c = false -> fence_at (c :: r) = None.
Proof.
  intros H. unfold fence_at, fence. cbn [starts_with]. rewrite H. reflexivity.
Qed.

Lemma backticks_at_head (c : char) (r : jsstring) :
  N.eqb c_backtick c = false -> backticks_at (c :: r) = None.
Proof.
  intros H. unfold backticks_at, fence. cbn [starts_with]. rewrite H. reflexivity.
Qed.

Lemma replace_fences_space_prefix (w x : jsstring) :
  all_space w = true -> replace_fences (w ++ x) = w ++ replace_fences x.
Proof.
  induction w as [|c w IH]; simpl; [reflexivity|].
  intros H. apply andb_prop in H. destruct H as [Hc Hw].
  unfold replace_fences. rewrite replace_all_pass by (apply fence_at_head, space_not_backtick, Hc).
  f_equal. apply IH, Hw.
Qed.

Lemma replace_backticks_space_prefix (w x : jsstring) :
  all_space w = true -> replace_backticks (w ++ x) = w ++ replace_backticks x.
Proof.
  induction w as [|c w IH]; simpl; [reflexivity|].
  intros H. apply andb_prop in H. destruct H as [Hc Hw].
  unfold replace_backticks. rewrite replace_all_pass by (apply backticks_at_head, space_not_backtick, Hc).
  f_equal. apply IH, Hw.
Qed.

Lemma starts_with_inv (p s : jsstring) :
  starts_with p s = true -> exists r, s = p ++ r.
Proof.
  revert s. induction p as [|c p IH]; intros s H.
  - exists s. reflexivity.
  - destruct s as [|d s]; [discriminate|]. simpl in H.
    apply andb_prop in H. destruct H as [E H]. apply N.eqb_eq in E. subst d.
    destruct (IH _ H) as [r ->]. exists r. reflexivity.
Qed.

(** White space after a text does not make it start with a fence. *)
Lemma starts_with_fence_app (u x : jsstring) (sp : char) :
  is_space sp = true ->
  starts_with fence (u ++ sp :: x) = starts_with fence u.
Proof.
  intros Hsp. pose proof (space_not_backtick _ Hsp) as Hb.
  unfold fence.
  destruct u as [|a [|b [|c u]]]; cbn [app starts_with];
    rewrite ?Hb, ?andb_false_r; reflexivity.
Qed.

Lemma ci_eq_space (l c : char) :
  is_space c = true -> In l (str "json") -> ci_eq l c = false.
Proof.
  intros Hs Hl. unfold ci_eq.
  destruct (N.eqb c l) eqn:E1.
  { apply N.eqb_eq in E1. subst c. simpl in Hl.
    repeat (destruct Hl as [<-|Hl]; [discriminate|]). destruct Hl. }
  destruct (N.eqb c (l - 32)) eqn:E2; [|reflexivity].
  apply N.eqb_eq in E2. subst c. simpl in Hl.
  repeat (destruct Hl as [<-|Hl]; [discriminate|]). destruct Hl.
Qed.

Lemma starts_with_json_app (u x : jsstring) (sp : char) :
  is_space sp = true ->
  starts_with_ci (str "json") (u ++ sp :: x) = starts_with_ci (str "json") u.
Proof.
  intros Hsp.
  assert (J : forall l, In l (str "json") -> ci_eq l sp = false)
    by (intros l Hl; apply ci_eq_space; assumption).
  destruct u as [|a [|b [|c [|d u]]]]; cbn [app starts_with_ci str map list_ascii_of_string];
    rewrite ?J, ?andb_false_r; try reflexivity; simpl; auto 6.
Qed.

Lemma replace_fences_fence : replace_fences fence = [].
Proof. reflexivity. Qed.

Lemma replace_fences_nil : replace_fences [] = [].
Proof. reflexivity. Qed.

Lemma replace_fences_at_fence (r : jsstring) : replace_fences (fence ++ r) = replace_fences (after_fence r).
Proof.
  unfold after_fence.
  set (j := if starts_with_ci (str "json") r then 4 else 0).
  set (w := count_space (skipn j r)).
  unfold replace_fences.
  rewrite (replace_all_match fence_at [] (fence ++ r) (2 + j + w)).
  - cbn [app]. f_equal.
    replace (S (2 + j + w)) with (w + j + 3) by lia.
    rewrite <- skipn_skipn. change (skipn 3 (fence ++ r)) with r.
    rewrite <- skipn_skipn. apply skipn_count_space.
  - discriminate.
  - unfold fence_at. rewrite starts_with_refl. reflexivity.
Qed.

Lemma after_fence_length (r : jsstring) : length (after_fence r) <= length r.
Proof.
  unfold after_fence.
  pose proof (drop_space_length
    (skipn (if starts_with_ci (str "json") r then 4 else 0) r)) as H.
  rewrite length_skipn in H. lia.
Qed.

Lemma starts_with_ci_length (p s : jsstring) :
  starts_with_ci p s = true -> length p <= length s.
Proof.
  revert s. induction p as [|l p IH]; intros s H; simpl; [lia|].
  destruct s as [|c s]; [discriminate|]. simpl in H.
  apply andb_prop in H. destruct H as [_ H]. apply IH in H. simpl. lia.
Qed.

Lemma after_fence_app (r x : jsstring) (sp : char) :
  is_space sp = true ->
  after_fence (r ++ sp :: x) =
  if all_space (skipn (if starts_with_ci (str "json") r then 4 else 0) r)
  then drop_space (sp :: x)
  else after_fence r ++ sp :: x.
Proof.
  intros Hsp. unfold after_fence. rewrite (starts_with_json_app _ _ _ Hsp).
  destruct (starts_with_ci (str "json") r) eqn:J.
  - apply starts_with_ci_length in J. change (length (str "json")) with 4 in J.
    rewrite skipn_app. replace (4 - length r) with 0 by lia.
    cbn [skipn]. apply drop_space_app.
  - cbn [skipn]. apply drop_space_app.
Qed.

Lemma replace_fences_pass (c : char) (r : jsstring) :
  starts_with fence (c :: r) = false -> replace_fences (c :: r) = c :: replace_fences r.
Proof.
  intros F. unfold replace_fences. apply replace_all_pass. unfold fence_at. rewrite F.
  reflexivity.
Qed.

Lemma replace_backticks_pass (c : char) (r : jsstring) :
  starts_with fence (c :: r) = false -> replace_backticks (c :: r) = c :: replace_backticks r.
Proof.
  intros F. unfold replace_backticks. apply replace_all_pass. unfold backticks_at. rewrite F.
  reflexivity.
Qed.

(** A closing fence on a line of its own adds at most white space to
    the result of the first replacement. *)
Lemma replace_fences_end (n : nat) :
  forall u w2, length u <= n -> all_space w2 = true -> w2 <> [] ->
  exists w', all_space w' = true /\ replace_fences (u ++ w2 ++ fence) = replace_fences u ++ w'.
Proof.
  induction n as [|n IH]; intros u w2 L Hw Hne.
  - destruct u; [|simpl in L; lia]. exists w2. split; [exact Hw|].
    cbn [app]. rewrite replace_fences_space_prefix by exact Hw. rewrite replace_fences_fence, replace_fences_nil.
    apply app_nil_r.
  - destruct w2 as [|sp w2']; [congruence|].
    assert (Hsp : is_space sp = true) by (simpl in Hw; apply andb_prop in Hw; tauto).
    destruct u as [|c r].
    { exists (sp :: w2'). split; [exact Hw|].
      change ([] ++ (sp :: w2') ++ fence) with ((sp :: w2') ++ fence).
      rewrite replace_fences_space_prefix by exact Hw.
      rewrite replace_fences_fence, replace_fences_nil. apply app_nil_r. }
    destruct (starts_with fence (c :: r)) eqn:F.
    + destruct (starts_with_inv _ _ F) as [r3 E]. rewrite E.
      assert (L3 : length r3 <= n).
      { apply (f_equal (@length char)) in E. rewrite length_app in E.
        simpl in E, L. lia. }
      rewrite <- app_assoc. rewrite !replace_fences_at_fence.
      change ((sp :: w2') ++ fence) with (sp :: w2' ++ fence).
      rewrite (after_fence_app _ _ _ Hsp).
      destruct (all_space (skipn (if starts_with_ci (str "json") r3 then 4 else 0) r3))
        eqn:A.
      * exists []. split; [reflexivity|].
        change (sp :: w2' ++ fence) with ((sp :: w2') ++ fence).
        rewrite (drop_space_all _ _ Hw). change (drop_space fence) with fence.
        rewrite replace_fences_fence. unfold after_fence. rewrite (drop_space_all_nil _ A).
        reflexivity.
      * change (sp :: w2' ++ fence) with ((sp :: w2') ++ fence).
        apply IH; [|exact Hw|discriminate].
        pose proof (after_fence_length r3). lia.
    + assert (F' : starts_with fence ((c :: r) ++ (sp :: w2') ++ fence) = false).
      { change ((sp :: w2') ++ fence) with (sp :: w2' ++ fence).
        rewrite (starts_with_fence_app _ _ _ Hsp). exact F. }
      destruct (IH r (sp :: w2')) as [w' [Hw' E]];
        [simpl in L; lia | exact Hw | discriminate |].
      exists w'. split; [exact Hw'|].
      change ((c :: r) ++ (sp :: w2') ++ fence)
        with (c :: (r ++ (sp :: w2') ++ fence)) in *.
      rewrite (replace_fences_pass _ _ F'), (replace_fences_pass _ _ F), E. reflexivity.
Qed.

Lemma replace_backticks_at_fence (r : jsstring) : replace_backticks (fence ++ r) = replace_backticks r.
Proof.
  unfold replace_backticks. rewrite (replace_all_match backticks_at [] (fence ++ r) 2).
  - reflexivity.
  - discriminate.
  - unfold backticks_at. rewrite starts_with_refl. reflexivity.
Qed.

Lemma replace_backticks_end (n : nat) :
  forall y w, length y <= n -> all_space w = true -> replace_backticks (y ++ w) = replace_backticks y ++ w.
Proof.
  induction n as [|n IH]; intros y w L Hw.
  - destruct y; [|simpl in L; lia]. cbn [app].
    rewrite <- (app_nil_r w) at 1. rewrite replace_backticks_space_prefix by exact Hw.
    change (replace_backticks []) with (@nil char). apply app_nil_r.
  - destruct y as [|c r].
    { cbn [app]. rewrite <- (app_nil_r w) at 1.
      rewrite replace_backticks_space_prefix by exact Hw.
      change (replace_backticks []) with (@nil char). apply app_nil_r. }
    destruct (starts_with fence (c :: r)) eqn:F.
    + destruct (starts_with_inv _ _ F) as [r3 E]. rewrite E.
      rewrite <- app_assoc. rewrite !replace_backticks_at_fence. apply IH; [|exact Hw].
      apply (f_equal (@length char)) in E. rewrite length_app in E.
      simpl in E, L. lia.
    + assert (F' : starts_with fence ((c :: r) ++ w) = false).
      { destruct w as [|sp w']; [rewrite app_nil_r; exact F|].
        rewrite starts_with_fence_app; [exact F|].
        simpl in Hw. apply andb_prop in Hw. tauto. }
      change ((c :: r) ++ w) with (c :: (r ++ w)) in *.
      rewrite (replace_backticks_pass _ _ F'), (replace_backticks_pass _ _ F).
      rewrite IH; [reflexivity | simpl in L; lia | exact Hw].
Qed.

(** Stripping ignores white space in front of the text. *)
Lemma strip_fences_drop_space (t : jsstring) :
  strip_fences (drop_space t) = strip_fences t.
Proof.
  destruct (leading_space_split t) as [w [Hw E]].
  rewrite E at 2. rewrite !strip_fences_eq.
  rewrite replace_fences_space_prefix, replace_backticks_space_prefix, trim_space_prefix by exact Hw.
  reflexivity.
Qed.

Lemma strip_fences_all_space (t : jsstring) :
  all_space t = true -> strip_fences t = [].
Proof.
  intros H. rewrite strip_fences_eq. rewrite <- (app_nil_r t).
  rewrite replace_fences_space_prefix, replace_backticks_space_prefix, trim_space_prefix by exact H.
  reflexivity.
Qed.

(** The text left after an opening fence has been consumed, up to and
    including the closing fence, strips to what the text itself strips
    to. *)
Lemma strip_fences_closing (t w1 w2 : jsstring) :
  all_space w1 = true -> all_space w2 = true -> w2 <> [] ->
  trim (replace_backticks (replace_fences (drop_space (w1 ++ t ++ w2 ++ fence)))) = strip_fences t.
Proof.
  intros H1 H2 Hne. rewrite (drop_space_all _ _ H1).
  rewrite drop_space_app. destruct (all_space t) eqn:A.
  - rewrite (drop_space_all _ _ H2). change (drop_space fence) with fence.
    rewrite replace_fences_fence. rewrite (strip_fences_all_space _ A). reflexivity.
  - destruct (replace_fences_end _ (drop_space t) w2 (le_n _) H2 Hne) as [w' [Hw' E]].
    rewrite E. rewrite (replace_backticks_end _ _ _ (le_n _) Hw'). rewrite (trim_space_suffix _ _ Hw').
    rewrite <- strip_fences_eq. apply strip_fences_drop_space.
Qed.

Lemma strip_fences_fenced_json (t w1 w2 : jsstring) :
  all_space w1 = true -> all_space w2 = true -> w2 <> [] ->
  strip_fences (fenced_json w1 w2 t) = strip_fences t.
Proof.
  intros H1 H2 Hne. unfold fenced_json. rewrite strip_fences_eq, replace_fences_at_fence.
  unfold after_fence.
  assert (J : starts_with_ci (str "json") (str "json" ++ w1 ++ t ++ w2 ++ fence)
              = true) by reflexivity.
  rewrite J.
  change (skipn 4 (str "json" ++ w1 ++ t ++ w2 ++ fence)) with (w1 ++ t ++ w2 ++ fence).
  apply strip_fences_closing; assumption.
Qed.

Lemma strip_fences_fenced_plain (t w1 w2 : jsstring) :
  all_space w1 = true -> w1 <> [] -> all_space w2 = true -> w2 <> [] ->
  strip_fences (fenced_plain w1 w2 t) = strip_fences t.
Proof.
  intros H1 Hne1 H2 Hne. unfold fenced_plain. rewrite strip_fences_eq, replace_fences_at_fence.
  unfold after_fence.
  destruct w1 as [|sp w1']; [congruence|].
  assert (Hsp : is_space sp = true) by (simpl in H1; apply andb_prop in H1; tauto).
  replace (starts_with_ci (str "json") ((sp :: w1') ++ t ++ w2 ++ fence)) with false.
  - cbn [skipn]. apply strip_fences_closing; assumption.
  - symmetry. cbn [app str map list_ascii_of_string starts_with_ci].
    rewrite ci_eq_space; [reflexivity | exact Hsp | simpl; auto].
Qed.

(** The first code unit after white space decides whether a JSON text
    denotes an object. *)
Lemma parse_value_object (f : nat) (s r r0 : jsstring) (c : char) (v : value) :
  parse_value (S f) s = POk v r -> skip_ws s = c :: r0 ->
  is_object v = N.eqb c c_lbrace.
Proof.
  rewrite parse_value_S. intros H E. rewrite E in H.
  destruct (N.eqb c c_lbrace) eqn:B.
  { destruct (skip_ws r0) as [|c' r']; [discriminate|].
    destruct (N.eqb c' c_rbrace).
    - inversion H; reflexivity.
    - apply pmap_ok in H. destruct H as [ms [_ ->]]. reflexivity. }
  destruct (N.eqb c c_lbracket).
  { destruct (skip_ws r0) as [|c' r']; [discriminate|].
    destruct (N.eqb c' c_rbracket).
    - inversion H; reflexivity.
    - apply pmap_ok in H. destruct H as [ms [_ ->]]. reflexivity. }
  destruct (N.eqb c c_dquote).
  { apply pmap_ok in H. destruct H as [ms [_ ->]]. reflexivity. }
  destruct (N.eqb c c_minus || is_digit c).
  { apply pmap_ok in H. destruct H as [ms [_ ->]]. reflexivity. }
  destruct (starts_with (str "true") (c :: r0)); [inversion H; reflexivity|].
  destruct (starts_with (str "false") (c :: r0)); [inversion H; reflexivity|].
  destruct (starts_with (str "null") (c :: r0)); [inversion H; reflexivity|].
  discriminate.
Qed.

Lemma JSON_parse_object (c : char) (s : jsstring) (v : value) :
  is_json_ws c = false -> JSON_parse (c :: s) = Return v ->
  is_object v = N.eqb c c_lbrace.
Proof.
  intros W H. unfold JSON_parse in H.
  destruct (parse_value (json_fuel (c :: s)) (c :: s)) as [v' r| |] eqn:P;
    try discriminate.
  destruct (skip_ws r); [|discriminate]. inversion H; subst v'.
  unfold json_fuel in P. rewrite Nat.add_1_r in P.
  apply (parse_value_object _ _ _ s c _ P). simpl. rewrite W. reflexivity.
Qed.

Lemma JSON_parse_nil : JSON_parse [] = Throw SyntaxError.
Proof. reflexivity. Qed.

Lemma space_of_json_ws (c : char) : is_space c = false -> is_json_ws c = false.
Proof.
  intros H. unfold is_json_ws.
  destruct (N.eqb c 9) eqn:E1; [apply N.eqb_eq in E1; subst; discriminate|].
  destruct (N.eqb c 10) eqn:E2; [apply N.eqb_eq in E2; subst; discriminate|].
  destruct (N.eqb c 13) eqn:E3; [apply N.eqb_eq in E3; subst; discriminate|].
  destruct (N.eqb c 32) eqn:E4; [apply N.eqb_eq in E4; subst; discriminate|].
  reflexivity.
Qed.

Lemma get_action_object (v : value) :
  truthy (get v (str "action")) = true -> is_object v = true.
Proof.
  destruct v; simpl; try discriminate. reflexivity.
Qed.

(** The match of the command pattern starts with an opening brace. *)
Lemma action_match_head (s m : jsstring) :
  action_match s = Some m -> exists m', m = c_lbrace :: m'.
Proof.
  induction s as [|c r IH]; simpl; [discriminate|].
  destruct (N.eqb c c_lbrace) eqn:B; [|exact IH].
  destruct (action_body r) as [n|]; [|exact IH].
  intros H; inversion H. apply N.eqb_eq in B. subst c. eauto.
Qed.

Lemma indexOf_from_found (i j : nat) (s m : jsstring) :
  indexOf_from i s m = Some j ->
  i <= j /\ starts_with m (skipn (j - i) s) = true.
Proof.
  revert i. induction s as [|c r IH]; intros i; simpl.
  - destruct (starts_with m []) eqn:E; [|discriminate].
    intros H; inversion H; subst. rewrite Nat.sub_diag. simpl. auto.
  - destruct (starts_with m (c :: r)) eqn:E.
    + intros H; inversion H; subst. rewrite Nat.sub_diag. simpl. auto.
    + intros H. apply IH in H. destruct H as [L H]. split; [lia|].
      replace (j - i) with (S (j - S i)) by lia. exact H.
Qed.

Lemma brace_walk_some (d : Z) (len n : nat) (s : jsstring) :
  brace_walk d len s = Some n -> len < n.
Proof.
  revert d len. induction s as [|c r IH]; intros d len; simpl; [discriminate|].
  match goal with |- context [Z.eqb ?x 0] => destruct (Z.eqb x 0) end.
  - intros H; inversion H; lia.
  - intros H. apply IH in H. lia.
Qed.

(** Whatever the scan returns is an object. *)
Lemma scan_attempt_object (cleaned : jsstring) (v : value) :
  scan_attempt cleaned = Return (Some v) -> is_object v = true.
Proof.
  unfold scan_attempt.
  destruct (action_match cleaned) as [m|] eqn:M; [|discriminate].
  destruct (action_match_head _ _ M) as [m' ->].
  destruct (indexOf cleaned (c_lbrace :: m')) as [start|] eqn:I.
  - apply indexOf_from_found in I. destruct I as [_ I].
    rewrite Nat.sub_0_r in I. apply starts_with_cons in I. destruct I as [s' E].
    rewrite E.
    destruct (brace_walk 0 0 (c_lbrace :: s')) as [n|] eqn:W; [|discriminate].
    apply brace_walk_some in W. destruct n as [|n]; [lia|].
    cbn [firstn].
    destruct (JSON_parse (c_lbrace :: firstn n s')) as [v'|] eqn:P; [|discriminate].
    simpl. intros H; inversion H; subst v'.
    rewrite (JSON_parse_object c_lbrace _ _ eq_refl P). reflexivity.
  - rewrite JSON_parse_nil. discriminate.
Qed.

Lemma parse_nonempty (c : char) (t : jsstring) :
  _parseJsonCommand (c :: t) = after_cleaning (strip_fences (c :: t)).
Proof. reflexivity. Qed.

Lemma after_cleaning_nil : after_cleaning [] = Return None.
Proof. reflexivity. Qed.

(** The parse depends on the text only through its stripped form. *)
Lemma parse_by_cleaning (a b : jsstring) :
  a <> [] -> strip_fences a = strip_fences b ->
  _parseJsonCommand a = _parseJsonCommand b.
Proof.
  intros Ha E. destruct a as [|c a]; [congruence|].
  rewrite parse_nonempty, E. destruct b as [|d b].
  - change (strip_fences []) with (@nil char). apply after_cleaning_nil.
  - symmetry. apply parse_nonempty.
Qed.

(** Fences on their own lines never change the parse. *)
Lemma parse_fenced_json (t w1 w2 : jsstring) :
  all_space w1 = true -> all_space w2 = true -> w2 <> [] ->
  _parseJsonCommand (fenced_json w1 w2 t) = _parseJsonCommand t.
Proof.
  intros H1 H2 Hne. apply parse_by_cleaning; [discriminate|].
  apply strip_fences_fenced_json; assumption.
Qed.

Lemma parse_fenced_plain (t w1 w2 : jsstring) :
  all_space w1 = true -> w1 <> [] -> all_space w2 = true -> w2 <> [] ->
  _parseJsonCommand (fenced_plain w1 w2 t) = _parseJsonCommand t.
Proof.
  intros H1 Hn1 H2 Hne. apply parse_by_cleaning; [discriminate|].
  apply strip_fences_fenced_plain; assumption.
Qed.

Lemma replace_fences_no_backtick (s : jsstring) : no_backtick s = true -> replace_fences s = s.
Proof.
  induction s as [|c r IH]; [reflexivity|]. simpl. intros H.
  apply andb_prop in H. destruct H as [Hc Hr].
  apply negb_true_iff in Hc. rewrite N.eqb_sym in Hc.
  unfold replace_fences. rewrite replace_all_pass by (apply fence_at_head, Hc).
  f_equal. apply IH, Hr.
Qed.

Lemma replace_backticks_no_backtick (s : jsstring) : no_backtick s = true -> replace_backticks s = s.
Proof.
  induction s as [|c r IH]; [reflexivity|]. simpl. intros H.
  apply andb_prop in H. destruct H as [Hc Hr].
  apply negb_true_iff in Hc. rewrite N.eqb_sym in Hc.
  unfold replace_backticks. rewrite replace_all_pass by (apply backticks_at_head, Hc).
  f_equal. apply IH, Hr.
Qed.

Lemma forallb_drop_space (f : char -> bool) (s : jsstring) :
  forallb f s = true -> forallb f (drop_space s) = true.
Proof.
  induction s as [|c r IH]; simpl; [auto|].
  intros H. destruct (is_space c); [|exact H].
  apply andb_prop in H. apply IH. tauto.
Qed.

Lemma brace_not_space (c : char) : is_brace c = true -> is_space c = false.
Proof.
  unfold is_brace. intros H. apply orb_prop in H.
  destruct H as [H|H]; apply N.eqb_eq in H; subst c; reflexivity.
Qed.

(** A walk that starts inside braces and closes at the last code unit
    closes on a brace. *)
Lemma brace_walk_last (s : jsstring) :
  forall d len, d <> 0%Z -> brace_walk d len s = Some (len + length s) ->
  exists s' c, s = s' ++ [c] /\ is_brace c = true.
Proof.
  induction s as [|c r IH]; intros d len Hd; simpl; [discriminate|].
  unfold is_brace.
  destruct (N.eqb c c_lbrace) eqn:B1; destruct (N.eqb c c_rbrace) eqn:B2;
    match goal with |- context [Z.eqb ?x 0] => destruct (Z.eqb x 0) eqn:Z0 end;
    intros H;
    try (inversion H; assert (r = []) by (destruct r; [reflexivity|simpl in *; lia]);
         subst r; exists [], c; rewrite B1, B2; split; reflexivity);
    try (apply Z.eqb_eq in Z0; lia);
    try (apply Z.eqb_neq in Z0;
         replace (len + S (length r)) with (S len + length r) in H by lia;
         destruct (IH _ _ Z0 H) as [s' [c' [-> Hc]]];
         exists (c :: s'), c'; split; [reflexivity | exact Hc]).
Qed.

(** The shape of a command text. *)
Lemma command_text_shape (t : jsstring) :
  command_text t = true ->
  exists r n s' c,
    t = c_lbrace :: r /\ action_body r = Some n /\
    brace_walk 0 0 t = Some (length t) /\
    r = s' ++ [c] /\ is_space c = false /\ no_backtick t = true.
Proof.
  unfold command_text. intros H. apply andb_prop in H. destruct H as [Hb H].
  destruct t as [|c r]; [discriminate|].
  apply andb_prop in H. destruct H as [H Hw].
  apply andb_prop in H. destruct H as [Hc Ha].
  apply N.eqb_eq in Hc. subst c.
  destruct (action_body r) as [n|] eqn:A; [|discriminate].
  destruct (brace_walk 0 0 (c_lbrace :: r)) as [m|] eqn:W; [|discriminate].
  apply Nat.eqb_eq in Hw. subst m.
  assert (W' : brace_walk 1 1 r = Some (1 + length r)) by exact W.
  destruct (brace_walk_last r 1 1 ltac:(lia) W') as [s' [c [-> Hc]]].
  exists (s' ++ [c]), n, s', c. repeat split; auto using brace_not_space.
Qed.

Lemma trim_prose_command (p r : jsstring) (c : char) :
  is_space c = false ->
  trim (p ++ c_lbrace :: r ++ [c]) = drop_space p ++ c_lbrace :: r ++ [c].
Proof.
  intros Hc. unfold trim. rewrite drop_space_nonspace by reflexivity.
  replace (drop_space p ++ c_lbrace :: r ++ [c])
    with ((drop_space p ++ c_lbrace :: r) ++ [c])
    by (rewrite <- app_assoc; reflexivity).
  apply trimEnd_nonspace, Hc.
Qed.

Lemma strip_prose_command (p r : jsstring) (c : char) :
  is_space c = false -> no_backtick (p ++ c_lbrace :: r ++ [c]) = true ->
  strip_fences (p ++ c_lbrace :: r ++ [c]) = drop_space p ++ c_lbrace :: r ++ [c].
Proof.
  intros Hc Hb. rewrite strip_fences_eq, (replace_fences_no_backtick _ Hb), (replace_backticks_no_backtick _ Hb).
  apply trim_prose_command, Hc.
Qed.

Lemma action_match_prose (p t : jsstring) :
  no_lbrace p = true -> action_match (p ++ t) = action_match t.
Proof.
  induction p as [|c p IH]; [reflexivity|]. simpl. intros H.
  apply andb_prop in H. destruct H as [Hc Hp].
  apply negb_true_iff in Hc. rewrite Hc. apply IH, Hp.
Qed.

Lemma indexOf_prose (p t m' : jsstring) (i : nat) :
  no_lbrace p = true -> starts_with (c_lbrace :: m') t = true ->
  indexOf_from i (p ++ t) (c_lbrace :: m') = Some (i + length p).
Proof.
  revert i. induction p as [|c p IH]; intros i Hp Ht.
  - cbn [app length]. rewrite Nat.add_0_r.
    destruct t as [|d t]; [discriminate|].
    cbn [indexOf_from]. rewrite Ht. reflexivity.
  - simpl in Hp. apply andb_prop in Hp. destruct Hp as [Hc Hp].
    apply negb_true_iff in Hc. rewrite N.eqb_sym in Hc.
    cbn [app indexOf_from starts_with length]. rewrite Hc. cbn [andb].
    rewrite IH by assumption. f_equal. lia.
Qed.

(** On prose followed by a command text the scan parses the command
    text. *)
Lemma scan_prose_command (p t : jsstring) :
  no_lbrace p = true -> command_text t = true ->
  scan_attempt (p ++ t) = (v <- JSON_parse t ;; Return (Some v)).
Proof.
  intros Hp Ht. destruct (command_text_shape _ Ht) as [r [n [s' [c [E [A [W _]]]]]]].
  unfold scan_attempt. rewrite (action_match_prose _ _ Hp).
  rewrite E at 1. cbn [action_match]. rewrite N.eqb_refl, A.
  unfold indexOf. rewrite <- E.
  assert (F : firstn (S n) t = c_lbrace :: firstn n r) by (rewrite E; reflexivity).
  rewrite F. rewrite indexOf_prose;
    [|exact Hp | rewrite <- F; apply starts_with_firstn].
  cbn [Nat.add]. rewrite skipn_app, skipn_all, Nat.sub_diag. cbn [app skipn].
  rewrite W, firstn_all. reflexivity.
Qed.

(** The parse of a command text. *)
Lemma parse_command_text (t : jsstring) :
  command_text t = true ->
  _parseJsonCommand t = Return (fall_through (v <- JSON_parse t ;; Return (Some v))).
Proof.
  intros Ht. destruct (command_text_shape _ Ht) as [r [n [s' [c [E [_ [_ [Er [Hc Hb]]]]]]]]].
  pose proof (scan_prose_command [] t eq_refl Ht) as S. cbn [app] in S.
  assert (C : strip_fences t = t).
  { pose proof (strip_prose_command [] s' c Hc) as Q. cbn [app drop_space] in Q.
    rewrite E, Er. apply Q. rewrite <- Er, <- E. exact Hb. }
  rewrite E at 1. rewrite parse_nonempty, <- E, C.
  unfold after_cleaning. rewrite S. unfold whole_text_attempt.
  destruct (JSON_parse t) as [v|e]; cbn [bind fall_through]; [|reflexivity].
  destruct (truthy v && truthy (get v (str "action"))); reflexivity.
Qed.

(** Prose in front of a command text does not change the parse. *)
Lemma parse_prose_command (p t : jsstring) :
  plain_prose p = true -> command_text t = true ->
  _parseJsonCommand (p ++ t) = _parseJsonCommand t.
Proof.
  intros Hp Ht. rewrite (parse_command_text _ Ht).
  destruct (command_text_shape _ Ht) as [r [n [s' [c [E [_ [_ [Er [Hc Hb]]]]]]]]].
  unfold plain_prose in Hp. apply andb_prop in Hp. destruct Hp as [Hpb Hpl].
  assert (C : strip_fences (p ++ t) = drop_space p ++ t).
  { rewrite E, Er. apply strip_prose_command; [exact Hc|].
    rewrite <- Er, <- E. unfold no_backtick. rewrite forallb_app.
    apply andb_true_intro. split; assumption. }
  assert (Ne : exists x y, p ++ t = x :: y).
  { destruct p; [rewrite E|]; simpl; eauto. }
  destruct Ne as [x [y Ne]]. rewrite Ne, parse_nonempty, <- Ne, C.
  unfold after_cleaning.
  rewrite (scan_prose_command _ _ (forallb_drop_space _ _ Hpl) Ht).
  assert (Wh : fall_through (whole_text_attempt (drop_space p ++ t)) = None
            \/ drop_space p = []).
  { destruct (drop_space p) as [|a q] eqn:D; [right; reflexivity|left].
    pose proof (drop_space_head p) as Ha. rewrite D in Ha.
    assert (La : N.eqb a c_lbrace = false).
    { pose proof (forallb_drop_space _ _ Hpl) as L. rewrite D in L.
      simpl in L. apply andb_prop in L. destruct L as [L _].
      apply negb_true_iff in L. exact L. }
    unfold whole_text_attempt. cbn [app].
    destruct (JSON_parse (a :: q ++ t)) as [v|e] eqn:P; [|reflexivity].
    cbn [bind].
    pose proof (JSON_parse_object _ _ _ (space_of_json_ws _ Ha) P) as O.
    rewrite La in O.
    destruct (truthy (get v (str "action"))) eqn:G.
    - apply get_action_object in G. congruence.
    - rewrite andb_false_r. reflexivity. }
  destruct Wh as [Wh|Wh].
  - rewrite Wh.
    destruct (fall_through (v <- JSON_parse t ;; Return (Some v))); reflexivity.
  - rewrite Wh. cbn [app]. unfold whole_text_attempt.
    destruct (JSON_parse t) as [v|e]; cbn [bind fall_through]; [|reflexivity].
    destruct (truthy v && truthy (get v (str "action"))); reflexivity.
Qed.


(* ------------------------------------------------------------------ *)
(** ** Facts about conversions                                          *)
(* ------------------------------------------------------------------ *)

(** Induction on a value and, with it, on the values it holds. *)
Lemma value_nested_ind (P : value -> Prop) :
  P VUndefined -> P VNull -> (forall b, P (VBool b)) ->
  (forall n, P (VNumber n)) -> (forall s, P (VString s)) ->
  (forall items, Forall P items -> P (VArray items)) ->
  (forall ms, Forall (fun kv : jsstring * value => P (snd kv)) ms ->
              P (VObject ms)) ->
  forall v, P v.
Proof.
  intros Hu Hn Hb Hnum Hs Ha Ho.
  fix IH 1. intros [| |b|n|s|items|ms].
  - exact Hu.
  - exact Hn.
  - apply Hb.
  - apply Hnum.
  - apply Hs.
  - apply Ha.
    exact ((fix go (l : list value) : Forall P l :=
              match l with
              | [] => Forall_nil P
              | x :: r => Forall_cons x (IH x) (go r)
              end) items).
  - apply Ho.
    exact ((fix go (l : list (jsstring * value))
              : Forall (fun kv : jsstring * value => P (snd kv)) l :=
              match l with
              | [] => Forall_nil _
              | kv :: r => Forall_cons kv (IH (snd kv)) (go r)
              end) ms).
Qed.

(** A [map] whose callback throws nothing but TypeError throws nothing
    else. *)
Lemma map_result_TypeError {A B : Type} (f : A -> result B) (xs : list A) :
  Forall (fun x => forall e, f x = Throw e -> e = TypeError) xs ->
  forall e, map_result f xs = Throw e -> e = TypeError.
Proof.
  induction 1 as [|x xs Hx _ IH]; intros e; cbn [map_result]; [discriminate|].
  destruct (f x) as [y|e0] eqn:F; cbn [bind].
  - destruct (map_result f xs) as [ys|e1]; cbn [bind]; [discriminate|].
    intros H. injection H as <-. apply IH. reflexivity.
  - intros H. injection H as <-. apply Hx. reflexivity.
Qed.

Lemma map_result_length {A B : Type} (f : A -> result B) (xs : list A)
  (ys : list B) :
  map_result f xs = Return ys -> length ys = length xs.
Proof.
  revert ys. induction xs as [|x xs IH]; intros ys; cbn [map_result].
  - intros H. injection H as <-. reflexivity.
  - destruct (f x) as [y|e]; cbn [bind]; [|discriminate].
    destruct (map_result f xs) as [ys'|e]; cbn [bind]; [|discriminate].
    intros H. injection H as <-. cbn [length]. f_equal. apply IH. reflexivity.
Qed.

(** The only exception of a conversion to a string is TypeError. *)
Lemma to_string_TypeError (number_to_string : jsnum -> jsstring) (v : value) :
  forall e, to_string number_to_string v = Throw e -> e = TypeError.
Proof.
  induction v as [| |b|n|s|items IH|ms _] using value_nested_ind; intros e;
    cbn [to_string]; try discriminate.
  - destruct b; discriminate.
  - destruct (map_result _ items) as [parts|e0] eqn:M; cbn [bind]; [discriminate|].
    intros H. injection H as <-.
    refine (map_result_TypeError _ items _ e0 M).
    apply Forall_impl with (2 := IH).
    intros x Hx e1. destruct x; try discriminate; apply Hx.
  - destruct (lookup (str "toString") ms); [|discriminate].
    intros H. injection H as <-. reflexivity.
Qed.

Lemma to_string_cases (number_to_string : jsnum -> jsstring) (v : value) :
  (exists s, to_string number_to_string v = Return s) \/
  to_string number_to_string v = Throw TypeError.
Proof.
  destruct (to_string number_to_string v) as [s|e] eqn:E; [left; eauto|].
  right. rewrite (to_string_TypeError _ _ _ E). reflexivity.
Qed.

(** A value that is not truthy converts. *)
Lemma to_string_falsy (number_to_string : jsnum -> jsstring) (v : value) :
  truthy v = false -> exists s, to_string number_to_string v = Return s.
Proof.
  destruct v as [| |b|n|s|items|ms]; cbn [truthy to_string]; intros H;
    try discriminate; eauto.
  destruct b; eauto.
Qed.

Lemma result_line_TypeError (number_to_string : jsnum -> jsstring)
  (ir : nat * search_result) :
  forall e, result_line number_to_string ir = Throw e -> e = TypeError.
Proof.
  intros e. destruct ir as [i r]. unfold result_line.
  destruct (to_string number_to_string (title r)) as [t|e1] eqn:T; cbn [bind];
    [|intros H; injection H as <-; exact (to_string_TypeError _ _ _ T)].
  destruct (to_string number_to_string (snippet r)) as [s|e1] eqn:S; cbn [bind];
    [|intros H; injection H as <-; exact (to_string_TypeError _ _ _ S)].
  destruct (to_string number_to_string (url r)) as [u|e1] eqn:U; cbn [bind];
    [discriminate|intros H; injection H as <-; exact (to_string_TypeError _ _ _ U)].
Qed.

Lemma formatSearchResults_cases (number_to_string : jsnum -> jsstring)
  (rs : list search_result) :
  (exists text, formatSearchResults number_to_string rs = Return text) \/
  formatSearchResults number_to_string rs = Throw TypeError.
Proof.
  unfold formatSearchResults. destruct rs as [|r rs]; [left; eauto|].
  destruct (map_result _ _) as [lines|e] eqn:M; cbn [bind]; [left; eauto|].
  right. f_equal. refine (map_result_TypeError _ _ _ e M).
  apply Forall_forall. intros ir _. apply result_line_TypeError.
Qed.

Lemma slice_value_cases (n : nat) (v : value) :
  (exists shown, slice_value n v = Return shown) \/
  slice_value n v = Throw TypeError.
Proof. destruct v; cbn; eauto. Qed.

(* ------------------------------------------------------------------ *)
(** ** Facts about the research agent                                   *)
(* ------------------------------------------------------------------ *)

Lemma parse_never_throws (text : jsstring) :
  exists r, _parseJsonCommand text = Return r.
Proof.
  destruct text as [|c t]; [exists None; reflexivity|].
  rewrite parse_nonempty. unfold after_cleaning.
  destruct (fall_through (whole_text_attempt (strip_fences (c :: t)))); eauto.
  destruct (fall_through (scan_attempt (strip_fences (c :: t)))); eauto.
Qed.

Lemma count_steps_app (a b : list event) :
  count_steps (a ++ b) = count_steps a + count_steps b.
Proof. unfold count_steps. rewrite filter_app, length_app. reflexivity. Qed.

Lemma count_chats_app (a b : list event) :
  count_chats (a ++ b) = count_chats a + count_chats b.
Proof. unfold count_chats. rewrite filter_app, length_app. reflexivity. Qed.

Lemma count_dispatches_app (a b : list event) :
  count_dispatches (a ++ b) = count_dispatches a + count_dispatches b.
Proof. unfold count_dispatches. rewrite filter_app, length_app. reflexivity. Qed.

Lemma slice0_length (n : nat) (s : jsstring) : length (slice0 n s) <= n.
Proof. unfold slice0. apply firstn_le_length. Qed.

Lemma slice0_long (n : nat) (s : jsstring) :
  n <= length s -> length (slice0 n s) = n.
Proof. intros H. unfold slice0. apply firstn_length_le, H. Qed.

Ltac io_simpl := cbn [io_bind emit io_ret io_lift io_try fst snd app].

Ltac count_simpl :=
  cbn [count_steps count_chats count_dispatches filter length is_dispatch].

Lemma io_bind_throw {A B : Type} (ev : list event) (e : exn) (k : A -> io B) :
  io_bind (ev, Throw e) k = (ev, Throw e).
Proof. reflexivity. Qed.

Lemma io_lift_bind {A B : Type} (r : result A) (k : A -> io B) :
  io_bind (io_lift r) k =
  match r with
  | Return a => k a
  | Throw e => ([], Throw e)
  end.
Proof. destruct r as [a|e]; cbn; [destruct (k a)|]; reflexivity. Qed.

Section Agent.

Variable completions_create : list message -> Z -> result value.
Variable dateContext : jsstring.
Variable number_to_string : jsnum -> jsstring.

Lemma chatMultiTurn_eq (messages : list message) (temperature : Z) :
  chatMultiTurn completions_create messages temperature =
  ([EvChat messages temperature], ask completions_create messages temperature).
Proof. reflexivity. Qed.

Lemma failed_completion_app_l (a b : list event) (e : exn) :
  failed_completion completions_create a e ->
  failed_completion completions_create (a ++ b) e.
Proof.
  intros [m [t [I A]]]. exists m, t. split; [|exact A].
  apply in_or_app. left. exact I.
Qed.

Lemma failed_completion_app_r (a b : list event) (e : exn) :
  failed_completion completions_create b e ->
  failed_completion completions_create (a ++ b) e.
Proof.
  intros [m [t [I A]]]. exists m, t. split; [|exact A].
  apply in_or_app. right. exact I.
Qed.

(** The question put to the model: one completion, two at step 0 when
    the first reply holds no command; it throws only when a completion
    does. *)
Lemma research_ask_spec (step : nat) (messages : list message) :
  exists ev r,
    research_ask completions_create step messages = (ev, r) /\
    count_steps ev = 0 /\ count_dispatches ev = 0 /\
    length ev = count_chats ev /\
    1 <= count_chats ev /\
    count_chats ev <= (if Nat.eqb step 0 then 2 else 1) /\
    forall e, r = Throw e -> failed_completion completions_create ev e.
Proof.
  unfold research_ask. rewrite chatMultiTurn_eq.
  destruct (ask completions_create messages 3) as [response|e] eqn:A1.
  2:{ cbn [io_bind]. do 2 eexists. split; [reflexivity|]. count_simpl.
      repeat split; try lia; [destruct (Nat.eqb step 0); lia|].
      intros e' H. injection H as <-. exists messages, 3%Z.
      split; [left; reflexivity | exact A1]. }
  cbn [io_bind].
  destruct (parse_never_throws response) as [cmd E]. rewrite E.
  rewrite io_lift_bind.
  destruct ((match cmd with None => true | Some c => negb (truthy c) end)
            && Nat.eqb step 0) eqn:N.
  - rewrite chatMultiTurn_eq.
    apply andb_prop in N. destruct N as [_ N]. rewrite N.
    match goal with
    | |- context [ask completions_create ?m 2%Z] =>
        destruct (ask completions_create m 2%Z) as [response2|e] eqn:A2
    end.
    + cbn [io_bind].
      destruct (parse_never_throws response2) as [cmd2 E2]. rewrite E2.
      rewrite io_lift_bind. io_simpl.
      do 2 eexists. split; [reflexivity|]. count_simpl.
      repeat split; try lia. discriminate.
    + cbn [io_bind app]. do 2 eexists. split; [reflexivity|]. count_simpl.
      repeat split; try lia.
      intros e' H. injection H as <-. do 2 eexists.
      split; [right; left; reflexivity | exact A2].
  - io_simpl. do 2 eexists. split; [reflexivity|]. count_simpl.
    repeat split; try lia; [destruct (Nat.eqb step 0); lia|discriminate].
Qed.

(** The Done branch: a summary of at most 1500 code units, or the
    TypeError of a conversion. *)
Lemma research_done_cases (c : value) (response : jsstring) :
  (exists s, research_done number_to_string c response = Return s /\
             length s <= 1500) \/
  research_done number_to_string c response = Throw TypeError.
Proof.
  unfold research_done, String_.
  destruct (get_length _) as [len|e] eqn:G; cbn [bind].
  2:{ right. f_equal. unfold js_or in G.
      destruct (truthy (get c (str "summary"))) eqn:T; [|discriminate].
      destruct (get c (str "summary")); try discriminate. }
  destruct (to_string_cases number_to_string len) as [[s1 ->]| ->]; cbn [bind];
    [|right; reflexivity].
  destruct (to_string_cases number_to_string
              (js_or (get c (str "summary")) (VString response)))
    as [[s2 ->]| ->]; cbn [bind]; [|right; reflexivity].
  left. eexists. split; [reflexivity | apply slice0_length].
Qed.

(** What the loop does with a command: at most one Search or Read, no
    completion; a summary it returns is at most 1500 code units long,
    and the only exception is the TypeError of a conversion, before the
    dispatch or right after it. *)
Lemma research_dispatch_spec (tools : search_tools) (topic response : jsstring)
  (messages : list message) (cmd : option value) :
  exists ev r,
    research_dispatch number_to_string tools topic response messages cmd = (ev, r) /\
    count_steps ev = 0 /\ count_chats ev = 0 /\
    match r with
    | Return (StepReturn s) => length s <= 1500 /\ ev = []
    | Return (StepBreak m) => ev = [] /\ m = messages
    | Return (StepNext _) => count_dispatches ev = 1 /\ length ev = 1
    | Throw e =>
        e = TypeError /\
        (ev = [] \/ exists d, ev = [d] /\ is_dispatch d = true)
    end.
Proof.
  unfold research_dispatch.
  destruct cmd as [c|].
  2:{ do 2 eexists. split; [reflexivity|]. count_simpl.
      repeat split; try lia. apply slice0_length. }
  destruct (no_valid_command (Some c)).
  { do 2 eexists. split; [reflexivity|]. count_simpl.
    repeat split; try lia. apply slice0_length. }
  destruct (is_string (get c (str "action")) (str "done")).
  { rewrite io_lift_bind.
    destruct (research_done_cases c response) as [[s [-> L]]| ->].
    - do 2 eexists. split; [reflexivity|]. count_simpl. repeat split; try lia.
    - do 2 eexists. split; [reflexivity|]. count_simpl. repeat split.
      left. reflexivity. }
  destruct (is_string (get c (str "action")) (str "search")).
  { unfold research_search, String_. rewrite io_lift_bind.
    destruct (to_string_cases number_to_string (get c (str "query")))
      as [[q ->]| ->].
    2:{ do 2 eexists. split; [reflexivity|]. count_simpl. repeat split.
        left. reflexivity. }
    cbn [io_bind emit]. rewrite io_lift_bind.
    match goal with
    | |- context [formatSearchResults number_to_string ?rs] =>
        destruct (formatSearchResults_cases number_to_string rs) as [[f ->]| ->]
    end.
    - io_simpl. do 2 eexists. split; [reflexivity|]. count_simpl.
      repeat split; lia.
    - io_simpl. do 2 eexists. split; [reflexivity|]. count_simpl.
      repeat split. right. eexists. split; reflexivity. }
  destruct (is_string (get c (str "action")) (str "read")).
  { unfold research_read, String_. rewrite io_lift_bind.
    destruct (slice_value_cases 60 (js_or (get c (str "url")) (VString [])))
      as [[shown ->]| ->].
    2:{ do 2 eexists. split; [reflexivity|]. count_simpl. repeat split.
        left. reflexivity. }
    rewrite io_lift_bind.
    destruct (to_string_cases number_to_string shown) as [[s ->]| ->].
    2:{ do 2 eexists. split; [reflexivity|]. count_simpl. repeat split.
        left. reflexivity. }
    cbn [io_bind emit]. rewrite io_lift_bind.
    destruct (to_string_cases number_to_string (get c (str "url")))
      as [[u ->]| ->].
    - io_simpl. do 2 eexists. split; [reflexivity|]. count_simpl.
      repeat split; lia.
    - io_simpl. do 2 eexists. split; [reflexivity|]. count_simpl.
      repeat split. right. eexists. split; reflexivity. }
  unfold String_. rewrite io_lift_bind.
  destruct (to_string_cases number_to_string (get c (str "action")))
    as [[a ->]| ->].
  - do 2 eexists. split; [reflexivity|]. count_simpl. repeat split.
  - do 2 eexists. split; [reflexivity|]. count_simpl. repeat split.
    left. reflexivity.
Qed.

(** The forced summary is at most 1500 code units long. *)
Lemma forced_summary_length (finalResp : jsstring) :
  length (forced_summary number_to_string finalResp) <= 1500.
Proof.
  unfold forced_summary.
  match goal with
  | |- context [fall_through ?a] => destruct (fall_through a) as [s|] eqn:F
  end; [|apply slice0_length].
  destruct (brace_match finalResp) as [m|]; cbn [bind] in F.
  - destruct (JSON_parse m) as [cmd|e]; cbn [bind fall_through] in F;
      [|discriminate].
    destruct (truthy cmd && truthy (get cmd (str "summary")));
      cbn [fall_through] in F; [|discriminate].
    destruct (String_ number_to_string (get cmd (str "summary"))) as [x|e];
      cbn [bind fall_through] in F; [|discriminate].
    assert (Es : s = slice0 1500 x) by congruence.
    rewrite Es. apply slice0_length.
  - cbn [fall_through] in F. discriminate.
Qed.

(** The end of a run: one completion with the forcing instruction. *)
Lemma research_finish_eq (messages : list message) :
  research_finish completions_create number_to_string messages =
  ([EvChat (push messages User FORCING) 3],
   forced_result completions_create number_to_string messages).
Proof.
  unfold research_finish, forced_result. rewrite chatMultiTurn_eq.
  destruct (ask completions_create (push messages User FORCING) 3);
    reflexivity.
Qed.

Lemma forced_result_spec (messages : list message) :
  match forced_result completions_create number_to_string messages with
  | Return s => length s <= 1500
  | Throw e =>
      failed_completion completions_create
        [EvChat (push messages User FORCING) 3] e
  end.
Proof.
  unfold forced_result.
  destruct (ask completions_create (push messages User FORCING) 3) as [f|e] eqn:A;
    cbn [bind].
  - apply forced_summary_length.
  - do 2 eexists. split; [left; reflexivity | exact A].
Qed.

(** One iteration: one step line, one or two completions, at most
    one dispatch. *)
Lemma research_step_spec (tools : search_tools) (topic : jsstring)
  (step : nat) (messages : list message) :
  exists ev r,
    research_step completions_create number_to_string tools topic step messages
      = (EvStep step :: ev, r) /\
    count_steps ev = 0 /\
    count_chats ev <= (if Nat.eqb step 0 then 2 else 1) /\
    length ev = count_chats ev + count_dispatches ev /\
    match r with
    | Return (StepReturn s) => length s <= 1500 /\ count_dispatches ev = 0
    | Return (StepBreak m) => count_dispatches ev = 0
    | Return (StepNext _) => count_dispatches ev = 1
    | Throw e =>
        (e = TypeError \/ failed_completion completions_create ev e) /\
        (count_dispatches ev = 0 \/
         e = TypeError /\ count_dispatches ev = 1 /\
         exists pre d, ev = pre ++ [d] /\ is_dispatch d = true)
    end.
Proof.
  destruct (research_ask_spec step messages)
    as [ev [r [A [As [Ad [Lev [Ac1 [Ac2 Af]]]]]]]].
  unfold research_step. cbn [io_bind emit]. rewrite A.
  destruct r as [[[response messages'] cmd]|e].
  - cbn [io_bind].
    destruct (research_dispatch_spec tools topic response messages' cmd)
      as [dv [r1 [D [Ds [Dc Dr]]]]].
    rewrite D. cbn [app].
    exists (ev ++ dv), r1. split; [reflexivity|].
    rewrite count_steps_app, count_chats_app, count_dispatches_app, length_app.
    rewrite As, Ad, Ds, Dc, Lev.
    split; [lia|]. split; [lia|].
    destruct r1 as [[s|m|m]|e].
    + destruct Dr as [L ->]. cbn [length count_dispatches filter].
      repeat split; lia.
    + destruct Dr as [Dd Dl]. repeat split; lia.
    + destruct Dr as [-> _]. cbn [length count_dispatches filter].
      repeat split; lia.
    + destruct Dr as [-> [->|[d [-> Id]]]].
      * cbn [length count_dispatches filter].
        split; [lia|]. split; left; [reflexivity | lia].
      * unfold count_dispatches at 1 2 3. cbn [filter]. rewrite Id. cbn [length].
        split; [lia|]. split; [left; reflexivity|]. right.
        split; [reflexivity|]. split; [lia|].
        exists ev, d. split; [reflexivity | exact Id].
  - cbn [io_bind app]. exists ev, (Throw e). split; [reflexivity|].
    rewrite As, Ad, Lev.
    split; [reflexivity|]. split; [exact Ac2|]. split; [lia|].
    split; [right; apply Af; reflexivity | left; reflexivity].
Qed.

(** The loop from any step on. *)
Lemma research_loop_spec (tools : search_tools) (topic : jsstring)
  (remaining : nat) :
  forall step messages,
  exists ev r,
    research_loop completions_create number_to_string tools topic remaining
      step messages = (ev, r) /\
    count_steps ev <= remaining /\
    count_dispatches ev <= count_steps ev /\
    count_chats ev <= count_steps ev + 1 + (if Nat.eqb step 0 then 1 else 0) /\
    length ev = count_steps ev + count_chats ev + count_dispatches ev /\
    match r with
    | Return s => length s <= 1500
    | Throw e => e = TypeError \/ failed_completion completions_create ev e
    end /\
    (count_dispatches ev = remaining ->
     (exists pre m,
        ev = pre ++ [EvChat (push m User FORCING) 3] /\
        r = forced_result completions_create number_to_string m) \/
     (r = Throw TypeError /\
      exists pre d, ev = pre ++ [d] /\ is_dispatch d = true)).
Proof.
  induction remaining as [|n IH]; intros step messages.
  - cbn [research_loop]. rewrite research_finish_eq.
    do 2 eexists. split; [reflexivity|]. count_simpl.
    repeat split; try lia.
    + pose proof (forced_result_spec messages) as F.
      destruct (forced_result completions_create number_to_string messages);
        [exact F | right; exact F].
    + intros _. left. exists [], messages. split; reflexivity.
  - cbn [research_loop].
    destruct (research_step_spec tools topic step messages)
      as [ev [r [St [Ss [Sc [Sl Sr]]]]]].
    rewrite St.
    assert (C1 : forall tl, count_steps ((EvStep step :: ev) ++ tl) = 1 + count_steps tl).
    { intros tl. change (EvStep step :: ev) with ([EvStep step] ++ ev).
      rewrite !count_steps_app, Ss. reflexivity. }
    assert (C2 : forall tl, count_chats ((EvStep step :: ev) ++ tl)
                            = count_chats ev + count_chats tl).
    { intros tl. change (EvStep step :: ev) with ([EvStep step] ++ ev).
      rewrite !count_chats_app. reflexivity. }
    assert (C3 : forall tl, count_dispatches ((EvStep step :: ev) ++ tl)
                            = count_dispatches ev + count_dispatches tl).
    { intros tl. change (EvStep step :: ev) with ([EvStep step] ++ ev).
      rewrite !count_dispatches_app. reflexivity. }
    assert (C4 : forall tl, length ((EvStep step :: ev) ++ tl)
                            = 1 + length ev + length tl).
    { intros tl. rewrite length_app. reflexivity. }
    assert (B : (if Nat.eqb step 0 then 2 else 1)
                <= 1 + (if Nat.eqb step 0 then 1 else 0))
      by (destruct (Nat.eqb step 0); lia).
    destruct r as [[s | m | m] | e]; cbn [io_bind].
    + destruct Sr as [Ls Sd].
      exists ((EvStep step :: ev) ++ []), (Return s). split; [reflexivity|].
      rewrite C1, C2, C3, C4. count_simpl.
      repeat split; try lia.
    + destruct (IH (S step) m) as [ev' [r' [E' [P1 [P2 [P3 [P4 [P5 P6]]]]]]]].
      rewrite E'.
      exists ((EvStep step :: ev) ++ ev'), r'. split; [reflexivity|].
      rewrite C1, C2, C3, C4. cbn [Nat.eqb] in P3.
      repeat split; try lia.
      * destruct r' as [s|e]; [exact P5|].
        destruct P5 as [->|F]; [left; reflexivity|].
        right. apply failed_completion_app_r, F.
      * intros Hn. destruct P6 as [[pre [m' [-> ->]]]|[-> [pre [d [-> Id]]]]];
          [lia| |].
        -- left. exists ((EvStep step :: ev) ++ pre), m'.
           split; [rewrite <- app_assoc; reflexivity | reflexivity].
        -- right. split; [reflexivity|].
           exists ((EvStep step :: ev) ++ pre), d.
           split; [rewrite <- app_assoc; reflexivity | exact Id].
    + rewrite research_finish_eq.
      exists ((EvStep step :: ev) ++ [EvChat (push m User FORCING) 3]),
        (forced_result completions_create number_to_string m).
      split; [reflexivity|].
      rewrite C1, C2, C3, C4. count_simpl.
      repeat split; try lia.
      * pose proof (forced_result_spec m) as F.
        destruct (forced_result completions_create number_to_string m);
          [exact F|].
        right. apply failed_completion_app_r, F.
    + destruct Sr as [Se Sd].
      exists (EvStep step :: ev), (Throw e). split; [reflexivity|].
      pose proof (C1 []) as D1. pose proof (C2 []) as D2.
      pose proof (C3 []) as D3. pose proof (C4 []) as D4.
      rewrite app_nil_r in D1, D2, D3, D4. rewrite D1, D2, D3, D4.
      count_simpl.
      assert (Dd : count_dispatches ev <= 1)
        by (destruct Sd as [Sd|[_ [Sd _]]]; lia).
      split; [lia|]. split; [lia|]. split; [lia|]. split; [lia|]. split.
      * destruct Se as [->|F]; [left; reflexivity|].
        right. destruct F as [m [t [I A]]]. exists m, t.
        split; [right; exact I|exact A].
      * intros Hn. right.
        destruct Sd as [Sd|[-> [Sd [pre [d [-> Id]]]]]]; [lia|].
        split; [reflexivity|].
        exists (EvStep step :: pre), d. split; [reflexivity | exact Id].
Qed.

(** What a run of [research] can end with. *)
Lemma research_result_spec (searchTools : option search_tools) (N : nat)
  (topic : jsstring) :
  let run := research completions_create dateContext number_to_string
               searchTools N topic in
  match snd run with
  | Return s => length s <= 1500
  | Throw e => e = TypeError \/ failed_completion completions_create (fst run) e
  end.
Proof.
  intros run. subst run. unfold research. destruct searchTools as [tools|].
  - match goal with
    | |- context [research_loop _ _ _ _ _ _ ?m] =>
        destruct (research_loop_spec tools topic N 0 m)
          as [ev [r [E [_ [_ [_ [_ [P5 _]]]]]]]]
    end.
    rewrite E. exact P5.
  - cbn [snd io_ret length]. lia.
Qed.

End Agent.

(* ------------------------------------------------------------------ *)
(** ** Facts about strings                                              *)
(* ------------------------------------------------------------------ *)

Lemma includes_nil (s : jsstring) : includes s [] = true.
Proof. destruct s; reflexivity. Qed.

Lemma string_eqb_eq (a b : jsstring) : string_eqb a b = true -> a = b.
Proof.
  revert b. induction a as [|x a IH]; intros [|y b] H; try discriminate;
    [reflexivity|].
  cbn [string_eqb] in H. apply andb_prop in H. destruct H as [H1 H2].
  apply N.eqb_eq in H1. subst. f_equal. apply IH, H2.
Qed.

Lemma string_eqb_refl (s : jsstring) : string_eqb s s = true.
Proof.
  induction s as [|c s IH]; [reflexivity|].
  cbn [string_eqb]. rewrite N.eqb_refl, IH. reflexivity.
Qed.

Lemma string_eqb_neq (a b : jsstring) : string_eqb a b = false -> a <> b.
Proof. intros H ->. rewrite string_eqb_refl in H. discriminate. Qed.

Lemma starts_with_app (p s t : jsstring) :
  starts_with p s = true -> starts_with p (s ++ t) = true.
Proof.
  revert s. induction p as [|x p IH]; intros [|c s] H; simpl in *;
    try reflexivity; try discriminate.
  apply andb_prop in H. destruct H as [H1 H2]. rewrite H1. apply IH, H2.
Qed.

Lemma includes_app_l (a b x : jsstring) :
  includes a x = true -> includes (a ++ b) x = true.
Proof.
  induction a as [|c a IH]; intros H.
  - destruct x; [apply includes_nil | discriminate].
  - cbn [includes app] in *. apply orb_prop in H. destruct H as [H|H].
    + change (c :: a ++ b) with ((c :: a) ++ b).
      rewrite (starts_with_app _ _ _ H). reflexivity.
    + rewrite (IH H). apply orb_true_r.
Qed.

Lemma includes_app_r (a b x : jsstring) :
  includes b x = true -> includes (a ++ b) x = true.
Proof.
  intros H. induction a as [|c a IH]; [exact H|].
  cbn [includes app]. rewrite IH. apply orb_true_r.
Qed.

Lemma includes_self (x : jsstring) : includes x x = true.
Proof.
  destruct x as [|c x]; [reflexivity|]. cbn [includes].
  rewrite <- (app_nil_r (c :: x)) at 2. rewrite starts_with_refl. reflexivity.
Qed.

(** [includes] is containment. *)
Lemma includes_iff (s x : jsstring) :
  includes s x = true <-> exists a b, s = a ++ x ++ b.
Proof.
  split.
  - induction s as [|c s IH]; cbn [includes]; intros H.
    + rewrite orb_false_r in H. destruct (starts_with_inv _ _ H) as [r E].
      exists [], r. exact E.
    + apply orb_prop in H. destruct H as [H|H].
      * destruct (starts_with_inv _ _ H) as [r E]. exists [], r. exact E.
      * destruct (IH H) as [a [b ->]]. exists (c :: a), b. reflexivity.
  - intros [a [b ->]]. apply includes_app_r, includes_app_l, includes_self.
Qed.

(** What [trim] takes away is white space at the two ends, and all of
    it. *)
Lemma trim_decompose (s : jsstring) :
  exists w1 w2,
    s = w1 ++ trim s ++ w2 /\ all_space w1 = true /\ all_space w2 = true /\
    (forall c r, trim s = c :: r -> is_space c = false) /\
    (forall r c, trim s = r ++ [c] -> is_space c = false).
Proof.
  destruct (leading_space_split s) as [w1 [H1 E1]].
  destruct (leading_space_split (rev (drop_space s))) as [w2 [H2 E2]].
  exists w1, (rev w2). unfold trim, trimEnd.
  assert (E3 : drop_space s = rev (drop_space (rev (drop_space s))) ++ rev w2).
  { rewrite <- rev_app_distr, <- E2, rev_involutive. reflexivity. }
  split; [rewrite <- E3; exact E1|]. split; [exact H1|].
  split; [rewrite all_space_rev; exact H2|]. split.
  - intros c r E. pose proof (drop_space_head s) as Hd.
    rewrite E3 in Hd. rewrite E in Hd. exact Hd.
  - intros r c E. pose proof (drop_space_head (rev (drop_space s))) as Hd.
    apply (f_equal (@rev char)) in E. rewrite rev_involutive in E.
    rewrite E, rev_app_distr in Hd. exact Hd.
Qed.

(** On ASCII [toLowerCase] lowers the letters A to Z and nothing
    else. *)
Lemma toLowerCase_ascii (lower_unicode : jsstring -> jsstring) (s : jsstring) :
  forallb is_ascii s = true ->
  toLowerCase lower_unicode s =
  map (fun c => if N.leb 65 c && N.leb c 90 then (c + 32)%N else c) s.
Proof. intros H. unfold toLowerCase. rewrite H. reflexivity. Qed.

(* ------------------------------------------------------------------ *)
(** ** Facts about the decision functions                               *)
(* ------------------------------------------------------------------ *)

Lemma find_existsb_true {A : Type} (f : A -> bool) (l : list A) :
  existsb f l = true -> exists x, find f l = Some x /\ In x l /\ f x = true.
Proof.
  induction l as [|a l IH]; cbn [existsb find]; [discriminate|].
  destruct (f a) eqn:E.
  - intros _. exists a. repeat split; [left; reflexivity | exact E].
  - cbn [orb]. intros H. destruct (IH H) as [x [F [I T]]].
    exists x. repeat split; [exact F | right; exact I | exact T].
Qed.

Lemma find_existsb_false {A : Type} (f : A -> bool) (l : list A) :
  existsb f l = false -> find f l = None.
Proof.
  induction l as [|a l IH]; cbn [existsb find]; [reflexivity|].
  destruct (f a); cbn [orb]; [discriminate | exact IH].
Qed.

(** What [find] answers is the first element that passes the test. *)
Lemma find_first {A : Type} (f : A -> bool) (l : list A) (x : A) :
  find f l = Some x ->
  exists pre post,
    l = pre ++ x :: post /\ f x = true /\ forall y, In y pre -> f y = false.
Proof.
  induction l as [|a l IH]; cbn [find]; [discriminate|].
  destruct (f a) eqn:E.
  - intros H. injection H as <-. exists [], l.
    split; [reflexivity|]. split; [exact E|]. intros y [].
  - intros H. destruct (IH H) as [pre [post [-> [T N]]]].
    exists (a :: pre), post. split; [reflexivity|]. split; [exact T|].
    intros y [<-|I]; [exact E | apply N, I].
Qed.

Lemma stripped_reply_eq (response : jsstring) :
  vote_key response = stripped_reply response.
Proof. reflexivity. Qed.

Section LadderFacts.

Variable lower_unicode : jsstring -> jsstring.

Lemma recover_vote_eq (options : list survey_option) (response : jsstring) :
  recover_vote lower_unicode options response =
  match find (exact_key (vote_key response)) options with
  | Some _ => Some (vote_key response)
  | None =>
      match find (same_ignoring_case lower_unicode (vote_key response)) options with
      | Some byLabel => Some (key byLabel)
      | None =>
          match find (contained lower_unicode (vote_key response)) options with
          | Some bySub => Some (key bySub)
          | None =>
              match options with
              | o :: _ => if nonempty (key o) then Some (key o) else None
              | [] => None
              end
          end
      end
  end.
Proof. reflexivity. Qed.

Lemma exact_key_iff (k : jsstring) (o : survey_option) :
  exact_key k o = true <-> key o = k.
Proof.
  unfold exact_key. split; [apply string_eqb_eq|].
  intros ->. apply string_eqb_refl.
Qed.

Lemma same_ignoring_case_iff (k : jsstring) (o : survey_option) :
  same_ignoring_case lower_unicode k o = true <->
  equal_up_to_case lower_unicode k o.
Proof.
  unfold same_ignoring_case, equal_up_to_case. split.
  - intros H. apply orb_prop in H.
    destruct H as [H|H]; [left | right]; apply string_eqb_eq, H.
  - intros [H|H]; rewrite H, string_eqb_refl; [reflexivity | apply orb_true_r].
Qed.

Lemma contained_iff (k : jsstring) (o : survey_option) :
  contained lower_unicode k o = true <-> holds_up_to_case lower_unicode k o.
Proof.
  unfold contained, holds_up_to_case. split.
  - intros H. apply orb_prop in H.
    destruct H as [H|H]; [left | right]; apply includes_iff, H.
  - intros [H|H]; apply includes_iff in H; rewrite H;
      [reflexivity | apply orb_true_r].
Qed.

Lemma first_such_find (f : survey_option -> bool) (P : survey_option -> Prop)
  (options : list survey_option) (o : survey_option) :
  (forall x, f x = true <-> P x) ->
  find f options = Some o -> first_such P options o.
Proof.
  intros R F. destruct (find_first f options o F) as [pre [post [E [T N]]]].
  exists pre, post. split; [exact E|]. split; [apply R, T|].
  intros y I Py. apply R in Py. rewrite (N y I) in Py. discriminate.
Qed.

Lemma none_such_find (f : survey_option -> bool) (P : survey_option -> Prop)
  (options : list survey_option) :
  (forall x, f x = true <-> P x) ->
  find f options = None -> forall x, In x options -> ~ P x.
Proof.
  intros R F x I Px. apply R in Px.
  rewrite (find_none f options F x I) in Px. discriminate.
Qed.

(** The ladder, rung by rung. *)
Lemma recover_vote_ladder (first : survey_option) (rest : list survey_option)
  (response : jsstring) :
  let options := first :: rest in
  let k := stripped_reply response in
  exists answer,
    recover_vote lower_unicode options response = Some answer /\
    (((exists o, In o options /\ key o = k) /\ answer = k) \/
     ((forall o, In o options -> key o <> k) /\
      exists o, first_such (equal_up_to_case lower_unicode k) options o /\
                answer = key o) \/
     ((forall o, In o options ->
                 key o <> k /\ ~ equal_up_to_case lower_unicode k o) /\
      exists o, first_such (holds_up_to_case lower_unicode k) options o /\
                answer = key o) \/
     ((forall o, In o options ->
                 key o <> k /\ ~ equal_up_to_case lower_unicode k o /\
                 ~ holds_up_to_case lower_unicode k o) /\
      answer = key first /\ key first <> [])).
Proof.
  intros options k. rewrite recover_vote_eq, stripped_reply_eq. fold k.
  destruct (find (exact_key k) options) as [o|] eqn:F1.
  { exists k. split; [reflexivity|]. left. split; [|reflexivity].
    destruct (find_some _ _ F1) as [I T]. exists o.
    split; [exact I | apply exact_key_iff, T]. }
  pose proof (none_such_find _ _ options (exact_key_iff k) F1) as N1.
  destruct (find (same_ignoring_case lower_unicode k) options) as [o|] eqn:F2.
  { exists (key o). split; [reflexivity|]. right; left. split; [exact N1|].
    exists o. split; [|reflexivity].
    apply (first_such_find _ _ options o (same_ignoring_case_iff k) F2). }
  pose proof (none_such_find _ _ options (same_ignoring_case_iff k) F2) as N2.
  destruct (find (contained lower_unicode k) options) as [o|] eqn:F3.
  { exists (key o). split; [reflexivity|]. right; right; left.
    split; [intros x I; split; [apply N1 | apply N2]; exact I|].
    exists o. split; [|reflexivity].
    apply (first_such_find _ _ options o (contained_iff k) F3). }
  pose proof (none_such_find _ _ options (contained_iff k) F3) as N3.
  assert (K : key first <> []).
  { intros K. apply (N3 first (or_introl eq_refl)). left.
    exists (toLowerCase lower_unicode k), []. rewrite K.
    unfold toLowerCase at 2. cbn. rewrite app_nil_r. reflexivity. }
  exists (key first). subst options. cbn [nonempty].
  destruct (key first) as [|c r] eqn:Kf; [congruence|].
  split; [reflexivity|]. right; right; right.
  split; [|split; [reflexivity | discriminate]].
  intros x I. split; [apply N1 | split; [apply N2 | apply N3]]; exact I.
Qed.

End LadderFacts.

(* ------------------------------------------------------------------ *)
(** ** Facts about the search tool                                      *)
(* ------------------------------------------------------------------ *)

Section SearchFacts.

Variable brave_fetch : nat -> result response.
Variable apiKey : jsstring.
Variable maxResults : nat.

(** An attempt whose answer ends the loop. *)
Lemma attempt_final (cleaned : jsstring) (remaining attempt : nat) :
  rate_limited brave_fetch attempt && Nat.ltb attempt MAX_RETRIES = false ->
  brave_attempts brave_fetch maxResults cleaned (S remaining) attempt =
  (attempts_trace cleaned maxResults attempt 1,
   attempt_outcome maxResults (brave_fetch attempt)).
Proof.
  intros H. cbn [brave_attempts attempts_trace]. unfold rate_limited in H.
  destruct (Nat.ltb 0 attempt); io_simpl;
    (destruct (brave_fetch attempt) as [resp|e]; io_simpl; [|reflexivity]);
    rewrite H; cbn [attempt_outcome];
    (destruct (ok resp); cbn [negb]; io_simpl; [|reflexivity]);
    (destruct (body_json resp) as [data|e]; io_simpl; cbn [bind]; [|reflexivity]);
    destruct (brave_results maxResults data); reflexivity.
Qed.

(** An attempt that is answered by a rate-limit response while retries
    are left. *)
Lemma attempt_retry (cleaned : jsstring) (remaining attempt : nat) :
  rate_limited brave_fetch attempt = true ->
  Nat.ltb attempt MAX_RETRIES = true ->
  brave_attempts brave_fetch maxResults cleaned (S remaining) attempt =
  (attempts_trace cleaned maxResults attempt 1 ++
   fst (brave_attempts brave_fetch maxResults cleaned remaining (S attempt)),
   snd (brave_attempts brave_fetch maxResults cleaned remaining (S attempt))).
Proof.
  intros H L. cbn [brave_attempts attempts_trace]. unfold rate_limited in H.
  destruct (brave_fetch attempt) as [resp|e]; [|discriminate].
  destruct (Nat.ltb 0 attempt); io_simpl; rewrite H, L; cbn [andb];
    destruct (brave_attempts brave_fetch maxResults cleaned remaining (S attempt))
      as [ev r];
    cbn [fst snd]; destruct r; rewrite <- ?app_assoc; reflexivity.
Qed.

Lemma last_attempt_bound : last_attempt brave_fetch <= MAX_RETRIES.
Proof.
  unfold last_attempt, MAX_RETRIES.
  destruct (rate_limited brave_fetch 0), (rate_limited brave_fetch 1),
    (rate_limited brave_fetch 2); lia.
Qed.

(** The whole loop: as many retries as there are leading rate-limit
    answers, three at most, and the outcome of the last attempt. *)
Lemma brave_attempts_spec (cleaned : jsstring) :
  brave_attempts brave_fetch maxResults cleaned (MAX_RETRIES + 1) 0 =
  (attempts_trace cleaned maxResults 0 (S (last_attempt brave_fetch)),
   attempt_outcome maxResults (brave_fetch (last_attempt brave_fetch))).
Proof.
  unfold last_attempt. change (MAX_RETRIES + 1) with 4.
  destruct (rate_limited brave_fetch 0) eqn:R0.
  2:{ rewrite attempt_final by (rewrite R0; reflexivity). reflexivity. }
  rewrite attempt_retry by (exact R0 || reflexivity).
  destruct (rate_limited brave_fetch 1) eqn:R1.
  2:{ rewrite attempt_final by (rewrite R1; reflexivity). reflexivity. }
  rewrite attempt_retry by (exact R1 || reflexivity).
  destruct (rate_limited brave_fetch 2) eqn:R2.
  2:{ rewrite attempt_final by (rewrite R2; reflexivity). reflexivity. }
  rewrite attempt_retry by (exact R2 || reflexivity).
  rewrite attempt_final by (apply andb_false_r).
  reflexivity.
Qed.

Lemma search_outcome_eq (answer : result response) :
  search_outcome maxResults answer =
  match attempt_outcome maxResults answer with
  | Return rs => rs
  | Throw _ => []
  end.
Proof.
  unfold search_outcome, attempt_outcome.
  destruct answer as [resp|e]; [|reflexivity].
  destruct (ok resp); reflexivity.
Qed.

(** [search] in full. *)
Lemma search_spec (lastSearchMs now : Z) (query : value) :
  match sanitizeQuery query with
  | Return cleaned =>
      if nonempty apiKey && nonempty cleaned then
        search_ brave_fetch apiKey maxResults lastSearchMs now query =
        (pacing_trace lastSearchMs now ++
         attempts_trace cleaned maxResults 0 (S (last_attempt brave_fetch)),
         Return (search_outcome maxResults
                   (brave_fetch (last_attempt brave_fetch))))
      else
        search_ brave_fetch apiKey maxResults lastSearchMs now query =
        (pacing_trace lastSearchMs now, Return [])
  | Throw _ =>
      search_ brave_fetch apiKey maxResults lastSearchMs now query =
      (pacing_trace lastSearchMs now, Return [])
  end.
Proof.
  unfold search_, braveSearch, pacing_trace.
  assert (P : forall (k : io (list search_result)),
    io_try (_ <-- match pacing_delay lastSearchMs now with
                  | Some d => emit (EvSleep d)
                  | None => io_ret tt
                  end ;; k) (fun _ => io_ret []) =
    (match pacing_delay lastSearchMs now with
     | Some d => [EvSleep d]
     | None => []
     end ++ fst k,
     Return match snd k with Return rs => rs | Throw _ => [] end)).
  { intros [ev [rs|e]]; destruct (pacing_delay lastSearchMs now); io_simpl;
      rewrite ?app_nil_r; reflexivity. }
  rewrite P. clear P.
  destruct (sanitizeQuery query) as [cleaned|e].
  - destruct (nonempty apiKey); cbn [negb andb]; io_simpl.
    + destruct (nonempty cleaned); cbn [negb]; io_simpl.
      * rewrite brave_attempts_spec. cbn [fst snd].
        rewrite search_outcome_eq. reflexivity.
      * rewrite app_nil_r. reflexivity.
    + rewrite app_nil_r. reflexivity.
  - destruct (nonempty apiKey); cbn [negb]; io_simpl;
      rewrite app_nil_r; reflexivity.
Qed.

End SearchFacts.

(* ------------------------------------------------------------------ *)
(** ** Facts about pacing                                               *)
(* ------------------------------------------------------------------ *)

Lemma pacing_delay_spec (lastSearchMs now : Z) :
  match pacing_delay lastSearchMs now with
  | Some d =>
      (now - lastSearchMs < BASE_DELAY_MS)%Z /\
      (now + d = lastSearchMs + BASE_DELAY_MS)%Z
  | None => (lastSearchMs + BASE_DELAY_MS <= now)%Z
  end.
Proof.
  unfold pacing_delay.
  destruct (Z.ltb (now - lastSearchMs) BASE_DELAY_MS) eqn:E.
  - apply Z.ltb_lt in E. split; lia.
  - apply Z.ltb_ge in E. lia.
Qed.

Lemma spaced_snoc (l : list (nat * Z)) (c : nat) (now : Z) :
  spaced l = true ->
  (forall c' t, In (c', t) l -> (t + BASE_DELAY_MS <= now)%Z) ->
  spaced (l ++ [(c, now)]) = true.
Proof.
  induction l as [|[c0 t0] l IH]; intros S H; [reflexivity|].
  cbn [spaced app] in *. apply andb_prop in S. destruct S as [S1 S2].
  apply andb_true_intro. split.
  - rewrite forallb_app, S1. cbn [forallb snd andb].
    rewrite andb_true_r. apply Z.leb_le. apply (H c0). left. reflexivity.
  - apply IH; [exact S2|]. intros c' t I. apply (H c'). right. exact I.
Qed.

Lemma paced_init : paced pacer_init.
Proof.
  unfold paced, pacer_init. cbn. split; [reflexivity|]. split; [tauto|].
  left. reflexivity.
Qed.

(** One turn of awaited calls keeps the pacer paced. *)
Lemma paced_step (p : pacer) (t : turn) :
  paced p -> turn_ok p t = true ->
  match t with
  | Enter _ _ => sleeping p = []
  | Resume _ _ => True
  end ->
  paced (pace p t).
Proof.
  intros [Sp [Le Sl]] Ok Seq. destruct t as [c now|c now]; cbn [pace].
  - pose proof (pacing_delay_spec (lastSearchMs p) now) as D.
    destruct (pacing_delay (lastSearchMs p) now) as [d|].
    + unfold paced. cbn [begun lastSearchMs sleeping].
      split; [exact Sp|]. split; [exact Le|].
      right. exists c, (now + d)%Z. rewrite Seq. split; [reflexivity|]. lia.
    + unfold paced. cbn [begun lastSearchMs sleeping].
      split; [|split].
      * apply spaced_snoc; [exact Sp|]. intros c' t I. apply Le in I. lia.
      * intros c' t I. apply in_app_or in I. destruct I as [I|I].
        -- apply Le in I. unfold BASE_DELAY_MS in D. lia.
        -- destruct I as [I|[]]. inversion I. lia.
      * left. exact Seq.
  - cbn [turn_ok] in Ok.
    destruct Sl as [Sl|[c' [due [Sl Du]]]]; rewrite Sl in Ok; cbn [existsb] in Ok;
      [discriminate|].
    rewrite orb_false_r in Ok. cbn [fst snd] in Ok.
    apply andb_prop in Ok. destruct Ok as [Ec Ed].
    apply Z.leb_le in Ed.
    unfold paced. cbn [begun lastSearchMs sleeping].
    split; [|split].
    + apply spaced_snoc; [exact Sp|]. intros c0 t I. apply Le in I. lia.
    + intros c0 t I. apply in_app_or in I. destruct I as [I|I].
      * apply Le in I. unfold BASE_DELAY_MS in Du. lia.
      * destruct I as [I|[]]. inversion I. lia.
    + left. rewrite Sl. cbn [filter fst]. rewrite Ec. reflexivity.
Qed.

(** Awaited calls keep the pacer paced throughout. *)
Lemma paced_run (ts : list turn) :
  forall p clock,
    paced p -> schedule_ok p clock ts = true -> sequential p ts = true ->
    paced (fold_left pace ts p).
Proof.
  induction ts as [|t ts IH]; intros p clock P Ok Seq; [exact P|].
  cbn [fold_left schedule_ok sequential] in *.
  apply andb_prop in Ok. destruct Ok as [Ok Rest].
  apply andb_prop in Ok. destruct Ok as [_ Ok].
  apply andb_prop in Seq. destruct Seq as [Here Seq].
  apply (IH _ (turn_time t)); [|exact Rest|exact Seq].
  apply paced_step; [exact P|exact Ok|].
  destruct t; [|exact I]. destruct (sleeping p); [reflexivity|discriminate].
Qed.


(* ------------------------------------------------------------------ *)
(** ** Facts about the configuration                                    *)
(* ------------------------------------------------------------------ *)

Lemma or_string_nonempty (a b : jsstring) :
  nonempty b = true -> nonempty (or_string a b) = true.
Proof. destruct a; [intros H; exact H | reflexivity]. Qed.

(** An entry of the table is one of the four presets. *)
Lemma PROVIDERS_entry (id : jsstring) (p : preset) :
  PROVIDERS id = Entry p ->
  p = preset_openai \/ p = preset_anthropic \/ p = preset_gemini \/
  p = preset_grok.
Proof.
  unfold PROVIDERS.
  destruct (string_eqb id (str "openai")); [intros H; injection H as <-; tauto|].
  destruct (string_eqb id (str "anthropic"));
    [intros H; injection H as <-; tauto|].
  destruct (string_eqb id (str "gemini")); [intros H; injection H as <-; tauto|].
  destruct (string_eqb id (str "grok")); [intros H; injection H as <-; tauto|].
  destruct (inherited_name id); discriminate.
Qed.

(** A name reads a built-in off the table exactly when it is a name of
    [Object.prototype]: none of the four keys is one. *)
Lemma PROVIDERS_builtin (id : jsstring) :
  PROVIDERS id = Builtin <-> inherited_name id = true.
Proof.
  unfold PROVIDERS.
  destruct (string_eqb id (str "openai")) eqn:E1;
    [apply string_eqb_eq in E1; subst id; split; discriminate|].
  destruct (string_eqb id (str "anthropic")) eqn:E2;
    [apply string_eqb_eq in E2; subst id; split; discriminate|].
  destruct (string_eqb id (str "gemini")) eqn:E3;
    [apply string_eqb_eq in E3; subst id; split; discriminate|].
  destruct (string_eqb id (str "grok")) eqn:E4;
    [apply string_eqb_eq in E4; subst id; split; discriminate|].
  destruct (inherited_name id); split; intros H; try reflexivity;
    discriminate.
Qed.

Lemma preset_or_openai_cases (id : jsstring) :
  (inherited_name id = true /\ preset_or_openai id = None) \/
  (inherited_name id = false /\
   exists p, preset_or_openai id = Some p /\
             (p = preset_openai \/ p = preset_anthropic \/ p = preset_gemini \/
              p = preset_grok)).
Proof.
  unfold preset_or_openai.
  destruct (PROVIDERS id) as [p| |] eqn:P.
  - right. split.
    + destruct (inherited_name id) eqn:I; [|reflexivity].
      apply PROVIDERS_builtin in I. congruence.
    + exists p. split; [reflexivity | apply (PROVIDERS_entry id p P)].
  - left. split; [apply PROVIDERS_builtin, P | reflexivity].
  - right. split.
    + destruct (inherited_name id) eqn:I; [|reflexivity].
      apply PROVIDERS_builtin in I. congruence.
    + exists preset_openai. split; [reflexivity | tauto].
Qed.

(** Line 97: image generation is available unless the image provider is
    a name of [Object.prototype], for which [canGenerateImages] is
    [undefined]. *)
Lemma canGenerateImages_cases (provider imageProvider imageModel_arg : jsstring) :
  canGenerateImages provider imageProvider imageModel_arg =
  if inherited_name (imgProvider provider imageProvider)
  then VUndefined else VBool true.
Proof.
  unfold canGenerateImages, imgModel, imgPreset.
  destruct (preset_or_openai_cases (imgProvider provider imageProvider))
    as [[I P]|[I [p [P Hp]]]]; rewrite I, P; [reflexivity|].
  cbn [preset_supportsImages preset_imageModel].
  assert (S : supportsImages p = true /\ nonempty (imageModel p) = true)
    by (destruct Hp as [E | [E | [E | E]]]; rewrite E; split; reflexivity).
  destruct S as [S M]. rewrite S. unfold js_and. cbn [truthy].
  rewrite (or_string_nonempty imageModel_arg _ M). reflexivity.
Qed.

(** The backend of a built-in is the default one. *)
Lemma imgBackend_inherited (provider imageProvider : jsstring) :
  inherited_name (imgProvider provider imageProvider) = true ->
  imgBackend provider imageProvider = OpenaiCompat.
Proof.
  intros I. unfold imgBackend, imgPreset.
  destruct (preset_or_openai_cases (imgProvider provider imageProvider))
    as [[_ P]|[F _]]; [rewrite P; reflexivity | congruence].
Qed.

(* ------------------------------------------------------------------ *)
(** ** Facts about the suggestion                                       *)
(* ------------------------------------------------------------------ *)

(** The suggestion read off a reply, whatever the reply: the label is at
    most 200 code units long, and [wantsImage] is a boolean, or
    [canGenerateImages] itself when that is not truthy. *)
Lemma read_suggestion_spec (number_to_string : jsnum -> jsstring)
  (provider imageProvider imageModel_arg response : jsstring) :
  let sg := read_suggestion number_to_string provider imageProvider
              imageModel_arg response in
  let can := canGenerateImages provider imageProvider imageModel_arg in
  length (suggestion_label sg) <= 200 /\
  ((exists b, wantsImage sg = VBool b /\ (b = true -> truthy can = true)) \/
   (wantsImage sg = can /\ truthy can = false)).
Proof.
  intros sg can. subst sg can. unfold read_suggestion.
  assert (Fallback : forall l : jsstring,
            length (slice0 200 l) <= 200 /\
            ((exists b, VBool false = VBool b /\
                        (b = true ->
                         truthy (canGenerateImages provider imageProvider
                                   imageModel_arg) = true)) \/
             (VBool false = canGenerateImages provider imageProvider imageModel_arg /\
              truthy (canGenerateImages provider imageProvider imageModel_arg)
                = false))).
  { intros l. split; [apply slice0_length|]. left. exists false.
    split; [reflexivity | discriminate]. }
  destruct (brace_match response) as [m|]; cbn [fall_through];
    [|apply Fallback].
  destruct (JSON_parse m) as [parsed|e]; cbn [bind fall_through];
    [|apply Fallback].
  destruct (get_checked parsed (str "label")) as [l|e]; cbn [bind fall_through];
    [|apply Fallback].
  destruct (String_ number_to_string (js_or l (VString []))) as [lt|e];
    cbn [bind fall_through]; [|apply Fallback].
  destruct (String_ number_to_string _) as [dt|e];
    cbn [bind fall_through]; [|apply Fallback].
  cbn [suggestion_label wantsImage]. split; [apply slice0_length|].
  unfold js_and.
  destruct (truthy (canGenerateImages provider imageProvider imageModel_arg))
    eqn:T.
  - left. eexists. split; [reflexivity | intros _; reflexivity].
  - right. split; reflexivity.
Qed.

(* ------------------------------------------------------------------ *)
(** ** Facts about the generation router                                *)
(* ------------------------------------------------------------------ *)

Lemma io_try_returns {A : Type} (body : io A) (a : A) :
  snd (io_try body (fun _ => io_ret a)) =
  Return match snd body with Return v => v | Throw _ => a end.
Proof. destruct body as [ev [v|e]]; reflexivity. Qed.

Lemma io_try_trace {A : Type} (body : io A) (a : A) :
  fst (io_try body (fun _ => io_ret a)) = fst body.
Proof. destruct body as [ev [v|e]]; cbn; rewrite ?app_nil_r; reflexivity. Qed.

(** The native-REST backend without a store: one request to the Imagen
    endpoint, and null unless that request or its body throws. *)
Lemma gemini_without_store (number_to_string : jsnum -> jsstring)
  (provider apiKey imageProvider imageApiKey imageModel_arg : jsstring)
  (imagen_fetch : jsstring -> jsstring -> jsstring -> result response)
  (store_fetch : jsstring -> jsstring -> result response)
  (Buffer_from : value -> result jsstring) (description : jsstring) :
  fst (_generateImageGemini number_to_string provider apiKey imageProvider
         imageApiKey imageModel_arg [] imagen_fetch store_fetch Buffer_from
         description)
  = [EvImagen (imgModel provider imageProvider imageModel_arg) description] /\
  match snd (_generateImageGemini number_to_string provider apiKey imageProvider
               imageApiKey imageModel_arg [] imagen_fetch store_fetch
               Buffer_from description) with
  | Return v => v = VNull
  | Throw _ => True
  end.
Proof.
  unfold _generateImageGemini. io_simpl.
  destruct (imagen_fetch _ _ _) as [resp|e]; io_simpl; [|split; [reflexivity|exact I]].
  destruct (ok resp); cbn [negb]; io_simpl; [|split; [reflexivity|exact I]].
  destruct (body_json resp) as [data|e]; io_simpl; [|split; [reflexivity|exact I]].
  destruct (get_checked data (str "predictions")) as [predictions|e]; io_simpl;
    [|split; [reflexivity|exact I]].
  destruct (truthy (get_optional (get_index0_optional predictions)
                      (str "bytesBase64Encoded"))); cbn [negb nonempty]; io_simpl;
    split; reflexivity.
Qed.

(* ------------------------------------------------------------------ *)
(** ** Scenarios of the specification                                   *)
(* ------------------------------------------------------------------ *)

(** A budget of two steps and a model that always asks for a search:
    two searches, then the forcing instruction, and no third search. *)
Example scenario_two_steps_always_search :
  let run := research always_search [] plain_number (Some sample_tools) 2
               (str "rust") in
  count_steps (fst run) = 2 /\ count_dispatches (fst run) = 2 /\
  count_chats (fst run) = 3 /\
  snd run = Return (jq "{'action':'search','query':'rust'}").
Proof. vm_compute. repeat split. Qed.

(** A suggestion after some prose. *)
Example scenario_suggestion_after_prose :
  read_suggestion plain_number (str "openai") [] []
    (str "ok here's one: " ++
     jq "{'label':'Add dark mode','wantsImage':false,'imageDescription':''}")
  = {| suggestion_label := str "Add dark mode";
       wantsImage := VBool false;
       imageDescription := [] |}.
Proof. vm_compute. reflexivity. Qed.

(** A reply in fences and after prose gives the command of the bare
    reply. *)
Example scenario_fenced_reply :
  _parseJsonCommand
    (str "Here you go:" ++ [c_newline] ++
     fenced_json [c_newline] [c_newline] sample_command)
  = _parseJsonCommand sample_command.
Proof. vm_compute. reflexivity. Qed.

(** Four rate-limit answers: four requests, the delays doubling, and
    the empty result. *)
Example scenario_rate_limited :
  search_ (fun _ => Return {| status := 429;
                              body_text := Return [];
                              body_json := Throw SyntaxError |})
    (str "key") 5 0 5000 (VString (str "rust"))
  = ([EvFetch (str "rust") 5; EvSleep 1200; EvFetch (str "rust") 5;
      EvSleep 2400; EvFetch (str "rust") 5; EvSleep 4800;
      EvFetch (str "rust") 5], Return []).
Proof. vm_compute. reflexivity. Qed.

(** A Read whose address is a number: the log line of line 293 throws
    before the page is fetched. *)
Example scenario_read_number :
  research (fun _ _ => answers (jq "{'action':'read','url':5}")) []
    plain_number (Some sample_tools) 6 (str "rust")
  = ([EvStep 0; EvChat (research_opening [] (str "rust")) 3], Throw TypeError).
Proof. vm_compute. reflexivity. Qed.

(** A provider that is down: the run rejects with the error of the
    first completion. *)
Example scenario_provider_down :
  research provider_down [] plain_number (Some sample_tools) 6 (str "rust")
  = ([EvStep 0; EvChat (research_opening [] (str "rust")) 3],
     Throw (Error (str "503"))).
Proof. vm_compute. reflexivity. Qed.

(* ------------------------------------------------------------------ *)
(** ** Facts about the ends of a run and about the decisions            *)
(* ------------------------------------------------------------------ *)

(** The white space [trim] removes, code unit by code unit. *)
Lemma is_space_units (c : char) : is_space c = true <-> white_space c.
Proof.
  unfold white_space. split.
  - unfold is_space. intros H.
    repeat (apply orb_prop in H; destruct H as [H|H]);
      repeat (apply andb_prop in H; destruct H as [H H']);
      repeat match goal with
             | X : N.leb _ _ = true |- _ => apply N.leb_le in X
             | X : N.eqb _ _ = true |- _ => apply N.eqb_eq in X
             end;
      cbn [In]; lia.
  - cbn [In]. intros H.
    repeat (destruct H as [H|H]; [subst c; reflexivity|]). contradiction.
Qed.

Lemma all_space_Forall (w : jsstring) :
  all_space w = true -> Forall white_space w.
Proof.
  unfold all_space. intros H. apply Forall_forall. intros c I.
  rewrite forallb_forall in H. apply is_space_units, H, I.
Qed.

Lemma not_space_unit (c : char) : is_space c = false -> ~ white_space c.
Proof. intros H W. apply is_space_units in W. congruence. Qed.

Lemma forallb_is_ascii (s : jsstring) :
  forallb is_ascii s = true <-> forall c, In c s -> (c < 128)%N.
Proof.
  rewrite forallb_forall. unfold is_ascii.
  split; intros H c I; [apply N.ltb_lt | apply N.ltb_lt]; apply H, I.
Qed.

Lemma toLowerCase_other (lower_unicode : jsstring -> jsstring) (s : jsstring) :
  (exists c, In c s /\ (128 <= c)%N) ->
  toLowerCase lower_unicode s = lower_unicode s.
Proof.
  intros [c [I L]]. unfold toLowerCase.
  destruct (forallb is_ascii s) eqn:A; [|reflexivity].
  pose proof (proj1 (forallb_is_ascii s) A c I). lia.
Qed.

Section EndsOfARun.

Variable completions_create : list message -> Z -> result value.
Variable dateContext : jsstring.
Variable number_to_string : jsnum -> jsstring.

(** A Done command with a summary that is a non-empty string: the log
    line prints its length and the summary is cut. *)
Lemma research_done_string (c : value) (response summary : jsstring) :
  get c (str "summary") = VString summary -> summary <> [] ->
  research_done number_to_string c response = Return (slice0 1500 summary).
Proof.
  intros G N. unfold research_done. rewrite G.
  destruct summary as [|x r]; [congruence|].
  cbn [js_or truthy nonempty get_length bind String_ to_string].
  reflexivity.
Qed.

(** What a step does with a command whose action is unknown and
    converts to a string: it leaves the loop with the conversation as
    it stands. *)
Lemma research_dispatch_unknown (tools : search_tools) (topic response : jsstring)
  (messages : list message) (c : value) :
  unknown_action c = true ->
  research_dispatch number_to_string tools topic response messages (Some c) =
  match String_ number_to_string (get c (str "action")) with
  | Return _ => ([], Return (StepBreak messages))
  | Throw e => ([], Throw e)
  end.
Proof.
  intros U. unfold unknown_action in U.
  apply andb_prop in U. destruct U as [U Hr].
  apply andb_prop in U. destruct U as [U Hs].
  apply andb_prop in U. destruct U as [U Hd].
  apply andb_prop in U. destruct U as [Tc Ta].
  apply negb_true_iff in Hr. apply negb_true_iff in Hs. apply negb_true_iff in Hd.
  unfold research_dispatch, no_valid_command.
  rewrite Tc, Ta. cbn [negb orb]. rewrite Hd, Hs, Hr.
  destruct (String_ number_to_string (get c (str "action"))); reflexivity.
Qed.

End EndsOfARun.

Section Decisions.

Variable completions_create : list message -> Z -> result value.
Variable dateContext : jsstring.
Variable number_to_string : jsnum -> jsstring.
Variable builtin_text : jsstring -> jsstring.
Variable lower_unicode : jsstring -> jsstring.
Variable searchTools : option search_tools.
Variable maxResearchSteps : nat.

(** [chooseVote] when the option list converts and the research
    returns: one more completion, and the ladder on its reply. *)
Lemma chooseVote_run (s : survey) (options : list survey_option)
  (counts : list (jsstring * value)) (optionList summary : jsstring)
  (ev : list event) :
  vote_option_list number_to_string builtin_text options counts
    = Return optionList ->
  research completions_create dateContext number_to_string searchTools
    maxResearchSteps (vote_topic s options) = (ev, Return summary) ->
  chooseVote completions_create dateContext number_to_string builtin_text
    lower_unicode searchTools maxResearchSteps s options counts =
  let asked := [{| msg_role := System; content := vote_system dateContext |};
                {| msg_role := User;
                   content := vote_user s optionList summary |}] in
  (ev ++ [EvChat asked 5],
   match ask completions_create asked 5 with
   | Return reply => Return (recover_vote lower_unicode options reply)
   | Throw e => Throw e
   end).
Proof.
  intros L R. unfold chooseVote. rewrite L. io_simpl. rewrite R. io_simpl.
  unfold chat. rewrite chatMultiTurn_eq. cbn zeta.
  destruct (ask completions_create _ 5); io_simpl;
    rewrite ?app_nil_r; reflexivity.
Qed.

(** [chooseVote] when the option list does not convert: nothing is
    asked. *)
Lemma chooseVote_no_list (s : survey) (options : list survey_option)
  (counts : list (jsstring * value)) (e : exn) :
  vote_option_list number_to_string builtin_text options counts = Throw e ->
  chooseVote completions_create dateContext number_to_string builtin_text
    lower_unicode searchTools maxResearchSteps s options counts = ([], Throw e).
Proof. intros L. unfold chooseVote. rewrite L. reflexivity. Qed.

(** [chooseVote] when the research rejects. *)
Lemma chooseVote_no_research (s : survey) (options : list survey_option)
  (counts : list (jsstring * value)) (optionList : jsstring)
  (ev : list event) (e : exn) :
  vote_option_list number_to_string builtin_text options counts
    = Return optionList ->
  research completions_create dateContext number_to_string searchTools
    maxResearchSteps (vote_topic s options) = (ev, Throw e) ->
  chooseVote completions_create dateContext number_to_string builtin_text
    lower_unicode searchTools maxResearchSteps s options counts = (ev, Throw e).
Proof.
  intros L R. unfold chooseVote. rewrite L. io_simpl. rewrite R. reflexivity.
Qed.

Variables provider imageProvider imageModel_arg : jsstring.

(** [suggestOption] when the research returns. *)
Lemma suggestOption_run (s : survey) (options : list survey_option)
  (summary : jsstring) (ev : list event) :
  research completions_create dateContext number_to_string searchTools
    maxResearchSteps (suggest_topic s options) = (ev, Return summary) ->
  suggestOption completions_create dateContext number_to_string searchTools
    maxResearchSteps provider imageProvider imageModel_arg s options =
  let asked := [{| msg_role := System; content := suggest_system dateContext |};
                {| msg_role := User;
                   content := suggest_user s options summary |}] in
  (ev ++ [EvChat asked 7],
   match ask completions_create asked 7 with
   | Return reply =>
       Return (read_suggestion number_to_string provider imageProvider
                 imageModel_arg reply)
   | Throw e => Throw e
   end).
Proof.
  intros R. unfold suggestOption. rewrite R. io_simpl. unfold chat.
  rewrite chatMultiTurn_eq. cbn zeta.
  destruct (ask completions_create _ 7); io_simpl;
    rewrite ?app_nil_r; reflexivity.
Qed.

Lemma suggestOption_no_research (s : survey) (options : list survey_option)
  (ev : list event) (e : exn) :
  research completions_create dateContext number_to_string searchTools
    maxResearchSteps (suggest_topic s options) = (ev, Throw e) ->
  suggestOption completions_create dateContext number_to_string searchTools
    maxResearchSteps provider imageProvider imageModel_arg s options
  = (ev, Throw e).
Proof. intros R. unfold suggestOption. rewrite R. reflexivity. Qed.

End Decisions.

(* ------------------------------------------------------------------ *)
(** ** Facts about global replacement                                   *)
(* ------------------------------------------------------------------ *)

Section ReplaceAllInduction.

Variable match_at : jsstring -> option nat.
Variable rep : jsstring.

(** Induction along the scan of [replace_all]: a code unit is either
    copied or opens a match, after which the scan resumes behind it. *)
Lemma replace_all_scan (P : jsstring -> jsstring -> Prop) :
  P [] [] ->
  (forall c r,
     match match_at (c :: r) with Some (S _) => False | _ => True end ->
     P r (replace_all match_at rep 0 r) ->
     P (c :: r) (c :: replace_all match_at rep 0 r)) ->
  (forall c r n,
     match_at (c :: r) = Some (S n) ->
     P (skipn n r) (replace_all match_at rep 0 (skipn n r)) ->
     P (c :: r) (rep ++ replace_all match_at rep 0 (skipn n r))) ->
  forall s, P s (replace_all match_at rep 0 s).
Proof.
  intros Hnil Hpass Hmatch s.
  remember (length s) as len eqn:L.
  revert s L. induction len as [len IH] using lt_wf_ind. intros s L.
  destruct s as [|c r]; [exact Hnil|].
  cbn [replace_all].
  destruct (match_at (c :: r)) as [[|n]|] eqn:M.
  - apply Hpass; [rewrite M; exact I|].
    apply (IH (length r)); [subst; simpl; lia | reflexivity].
  - rewrite replace_all_skip. apply Hmatch; [exact M|].
    apply (IH (length (skipn n r))); [|reflexivity].
    subst. simpl. rewrite length_skipn. lia.
  - apply Hpass; [rewrite M; exact I|].
    apply (IH (length r)); [subst; simpl; lia | reflexivity].
Qed.

Lemma forallb_skipn {A : Type} (f : A -> bool) (n : nat) (l : list A) :
  forallb f l = true -> forallb f (skipn n l) = true.
Proof.
  revert n. induction l as [|x l IH]; intros [|n] H; simpl in *; try exact H.
  apply andb_prop in H. apply IH, H.
Qed.

Lemma forallb_firstn {A : Type} (f : A -> bool) (n : nat) (l : list A) :
  forallb f l = true -> forallb f (firstn n l) = true.
Proof.
  revert n. induction l as [|x l IH]; intros [|n] H; simpl in *; try reflexivity.
  apply andb_prop in H. destruct H as [Hx Hl]. rewrite Hx. apply IH, Hl.
Qed.

Lemma forallb_rev {A : Type} (f : A -> bool) (l : list A) :
  forallb f (rev l) = forallb f l.
Proof.
  induction l as [|x l IH]; simpl; [reflexivity|].
  rewrite forallb_app, IH. simpl. rewrite andb_true_r. apply andb_comm.
Qed.

(** A replacement keeps a property that the replacement text has. *)
Lemma replace_all_forallb (f : char -> bool) (s : jsstring) :
  forallb f rep = true -> forallb f s = true ->
  forallb f (replace_all match_at rep 0 s) = true.
Proof.
  intros Hrep. pattern s, (replace_all match_at rep 0 s).
  apply replace_all_scan.
  - reflexivity.
  - intros c r _ IH H. simpl in *. apply andb_prop in H.
    destruct H as [Hc Hr]. rewrite Hc. apply IH, Hr.
  - intros c r n _ IH H. simpl in H. apply andb_prop in H.
    rewrite forallb_app, Hrep. apply IH, forallb_skipn, H.
Qed.

End ReplaceAllInduction.

(* ------------------------------------------------------------------ *)
(** ** Facts about trimming                                             *)
(* ------------------------------------------------------------------ *)

Lemma drop_space_skipn (s : jsstring) : exists k, drop_space s = skipn k s.
Proof. exists (count_space s). symmetry. apply skipn_count_space. Qed.

Lemma trimEnd_firstn (s : jsstring) : exists k, trimEnd s = firstn k s.
Proof.
  unfold trimEnd. destruct (drop_space_skipn (rev s)) as [k E]. rewrite E.
  rewrite skipn_rev, rev_involutive. eauto.
Qed.

Lemma trim_forallb (f : char -> bool) (s : jsstring) :
  forallb f s = true -> forallb f (trim s) = true.
Proof.
  intros H. unfold trim.
  destruct (trimEnd_firstn (drop_space s)) as [k E]. rewrite E.
  destruct (drop_space_skipn s) as [j E']. rewrite E'.
  apply forallb_firstn, forallb_skipn, H.
Qed.

Lemma trim_head (s : jsstring) : starts_with_space (trim s) = false.
Proof.
  unfold trim. destruct (trimEnd_firstn (drop_space s)) as [k E]. rewrite E.
  pose proof (drop_space_head s) as H.
  destruct (drop_space s) as [|c r]; destruct k; simpl; try reflexivity.
  exact H.
Qed.

(* ------------------------------------------------------------------ *)
(** ** Facts about [sanitizeQuery]                                      *)
(* ------------------------------------------------------------------ *)

Lemma query_char_class (c : char) : in_query_class (query_char c) = true.
Proof.
  unfold query_char. fold (in_query_class c).
  destruct (in_query_class c) eqn:E; [exact E | reflexivity].
Qed.

Lemma map_query_char_class (s : jsstring) :
  forallb in_query_class (map query_char s) = true.
Proof.
  induction s as [|c s IH]; cbn [map forallb]; [reflexivity|].
  rewrite query_char_class. exact IH.
Qed.

Lemma single_spaced_skipn (n : nat) (s : jsstring) :
  single_spaced s = true -> single_spaced (skipn n s) = true.
Proof.
  revert n. induction s as [|c s IH]; intros [|n] H; try exact H.
  cbn [skipn]. apply IH. cbn [single_spaced] in H.
  apply andb_prop in H. apply H.
Qed.

Lemma single_spaced_firstn (n : nat) (s : jsstring) :
  single_spaced s = true -> single_spaced (firstn n s) = true.
Proof.
  revert n. induction s as [|c s IH]; intros [|n] H; try reflexivity.
  cbn [firstn single_spaced]. cbn [single_spaced] in H.
  apply andb_prop in H. destruct H as [H1 H2].
  rewrite (IH n H2), andb_true_r.
  destruct s as [|d s]; [destruct n; reflexivity|].
  destruct n; [reflexivity|]. exact H1.
Qed.

Lemma spaces_at_nonspace (c : char) (r : jsstring) :
  is_space c = false -> spaces_at (c :: r) = None.
Proof. intros H. unfold spaces_at. simpl. rewrite H. reflexivity. Qed.

(** Collapsing runs of white space: the result is single-spaced, and a
    text that starts with another code unit keeps it in front. *)
Lemma collapse_spaces_spec (s : jsstring) :
  single_spaced (replace_all spaces_at [32%N] 0 s) = true /\
  (starts_with_space s = false ->
   starts_with_space (replace_all spaces_at [32%N] 0 s) = false).
Proof.
  pattern s, (replace_all spaces_at [32%N] 0 s). apply replace_all_scan.
  - split; reflexivity.
  - intros c r M [IH1 IH2]. split; [|intros H; exact H].
    cbn [single_spaced]. rewrite IH1, andb_true_r.
    destruct (replace_all spaces_at [32%N] 0 r) as [|d o] eqn:O; [reflexivity|].
    destruct (is_space c) eqn:Ec; [|reflexivity].
    cbn [andb]. apply negb_true_iff.
    (* the code unit after a lone space is no space *)
    assert (Hr : starts_with_space r = false).
    { unfold spaces_at in M. cbn [count_space] in M. rewrite Ec in M.
      destruct r as [|x r']; [reflexivity|]. cbn [count_space] in M.
      cbn [starts_with_space]. destruct (is_space x); [destruct M | reflexivity]. }
    exact (IH2 Hr).
  - intros c r n M [IH1 IH2]. split.
    + cbn [app single_spaced]. rewrite IH1, andb_true_r.
      destruct (replace_all spaces_at [32%N] 0 (skipn n r)) as [|d o] eqn:O;
        [reflexivity|].
      apply negb_true_iff. cbn [andb starts_with_space] in *.
      replace (is_space 32%N) with true by reflexivity. cbn [andb].
      apply IH2.
      (* what follows the run is no space *)
      unfold spaces_at in M. cbn [count_space] in M.
      destruct (is_space c); [|discriminate].
      destruct (count_space r) as [|m] eqn:Cr; [discriminate|].
      assert (n = S m) by congruence. subst n. rewrite <- Cr.
      rewrite skipn_count_space. pose proof (drop_space_head r) as Hd.
      destruct (drop_space r); [reflexivity | exact Hd].
    + intros H. unfold spaces_at in M. cbn [count_space starts_with_space] in *.
      rewrite H in M. discriminate.
Qed.

Lemma single_spaced_trim (s : jsstring) :
  single_spaced s = true -> single_spaced (trim s) = true.
Proof.
  intros H. unfold trim.
  destruct (trimEnd_firstn (drop_space s)) as [k E]. rewrite E.
  destruct (drop_space_skipn s) as [j E']. rewrite E'.
  apply single_spaced_firstn, single_spaced_skipn, H.
Qed.

Lemma starts_with_space_firstn (n : nat) (s : jsstring) :
  starts_with_space s = false -> starts_with_space (firstn n s) = false.
Proof. destruct s, n; simpl; auto. Qed.

(** [sanitizeQuery] on a string, in full. *)
Lemma sanitizeQuery_spec (s : jsstring) :
  exists q,
    sanitizeQuery (VString s) = Return q /\
    length q <= MAX_QUERY_LEN /\
    forallb in_query_class q = true /\
    single_spaced q = true /\
    starts_with_space q = false.
Proof.
  eexists. split; [reflexivity|]. split; [apply slice0_length|].
  unfold slice0. split; [|split].
  - apply forallb_firstn, trim_forallb, replace_all_forallb; [reflexivity|].
    apply map_query_char_class.
  - apply single_spaced_firstn, single_spaced_trim, collapse_spaces_spec.
  - apply starts_with_space_firstn, trim_head.
Qed.

(* ------------------------------------------------------------------ *)
(** ** Facts about the results of a search                              *)
(* ------------------------------------------------------------------ *)

Lemma js_or_field_ok (v : value) : field_ok (js_or v (VString [])) = true.
Proof.
  unfold js_or, field_ok. destruct (truthy v) eqn:T.
  - rewrite T. reflexivity.
  - apply orb_true_r.
Qed.

Lemma map_result_spec {A B : Type} (f : A -> result B) (P : B -> bool)
  (xs : list A) (ys : list B) :
  (forall x y, f x = Return y -> P y = true) ->
  map_result f xs = Return ys ->
  length ys = length xs /\ forallb P ys = true.
Proof.
  intros HP. revert ys. induction xs as [|x xs IH]; intros ys H.
  - cbn in H. injection H as <-. split; reflexivity.
  - cbn [map_result] in H. destruct (f x) as [y|e] eqn:F; [|discriminate].
    cbn [bind] in H. destruct (map_result f xs) as [ys'|e]; [|discriminate].
    cbn [bind] in H. injection H as <-.
    destruct (IH ys' eq_refl) as [L Q]. split; [simpl; lia|].
    cbn [forallb]. rewrite (HP x y F), Q. reflexivity.
Qed.

Lemma brave_results_spec (maxResults : nat) (data : value)
  (rs : list search_result) :
  brave_results maxResults data = Return rs ->
  length rs <= maxResults /\ forallb result_ok rs = true.
Proof.
  unfold brave_results. intros H.
  destruct (get_checked data (str "web")) as [web|e]; [|discriminate].
  cbn [bind] in H.
  destruct (js_or (get_optional web (str "results")) (VArray []))
    as [| | | | |items|]; try discriminate.
  apply (map_result_spec _ result_ok) in H.
  - destruct H as [L Q]. split; [|exact Q].
    rewrite L, length_firstn. lia.
  - intros r y F. destruct (get_checked r (str "title")) as [t|e]; [|discriminate].
    cbn [bind] in F. injection F as <-. unfold result_ok. cbn [title snippet url].
    rewrite !js_or_field_ok. reflexivity.
Qed.

Lemma search_outcome_spec (maxResults : nat) (answer : result response) :
  length (search_outcome maxResults answer) <= maxResults /\
  forallb result_ok (search_outcome maxResults answer) = true.
Proof.
  unfold search_outcome. destruct answer as [resp|e]; [|split; [simpl; lia|reflexivity]].
  destruct (ok resp); [|split; [simpl; lia|reflexivity]].
  destruct (body_json resp) as [data|e]; cbn [bind];
    [|split; [simpl; lia|reflexivity]].
  destruct (brave_results maxResults data) as [rs|e] eqn:B;
    [|split; [simpl; lia|reflexivity]].
  exact (brave_results_spec _ _ _ B).
Qed.

Lemma search_results_spec (brave_fetch : nat -> result response)
  (apiKey : jsstring) (maxResults : nat) (lastSearchMs now : Z) (query : value) :
  exists rs,
    snd (search_ brave_fetch apiKey maxResults lastSearchMs now query) = Return rs /\
    length rs <= maxResults /\ forallb result_ok rs = true.
Proof.
  pose proof (search_spec brave_fetch apiKey maxResults lastSearchMs now query) as S.
  assert (E : forall n, 0 <= n /\ forallb result_ok (@nil search_result) = true)
    by (intros; split; [lia | reflexivity]).
  destruct (sanitizeQuery query) as [cleaned|e].
  - destruct (nonempty apiKey && nonempty cleaned); rewrite S; cbn [snd].
    + eexists. split; [reflexivity|]. apply search_outcome_spec.
    + exists []. split; [reflexivity|]. apply E.
  - rewrite S. exists []. split; [reflexivity|]. apply E.
Qed.

(* ------------------------------------------------------------------ *)
(** ** Facts about the page reader                                      *)
(* ------------------------------------------------------------------ *)

Lemma count_until_no_gt (r : jsstring) :
  no_gt r = true -> skipn (count_until c_gt r) r = [].
Proof.
  induction r as [|d r IH]; cbn [no_gt forallb count_until]; [reflexivity|].
  intros H. apply andb_prop in H. destruct H as [Hd Hr].
  apply negb_true_iff in Hd. rewrite Hd. cbn [skipn]. apply IH, Hr.
Qed.

Lemma count_until_stop (r : jsstring) :
  match skipn (count_until c_gt r) r with
  | [] => no_gt r = true
  | d :: _ => d = c_gt
  end.
Proof.
  induction r as [|d r IH]; cbn [count_until]; [reflexivity|].
  destruct (N.eqb d c_gt) eqn:E.
  - cbn [skipn]. apply N.eqb_eq, E.
  - cbn [skipn]. destruct (skipn (count_until c_gt r) r); [|exact IH].
    cbn [no_gt forallb]. rewrite E. exact IH.
Qed.

(** An opening angle opens no tag exactly when a closing angle follows
    at once or none follows at all. *)
Lemma tag_at_none (r : jsstring) :
  tag_at (c_lt :: r) = None ->
  (exists r', r = c_gt :: r') \/ no_gt r = true.
Proof.
  cbn [tag_at]. rewrite N.eqb_refl.
  destruct r as [|d r']; [right; reflexivity|].
  cbn [count_until]. destruct (N.eqb d c_gt) eqn:E.
  - intros _. left. apply N.eqb_eq in E. subst. eauto.
  - pose proof (count_until_stop r') as St. cbn [skipn].
    destruct (skipn (count_until c_gt r') r'); [|discriminate].
    intros _. right. cbn [no_gt forallb]. rewrite E. exact St.
Qed.

Lemma tag_at_closed (r : jsstring) : tag_at (c_lt :: c_gt :: r) = None.
Proof. reflexivity. Qed.

Lemma tag_at_open (r : jsstring) : no_gt r = true -> tag_at (c_lt :: r) = None.
Proof.
  intros H. cbn [tag_at]. rewrite N.eqb_refl.
  destruct (count_until c_gt r) as [|n] eqn:C; [reflexivity|].
  rewrite <- C, (count_until_no_gt _ H). reflexivity.
Qed.

Lemma tag_at_other (c : char) (r : jsstring) :
  N.eqb c c_lt = false -> tag_at (c :: r) = None.
Proof. intros H. cbn [tag_at]. rewrite H. reflexivity. Qed.

(** What is left of the text behind a code unit that opens no tag may
    change, as long as it gains no closing angle and keeps the one it
    starts with. *)
Lemma tag_at_none_keep (c : char) (r o : jsstring) :
  tag_at (c :: r) = None ->
  (no_gt r = true -> no_gt o = true) ->
  (forall r', r = c_gt :: r' -> o = [] \/ exists o', o = c_gt :: o') ->
  tag_at (c :: o) = None.
Proof.
  intros T Hn Hh. destruct (N.eqb c c_lt) eqn:E; [|apply tag_at_other, E].
  apply N.eqb_eq in E. subst c.
  destruct (tag_at_none r T) as [[r' R]|G].
  - destruct (Hh r' R) as [->|[o' ->]]; reflexivity.
  - apply tag_at_open, Hn, G.
Qed.

Lemma has_tag_cons (c : char) (r : jsstring) :
  has_tag (c :: r) = false <-> tag_at (c :: r) = None /\ has_tag r = false.
Proof.
  cbn [has_tag]. destruct (tag_at (c :: r)); split; intros H;
    try discriminate; try (destruct H; discriminate).
  - split; [reflexivity | exact H].
  - apply H.
Qed.

Lemma has_tag_skipn (n : nat) (s : jsstring) :
  has_tag s = false -> has_tag (skipn n s) = false.
Proof.
  revert n. induction s as [|c s IH]; intros [|n] H; try exact H.
  cbn [skipn]. apply IH. apply has_tag_cons in H. apply H.
Qed.

Lemma has_tag_firstn (n : nat) (s : jsstring) :
  has_tag s = false -> has_tag (firstn n s) = false.
Proof.
  revert n. induction s as [|c s IH]; intros [|n] H; try reflexivity.
  cbn [firstn]. apply has_tag_cons in H. destruct H as [T H].
  apply has_tag_cons. split; [|apply IH, H].
  apply (tag_at_none_keep c s); [exact T | apply forallb_firstn |].
  intros r' ->. destruct n; [left; reflexivity | right; cbn [firstn]; eauto].
Qed.

Lemma has_tag_snoc (s : jsstring) (x : char) :
  N.eqb x c_lt = false -> N.eqb x c_gt = false ->
  has_tag s = false -> has_tag (s ++ [x]) = false.
Proof.
  intros X1 X2. induction s as [|c s IH]; intros H.
  - cbn [app]. apply has_tag_cons. split; [apply tag_at_other, X1 | reflexivity].
  - apply has_tag_cons in H. destruct H as [T H]. cbn [app].
    apply has_tag_cons. split; [|apply IH, H].
    apply (tag_at_none_keep c s); [exact T | |].
    + intros Hn. unfold no_gt in *. rewrite forallb_app.
      apply andb_true_intro. split; [exact Hn|].
      cbn [forallb]. rewrite X2. reflexivity.
    + intros r' ->. right. cbn [app]. eauto.
Qed.

Lemma has_tag_trim (s : jsstring) : has_tag s = false -> has_tag (trim s) = false.
Proof.
  intros H. unfold trim.
  destruct (trimEnd_firstn (drop_space s)) as [k E]. rewrite E.
  destruct (drop_space_skipn s) as [j E']. rewrite E'.
  apply has_tag_firstn, has_tag_skipn, H.
Qed.

Section SpaceReplacement.

Variable match_at : jsstring -> option nat.

Hypothesis match_not_gt :
  forall r n, match_at (c_gt :: r) = Some (S n) -> False.

Lemma replace_angles_kept (s : jsstring) :
  angles_kept s (replace_all match_at [32%N] 0 s).
Proof.
  pattern s, (replace_all match_at [32%N] 0 s). apply replace_all_scan.
  - split; [reflexivity | discriminate].
  - intros c r _ [IH1 IH2]. split.
    + cbn [no_gt forallb]. intros H. apply andb_prop in H.
      destruct H as [Hc Hr]. rewrite Hc. apply IH1, Hr.
    + intros r' E. injection E as -> ->. eauto.
  - intros c r n M [IH1 IH2]. split.
    + cbn [no_gt forallb app]. intros H. apply andb_prop in H.
      destruct H as [_ Hr]. apply IH1. apply forallb_skipn, Hr.
    + intros r' E. injection E as -> ->. destruct (match_not_gt _ _ M).
Qed.

(** Such a replacement makes no tag. *)
Lemma replace_keeps_tagless (s : jsstring) :
  has_tag s = false -> has_tag (replace_all match_at [32%N] 0 s) = false.
Proof.
  pattern s, (replace_all match_at [32%N] 0 s). apply replace_all_scan.
  - reflexivity.
  - intros c r _ IH H. apply has_tag_cons in H. destruct H as [T H].
    apply has_tag_cons. split; [|apply IH, H].
    destruct (replace_angles_kept r) as [K1 K2].
    apply (tag_at_none_keep c r); [exact T | exact K1 |].
    intros r' E. right. apply (K2 r' E).
  - intros c r n M IH H. cbn [app]. apply has_tag_cons.
    split; [reflexivity|]. apply IH.
    apply has_tag_cons in H. apply has_tag_skipn, H.
Qed.

End SpaceReplacement.

(** Replacing the tags by spaces leaves no tag, though the text left
    and right of a tag comes together. *)
Lemma replace_tags_tagless (s : jsstring) :
  has_tag (replace_all tag_at [32%N] 0 s) = false.
Proof.
  assert (G : forall r n, tag_at (c_gt :: r) = Some (S n) -> False)
    by (intros r n H; discriminate).
  pattern s, (replace_all tag_at [32%N] 0 s). apply replace_all_scan.
  - reflexivity.
  - intros c r M IH. apply has_tag_cons. split; [|exact IH].
    assert (T : tag_at (c :: r) = None).
    { destruct (tag_at (c :: r)) as [[|k]|] eqn:E; try reflexivity; [|destruct M].
      cbn [tag_at] in E. destruct (N.eqb c c_lt); [|discriminate].
      destruct (count_until c_gt r); [discriminate|].
      destruct (skipn _ r); discriminate. }
    destruct (replace_angles_kept tag_at G r) as [K1 K2].
    apply (tag_at_none_keep c r); [exact T | exact K1 |].
    intros r' E. right. apply (K2 r' E).
  - intros c r n M IH. cbn [app]. apply has_tag_cons. split; [reflexivity | exact IH].
Qed.

Lemma entity_at_amp (c : char) (r : jsstring) (n : nat) :
  entity_at (c :: r) = Some n -> c = c_amp.
Proof.
  cbn [entity_at]. destruct (N.eqb c c_amp) eqn:E; [|discriminate].
  intros _. apply N.eqb_eq, E.
Qed.

Lemma spaces_at_space (c : char) (r : jsstring) (n : nat) :
  spaces_at (c :: r) = Some n -> is_space c = true.
Proof.
  unfold spaces_at. cbn [count_space]. destruct (is_space c); [reflexivity|].
  discriminate.
Qed.

Lemma readable_text_tagless (html : jsstring) :
  has_tag (readable_text html) = false.
Proof.
  unfold readable_text. apply has_tag_trim.
  apply replace_keeps_tagless.
  - intros r n H. apply spaces_at_space in H. discriminate.
  - apply replace_keeps_tagless.
    + intros r n H. apply entity_at_amp in H. discriminate.
    + apply replace_tags_tagless.
Qed.

Section FetchPageFacts.

Variable page_fetch : value -> result response.
Variable error_message : exn -> jsstring.

(** What [fetchPage] makes of a page it could read. *)
Lemma fetchPage_read (pageUrl : value) (resp : response) (html : jsstring) :
  page_fetch pageUrl = Return resp -> ok resp = true ->
  body_text resp = Return html ->
  fetchPage_ page_fetch error_message pageUrl =
  match readable_text html with
  | [] => str "(No readable content)"
  | c :: t =>
      slice0 MAX_PAGE_CHARS (c :: t) ++
      (if Nat.ltb MAX_PAGE_CHARS (length (c :: t)) then [c_ellipsis] else [])
  end.
Proof.
  intros F O B. unfold fetchPage_. rewrite F, O, B. cbn [negb].
  destruct (readable_text html); reflexivity.
Qed.

Lemma fetchPage_nonempty (pageUrl : value) :
  fetchPage_ page_fetch error_message pageUrl <> [].
Proof.
  unfold fetchPage_, reading_error.
  destruct (page_fetch pageUrl) as [resp|e]; [|discriminate].
  destruct (ok resp); cbn [negb]; [|discriminate].
  destruct (body_text resp) as [html|e]; [|discriminate].
  destruct (readable_text html); discriminate.
Qed.

Lemma fetchPage_read_bound (pageUrl : value) (resp : response) (html : jsstring) :
  page_fetch pageUrl = Return resp -> ok resp = true ->
  body_text resp = Return html ->
  length (fetchPage_ page_fetch error_message pageUrl) <= MAX_PAGE_CHARS + 1 /\
  has_tag (fetchPage_ page_fetch error_message pageUrl) = false.
Proof.
  intros F O B. rewrite (fetchPage_read _ _ _ F O B).
  pose proof (readable_text_tagless html) as T.
  destruct (readable_text html) as [|c t] eqn:R.
  - split; [vm_compute; lia | reflexivity].
  - split.
    + rewrite length_app. pose proof (slice0_length MAX_PAGE_CHARS (c :: t)) as L.
      destruct (Nat.ltb MAX_PAGE_CHARS (length (c :: t)));
        change (length [c_ellipsis]) with 1; change (length (@nil char)) with 0; lia.
    + destruct (Nat.ltb MAX_PAGE_CHARS (length (c :: t))).
      * apply has_tag_snoc; [reflexivity | reflexivity |].
        apply has_tag_firstn, T.
      * rewrite app_nil_r. apply has_tag_firstn, T.
Qed.

End FetchPageFacts.

(* ------------------------------------------------------------------ *)
(** ** Facts about the requests of a search                             *)
(* ------------------------------------------------------------------ *)

Lemma attempts_trace_fetch (cleaned q : jsstring) (maxResults n from count : nat) :
  In (EvFetch q n) (attempts_trace cleaned maxResults from count) ->
  q = cleaned /\ n = maxResults.
Proof.
  revert from. induction count as [|count IH]; intros from H; [destruct H|].
  cbn [attempts_trace] in H. apply in_app_or in H. destruct H as [H|H].
  - destruct (Nat.ltb 0 from); [destruct H as [H|[]]; discriminate | destruct H].
  - destruct H as [H|H]; [injection H as <- <-; split; reflexivity|].
    exact (IH _ H).
Qed.

Lemma pacing_trace_fetch (lastSearchMs now : Z) (q : jsstring) (n : nat) :
  In (EvFetch q n) (pacing_trace lastSearchMs now) -> False.
Proof.
  unfold pacing_trace. destruct (pacing_delay lastSearchMs now); intros H.
  - destruct H as [H|[]]. discriminate.
  - destruct H.
Qed.

(** A request of [search] carries the sanitised query, which is not
    empty, and is made with an API key. *)
Lemma search_request_spec (brave_fetch : nat -> result response)
  (apiKey : jsstring) (maxResults : nat) (lastSearchMs now : Z) (query : value)
  (q : jsstring) (n : nat) :
  In (EvFetch q n)
     (fst (search_ brave_fetch apiKey maxResults lastSearchMs now query)) ->
  sanitizeQuery query = Return q /\ n = maxResults /\
  nonempty q = true /\ nonempty apiKey = true.
Proof.
  pose proof (search_spec brave_fetch apiKey maxResults lastSearchMs now query) as S.
  destruct (sanitizeQuery query) as [cleaned|e].
  - destruct (nonempty apiKey) eqn:K, (nonempty cleaned) eqn:C; cbn [andb] in S;
      rewrite S; cbn [fst]; intros H;
      try (destruct (pacing_trace_fetch _ _ _ _ H)).
    apply in_app_or in H. destruct H as [H|H];
      [destruct (pacing_trace_fetch _ _ _ _ H)|].
    apply attempts_trace_fetch in H. destruct H as [-> ->].
    repeat split. exact C.
  - rewrite S. cbn [fst]. intros H. destruct (pacing_trace_fetch _ _ _ _ H).
Qed.

(* ------------------------------------------------------------------ *)

(* ------------------------------------------------------------------ *)
(** ** Facts about the conversation of a research run                   *)
(* ------------------------------------------------------------------ *)

Lemma chat_log_app (a b : list event) : chat_log (a ++ b) = chat_log a ++ chat_log b.
Proof.
  induction a as [|e a IH]; [reflexivity|].
  destruct e; cbn [app chat_log]; rewrite IH; reflexivity.
Qed.

Lemma count_nudges_app (a b : list event) :
  count_nudges (a ++ b) = count_nudges a + count_nudges b.
Proof. unfold count_nudges. rewrite filter_app, length_app. reflexivity. Qed.

Lemma io_bind_trace {A B : Type} (ev : list event) (r : result A)
  (k : A -> io B) :
  io_bind (ev, r) k =
  (ev ++ fst (io_bind ([], r) k), snd (io_bind ([], r) k)).
Proof.
  destruct r as [a|e]; cbn [io_bind].
  - destruct (k a) as [ev' r']. reflexivity.
  - rewrite app_nil_r. reflexivity.
Qed.

Section ConversationFacts.

Variable completions_create : list message -> Z -> result value.
Variable number_to_string : jsnum -> jsstring.

(** The ways [research_ask] can go. *)
Lemma research_ask_cases (step : nat) (messages : list message) :
  match ask completions_create messages 3 with
  | Throw e =>
      research_ask completions_create step messages
      = ([EvChat messages 3], Throw e)
  | Return r1 =>
      exists cmd,
        _parseJsonCommand r1 = Return cmd /\
        let m1 := push messages Assistant r1 in
        let m2 := push m1 User NUDGE in
        if match cmd with None => true | Some c => negb (truthy c) end
           && Nat.eqb step 0
        then
          match ask completions_create m2 2 with
          | Throw e =>
              research_ask completions_create step messages
              = ([EvChat messages 3; EvChat m2 2], Throw e)
          | Return r2 =>
              exists cmd2,
                _parseJsonCommand r2 = Return cmd2 /\
                research_ask completions_create step messages
                = ([EvChat messages 3; EvChat m2 2],
                   Return (r2, push m2 Assistant r2, cmd2))
          end
        else
          research_ask completions_create step messages
          = ([EvChat messages 3], Return (r1, m1, cmd))
  end.
Proof.
  unfold research_ask. rewrite chatMultiTurn_eq.
  destruct (ask completions_create messages 3) as [r1|e]; [|reflexivity].
  io_simpl.
  destruct (parse_never_throws r1) as [cmd E]. rewrite E. io_simpl.
  exists cmd. split; [reflexivity|]. cbn zeta.
  destruct ((match cmd with None => true | Some c => negb (truthy c) end)
            && Nat.eqb step 0).
  - rewrite chatMultiTurn_eq.
    destruct (ask completions_create _ 2) as [r2|e]; [|reflexivity].
    io_simpl.
    destruct (parse_never_throws r2) as [cmd2 E2]. rewrite E2. io_simpl.
    exists cmd2. split; reflexivity.
  - reflexivity.
Qed.

(** What the dispatch adds to the conversation: one user turn when the
    loop goes on, nothing when it breaks; it asks the model nothing. *)
Lemma research_dispatch_cases (tools : search_tools) (topic response : jsstring)
  (messages : list message) (cmd : option value) :
  exists dv r,
    research_dispatch number_to_string tools topic response messages cmd = (dv, r) /\
    chat_log dv = [] /\ count_nudges dv = 0 /\
    match r with
    | Return (StepNext m) => exists u, m = push messages User u
    | Return (StepBreak m) => m = messages
    | _ => True
    end.
Proof.
  unfold research_dispatch.
  destruct cmd as [c|];
    [|do 2 eexists; split; [reflexivity|]; repeat split].
  destruct (no_valid_command (Some c));
    [do 2 eexists; split; [reflexivity|]; repeat split|].
  destruct (is_string (get c (str "action")) (str "done")).
  { rewrite io_lift_bind.
    destruct (research_done number_to_string c response);
      do 2 eexists; (split; [reflexivity|]); repeat split. }
  destruct (is_string (get c (str "action")) (str "search")).
  { unfold research_search. rewrite io_lift_bind.
    destruct (String_ number_to_string (get c (str "query")));
      [|do 2 eexists; (split; [reflexivity|]); repeat split].
    io_simpl.
    destruct (formatSearchResults number_to_string _);
      io_simpl; do 2 eexists; (split; [reflexivity|]); repeat split.
    eexists. reflexivity. }
  destruct (is_string (get c (str "action")) (str "read")).
  { unfold research_read. cbn zeta. rewrite io_lift_bind.
    destruct (slice_value 60 _);
      [|do 2 eexists; (split; [reflexivity|]); repeat split].
    rewrite io_lift_bind.
    destruct (String_ number_to_string _);
      [|do 2 eexists; (split; [reflexivity|]); repeat split].
    io_simpl.
    destruct (String_ number_to_string (get c (str "url")));
      io_simpl; do 2 eexists; (split; [reflexivity|]); repeat split.
    eexists. reflexivity. }
  rewrite io_lift_bind.
  destruct (String_ number_to_string (get c (str "action")));
    do 2 eexists; (split; [reflexivity|]); repeat split.
Qed.

Lemma takes_up_push (asked : list message * Z) (reply u : jsstring) :
  reply_to completions_create asked = Return reply ->
  takes_up completions_create asked
    (push (push (fst asked) Assistant reply) User u).
Proof.
  intros R. exists reply, [{| msg_role := User; content := u |}].
  unfold push. rewrite <- app_assoc. split; [exact R|].
  split; [reflexivity|]. split; [reflexivity | simpl; lia].
Qed.

Lemma takes_up_push2 (asked : list message * Z) (reply u v : jsstring) :
  reply_to completions_create asked = Return reply ->
  takes_up completions_create asked
    (push (push (push (fst asked) Assistant reply) User u) User v).
Proof.
  intros R.
  exists reply,
    [{| msg_role := User; content := u |}; {| msg_role := User; content := v |}].
  unfold push. rewrite <- !app_assoc. split; [exact R|].
  split; [reflexivity|]. split; [reflexivity | simpl; lia].
Qed.

(** A step is the step line, the question and the dispatch. *)
Lemma research_step_parts (tools : search_tools) (topic : jsstring)
  (step : nat) (messages : list message) :
  research_step completions_create number_to_string tools topic step messages =
  match research_ask completions_create step messages with
  | (ev, Return (response, messages', cmd)) =>
      (EvStep step ::
       ev ++ fst (research_dispatch number_to_string tools topic response
                    messages' cmd),
       snd (research_dispatch number_to_string tools topic response
              messages' cmd))
  | (ev, Throw e) => (EvStep step :: ev, Throw e)
  end.
Proof.
  unfold research_step. cbn [io_bind emit].
  destruct (research_ask completions_create step messages)
    as [ev [[[response messages'] cmd]|e]]; cbn [io_bind app].
  - destruct (research_dispatch _ _ _ _ _ _) as [dv r]. reflexivity.
  - reflexivity.
Qed.

(** The loop from any step on: the first conversation is the one the
    loop was entered with (with the forcing instruction when no step is
    left), every later one takes up the one before it, and a nudge is
    given at step 0 only. *)
Lemma research_loop_conversation (tools : search_tools) (topic : jsstring)
  (remaining : nat) :
  forall step messages,
  let tr := fst (research_loop completions_create number_to_string tools topic
                   remaining step messages) in
  exists t rest,
    chat_log tr =
      (match remaining with
       | 0 => push messages User FORCING
       | S _ => messages
       end, t) :: rest /\
    linked completions_create (chat_log tr) /\
    Forall (research_chat) (chat_log tr) /\
    count_nudges tr <= (if Nat.eqb step 0 then 1 else 0).
Proof.
  induction remaining as [|n IH]; intros step messages tr; subst tr.
  - cbn [research_loop]. rewrite research_finish_eq. cbn [fst chat_log].
    exists 3%Z, []. split; [reflexivity|]. split; [cbn; auto|].
    split; [repeat constructor|]. cbn. destruct (Nat.eqb step 0); lia.
  - cbn [research_loop].
    set (k := fun out : step_outcome =>
                match out with
                | StepReturn summary => io_ret summary
                | StepNext messages' =>
                    research_loop completions_create number_to_string tools
                      topic n (S step) messages'
                | StepBreak messages' =>
                    research_finish completions_create number_to_string messages'
                end).
    (* what the rest of the run looks like from a conversation that
       ends with the reply to [last] *)
    assert (Rest : forall (last : list message * Z) (reply response : jsstring)
                          (cmd : option value),
      reply_to completions_create last = Return reply ->
      let d := research_dispatch number_to_string tools topic response
                 (push (fst last) Assistant reply) cmd in
      linked completions_create
        (last :: chat_log (fst (io_bind ([], snd d) k))) /\
      Forall research_chat (chat_log (fst (io_bind ([], snd d) k))) /\
      count_nudges (fst (io_bind ([], snd d) k)) = 0 /\
      chat_log (fst d) = [] /\ count_nudges (fst d) = 0).
    { intros last reply response cmd Rp d. subst d.
      set (m' := push (fst last) Assistant reply) in *.
      destruct (research_dispatch_cases tools topic response m' cmd)
        as [dv [r [D [Dc [Dn Dr]]]]].
      rewrite D. cbn [fst snd].
      split; [|split; [|split; [|split; assumption]]];
        destruct r as [[s | m | m] | e]; cbn [io_bind k io_ret fst chat_log];
        try (repeat split; constructor).
      - destruct Dr as [u ->].
        destruct (IH (S step) (push m' User u)) as [t [rest [L [K _]]]].
        destruct (research_loop completions_create number_to_string tools topic n
                    (S step) (push m' User u)) as [ev2 r2].
        cbn [fst app] in *.
        rewrite L in *. cbn [linked]. split; [|exact K].
        cbn [fst].
        destruct n; [apply takes_up_push2 | apply takes_up_push]; exact Rp.
      - subst m. rewrite research_finish_eq.
        cbn [fst app chat_log linked]. repeat split.
        apply takes_up_push, Rp.
      - destruct Dr as [u ->].
        destruct (IH (S step) (push m' User u)) as [t [rest [_ [_ [F _]]]]].
        destruct (research_loop completions_create number_to_string tools topic n
                    (S step) (push m' User u)) as [ev2 r2].
        exact F.
      - rewrite research_finish_eq. cbn [fst app chat_log]. repeat constructor.
      - destruct Dr as [u ->].
        destruct (IH (S step) (push m' User u)) as [t [rest [_ [_ [_ C]]]]].
        destruct (research_loop completions_create number_to_string tools topic n
                    (S step) (push m' User u)) as [ev2 r2].
        cbn [fst app Nat.eqb] in *. lia.
      - rewrite research_finish_eq. reflexivity. }
    rewrite research_step_parts.
    pose proof (research_ask_cases step messages) as Cases.
    destruct (ask completions_create messages 3) as [r1|e] eqn:A1.
    2:{ rewrite Cases. cbn [io_bind fst chat_log].
        exists 3%Z, []. split; [reflexivity|]. split; [cbn; auto|].
        split; [repeat constructor|]. cbn. destruct (Nat.eqb step 0); lia. }
    destruct Cases as [cmd [_ Cases]]. cbn zeta in Cases.
    destruct ((match cmd with None => true | Some c => negb (truthy c) end)
              && Nat.eqb step 0) eqn:G.
    + apply andb_prop in G. destruct G as [_ G]. apply Nat.eqb_eq in G.
      subst step.
      set (m2 := push (push messages Assistant r1) User NUDGE) in *.
      assert (T1 : takes_up completions_create (messages, 3%Z) m2)
        by (apply (takes_up_push (messages, 3%Z) r1 NUDGE); exact A1).
      destruct (ask completions_create m2 2) as [r2|e] eqn:A2.
      2:{ rewrite Cases. cbn [io_bind fst chat_log].
          exists 3%Z. eexists. split; [reflexivity|].
          split; [cbn [linked fst]; auto|].
          split; [|cbn; lia].
          constructor; [left; reflexivity|].
          constructor; [|constructor].
          right. split; [reflexivity|]. eexists. reflexivity. }
      destruct Cases as [cmd2 [_ Cases]]. rewrite Cases.
      destruct (Rest (m2, 2%Z) r2 r2 cmd2 A2) as [K [F [C [Dc Dn]]]].
      cbn [fst] in K, F, C, Dc, Dn.
      rewrite io_bind_trace. cbn [fst].
      change (EvStep 0 :: ?a ++ ?b) with ([EvStep 0] ++ a ++ b).
      rewrite !chat_log_app, !count_nudges_app.
      rewrite Dc, Dn, C. cbn [chat_log app].
      exists 3%Z. eexists. split; [reflexivity|].
      split; [|split].
      * cbn [linked fst]. split; [exact T1 | exact K].
      * constructor; [left; reflexivity|].
        constructor; [|exact F]. right. split; [reflexivity|].
        eexists. reflexivity.
      * cbn. lia.
    + rewrite Cases.
      destruct (Rest (messages, 3%Z) r1 r1 cmd A1) as [K [F [C [Dc Dn]]]].
      cbn [fst] in K, F, C, Dc, Dn.
      rewrite io_bind_trace. cbn [fst].
      change (EvStep step :: ?a ++ ?b) with ([EvStep step] ++ a ++ b).
      rewrite !chat_log_app, !count_nudges_app.
      rewrite Dc, Dn, C. cbn [chat_log app].
      exists 3%Z. eexists. split; [reflexivity|]. split; [exact K|].
      split; [constructor; [left; reflexivity | exact F]|].
      cbn. destruct (Nat.eqb step 0); lia.
Qed.

End ConversationFacts.

(* ------------------------------------------------------------------ *)
(** ** Facts about the configuration of [createLLM]                     *)
(* ------------------------------------------------------------------ *)

(** Only the entry of anthropic names the refining backend. *)
Lemma refining_backend_is_anthropic (id : jsstring) :
  preset_imageBackend (preset_or_openai id) = AnthropicRefine ->
  id = str "anthropic".
Proof.
  unfold preset_or_openai, PROVIDERS.
  destruct (string_eqb id (str "openai")); [discriminate|].
  destruct (string_eqb id (str "anthropic")) eqn:E;
    [intros _; apply string_eqb_eq, E|].
  destruct (string_eqb id (str "gemini")); [discriminate|].
  destruct (string_eqb id (str "grok")); [discriminate|].
  destruct (inherited_name id); discriminate.
Qed.

(** The refining backend is chosen exactly when images are asked of
    anthropic, and then the renderer is openai. *)
Lemma anthropic_refine_renderer (provider imageProvider : jsstring) :
  imgBackend provider imageProvider = AnthropicRefine ->
  imgProvider provider imageProvider = str "anthropic" /\
  renderProvider imageProvider = str "openai".
Proof.
  unfold imgBackend, imgPreset. intros B.
  apply refining_backend_is_anthropic in B.
  split; [exact B|].
  unfold renderProvider, imgProvider, or_string in *.
  destruct imageProvider as [|c r]; [reflexivity|].
  rewrite B. reflexivity.
Qed.

Lemma renderClient_spec
  (provider apiKey imageProvider imageApiKey imageBaseURL : jsstring) :
  imgBackend provider imageProvider = AnthropicRefine ->
  renderClient provider apiKey imageProvider imageApiKey imageBaseURL =
  Some {| client_key := or_string imageApiKey apiKey;
          client_url := or_string imageBaseURL (str "https://api.openai.com/v1") |}.
Proof.
  intros B. destruct (anthropic_refine_renderer _ _ B) as [_ R].
  unfold renderClient. rewrite B, R. reflexivity.
Qed.

(** The refining backend is never that of a built-in. *)
Lemma anthropic_refine_not_inherited (provider imageProvider : jsstring) :
  imgBackend provider imageProvider = AnthropicRefine ->
  inherited_name (imgProvider provider imageProvider) = false.
Proof.
  intros B. destruct (anthropic_refine_renderer _ _ B) as [P _].
  rewrite P. reflexivity.
Qed.

Lemma gemini_native_not_inherited (provider imageProvider : jsstring) :
  imgBackend provider imageProvider = GeminiNative ->
  inherited_name (imgProvider provider imageProvider) = false.
Proof.
  intros B. destruct (inherited_name _) eqn:I; [|reflexivity].
  rewrite (imgBackend_inherited _ _ I) in B. discriminate.
Qed.

Lemma imgClient_spec
  (provider apiKey baseURL_arg imageProvider imageApiKey imageBaseURL
   imageModel_arg : jsstring) :
  match imgBackend provider imageProvider with
  | OpenaiCompat =>
      if inherited_name (imgProvider provider imageProvider)
      then imgClient provider apiKey baseURL_arg imageProvider imageApiKey
             imageBaseURL imageModel_arg = None
      else exists c, imgClient provider apiKey baseURL_arg imageProvider
                       imageApiKey imageBaseURL imageModel_arg = Some c
  | _ => imgClient provider apiKey baseURL_arg imageProvider imageApiKey
           imageBaseURL imageModel_arg = None
  end.
Proof.
  unfold imgClient. rewrite canGenerateImages_cases.
  destruct (imgBackend provider imageProvider); try reflexivity.
  destruct (inherited_name _); cbn [truthy]; [reflexivity|].
  destruct (_ && _); eexists; reflexivity.
Qed.

Section RouterFacts.

Variable completions_create : list message -> Z -> result value.
Variable number_to_string : jsnum -> jsstring.
Variables provider apiKey baseURL_arg imageProvider imageApiKey imageBaseURL
  imageModel_arg imageStoreURL : jsstring.
Variable imagen_fetch : jsstring -> jsstring -> jsstring -> result response.
Variable store_fetch : jsstring -> jsstring -> result response.
Variable images_generate : client -> jsstring -> jsstring -> result value.
Variable Buffer_from : value -> result jsstring.

(** A call of an images API with a client at hand: one request. *)
Lemma openai_compat_trace (description : jsstring) (c : client) (model : jsstring) :
  model <> [] ->
  fst (_generateImageOpenAICompat number_to_string provider apiKey baseURL_arg
         imageProvider imageApiKey imageBaseURL imageModel_arg images_generate
         description (Some c) model) = [EvImagesGenerate model description].
Proof.
  intros M. unfold _generateImageOpenAICompat.
  destruct model as [|x model]; [congruence|]. cbn [or_string]. io_simpl.
  destruct (images_generate c (x :: model) description) as [resp|e]; io_simpl;
    [|reflexivity].
  destruct (get_checked resp (str "data")) as [data|e]; io_simpl; [|reflexivity].
  destruct (get_index0 data) as [first|e]; io_simpl; [|reflexivity].
  destruct (truthy _); [|reflexivity].
  destruct (slice_value 80 _) as [shown|e]; io_simpl; [|reflexivity].
  destruct (String_ number_to_string shown); reflexivity.
Qed.

Lemma openai_compat_default_trace (description : jsstring) :
  imgBackend provider imageProvider = OpenaiCompat ->
  inherited_name (imgProvider provider imageProvider) = false ->
  fst (_generateImageOpenAICompat number_to_string provider apiKey baseURL_arg
         imageProvider imageApiKey imageBaseURL imageModel_arg images_generate
         description None []) =
  [EvImagesGenerate (imgModel provider imageProvider imageModel_arg) description].
Proof.
  intros B I. unfold _generateImageOpenAICompat.
  pose proof (imgClient_spec provider apiKey baseURL_arg imageProvider imageApiKey
                imageBaseURL imageModel_arg) as C. rewrite B, I in C.
  destruct C as [c C]. rewrite C. cbn [or_string]. io_simpl.
  destruct (images_generate c _ description) as [resp|e]; io_simpl;
    [|reflexivity].
  destruct (get_checked resp (str "data")) as [data|e]; io_simpl; [|reflexivity].
  destruct (get_index0 data) as [first|e]; io_simpl; [|reflexivity].
  destruct (truthy _); [|reflexivity].
  destruct (slice_value 80 _) as [shown|e]; io_simpl; [|reflexivity].
  destruct (String_ number_to_string shown); reflexivity.
Qed.

Lemma renderModel_nonempty : renderModel imageProvider imageModel_arg <> [].
Proof.
  unfold renderModel. destruct imageModel_arg; [|discriminate]. cbn [or_string].
  destruct (preset_imageModel _); discriminate.
Qed.

Lemma gemini_trace (description : jsstring) :
  let tr := fst (_generateImageGemini number_to_string provider apiKey
                   imageProvider imageApiKey
                   imageModel_arg imageStoreURL imagen_fetch store_fetch
                   Buffer_from description) in
  let request := EvImagen (imgModel provider imageProvider imageModel_arg)
                   description in
  tr = [request] \/
  exists resp data predictions buf,
    tr = [request; EvUpload imageStoreURL buf] /\
    imagen_fetch (imgModel provider imageProvider imageModel_arg)
      (imgApiKey apiKey imageApiKey) description = Return resp /\
    ok resp = true /\ body_json resp = Return data /\
    get_checked data (str "predictions") = Return predictions /\
    Buffer_from (get_optional (get_index0_optional predictions)
                   (str "bytesBase64Encoded")) = Return buf /\
    imageStoreURL <> [].
Proof.
  intros tr request. subst tr request. unfold _generateImageGemini. io_simpl.
  destruct (imagen_fetch _ _ _) as [resp|e] eqn:F; io_simpl; [|left; reflexivity].
  destruct (ok resp) eqn:O; cbn [negb]; io_simpl; [|left; reflexivity].
  destruct (body_json resp) as [data|e] eqn:J; io_simpl; [|left; reflexivity].
  destruct (get_checked data (str "predictions")) as [predictions|e] eqn:P;
    io_simpl; [|left; reflexivity].
  destruct (truthy (get_optional (get_index0_optional predictions)
                      (str "bytesBase64Encoded"))); cbn [negb]; io_simpl;
    [|left; reflexivity].
  destruct imageStoreURL as [|u store] eqn:S; cbn [nonempty negb]; io_simpl;
    [left; reflexivity|].
  destruct (Buffer_from _) as [buf|e] eqn:Bf; io_simpl; [|left; reflexivity].
  right. exists resp, data, predictions, buf.
  split; [|repeat split; try assumption; discriminate].
  destruct (store_fetch (u :: store) buf) as [up|e]; io_simpl; [|reflexivity].
  destruct (ok up); cbn [negb]; io_simpl; [|reflexivity].
  destruct (body_json up) as [body|e]; io_simpl; [|reflexivity].
  destruct (get_checked body (str "url")) as [x|e]; io_simpl; [|reflexivity].
  destruct (String_ number_to_string x); reflexivity.
Qed.

(** The requests of [generateImage] are those of the backend call,
    and there is none when the image provider names a built-in. *)
Lemma generateImage_trace (description : jsstring) :
  fst (generateImage completions_create number_to_string provider apiKey
         baseURL_arg imageProvider imageApiKey imageBaseURL imageModel_arg
         imageStoreURL imagen_fetch store_fetch images_generate Buffer_from
         description) =
  if inherited_name (imgProvider provider imageProvider) then []
  else fst (image_backend_call completions_create number_to_string provider
              apiKey baseURL_arg imageProvider imageApiKey imageBaseURL
              imageModel_arg imageStoreURL imagen_fetch store_fetch
              images_generate Buffer_from description).
Proof.
  unfold generateImage. rewrite canGenerateImages_cases.
  destruct (inherited_name _); cbn [truthy negb]; [reflexivity|].
  apply io_try_trace.
Qed.

End RouterFacts.

(** The names every object inherits from [Object.prototype]. *)
Lemma inherited_name_names (k : jsstring) :
  In k (map str ["constructor"; "toString"; "valueOf"; "hasOwnProperty";
                 "isPrototypeOf"; "propertyIsEnumerable"; "toLocaleString";
                 "__proto__"; "__defineGetter__"; "__defineSetter__";
                 "__lookupGetter__"; "__lookupSetter__"]%string) <->
  inherited_name k = true.
Proof.
  split.
  - intros H. cbn [map In] in H.
    repeat (destruct H as [H|H]; [subst k; reflexivity|]). contradiction.
  - intros H. unfold inherited_name in H. apply existsb_exists in H.
    destruct H as [x [I E]]. apply string_eqb_eq in E. subst x.
    unfold object_prototype_names in I. cbn [In] in I. cbn [map In].
    repeat (destruct I as [I|I];
            [rewrite <- I; repeat (first [left; reflexivity | right])|]).
    contradiction.
Qed.

(* ------------------------------------------------------------------ *)
(** ** Facts about [includes] and [formatSearchResults]                 *)
(* ------------------------------------------------------------------ *)

Lemma includes_join (sep x p : jsstring) (parts : list jsstring) :
  In p parts -> includes p x = true -> includes (join sep parts) x = true.
Proof.
  intros I H. induction parts as [|q parts IH]; [destruct I|].
  destruct I as [->|I].
  - destruct parts; cbn [join]; [exact H | apply includes_app_l, H].
  - destruct parts as [|q' parts]; [destruct I|].
    cbn [join]. apply includes_app_r, includes_app_r, IH, I.
Qed.

Lemma in_combine_seq {A : Type} (x : A) (l : list A) (start : nat) :
  In x l -> exists i, In (i, x) (combine (seq start (length l)) l).
Proof.
  revert start. induction l as [|y l IH]; intros start H; [destruct H|].
  destruct H as [->|H].
  - exists start. left. reflexivity.
  - destruct (IH (S start) H) as [i Hi]. exists i. right. exact Hi.
Qed.

(** [map_result] returns the results in order, one for each element. *)
Lemma map_result_in {A B : Type} (f : A -> result B) (xs : list A) (ys : list B) :
  map_result f xs = Return ys ->
  forall x, In x xs -> exists y, f x = Return y /\ In y ys.
Proof.
  revert ys. induction xs as [|a xs IH]; intros ys M x I; [destruct I|].
  cbn [map_result] in M.
  destruct (f a) as [b|e] eqn:Fa; cbn [bind] in M; [|discriminate].
  destruct (map_result f xs) as [bs|e] eqn:Fs; cbn [bind] in M; [|discriminate].
  injection M as <-. destruct I as [->|I].
  - exists b. split; [exact Fa | left; reflexivity].
  - destruct (IH bs eq_refl x I) as [y [Fy Iy]].
    exists y. split; [exact Fy | right; exact Iy].
Qed.

Lemma map_result_returns {A B : Type} (f : A -> result B) (xs : list A) :
  (forall x, In x xs -> exists y, f x = Return y) ->
  exists ys, map_result f xs = Return ys.
Proof.
  induction xs as [|a xs IH]; intros H; [exists []; reflexivity|].
  destruct (H a (or_introl eq_refl)) as [b Fa].
  destruct (IH (fun x I => H x (or_intror I))) as [bs Fs].
  exists (b :: bs). cbn [map_result]. rewrite Fa. cbn [bind]. rewrite Fs.
  reflexivity.
Qed.

Lemma map_result_nonempty {A B : Type} (f : A -> result B) (a : A) (xs : list A)
  (ys : list B) :
  map_result f (a :: xs) = Return ys ->
  exists b bs, ys = b :: bs /\ f a = Return b.
Proof.
  cbn [map_result]. destruct (f a) as [b|e]; cbn [bind]; [|discriminate].
  destruct (map_result f xs) as [bs|e]; cbn [bind]; [|discriminate].
  intros M. injection M as <-. exists b, bs. split; reflexivity.
Qed.

(** The line of a result whose three fields convert. *)
Lemma result_line_text (number_to_string : jsnum -> jsstring) (i : nat)
  (r : search_result) (line : jsstring) :
  result_line number_to_string (i, r) = Return line ->
  exists t s u,
    to_string number_to_string (title r) = Return t /\
    to_string number_to_string (snippet r) = Return s /\
    to_string number_to_string (url r) = Return u /\
    line = nat_to_string (i + 1) ++ str ". [" ++ t ++ str "] " ++ s ++
           [c_newline] ++ str "   URL: " ++ u.
Proof.
  unfold result_line.
  destruct (to_string number_to_string (title r)) as [t|e]; cbn [bind];
    [|discriminate].
  destruct (to_string number_to_string (snippet r)) as [s|e]; cbn [bind];
    [|discriminate].
  destruct (to_string number_to_string (url r)) as [u|e]; cbn [bind];
    [|discriminate].
  intros H. injection H as <-. exists t, s, u. repeat split.
Qed.

Lemma formatSearchResults_line (number_to_string : jsnum -> jsstring)
  (r : search_result) (rs : list search_result) (text : jsstring) :
  formatSearchResults number_to_string rs = Return text ->
  In r rs ->
  exists i t s u,
    i < length rs /\
    to_string number_to_string (title r) = Return t /\
    to_string number_to_string (snippet r) = Return s /\
    to_string number_to_string (url r) = Return u /\
    includes text
      (nat_to_string (i + 1) ++ str ". [" ++ t ++ str "] " ++ s ++
       [c_newline] ++ str "   URL: " ++ u) = true.
Proof.
  intros F H. destruct rs as [|r0 rs]; [destruct H|].
  unfold formatSearchResults in F.
  destruct (map_result _ _) as [lines|e] eqn:M; cbn [bind] in F; [|discriminate].
  injection F as <-.
  destruct (in_combine_seq r (r0 :: rs) 0 H) as [i Hi].
  destruct (map_result_in _ _ _ M (i, r) Hi) as [line [L Il]].
  destruct (result_line_text _ _ _ _ L) as [t [s [u [T [S [U ->]]]]]].
  exists i, t, s, u. split.
  - apply in_combine_l in Hi. apply in_seq in Hi. lia.
  - repeat split; try assumption.
    apply (includes_join _ _ _ _ Il). apply includes_self.
Qed.

(** The note (no results) stands for the empty list only. *)
Lemma formatSearchResults_note (number_to_string : jsnum -> jsstring)
  (rs : list search_result) :
  formatSearchResults number_to_string rs = Return (str "(no results)") <->
  rs = [].
Proof.
  split; [|intros ->; reflexivity].
  destruct rs as [|r0 rs]; [reflexivity|]. intros F. exfalso.
  unfold formatSearchResults in F.
  destruct (map_result _ _) as [lines|e] eqn:M; cbn [bind] in F; [|discriminate].
  cbn [length seq combine] in M.
  destruct (map_result_nonempty _ _ _ _ M) as [b [bs [-> L]]].
  destruct (result_line_text _ _ _ _ L) as [t [s [u [_ [_ [_ ->]]]]]].
  change (nat_to_string (0 + 1)) with [49%N] in F.
  destruct bs; cbn [join app] in F; discriminate.
Qed.

(** A list whose fields all convert is formatted. *)
Lemma formatSearchResults_returns (number_to_string : jsnum -> jsstring)
  (rs : list search_result) :
  (forall r, In r rs ->
     exists t s u,
       to_string number_to_string (title r) = Return t /\
       to_string number_to_string (snippet r) = Return s /\
       to_string number_to_string (url r) = Return u) ->
  exists text, formatSearchResults number_to_string rs = Return text.
Proof.
  intros H. destruct rs as [|r0 rs]; [eexists; reflexivity|].
  unfold formatSearchResults.
  destruct (map_result_returns (result_line number_to_string)
              (combine (seq 0 (length (r0 :: rs))) (r0 :: rs))) as [lines M].
  { intros [i r] I. apply in_combine_r in I.
    destruct (H r I) as [t [s [u [T [S U]]]]].
    unfold result_line. rewrite T, S, U. eexists. reflexivity. }
  rewrite M. eexists. reflexivity.
Qed.


(** ** Facts about [JSON.stringify] followed by [JSON.parse]            *)
(* ------------------------------------------------------------------ *)

Lemma hex_val_digit (n : N) : (n < 16)%N -> hex_val (hex_digit n) = Some n.
Proof.
  intros H. destruct n as [|p]; [reflexivity|].
  do 4 (try (destruct p as [p|p|])); try reflexivity; exfalso; lia.
Qed.

Lemma hex4_escape (c : char) :
  (c < 65536)%N ->
  hex4 (hex_digit (c / 4096)) (hex_digit ((c / 256) mod 16))
       (hex_digit ((c / 16) mod 16)) (hex_digit (c mod 16)) = Some c.
Proof.
  intros H. unfold hex4.
  rewrite !hex_val_digit;
    try (apply N.mod_lt; discriminate);
    try (apply N.Div0.div_lt_upper_bound; exact H).
  f_equal.
  pose proof (N.div_mod c 16) as E1.
  pose proof (N.div_mod (c / 16) 16) as E2.
  pose proof (N.div_mod (c / 256) 16) as E3.
  replace (c / 16 / 16)%N with (c / 256)%N in E2
    by (rewrite N.Div0.div_div; reflexivity).
  replace (c / 256 / 16)%N with (c / 4096)%N in E3
    by (rewrite N.Div0.div_div; reflexivity).
  specialize (E1 ltac:(discriminate)). specialize (E2 ltac:(discriminate)).
  specialize (E3 ltac:(discriminate)). lia.
Qed.

Lemma parse_chars_unicode_escape (c : char) (rest : jsstring) :
  (c < 65536)%N ->
  parse_chars (unicode_escape c ++ rest) = pmap (cons c) (parse_chars rest).
Proof.
  intros H. unfold unicode_escape. cbn [app parse_chars].
  change (N.eqb c_backslash c_dquote) with false.
  change (N.eqb c_backslash c_backslash) with true.
  change (N.eqb 117 117) with true. cbv iota.
  rewrite (hex4_escape c H). reflexivity.
Qed.

Lemma parse_chars_plain (c : char) (rest : jsstring) :
  N.eqb c c_dquote = false -> N.eqb c c_backslash = false ->
  N.ltb c 32 = false ->
  parse_chars (c :: rest) = pmap (cons c) (parse_chars rest).
Proof. intros H1 H2 H3. cbn [parse_chars]. rewrite H1, H2, H3. reflexivity. Qed.

Lemma surrogate_small (c : char) :
  N.ltb c 32 || is_lead c || is_trail c = true -> (c < 65536)%N.
Proof.
  unfold is_lead, is_trail. intros H.
  apply orb_prop in H. destruct H as [H|H];
    [apply orb_prop in H; destruct H as [H|H]|].
  - apply N.ltb_lt in H. lia.
  - apply andb_prop in H. destruct H as [_ H]. apply N.leb_le in H. lia.
  - apply andb_prop in H. destruct H as [_ H]. apply N.leb_le in H. lia.
Qed.

Lemma parse_chars_escape_unit (c : char) (rest : jsstring) :
  parse_chars (escape_unit c ++ rest) = pmap (cons c) (parse_chars rest).
Proof.
  unfold escape_unit.
  destruct (N.eqb c 8) eqn:E1; [apply N.eqb_eq in E1; subst; reflexivity|].
  destruct (N.eqb c 9) eqn:E2; [apply N.eqb_eq in E2; subst; reflexivity|].
  destruct (N.eqb c 10) eqn:E3; [apply N.eqb_eq in E3; subst; reflexivity|].
  destruct (N.eqb c 12) eqn:E4; [apply N.eqb_eq in E4; subst; reflexivity|].
  destruct (N.eqb c 13) eqn:E5; [apply N.eqb_eq in E5; subst; reflexivity|].
  destruct (N.eqb c c_dquote) eqn:E6; [apply N.eqb_eq in E6; subst; reflexivity|].
  destruct (N.eqb c c_backslash) eqn:E7;
    [apply N.eqb_eq in E7; subst; reflexivity|].
  destruct (N.ltb c 32 || is_lead c || is_trail c) eqn:E8.
  - apply parse_chars_unicode_escape, surrogate_small, E8.
  - apply orb_false_elim in E8. destruct E8 as [E8 _].
    apply orb_false_elim in E8. destruct E8 as [E8 _].
    cbn [app]. apply parse_chars_plain; assumption.
Qed.

Lemma surrogate_plain (c : char) (rest : jsstring) :
  is_lead c || is_trail c = true ->
  parse_chars (c :: rest) = pmap (cons c) (parse_chars rest).
Proof.
  unfold is_lead, is_trail. intros H.
  assert (L : (55296 <= c)%N).
  { apply orb_prop in H. destruct H as [H|H]; apply andb_prop in H;
      destruct H as [H _]; apply N.leb_le in H; lia. }
  apply parse_chars_plain.
  - apply N.eqb_neq. unfold c_dquote. lia.
  - apply N.eqb_neq. unfold c_backslash. lia.
  - apply N.ltb_ge. lia.
Qed.

(** A quoted string reads back as the string that was quoted. *)
Lemma parse_chars_quote_units (s rest : jsstring) :
  parse_chars (quote_units s ++ c_dquote :: rest) = POk s rest.
Proof.
  remember (length s) as n eqn:L. revert s L.
  induction n as [n IH] using lt_wf_ind. intros s L.
  destruct s as [|c r]; [reflexivity|].
  assert (Hr : parse_chars (quote_units r ++ c_dquote :: rest) = POk r rest)
    by (apply (IH (length r)); [subst; simpl; lia | reflexivity]).
  cbn [quote_units].
  destruct (is_lead c) eqn:Lc.
  - destruct r as [|d r'].
    + rewrite parse_chars_escape_unit. reflexivity.
    + destruct (is_trail d) eqn:Td.
      * cbn [app].
        rewrite (surrogate_plain c) by (rewrite Lc; reflexivity).
        rewrite (surrogate_plain d) by (rewrite Td; apply orb_true_r).
        rewrite (IH (length r')); [reflexivity | subst; simpl; lia | reflexivity].
      * rewrite <- app_assoc, parse_chars_escape_unit, Hr. reflexivity.
  - rewrite <- app_assoc, parse_chars_escape_unit, Hr. reflexivity.
Qed.

Section StringifyFacts.

Variable number_to_json : jsnum -> jsstring.

Lemma opens_value_head (c : char) :
  opens_value c = true ->
  is_json_ws c = false /\ N.eqb c c_rbracket = false /\
  N.eqb c c_rbrace = false.
Proof.
  unfold opens_value. intros H.
  repeat (apply orb_prop in H; destruct H as [H|H]);
    apply N.eqb_eq in H; subst c; repeat split; reflexivity.
Qed.

Lemma skip_ws_opens (c : char) (t : jsstring) :
  opens_value c = true -> skip_ws (c :: t) = c :: t.
Proof.
  intros H. destruct (opens_value_head c H) as [W _].
  cbn [skip_ws]. rewrite W. reflexivity.
Qed.

Lemma reads_back_literal (v : value) (word : string) :
  JSON_stringify number_to_json v = Some (str word) ->
  (exists c t, str word = c :: t /\ opens_value c = true) ->
  (forall f rest, parse_value (S f) (str word ++ rest) = POk v rest) ->
  reads_back number_to_json v (str word).
Proof.
  intros S O P. split; [exact S|]. split; [exact O|].
  intros f rest L. destruct f as [|f]; [lia|]. apply P.
Qed.

Lemma reads_back_string (s : jsstring) :
  reads_back number_to_json (VString s) (JSON_quote s).
Proof.
  split; [reflexivity|]. split; [exists c_dquote; eexists; split; reflexivity|].
  intros f rest L. destruct f as [|f]; [lia|].
  rewrite parse_value_S. unfold JSON_quote. cbn [app skip_ws].
  change (is_json_ws c_dquote) with false. cbv iota.
  change (N.eqb c_dquote c_lbrace) with false.
  change (N.eqb c_dquote c_lbracket) with false.
  change (N.eqb c_dquote c_dquote) with true. cbv iota.
  rewrite <- app_assoc. cbn [app]. rewrite parse_chars_quote_units. reflexivity.
Qed.

(** The elements of a non-empty array, up to the closing bracket. *)
Lemma parse_elements_texts (x : value) (xs : list value) :
  Forall (fun y => reads_back number_to_json y (element_text number_to_json y))
    (x :: xs) ->
  forall f rest,
    2 * length (join [c_comma] (map (element_text number_to_json) (x :: xs))) + 4
      <= f ->
    parse_elements f
      (join [c_comma] (map (element_text number_to_json) (x :: xs)) ++
       c_rbracket :: rest) = POk (x :: xs) rest.
Proof.
  revert x. induction xs as [|y ys IH]; intros x F f rest L.
  - inversion F as [|? ? [_ [_ Px]] _]; subst.
    cbn [map join] in *. destruct f as [|f]; [lia|].
    rewrite parse_elements_S, Px by lia.
    cbn [skip_ws]. change (is_json_ws c_rbracket) with false. cbv iota.
    reflexivity.
  - inversion F as [|? ? [_ [_ Px]] F']; subst.
    cbn [map] in *. cbn [join] in *.
    fold (map (element_text number_to_json) ys) in *.
    rewrite !length_app in L. cbn [length] in L.
    destruct f as [|f]; [lia|].
    rewrite parse_elements_S, <- !app_assoc, Px by lia.
    cbn [app skip_ws]. change (is_json_ws c_comma) with false. cbv iota.
    change (N.eqb c_comma c_comma) with true. cbv iota.
    change (element_text number_to_json y ::
            map (element_text number_to_json) ys)
      with (map (element_text number_to_json) (y :: ys)).
    rewrite (IH y F'); [reflexivity|].
    cbn [map]. lia.
Qed.

(** The members of a non-empty object, up to the closing brace. *)
Lemma parse_members_texts (m : jsstring * value) (ms : list (jsstring * value)) :
  Forall (fun kv : jsstring * value =>
            reads_back number_to_json (snd kv)
              (element_text number_to_json (snd kv))) (m :: ms) ->
  forall f rest,
    2 * length (join [c_comma] (map (member_text number_to_json) (m :: ms))) + 4
      <= f ->
    parse_members f
      (join [c_comma] (map (member_text number_to_json) (m :: ms)) ++
       c_rbrace :: rest) = POk (m :: ms) rest.
Proof.
  assert (Head : forall (kv : jsstring * value) (f : nat) (tail : jsstring),
    reads_back number_to_json (snd kv) (element_text number_to_json (snd kv)) ->
    2 * length (member_text number_to_json kv) + 2 <= f ->
    parse_members (S f) (member_text number_to_json kv ++ tail) =
    match skip_ws tail with
    | [] => PErr
    | c' :: r4 =>
        if N.eqb c' c_comma then pmap (cons kv) (parse_members f r4)
        else if N.eqb c' c_rbrace then POk [kv] r4
        else PErr
    end).
  { intros [k x] f tail [_ [_ Px]] L. rewrite parse_members_S.
    unfold member_text, JSON_quote in *. cbn [fst snd] in *.
    rewrite !length_app in L. cbn [length] in L.
    rewrite <- !app_assoc. cbn [app skip_ws].
    change (is_json_ws c_dquote) with false. cbv iota.
    change (N.eqb c_dquote c_dquote) with true. cbv iota.
    rewrite parse_chars_quote_units.
    cbn [skip_ws]. change (is_json_ws c_colon) with false. cbv iota.
    change (N.eqb c_colon c_colon) with true. cbv iota.
    rewrite Px by lia. reflexivity. }
  revert m. induction ms as [|y ys IH]; intros m F f rest L.
  - inversion F as [|? ? Pm _]; subst.
    cbn [map join] in *. destruct f as [|f]; [lia|].
    rewrite (Head m f _ Pm) by lia.
    cbn [skip_ws]. change (is_json_ws c_rbrace) with false. cbv iota.
    reflexivity.
  - inversion F as [|? ? Pm F']; subst.
    cbn [map] in *. cbn [join] in *.
    fold (map (member_text number_to_json) ys) in *.
    rewrite !length_app in L. cbn [length] in L.
    destruct f as [|f]; [lia|].
    rewrite <- !app_assoc. rewrite (Head m f _ Pm) by lia.
    cbn [app skip_ws]. change (is_json_ws c_comma) with false. cbv iota.
    change (N.eqb c_comma c_comma) with true. cbv iota.
    change (member_text number_to_json y ::
            map (member_text number_to_json) ys)
      with (map (member_text number_to_json) (y :: ys)).
    rewrite (IH y F'); [reflexivity|].
    cbn [map]. lia.
Qed.

Lemma flat_map_members (ms : list (jsstring * value)) :
  Forall (fun kv : jsstring * value =>
            reads_back number_to_json (snd kv)
              (element_text number_to_json (snd kv))) ms ->
  flat_map (fun kv : jsstring * value =>
              let (k, x) := kv in
              match JSON_stringify number_to_json x with
              | Some t => [JSON_quote k ++ [c_colon] ++ t]
              | None => []
              end) ms =
  map (member_text number_to_json) ms.
Proof.
  induction 1 as [|[k x] ms [S _] _ IH]; [reflexivity|].
  cbn [flat_map map]. rewrite IH. unfold member_text, element_text in *.
  cbn [fst snd] in *.
  destruct (JSON_stringify number_to_json x); [reflexivity | discriminate].
Qed.

(** Every value without numbers and without [undefined] is read back
    from its serialisation. *)
Lemma reads_back_plain (v : value) :
  plain_json v = true ->
  reads_back number_to_json v (element_text number_to_json v).
Proof.
  induction v as [| |b|n|s|items IH|ms IH] using value_nested_ind;
    intros Pl; try discriminate.
  - apply (reads_back_literal VNull "null"); [reflexivity| |reflexivity].
    do 2 eexists. split; reflexivity.
  - destruct b.
    + apply (reads_back_literal (VBool true) "true"); [reflexivity| |reflexivity].
      do 2 eexists. split; reflexivity.
    + apply (reads_back_literal (VBool false) "false"); [reflexivity| |reflexivity].
      do 2 eexists. split; reflexivity.
  - apply reads_back_string.
  - cbn [plain_json] in Pl.
    assert (F : Forall (fun y => reads_back number_to_json y
                                   (element_text number_to_json y)) items).
    { rewrite Forall_forall in *. intros y Iy. apply (IH y Iy).
      rewrite forallb_forall in Pl. apply Pl, Iy. }
    unfold element_text at 1. cbn [JSON_stringify].
    fold (element_text number_to_json).
    split; [reflexivity|].
    split; [exists c_lbracket; eexists; split; reflexivity|].
    intros f rest L. destruct f as [|f]; [lia|].
    rewrite parse_value_S. cbn [app skip_ws].
    change (is_json_ws c_lbracket) with false. cbv iota.
    change (N.eqb c_lbracket c_lbrace) with false.
    change (N.eqb c_lbracket c_lbracket) with true. cbv iota.
    destruct items as [|x xs].
    + reflexivity.
    + rewrite <- app_assoc. cbn [app].
      inversion F as [|? ? [_ [[c [t [Ex Ox]]] _]] _]; subst.
      assert (Hd : exists t', join [c_comma]
                     (map (element_text number_to_json) (x :: xs)) = c :: t').
      { cbn [map join]. rewrite Ex.
        destruct (map _ xs); cbn [app]; eexists; reflexivity. }
      destruct Hd as [t' Hd].
      rewrite !length_app in L. cbn [length] in L.
      pose proof (parse_elements_texts x xs F f rest) as Pe.
      rewrite Hd in *. cbn [app] in *.
      rewrite (skip_ws_opens c _ Ox).
      destruct (opens_value_head c Ox) as [_ [Rb _]]. rewrite Rb.
      rewrite Pe by (cbn [length] in *; lia). reflexivity.
  - cbn [plain_json] in Pl.
    assert (F : Forall (fun kv : jsstring * value =>
                          reads_back number_to_json (snd kv)
                            (element_text number_to_json (snd kv))) ms).
    { rewrite Forall_forall in *. intros kv Ikv. apply (IH kv Ikv).
      rewrite forallb_forall in Pl. apply (Pl kv Ikv). }
    unfold element_text at 1. cbn [JSON_stringify].
    rewrite (flat_map_members ms F).
    split; [cbn [JSON_stringify]; rewrite (flat_map_members ms F); reflexivity|].
    split; [exists c_lbrace; eexists; split; reflexivity|].
    intros f rest L. destruct f as [|f]; [lia|].
    rewrite parse_value_S. cbn [app skip_ws].
    change (is_json_ws c_lbrace) with false. cbv iota.
    change (N.eqb c_lbrace c_lbrace) with true. cbv iota.
    destruct ms as [|m ms'].
    + reflexivity.
    + rewrite <- app_assoc. cbn [app].
      assert (Hd : exists t', join [c_comma]
                     (map (member_text number_to_json) (m :: ms')) = c_dquote :: t').
      { cbn [map join]. unfold member_text at 1, JSON_quote.
        destruct (map _ ms'); cbn [app]; eexists; reflexivity. }
      destruct Hd as [t' Hd].
      rewrite !length_app in L. cbn [length] in L.
      pose proof (parse_members_texts m ms' F f rest) as Pm.
      rewrite Hd in *. cbn [app] in *.
      cbn [skip_ws]. change (is_json_ws c_dquote) with false. cbv iota.
      change (N.eqb c_dquote c_rbrace) with false. cbv iota.
      rewrite Pm by (cbn [length] in *; lia). reflexivity.
Qed.

(** [JSON.parse] after [JSON.stringify]. *)
Lemma JSON_round_trip (v : value) :
  plain_json v = true ->
  exists text,
    JSON_stringify number_to_json v = Some text /\
    JSON_parse text = Return v.
Proof.
  intros Pl. destruct (reads_back_plain v Pl) as [S [_ P]].
  exists (element_text number_to_json v). split; [exact S|].
  unfold JSON_parse, json_fuel.
  rewrite <- (app_nil_r (element_text number_to_json v)) at 2.
  rewrite P by lia. reflexivity.
Qed.

End StringifyFacts.

(* ------------------------------------------------------------------ *)
(** ** Facts about the parser on serialised commands                    *)
(* ------------------------------------------------------------------ *)

Lemma replace_all_no_match (match_at : jsstring -> option nat) (rep s : jsstring)
  (P : jsstring -> bool) :
  (forall c r n, match_at (c :: r) = Some (S n) -> P (c :: r) = true) ->
  (forall c r, P (c :: r) = false -> P r = false) ->
  P s = false -> replace_all match_at rep 0 s = s.
Proof.
  intros Hm Ht. pattern s, (replace_all match_at rep 0 s). apply replace_all_scan.
  - reflexivity.
  - intros c r _ IH H. f_equal. apply IH, (Ht c r H).
  - intros c r n M _ H. rewrite (Hm c r n M) in H. discriminate.
Qed.

Lemma includes_tail (c : char) (r x : jsstring) :
  includes (c :: r) x = false -> includes r x = false.
Proof. cbn [includes]. intros H. apply orb_false_elim in H. apply H. Qed.

Lemma includes_head (c : char) (r x : jsstring) :
  starts_with x (c :: r) = true -> includes (c :: r) x = true.
Proof. intros H. cbn [includes]. rewrite H. reflexivity. Qed.

(** A text without three backticks in a row is left alone by line 215,
    up to the white space at its ends. *)
Lemma strip_fences_no_fence (s : jsstring) :
  includes s fence = false -> strip_fences s = trim s.
Proof.
  intros H. unfold strip_fences, replace_fences, replace_backticks.
  rewrite (replace_all_no_match fence_at [] s (fun t => includes t fence));
    [|intros c r n M|intros c r; apply includes_tail|exact H].
  - rewrite (replace_all_no_match backticks_at [] s (fun t => includes t fence));
      [reflexivity|intros c r n M|intros c r; apply includes_tail|exact H].
    apply includes_head. unfold backticks_at in M.
    destruct (starts_with fence (c :: r)); [reflexivity | discriminate].
  - apply includes_head. unfold fence_at in M.
    destruct (starts_with fence (c :: r)); [reflexivity | discriminate].
Qed.

Lemma trim_braced (body : jsstring) :
  trim (c_lbrace :: body ++ [c_rbrace]) = c_lbrace :: body ++ [c_rbrace].
Proof.
  unfold trim. cbn [drop_space]. change (is_space c_lbrace) with false. cbv iota.
  change (c_lbrace :: body ++ [c_rbrace]) with ((c_lbrace :: body) ++ [c_rbrace]).
  apply trimEnd_nonspace. reflexivity.
Qed.

Lemma parse_serialised_command (number_to_json : jsnum -> jsstring) (v : value)
  (text : jsstring) :
  plain_json v = true -> truthy (get v (str "action")) = true ->
  JSON_stringify number_to_json v = Some text ->
  includes text fence = false ->
  strip_fences text = text /\ _parseJsonCommand text = Return (Some v).
Proof.
  intros Pl A S F.
  destruct (JSON_round_trip number_to_json v Pl) as [text' [S' P]].
  assert (text' = text) by congruence. subst text'.
  destruct v as [| | | | | |ms]; try discriminate.
  cbn [JSON_stringify] in S. injection S as S.
  assert (St : strip_fences text = text).
  { rewrite (strip_fences_no_fence _ F). rewrite <- S. cbn [app].
    apply trim_braced. }
  split; [exact St|].
  assert (T : exists c t, text = c :: t) by (rewrite <- S; cbn [app]; eauto).
  destruct T as [c [t T]]. rewrite T, parse_nonempty, <- T, St.
  unfold after_cleaning, whole_text_attempt. rewrite P. cbn [bind truthy andb].
  rewrite A. reflexivity.
Qed.

(* ------------------------------------------------------------------ *)

(* ------------------------------------------------------------------ *)
(** ** Facts about the bot                                              *)
(* ------------------------------------------------------------------ *)

Ltac bot_simpl :=
  cbn [bot_bind bot_emit bot_ret bot_lift bot_try of_llm fst snd app map sends].

Lemma sends_app (a b : list bot_event) : sends (a ++ b) = sends a ++ sends b.
Proof.
  induction a as [|e a IH]; [reflexivity|].
  destruct e; cbn [app sends]; rewrite IH; reflexivity.
Qed.

Lemma sends_llm (ev : list event) : sends (map BotLlm ev) = [].
Proof. induction ev as [|e ev IH]; [reflexivity | exact IH]. Qed.

Lemma bot_bind_trace {A B : Type} (ev : list bot_event) (r : result A)
  (k : A -> bot B) :
  bot_bind (ev, r) k =
  (ev ++ fst (bot_bind ([], r) k), snd (bot_bind ([], r) k)).
Proof.
  destruct r as [a|e]; cbn [bot_bind].
  - destruct (k a) as [ev' r']. reflexivity.
  - rewrite app_nil_r. reflexivity.
Qed.

Lemma bot_lift_bind {A B : Type} (r : result A) (k : A -> bot B) :
  bot_bind (bot_lift r) k =
  match r with
  | Return a => k a
  | Throw e => ([], Throw e)
  end.
Proof. destruct r as [a|e]; cbn; [destruct (k a)|]; reflexivity. Qed.

Lemma firstn_firstn_prefix {A : Type} (k n : nat) (l : list A) :
  firstn k (firstn n l) = firstn (length (firstn k (firstn n l))) l.
Proof.
  rewrite firstn_firstn, length_firstn.
  destruct (Nat.le_gt_cases (Nat.min k n) (length l)) as [H|H].
  - rewrite (Nat.min_l _ _ H). reflexivity.
  - rewrite (Nat.min_r _ _ (Nat.lt_le_incl _ _ H)).
    rewrite firstn_all. apply firstn_all2. apply Nat.lt_le_incl, H.
Qed.

Lemma strip_name_tag_prefix (name : jsstring) :
  exists n, strip_name_tag name = firstn n name.
Proof.
  unfold strip_name_tag. destruct (name_tag _).
  - eauto.
  - exists (length name). symmetry. apply firstn_all.
Qed.

(** The letters and digits of the pattern, by their code units. *)
Lemma is_alnum_units (c : char) :
  is_alnum c = true <->
  (48 <= c <= 57 \/ 65 <= c <= 90 \/ 97 <= c <= 122)%N.
Proof.
  unfold is_alnum, is_letter, is_digit. split.
  - intros H.
    repeat (apply orb_prop in H; destruct H as [H|H]);
      apply andb_prop in H; destruct H as [H1 H2];
      apply N.leb_le in H1; apply N.leb_le in H2; lia.
  - intros [[H1 H2]|[[H1 H2]|[H1 H2]]];
      apply N.leb_le in H1; apply N.leb_le in H2; rewrite H1, H2;
      cbn [andb orb]; rewrite ?orb_true_r; reflexivity.
Qed.

(** A name that ends in an underscore and six letters or digits loses
    them; any other name is kept. *)
Lemma strip_name_tag_tagged (base tag : jsstring) :
  length tag = 6 -> forallb is_alnum tag = true ->
  strip_name_tag (base ++ 95%N :: tag) = base.
Proof.
  intros L A. unfold strip_name_tag.
  assert (E : length (base ++ 95%N :: tag) - 7 = length base)
    by (rewrite length_app; cbn [length]; lia).
  rewrite E, skipn_app, skipn_all, Nat.sub_diag. cbn [skipn app name_tag].
  rewrite N.eqb_refl, L, A. cbn [Nat.eqb andb].
  rewrite firstn_app, firstn_all, Nat.sub_diag. cbn [firstn].
  apply app_nil_r.
Qed.

Lemma strip_name_tag_other (name : jsstring) :
  (forall base tag, name = base ++ 95%N :: tag -> length tag = 6 ->
                    forallb is_alnum tag = false) ->
  strip_name_tag name = name.
Proof.
  intros H. unfold strip_name_tag.
  destruct (name_tag (skipn (length name - 7) name)) eqn:T; [|reflexivity].
  exfalso. unfold name_tag in T.
  destruct (skipn (length name - 7) name) as [|c r] eqn:S; [discriminate|].
  apply andb_prop in T. destruct T as [T A].
  apply andb_prop in T. destruct T as [C L].
  apply N.eqb_eq in C. apply Nat.eqb_eq in L. subst c.
  assert (E : name = firstn (length name - 7) name ++ 95%N :: r).
  { rewrite <- (firstn_skipn (length name - 7) name) at 1. f_equal. exact S. }
  rewrite (H _ r E L) in A. discriminate.
Qed.

Section BotFacts.

Variable BOT_ADDRESS : jsstring.
Variable BOT_NAME : jsstring.
Variable usernameSuffix : jsstring -> jsstring.

Lemma botUsername_spec :
  exists base,
    botUsername BOT_ADDRESS BOT_NAME usernameSuffix =
      base ++ usernameSuffix BOT_ADDRESS /\
    base <> [] /\
    (base = str "bot" \/ base = firstn (length base) BOT_NAME) /\
    length base <= Nat.max 3 (24 - length (usernameSuffix BOT_ADDRESS)).
Proof.
  unfold botUsername.
  set (suffix := usernameSuffix BOT_ADDRESS).
  set (base := slice0 _ _).
  destruct base as [|c b] eqn:B.
  - exists (str "bot"). cbn [or_string]. repeat split; try discriminate.
    + left. reflexivity.
    + change (length (str "bot")) with 3. lia.
  - exists (c :: b). cbn [or_string]. repeat split; try discriminate.
    + right. rewrite <- B. subst base. unfold slice0.
      destruct (strip_name_tag_prefix BOT_NAME) as [n ->].
      apply firstn_firstn_prefix.
    + rewrite <- B. subst base.
      pose proof (slice0_length (Nat.max 1 (24 - length suffix))
                    (strip_name_tag BOT_NAME)). lia.
Qed.

End BotFacts.

Section EnsureUsernameFacts.

Variable BOT_ADDRESS : jsstring.
Variable number_to_string : jsnum -> jsstring.
Variable number_to_json : jsnum -> jsstring.

Lemma makeMemo_username (target : jsstring) :
  exists text,
    makeMemo number_to_json (username_memo target) = VString text /\
    JSON_parse text = Return (username_memo target).
Proof.
  destruct (JSON_round_trip number_to_json (username_memo target) eq_refl)
    as [text [S P]].
  exists text. split; [|exact P]. unfold makeMemo. rewrite S. reflexivity.
Qed.

Lemma names_bot_username (target : jsstring) :
  names_bot target (username_memo target) = true.
Proof.
  unfold names_bot, username_memo, memo_object.
  assert (A : get (VObject [(str "app", VString (str "cis"));
                            (str "type", VString (str "set_username"));
                            (str "username", VString target)]) (str "app")
              = VString (str "cis")) by reflexivity.
  assert (T : get (VObject [(str "app", VString (str "cis"));
                            (str "type", VString (str "set_username"));
                            (str "username", VString target)]) (str "type")
              = VString (str "set_username")) by reflexivity.
  assert (U : get (VObject [(str "app", VString (str "cis"));
                            (str "type", VString (str "set_username"));
                            (str "username", VString target)]) (str "username")
              = VString target) by reflexivity.
  rewrite A, T, U. cbn [truthy is_string andb].
  rewrite !string_eqb_refl. reflexivity.
Qed.

(** The memo the bot wrote is read back as the memo of its name. *)
Lemma own_memo_read (target : jsstring) (tx : value) :
  get tx (str "memo") = makeMemo number_to_json (username_memo target) ->
  names_bot target (tx_memo number_to_string tx) = true.
Proof.
  intros M. unfold tx_memo. rewrite M.
  destruct (makeMemo_username target) as [text [E P]]. rewrite E.
  cbn [to_string bind]. rewrite P. apply names_bot_username.
Qed.

(** The bot recognises the username transaction it has sent, when the
    senders of the transactions it reads convert to strings. *)
Lemma own_username_recognised (target : jsstring) (txs : list value) (tx : value) :
  In tx txs -> is_object_type tx = true ->
  to_string number_to_string (tx_sender tx) = Return BOT_ADDRESS ->
  get tx (str "memo") = makeMemo number_to_json (username_memo target) ->
  (forall t, In t txs -> is_object_type t = true ->
             exists s, to_string number_to_string (tx_sender t) = Return s) ->
  username_is_set BOT_ADDRESS number_to_string target txs = Return true.
Proof.
  intros I O S M. induction txs as [|a txs IH]; intros C; [destruct I|].
  cbn [username_is_set].
  destruct (is_object_type a) eqn:Oa.
  - destruct (C a (or_introl eq_refl) Oa) as [s Sa]. rewrite Sa. cbn [bind].
    destruct (string_eqb s BOT_ADDRESS &&
              names_bot target (tx_memo number_to_string a)) eqn:T;
      [reflexivity|].
    destruct I as [->|I].
    + exfalso. rewrite S in Sa. injection Sa as <-.
      rewrite string_eqb_refl, (own_memo_read target tx M) in T. discriminate.
    + apply (IH I). intros t It. apply C. right. exact It.
  - destruct I as [->|I]; [congruence|].
    apply (IH I). intros t It. apply C. right. exact It.
Qed.

End EnsureUsernameFacts.

(* ---- considerVoting ---- *)

Lemma recover_vote_member (lower_unicode : jsstring -> jsstring)
  (options : list survey_option) (response k : jsstring) :
  recover_vote lower_unicode options response = Some k ->
  exists o, In o options /\ key o = k.
Proof.
  unfold recover_vote. cbv zeta.
  destruct (find (fun o => string_eqb (key o) (vote_key response)) options)
    as [o|] eqn:F1.
  { intros H. assert (E : vote_key response = k) by congruence.
    apply find_some in F1. destruct F1 as [I E'].
    exists o. split; [exact I|]. rewrite <- E. apply string_eqb_eq, E'. }
  clear F1.
  match goal with
  | |- match find ?f options with _ => _ end = _ -> _ =>
      destruct (find f options) as [o|] eqn:F2
  end.
  { intros H. assert (E : key o = k) by congruence.
    apply find_some in F2. destruct F2 as [I _].
    exists o. split; [exact I | exact E]. }
  clear F2.
  match goal with
  | |- match find ?f options with _ => _ end = _ -> _ =>
      destruct (find f options) as [o|] eqn:F3
  end.
  { intros H. assert (E : key o = k) by congruence.
    apply find_some in F3. destruct F3 as [I _].
    exists o. split; [exact I | exact E]. }
  clear F3.
  destruct options as [|o rest]; [discriminate|].
  destruct (nonempty (key o)); [|discriminate].
  intros H. assert (E : key o = k) by congruence.
  exists o. split; [left; reflexivity | exact E].
Qed.

Lemma chooseVote_result
  (completions_create : list message -> Z -> result value)
  (dateContext : jsstring) (number_to_string : jsnum -> jsstring)
  (builtin_text lower_unicode : jsstring -> jsstring)
  (searchTools : option search_tools)
  (maxResearchSteps : nat) (s : survey) (options : list survey_option)
  (counts : list (jsstring * value)) (k : jsstring) :
  snd (chooseVote completions_create dateContext number_to_string builtin_text
         lower_unicode searchTools maxResearchSteps s options counts)
    = Return (Some k) ->
  exists o, In o options /\ key o = k.
Proof.
  destruct (vote_option_list number_to_string builtin_text options counts)
    as [optionList|e] eqn:L;
    [|rewrite (chooseVote_no_list _ _ _ _ _ _ _ _ _ _ _ L); discriminate].
  destruct (research completions_create dateContext number_to_string searchTools
              maxResearchSteps (vote_topic s options)) as [ev [summary|e]] eqn:R;
    [|rewrite (chooseVote_no_research _ _ _ _ _ _ _ _ _ _ _ _ _ L R);
      discriminate].
  rewrite (chooseVote_run _ _ _ _ _ _ _ _ _ _ _ _ _ L R). cbn zeta. cbn [snd].
  destruct (ask completions_create _ 5) as [reply|e]; [|discriminate].
  intros H. injection H as H. exact (recover_vote_member _ _ _ _ H).
Qed.

Section ConsiderVotingFacts.

Variable VOTE_RECONSIDER_S : Z.
Variable sendTransaction : value -> result unit.
Variable number_to_string : jsnum -> jsstring.
Variable number_to_json : jsnum -> jsstring.
Variable completions_create : list message -> Z -> result value.
Variable dateContext : jsstring.
Variable builtin_text : jsstring -> jsstring.
Variable lower_unicode : jsstring -> jsstring.
Variable searchTools : option search_tools.
Variable maxResearchSteps : nat.

Local Abbreviation voting :=
  (considerVoting VOTE_RECONSIDER_S sendTransaction number_to_string
    number_to_json completions_create dateContext builtin_text lower_unicode
    searchTools maxResearchSteps).

(** What a call of [considerVoting] sends: nothing, or one vote for the
    key of an option, which is not empty and is not the vote the bot
    has cast already. *)
Lemma considerVoting_sends (entry : option Z) (now : Z) (id : value)
  (s : survey) (options : list survey_option)
  (counts : list (jsstring * value)) (botEntry : value) :
  sends (fst (voting entry now id s options counts botEntry)) = [] \/
  exists o,
    In o options /\ key o <> [] /\
    sends (fst (voting entry now id s options counts botEntry)) =
      [makeMemo number_to_json (vote_memo id (key o))] /\
    (already_voted botEntry = true ->
     is_string (get botEntry (str "voteKey")) (key o) = false /\
     (VOTE_RECONSIDER_S * 1000 <=
      now - match entry with Some t => t | None => 0 end)%Z).
Proof.
  unfold considerVoting.
  destruct options as [|o0 rest]; [left; reflexivity|].
  set (options := o0 :: rest).
  destruct (already_voted botEntry && _) eqn:G; [left; reflexivity|].
  rewrite bot_lift_bind.
  destruct (if already_voted botEntry then _ else _) as [shown|e];
    [|left; reflexivity].
  pose proof (chooseVote_result completions_create dateContext number_to_string
                builtin_text lower_unicode searchTools maxResearchSteps s
                options counts) as R.
  destruct (chooseVote _ _ _ _ _ _ _ _ _ _) as [ev r]. cbn [snd] in R.
  unfold of_llm. cbn [fst snd]. rewrite bot_bind_trace. cbn [fst].
  rewrite sends_app, sends_llm. cbn [app].
  destruct r as [[k|]|e]; bot_simpl; try (left; reflexivity).
  destruct (nonempty k) eqn:Nk; cbn [negb]; bot_simpl; [|left; reflexivity].
  destruct (already_voted botEntry && is_string _ k) eqn:Same; bot_simpl;
    [left; reflexivity|].
  right. destruct (R k eq_refl) as [o [I K]]. subst k.
  exists o. split; [exact I|]. split; [intros E; rewrite E in Nk; discriminate|].
  split.
  - destruct (sendTransaction _); reflexivity.
  - intros V. rewrite V in *. cbn [andb] in *. split; [exact Same|].
    apply Z.ltb_ge, G.
Qed.

(** The binding of the survey after a call that asked the model and
    resolved, and what a call within the period then does. *)
Lemma considerVoting_binding (entry : option Z) (now : Z) (id : value)
  (s : survey) (options : list survey_option)
  (counts : list (jsstring * value))
  (botEntry : value) (tr : list bot_event) (entry' : option Z) :
  voting entry now id s options counts botEntry = (tr, Return entry') ->
  tr <> [] -> entry' = Some now.
Proof.
  unfold considerVoting.
  destruct options as [|o0 rest]; [intros H; injection H as <- _; congruence|].
  destruct (already_voted botEntry && _);
    [intros H; injection H as <- _; congruence|].
  rewrite bot_lift_bind.
  destruct (if already_voted botEntry then _ else _) as [shown|e];
    [|discriminate].
  destruct (chooseVote _ _ _ _ _ _ _ _ _ _) as [ev r]. unfold of_llm.
  cbn [fst snd].
  destruct r as [[k|]|e]; bot_simpl; try discriminate;
    try (intros H _; injection H as _ <-; reflexivity).
  destruct (nonempty k); cbn [negb]; bot_simpl;
    [|intros H _; injection H as _ <-; reflexivity].
  destruct (already_voted botEntry && is_string _ k); bot_simpl;
    [intros H _; injection H as _ <-; reflexivity|].
  destruct (sendTransaction _); bot_simpl; [|discriminate].
  intros H _; injection H as _ <-; reflexivity.
Qed.

Lemma considerVoting_waits (t now : Z) (id : value) (s : survey)
  (options : list survey_option) (counts : list (jsstring * value))
  (botEntry : value) :
  already_voted botEntry = true ->
  (now - t < VOTE_RECONSIDER_S * 1000)%Z ->
  voting (Some t) now id s options counts botEntry = ([], Return (Some t)).
Proof.
  intros V L. unfold considerVoting.
  destruct options; [reflexivity|]. rewrite V.
  apply Z.ltb_lt in L. rewrite L. reflexivity.
Qed.

End ConsiderVotingFacts.

(* ---- considerAddingOption ---- *)

Lemma suggestOption_result
  (completions_create : list message -> Z -> result value)
  (dateContext : jsstring)
  (number_to_string : jsnum -> jsstring) (searchTools : option search_tools)
  (maxResearchSteps : nat) (provider imageProvider imageModel_arg : jsstring)
  (s : survey) (options : list survey_option) (sg : suggestion) :
  snd (suggestOption completions_create dateContext number_to_string searchTools
         maxResearchSteps provider imageProvider imageModel_arg s options)
    = Return sg ->
  exists reply,
    sg = read_suggestion number_to_string provider imageProvider imageModel_arg
           reply.
Proof.
  destruct (research completions_create dateContext number_to_string searchTools
              maxResearchSteps (suggest_topic s options)) as [ev [summary|e]] eqn:R;
    [|rewrite (suggestOption_no_research _ _ _ _ _ _ _ _ _ _ _ _ R);
      discriminate].
  rewrite (suggestOption_run _ _ _ _ _ _ _ _ _ _ _ _ R). cbn zeta. cbn [snd].
  destruct (ask completions_create _ 7) as [reply|e]; [|discriminate].
  intros H. injection H as <-. exists reply. reflexivity.
Qed.

Section AddingOptionFacts.

Variable ENABLE_IMAGES : bool.
Variable slugify : jsstring -> jsstring.
Variable sendTransaction : value -> result unit.
Variable image_download : value -> result download.
Variable store_upload : value -> jsstring -> result response.
Variable number_to_string : jsnum -> jsstring.
Variable number_to_json : jsnum -> jsstring.
Variable completions_create : list message -> Z -> result value.
Variable dateContext : jsstring.
Variable searchTools : option search_tools.
Variable maxResearchSteps : nat.
Variables provider apiKey baseURL_arg imageProvider imageApiKey imageBaseURL
  imageModel_arg imageStoreURL : jsstring.
Variable imagen_fetch : jsstring -> jsstring -> jsstring -> result response.
Variable store_fetch : jsstring -> jsstring -> result response.
Variable images_generate : client -> jsstring -> jsstring -> result value.
Variable Buffer_from : value -> result jsstring.

Local Abbreviation rehost :=
  (rehostImage image_download store_upload number_to_string).

(** [rehostImage] sends no transaction, and an address it resolves to
    has been printed: it converts to a string. *)
Lemma rehostImage_spec (temporaryUrl : value) :
  sends (fst (rehost temporaryUrl)) = [] /\
  forall p, snd (rehost temporaryUrl) = Return p ->
            exists t, to_string number_to_string p = Return t.
Proof.
  unfold rehostImage. bot_simpl.
  destruct (image_download temporaryUrl) as [d|e]; bot_simpl;
    [|split; [reflexivity | discriminate]].
  destruct (dl_ok d); cbn [negb]; bot_simpl;
    [|split; [reflexivity | discriminate]].
  destruct (dl_bytes d) as [buf|e]; bot_simpl;
    [|split; [reflexivity | discriminate]].
  destruct (store_upload _ buf) as [up|e]; bot_simpl;
    [|split; [reflexivity | discriminate]].
  destruct (ok up); cbn [negb]; bot_simpl;
    [|split; [reflexivity | discriminate]].
  destruct (body_json up) as [body|e]; bot_simpl;
    [|split; [reflexivity | discriminate]].
  destruct (get_checked body (str "url")) as [address|e]; bot_simpl;
    [|split; [reflexivity | discriminate]].
  destruct (to_string number_to_string address) as [t|e] eqn:T; bot_simpl;
    [|split; [reflexivity | discriminate]].
  split; [reflexivity|]. intros p H. injection H as <-. exists t. exact T.
Qed.

Local Abbreviation illustrated :=
  (illustrated_label ENABLE_IMAGES image_download store_upload number_to_string
    completions_create provider apiKey baseURL_arg imageProvider imageApiKey
    imageBaseURL imageModel_arg imageStoreURL imagen_fetch store_fetch
    images_generate Buffer_from).

Local Abbreviation picture_of :=
  (generateImage completions_create number_to_string provider apiKey
    baseURL_arg imageProvider imageApiKey imageBaseURL imageModel_arg
    imageStoreURL imagen_fetch store_fetch images_generate Buffer_from).

Local Abbreviation wanted sg :=
  (ENABLE_IMAGES && truthy (wantsImage sg) && nonempty (imageDescription sg)).

(** The label that is sent: the label of the suggestion, alone or
    followed by a space and an address; no transaction is sent on the
    way. *)
Lemma illustrated_label_spec (sg : suggestion) :
  sends (fst (illustrated sg)) = [] /\
  match snd (illustrated sg) with
  | Return label =>
      label = suggestion_label sg \/
      exists u, label = suggestion_label sg ++ 32%N :: u
  | Throw _ => True
  end.
Proof.
  unfold illustrated_label.
  destruct (wanted sg); [|split; [reflexivity | left; reflexivity]].
  destruct (picture_of (imageDescription sg)) as [ev r].
  unfold of_llm. cbn [fst snd]. rewrite bot_bind_trace. cbn [fst snd].
  rewrite sends_app, sends_llm. cbn [app].
  destruct r as [tempUrl|e]; bot_simpl; [|split; [reflexivity | exact I]].
  destruct (truthy tempUrl); [|split; [reflexivity | left; reflexivity]].
  destruct (rehostImage_spec tempUrl) as [R _].
  destruct (rehost tempUrl) as [ev' [u|e]];
    bot_simpl; cbn [fst] in R.
  - destruct (to_string number_to_string u) as [t|e]; bot_simpl.
    + rewrite !app_nil_r. split; [exact R|]. right. eexists. reflexivity.
    + destruct (to_string number_to_string tempUrl) as [t|e']; bot_simpl;
        rewrite !app_nil_r.
      * split; [exact R|]. right. eexists. reflexivity.
      * split; [exact R | exact I].
  - destruct (to_string number_to_string tempUrl) as [t|e']; bot_simpl;
      rewrite ?app_nil_r.
    + split; [exact R|]. right. eexists. reflexivity.
    + split; [exact R | exact I].
Qed.

Local Abbreviation adding :=
  (considerAddingOption ENABLE_IMAGES slugify sendTransaction image_download
    store_upload number_to_string number_to_json completions_create dateContext
    searchTools maxResearchSteps provider apiKey baseURL_arg imageProvider
    imageApiKey imageBaseURL imageModel_arg imageStoreURL imagen_fetch
    store_fetch images_generate Buffer_from).

Lemma considerAddingOption_sends (id : value) (s : survey)
  (options : list survey_option) (botAddedOption : value) (stamp : jsstring) :
  sends (fst (adding id s options botAddedOption stamp)) = [] \/
  exists l extra,
    sends (fst (adding id s options botAddedOption stamp)) =
      [makeMemo number_to_json
         (option_memo id (or_string (slugify l) (str "opt_" ++ stamp))
            (l ++ extra))] /\
    l <> [] /\ length l <= 200 /\
    (extra = [] \/ exists u, extra = 32%N :: u) /\
    truthy botAddedOption = false.
Proof.
  unfold considerAddingOption.
  destruct (truthy botAddedOption) eqn:B; [left; reflexivity|].
  pose proof (suggestOption_result completions_create dateContext
                number_to_string searchTools maxResearchSteps provider
                imageProvider imageModel_arg s options) as R.
  destruct (suggestOption _ _ _ _ _ _ _ _ _ _) as [ev r]. cbn [snd] in R.
  unfold of_llm. cbn [fst snd]. rewrite bot_bind_trace. cbn [fst].
  rewrite sends_app, sends_llm. cbn [app].
  destruct r as [sg|e]; bot_simpl; [|left; reflexivity].
  destruct (nonempty (suggestion_label sg)) eqn:Ne; cbn [negb]; bot_simpl;
    [|left; reflexivity].
  destruct (illustrated_label_spec sg) as [Si Li].
  destruct (illustrated_label _ _ _ _ _ _ _ _ _ _ _ _ _ _ _ _ _ sg)
    as [ev' r'].
  cbn [fst snd] in Si, Li. rewrite bot_bind_trace. cbn [fst].
  rewrite sends_app, Si. cbn [app].
  destruct r' as [label|e]; bot_simpl; [|left; reflexivity].
  right. exists (suggestion_label sg).
  assert (Hl : suggestion_label sg <> [])
    by (intros E; rewrite E in Ne; discriminate).
  assert (Ll : length (suggestion_label sg) <= 200).
  { destruct (R sg eq_refl) as [reply ->]. apply read_suggestion_spec. }
  destruct Li as [->|[u ->]].
  - exists []. rewrite app_nil_r. split; [reflexivity|].
    split; [exact Hl|]. split; [exact Ll|].
    split; [left; reflexivity | reflexivity].
  - exists (32%N :: u). split; [reflexivity|].
    split; [exact Hl|]. split; [exact Ll|].
    split; [right; eauto | reflexivity].
Qed.

Lemma considerAddingOption_once (id : value) (s : survey)
  (options : list survey_option) (botAddedOption : value) (stamp : jsstring) :
  truthy botAddedOption = true ->
  adding id s options botAddedOption stamp = ([], Return tt).
Proof.
  intros B. unfold considerAddingOption. rewrite B. reflexivity.
Qed.

(** [generateImage] never throws. *)
Lemma generateImage_returns (description : jsstring) :
  exists v, snd (picture_of description) = Return v.
Proof.
  unfold generateImage.
  destruct (truthy (canGenerateImages _ _ _)); cbn [negb];
    [|eexists; reflexivity].
  destruct (image_backend_call _ _ _ _ _ _ _ _ _ _ _ _ _ _ _) as [ev [v|e]];
    cbn [io_try io_ret snd]; eauto.
Qed.

(** The address that follows the label: none without a picture, the
    address of the store when the picture could be moved there, the
    address the picture was generated at when it could not. *)
Lemma illustrated_label_address (sg : suggestion) :
  (forall tempUrl,
     snd (picture_of (imageDescription sg)) = Return tempUrl ->
     exists t, to_string number_to_string tempUrl = Return t) ->
  exists address,
    snd (illustrated sg) = Return (suggestion_label sg ++ address) /\
    (wanted sg = false -> address = []) /\
    (forall tempUrl,
       snd (picture_of (imageDescription sg)) = Return tempUrl ->
       (truthy tempUrl = false -> address = []) /\
       (wanted sg = true -> truthy tempUrl = true ->
        exists t,
          to_string number_to_string
            match snd (rehost tempUrl) with
            | Return permanentUrl => permanentUrl
            | Throw _ => tempUrl
            end = Return t /\
          address = 32%N :: t)).
Proof.
  intros Conv. unfold illustrated_label.
  destruct (wanted sg) eqn:C.
  - destruct (generateImage_returns (imageDescription sg)) as [v G].
    destruct (Conv v G) as [tv Tv].
    destruct (picture_of (imageDescription sg)) as [ev r].
    cbn [snd] in G. subst r. unfold of_llm. cbn [fst snd bot_bind].
    destruct (truthy v) eqn:T.
    + destruct (rehostImage_spec v) as [_ Rc].
      destruct (rehost v) as [ev' [p|e]] eqn:RH; bot_simpl.
      * destruct (Rc p eq_refl) as [tp Tp]. rewrite Tp. bot_simpl.
        exists (32%N :: tp).
        split; [reflexivity|]. split; [discriminate|].
        intros tempUrl E. injection E as <-.
        split; [rewrite T; discriminate|].
        intros _ _. exists tp. rewrite RH. split; [exact Tp | reflexivity].
      * rewrite Tv. bot_simpl.
        exists (32%N :: tv).
        split; [reflexivity|]. split; [discriminate|].
        intros tempUrl E. injection E as <-.
        split; [rewrite T; discriminate|].
        intros _ _. exists tv. rewrite RH. split; [exact Tv | reflexivity].
    + bot_simpl. exists []. rewrite app_nil_r.
      split; [reflexivity|]. split; [reflexivity|].
      intros tempUrl E. injection E as <-.
      split; [reflexivity | rewrite T; discriminate].
  - bot_simpl. exists []. rewrite app_nil_r.
    split; [reflexivity|]. split; [reflexivity|].
    intros tempUrl E. split; [reflexivity | discriminate].
Qed.

Lemma considerAddingOption_label (id : value) (s : survey)
  (options : list survey_option) (botAddedOption : value) (stamp : jsstring)
  (sg : suggestion) :
  truthy botAddedOption = false ->
  snd (suggestOption completions_create dateContext number_to_string searchTools
         maxResearchSteps provider imageProvider imageModel_arg s options)
    = Return sg ->
  suggestion_label sg <> [] ->
  (forall tempUrl,
     snd (picture_of (imageDescription sg)) = Return tempUrl ->
     exists t, to_string number_to_string tempUrl = Return t) ->
  exists address,
    sends (fst (adding id s options botAddedOption stamp)) =
      [makeMemo number_to_json
         (option_memo id
            (or_string (slugify (suggestion_label sg)) (str "opt_" ++ stamp))
            (suggestion_label sg ++ address))] /\
    (wanted sg = false -> address = []) /\
    (forall tempUrl,
       snd (picture_of (imageDescription sg)) = Return tempUrl ->
       (truthy tempUrl = false -> address = []) /\
       (wanted sg = true -> truthy tempUrl = true ->
        exists t,
          to_string number_to_string
            match snd (rehost tempUrl) with
            | Return permanentUrl => permanentUrl
            | Throw _ => tempUrl
            end = Return t /\
          address = 32%N :: t)).
Proof.
  intros B R Hl Conv. unfold considerAddingOption. rewrite B.
  destruct (suggestOption _ _ _ _ _ _ _ _ _ _) as [ev r]. cbn [snd] in R.
  subst r. unfold of_llm. cbn [fst snd]. rewrite bot_bind_trace. cbn [fst].
  rewrite sends_app, sends_llm. cbn [app]. bot_simpl.
  assert (Ne : nonempty (suggestion_label sg) = true)
    by (destruct (suggestion_label sg); [congruence | reflexivity]).
  rewrite Ne. cbn [negb].
  destruct (illustrated_label_spec sg) as [Si _].
  destruct (illustrated_label_address sg Conv) as [address [L A]].
  exists address. split; [|exact A].
  destruct (illustrated_label _ _ _ _ _ _ _ _ _ _ _ _ _ _ _ _ _ sg)
    as [ev' r'].
  cbn [fst snd] in Si, L. subst r'. rewrite bot_bind_trace. cbn [fst].
  rewrite sends_app, Si. cbn [app]. bot_simpl. reflexivity.
Qed.

End AddingOptionFacts.

(* ------------------------------------------------------------------ *)
(** ** Facts about the prompts and the replies                          *)
(* ------------------------------------------------------------------ *)

Lemma research_block_includes (summary : jsstring) :
  includes (research_block summary) summary = true.
Proof.
  destruct summary as [|c r]; [reflexivity|].
  unfold research_block.
  apply includes_app_r, includes_app_r, includes_app_r, includes_app_l,
    includes_self.
Qed.

(** The prompt of the vote holds the summary and the list of the
    options. *)
Lemma vote_user_complete (s : survey) (optionList summary : jsstring) :
  includes (vote_user s optionList summary) summary = true /\
  forall line, includes optionList line = true ->
               includes (vote_user s optionList summary) line = true.
Proof.
  unfold vote_user. split.
  - apply (includes_join _ _ (research_block summary));
      [simpl; tauto | apply research_block_includes].
  - intros line I.
    apply (includes_join _ _ optionList); [simpl; tauto | exact I].
Qed.

(** The list of the options holds the line of every option, with the
    text its count is printed as. *)
Lemma vote_option_list_lines (number_to_string : jsnum -> jsstring)
  (builtin_text : jsstring -> jsstring) (options : list survey_option)
  (counts : list (jsstring * value)) (optionList : jsstring) :
  vote_option_list number_to_string builtin_text options counts
    = Return optionList ->
  forall o, In o options ->
    exists c,
      count_text number_to_string builtin_text counts (key o) = Return c /\
      includes optionList
        (str "- " ++ quoted (label o) ++ str " (key: " ++ key o ++
         str ", current votes: " ++ c ++ str ")") = true.
Proof.
  unfold vote_option_list. intros L o I.
  destruct (map_result _ options) as [lines|e] eqn:M; cbn [bind] in L;
    [|discriminate].
  injection L as <-.
  destruct (map_result_in _ _ _ M o I) as [line [V Il]].
  unfold vote_line in V.
  destruct (count_text number_to_string builtin_text counts (key o)) as [c|e];
    cbn [bind] in V; [|discriminate].
  injection V as <-. exists c. split; [reflexivity|].
  apply (includes_join _ _ _ _ Il). apply includes_self.
Qed.

(** The text a count is printed as. *)
Lemma count_text_cases (number_to_string : jsnum -> jsstring)
  (builtin_text : jsstring -> jsstring) (counts : list (jsstring * value))
  (k : jsstring) :
  (forall n, lookup k counts = Some (VNumber n) ->
             truthy (VNumber n) = true ->
             count_text number_to_string builtin_text counts k
             = Return (number_to_string n)) /\
  (forall v, lookup k counts = Some v -> truthy v = false ->
             count_text number_to_string builtin_text counts k
             = Return (str "0")) /\
  (lookup k counts = None -> inherited_name k = false ->
   count_text number_to_string builtin_text counts k = Return (str "0")) /\
  (lookup k counts = None -> inherited_name k = true ->
   count_text number_to_string builtin_text counts k =
   Return (if string_eqb k (str "__proto__") then str "[object Object]"
           else builtin_text k)).
Proof.
  unfold count_text. repeat split.
  - intros n L T. rewrite L, T. reflexivity.
  - intros v L T. rewrite L, T. reflexivity.
  - intros L I. rewrite L, I. reflexivity.
  - intros L I. rewrite L, I. reflexivity.
Qed.

(** Counts that are numbers are always printed. *)
Lemma vote_option_list_returns (number_to_string : jsnum -> jsstring)
  (builtin_text : jsstring -> jsstring) (options : list survey_option)
  (counts : list (jsstring * value)) :
  (forall o v, In o options -> lookup (key o) counts = Some v ->
               exists n, v = VNumber n) ->
  exists optionList,
    vote_option_list number_to_string builtin_text options counts
    = Return optionList.
Proof.
  intros H. unfold vote_option_list.
  destruct (map_result_returns
              (vote_line number_to_string builtin_text counts) options)
    as [lines M].
  { intros o I. unfold vote_line, count_text.
    destruct (lookup (key o) counts) as [v|] eqn:L.
    - destruct (H o v I L) as [n ->].
      destruct (truthy (VNumber n)); eexists; reflexivity.
    - destruct (inherited_name (key o)); eexists; reflexivity. }
  rewrite M. eexists. reflexivity.
Qed.

Lemma suggest_user_complete (s : survey) (options : list survey_option)
  (summary : jsstring) :
  includes (suggest_user s options summary) summary = true /\
  forall o, In o options ->
    includes (suggest_user s options summary) (suggest_line o) = true.
Proof.
  unfold suggest_user. split.
  - apply (includes_join _ _ (research_block summary));
      [simpl; tauto | apply research_block_includes].
  - intros o I.
    assert (L : includes (join [c_newline] (map suggest_line options))
                  (suggest_line o) = true)
      by (apply (includes_join _ _ (suggest_line o));
          [apply in_map, I | apply includes_self]).
    apply (includes_join _ _
             (or_string (join [c_newline] (map suggest_line options))
                (str "(none yet)")));
      [simpl; tauto|].
    fold suggest_line.
    destruct (join [c_newline] (map suggest_line options)) eqn:J;
      [|exact L].
    destruct (suggest_line o) eqn:So; [reflexivity | discriminate].
Qed.


(* ---- the reply of suggestOption ---- *)

(* ---- the reply of suggestOption ---- *)

Lemma through_last_rbrace_none (q : jsstring) :
  no_rbrace q = true -> through_last_rbrace q = None.
Proof.
  induction q as [|c q IH]; [reflexivity|].
  cbn [no_rbrace forallb through_last_rbrace]. intros H.
  apply andb_prop in H. destruct H as [Hc Hq]. rewrite (IH Hq).
  apply negb_true_iff in Hc. rewrite Hc. reflexivity.
Qed.

Lemma through_last_rbrace_app (body q : jsstring) :
  no_rbrace q = true ->
  through_last_rbrace (body ++ c_rbrace :: q) = Some (body ++ [c_rbrace]).
Proof.
  intros H. induction body as [|c body IH].
  - cbn [app through_last_rbrace]. rewrite (through_last_rbrace_none q H).
    reflexivity.
  - cbn [app through_last_rbrace]. rewrite IH. reflexivity.
Qed.

Lemma brace_match_between (p body q : jsstring) :
  no_lbrace p = true -> no_rbrace q = true ->
  brace_match (p ++ c_lbrace :: body ++ c_rbrace :: q) =
  Some (c_lbrace :: body ++ [c_rbrace]).
Proof.
  intros Hp Hq. induction p as [|c p IH].
  - cbn [app brace_match]. change (N.eqb c_lbrace c_lbrace) with true. cbv iota.
    rewrite (through_last_rbrace_app body q Hq). reflexivity.
  - cbn [no_lbrace forallb] in Hp. apply andb_prop in Hp.
    destruct Hp as [Hc Hp]. apply negb_true_iff in Hc.
    cbn [app brace_match]. rewrite Hc. apply IH, Hp.
Qed.

Lemma stringify_object_shape (number_to_json : jsnum -> jsstring)
  (ms : list (jsstring * value)) (text : jsstring) :
  JSON_stringify number_to_json (VObject ms) = Some text ->
  exists body, text = c_lbrace :: body ++ [c_rbrace].
Proof.
  cbn [JSON_stringify]. intros H. injection H as <-. eexists. reflexivity.
Qed.

Lemma read_suggestion_reply (number_to_string number_to_json : jsnum -> jsstring)
  (provider imageProvider imageModel_arg : jsstring)
  (l d : jsstring) (w : bool) (p q text : jsstring) :
  JSON_stringify number_to_json (suggestion_reply l w d) = Some text ->
  no_lbrace p = true -> no_rbrace q = true ->
  read_suggestion number_to_string provider imageProvider imageModel_arg
    (p ++ text ++ q) =
  {| suggestion_label := slice0 200 (trim l);
     wantsImage :=
       if inherited_name (imgProvider provider imageProvider)
       then VUndefined else VBool w;
     imageDescription := trim d |}.
Proof.
  intros S Hp Hq.
  destruct (JSON_round_trip number_to_json (suggestion_reply l w d) eq_refl)
    as [text' [S' P]].
  assert (text' = text) by congruence. subst text'.
  destruct (stringify_object_shape _ _ _ S) as [body B].
  unfold read_suggestion.
  assert (M : brace_match (p ++ text ++ q) = Some text).
  { rewrite B. cbn [app]. rewrite <- app_assoc. cbn [app].
    apply brace_match_between; assumption. }
  rewrite M, P. cbn [bind].
  assert (Gl : get (suggestion_reply l w d) (str "label") = VString l)
    by reflexivity.
  assert (Gw : get (suggestion_reply l w d) (str "wantsImage") = VBool w)
    by reflexivity.
  assert (Gd : get (suggestion_reply l w d) (str "imageDescription") = VString d)
    by reflexivity.
  assert (Gc : get_checked (suggestion_reply l w d) (str "label")
               = Return (VString l)) by reflexivity.
  rewrite Gc. cbn [bind]. rewrite Gw, Gd, canGenerateImages_cases.
  assert (Sl : String_ number_to_string (js_or (VString l) (VString []))
               = Return l) by (destruct l; reflexivity).
  assert (Sd : String_ number_to_string (js_or (VString d) (VString []))
               = Return d) by (destruct d; reflexivity).
  rewrite Sl. cbn [bind]. rewrite Sd. cbn [bind fall_through]. f_equal.
  destruct (inherited_name _); destruct w; reflexivity.
Qed.

(* ---- the image store ---- *)

(* ---- the image store ---- *)

Lemma extFromContentType_cases (ct : jsstring) :
  extFromContentType ct = str ".jpg" \/ extFromContentType ct = str ".gif" \/
  extFromContentType ct = str ".webp" \/ extFromContentType ct = str ".svg" \/
  extFromContentType ct = str ".png".
Proof.
  unfold extFromContentType.
  destruct (negb (nonempty ct)); [tauto|].
  destruct (_ || _); [tauto|].
  destruct (includes ct (str "gif")); [tauto|].
  destruct (includes ct (str "webp")); [tauto|].
  destruct (includes ct (str "svg")); tauto.
Qed.


(* ------------------------------------------------------------------ *)
(** ** Facts about a run that is done at once                           *)
(* ------------------------------------------------------------------ *)

Lemma research_done_run (completions_create : list message -> Z -> result value)
  (dateContext : jsstring) (number_to_string number_to_json : jsnum -> jsstring)
  (tools : search_tools) (N : nat) (topic summary text : jsstring) :
  ask completions_create (research_opening dateContext topic) 3%Z
    = Return text ->
  JSON_stringify number_to_json (done_command summary) = Some text ->
  includes text fence = false ->
  summary <> [] ->
  research completions_create dateContext number_to_string (Some tools) (S N)
    topic =
  ([EvStep 0; EvChat (research_opening dateContext topic) 3],
   Return (slice0 1500 summary)).
Proof.
  intros C St F Ne.
  assert (A : truthy (get (done_command summary) (str "action")) = true)
    by reflexivity.
  destruct (parse_serialised_command number_to_json (done_command summary) text
              eq_refl A St F) as [_ P].
  unfold research. cbn [research_loop]. rewrite research_step_parts.
  pose proof (research_ask_cases completions_create 0
                (research_opening dateContext topic)) as Cases.
  rewrite C in Cases. destruct Cases as [cmd [Pc Cases]].
  assert (cmd = Some (done_command summary)) by congruence. subst cmd.
  cbn zeta in Cases.
  change (truthy (done_command summary)) with true in Cases.
  cbn [negb andb] in Cases. rewrite Cases.
  unfold research_dispatch.
  assert (Gs : get (done_command summary) (str "summary") = VString summary)
    by reflexivity.
  assert (Ga : get (done_command summary) (str "action") = VString (str "done"))
    by reflexivity.
  unfold no_valid_command. rewrite Ga.
  change (truthy (done_command summary)) with true.
  cbn [truthy nonempty str map list_ascii_of_string negb orb is_string].
  change (string_eqb (str "done") (str "done")) with true. cbv iota.
  rewrite (research_done_string number_to_string _ text summary Gs Ne).
  reflexivity.
Qed.

(* ------------------------------------------------------------------ *)
(** ** Facts about the bot without search tools                         *)
(* ------------------------------------------------------------------ *)

Lemma chooseVote_without_search
  (completions_create : list message -> Z -> result value)
  (dateContext : jsstring) (number_to_string : jsnum -> jsstring)
  (builtin_text lower_unicode : jsstring -> jsstring)
  (maxResearchSteps : nat)
  (s : survey) (options : list survey_option)
  (counts : list (jsstring * value)) :
  chooseVote completions_create dateContext number_to_string builtin_text
    lower_unicode None maxResearchSteps s options counts =
  match vote_option_list number_to_string builtin_text options counts with
  | Return optionList =>
      ([vote_chat dateContext s optionList],
       match ask completions_create
               [{| msg_role := System; content := vote_system dateContext |};
                {| msg_role := User;
                   content := vote_user s optionList [] |}] 5 with
       | Return reply => Return (recover_vote lower_unicode options reply)
       | Throw e => Throw e
       end)
  | Throw e => ([], Throw e)
  end.
Proof.
  destruct (vote_option_list number_to_string builtin_text options counts)
    as [optionList|e] eqn:L.
  - rewrite (chooseVote_run completions_create dateContext number_to_string
               builtin_text lower_unicode None maxResearchSteps s options counts
               optionList [] [] L eq_refl).
    reflexivity.
  - apply chooseVote_no_list, L.
Qed.

Lemma considerVoting_without_search
  (VOTE_RECONSIDER_S : Z) (sendTransaction : value -> result unit)
  (number_to_string number_to_json : jsnum -> jsstring)
  (completions_create : list message -> Z -> result value)
  (dateContext : jsstring) (builtin_text lower_unicode : jsstring -> jsstring)
  (maxResearchSteps : nat) (entry : option Z) (now : Z) (id : value)
  (s : survey) (options : list survey_option)
  (counts : list (jsstring * value)) (botEntry : value) :
  let tr := fst (considerVoting VOTE_RECONSIDER_S sendTransaction
                   number_to_string number_to_json completions_create
                   dateContext builtin_text lower_unicode
                   None maxResearchSteps entry now id s options counts
                   botEntry) in
  tr = [] \/
  exists optionList,
    vote_option_list number_to_string builtin_text options counts
      = Return optionList /\
    (tr = [BotLlm (vote_chat dateContext s optionList)] \/
     exists memo,
       tr = [BotLlm (vote_chat dateContext s optionList); BotSend memo]).
Proof.
  intros tr. subst tr. unfold considerVoting.
  destruct options as [|o0 rest]; [left; reflexivity|].
  destruct (already_voted botEntry && _); [left; reflexivity|].
  rewrite bot_lift_bind.
  destruct (if already_voted botEntry then _ else _) as [shown|e];
    [|left; reflexivity].
  rewrite chooseVote_without_search.
  destruct (vote_option_list number_to_string builtin_text (o0 :: rest) counts)
    as [optionList|e]; [|left; reflexivity].
  right. exists optionList. split; [reflexivity|].
  unfold of_llm. cbn [fst snd map].
  destruct (ask completions_create _ 5) as [reply|e]; bot_simpl;
    [|left; reflexivity].
  destruct (recover_vote _ _ _) as [k|]; bot_simpl; [|left; reflexivity].
  destruct (nonempty k); cbn [negb]; bot_simpl; [|left; reflexivity].
  destruct (already_voted botEntry && is_string _ k); bot_simpl;
    [left; reflexivity|].
  right. eexists.
  destruct (sendTransaction _); reflexivity.
Qed.

(** ** Facts about clean queries                                        *)
(* ------------------------------------------------------------------ *)

Lemma class_no_colon (q : jsstring) :
  forallb in_query_class q = true -> has_colon q = false.
Proof.
  induction q as [|c q IH]; [reflexivity|].
  cbn [forallb has_colon existsb]. intros H. apply andb_prop in H.
  destruct H as [Hc Hq]. fold (has_colon q). rewrite (IH Hq), orb_false_r.
  destruct (N.eqb c_colon c) eqn:E; [|reflexivity].
  apply N.eqb_eq in E. subst c. discriminate.
Qed.

Lemma has_colon_head (p s : jsstring) :
  starts_with (c_colon :: p) s = true -> has_colon s = true.
Proof.
  intros H. apply starts_with_cons in H. destruct H as [s' ->]. reflexivity.
Qed.

Lemma url_at_colon (s : jsstring) (n : nat) :
  url_at s = Some n -> has_colon s = true.
Proof.
  unfold url_at. destruct (starts_with_ci (str "http") s) eqn:H; [|discriminate].
  destruct s as [|a1 [|a2 [|a3 [|a4 rest]]]]; try discriminate.
  cbn [skipn]. intros U.
  assert (R : has_colon rest = true).
  { destruct rest as [|c r]; [discriminate|].
    destruct (ci_eq 115%N c).
    - destruct (starts_with (str "://") r) eqn:St; [|discriminate].
      cbn [has_colon existsb]. fold (has_colon r).
      rewrite (has_colon_head _ _ St). apply orb_true_r.
    - destruct (starts_with (str "://") (c :: r)) eqn:St; [|discriminate].
      apply (has_colon_head _ _ St). }
  cbn [has_colon existsb]. fold (has_colon rest). rewrite R.
  rewrite !orb_true_r. reflexivity.
Qed.

Lemma replace_urls_clean (q : jsstring) :
  forallb in_query_class q = true -> replace_all url_at [] 0 q = q.
Proof.
  intros H. apply (replace_all_no_match url_at [] q has_colon).
  - intros c r n M. apply (url_at_colon _ _ M).
  - intros c r E. cbn [has_colon existsb] in E.
    apply orb_false_elim in E. apply E.
  - apply class_no_colon, H.
Qed.

Lemma map_query_char_clean (q : jsstring) :
  forallb in_query_class q = true -> map query_char q = q.
Proof.
  induction q as [|c q IH]; [reflexivity|].
  cbn [forallb map]. intros H. apply andb_prop in H. destruct H as [Hc Hq].
  rewrite (IH Hq). f_equal. unfold query_char. fold (in_query_class c).
  rewrite Hc. reflexivity.
Qed.

Lemma collapse_spaces_clean (q : jsstring) :
  single_spaced q = true -> replace_all spaces_at [32%N] 0 q = q.
Proof.
  intros H. apply (replace_all_no_match spaces_at [32%N] q double_spaced).
  - intros c r n M. unfold double_spaced. apply negb_true_iff.
    unfold spaces_at in M. cbn [count_space] in M.
    destruct (is_space c) eqn:Ec; [|discriminate].
    destruct r as [|d r]; [discriminate|]. cbn [count_space] in M.
    destruct (is_space d) eqn:Ed; [|discriminate].
    cbn [single_spaced]. rewrite Ec, Ed. reflexivity.
  - intros c r E. unfold double_spaced in *. apply negb_false_iff in E.
    apply negb_false_iff. cbn [single_spaced] in E.
    apply andb_prop in E. apply E.
  - unfold double_spaced. rewrite H. reflexivity.
Qed.

Lemma drop_space_clean (s : jsstring) :
  starts_with_space s = false -> drop_space s = s.
Proof.
  destruct s as [|c s]; [reflexivity|]. cbn [starts_with_space drop_space].
  intros H. rewrite H. reflexivity.
Qed.

Lemma trim_clean (q : jsstring) :
  starts_with_space q = false -> starts_with_space (rev q) = false ->
  trim q = q.
Proof.
  intros H1 H2. unfold trim, trimEnd.
  rewrite (drop_space_clean q H1), (drop_space_clean _ H2).
  apply rev_involutive.
Qed.

Lemma sanitizeQuery_clean (q : jsstring) :
  clean_query q = true -> sanitizeQuery (VString q) = Return q.
Proof.
  unfold clean_query. intros H.
  apply andb_prop in H. destruct H as [H L].
  apply andb_prop in H. destruct H as [H E].
  apply andb_prop in H. destruct H as [H B].
  apply andb_prop in H. destruct H as [C S].
  apply negb_true_iff in B. apply negb_true_iff in E. apply Nat.leb_le in L.
  unfold sanitizeQuery.
  rewrite (replace_urls_clean q C), (map_query_char_clean q C),
    (collapse_spaces_clean q S), (trim_clean q B E).
  unfold slice0. rewrite firstn_all2 by exact L. reflexivity.
Qed.

(* ------------------------------------------------------------------ *)

(* ------------------------------------------------------------------ *)
(** ** Facts about the nudge and about giving up                        *)
(* ------------------------------------------------------------------ *)

(** A command the parser returns is an object. *)
Lemma parse_gives_object (text : jsstring) (v : value) :
  _parseJsonCommand text = Return (Some v) -> is_object v = true.
Proof.
  destruct text as [|c t]; [discriminate|].
  rewrite parse_nonempty. unfold after_cleaning.
  set (cleaned := strip_fences (c :: t)).
  destruct (fall_through (whole_text_attempt cleaned)) as [full|] eqn:W.
  - intros H. injection H as <-.
    unfold whole_text_attempt in W.
    destruct (JSON_parse cleaned) as [x|e]; cbn [bind fall_through] in W;
      [|discriminate].
    destruct (truthy x && truthy (get x (str "action"))) eqn:T;
      cbn [fall_through] in W; [|discriminate].
    injection W as <-. apply andb_prop in T. destruct T as [_ T].
    apply get_action_object, T.
  - destruct (fall_through (scan_attempt cleaned)) as [x|] eqn:S;
      [|discriminate].
    intros H. injection H as <-.
    apply (scan_attempt_object cleaned).
    destruct (scan_attempt cleaned) as [[y|]|e]; cbn [fall_through] in S;
      try discriminate. congruence.
Qed.

Lemma object_truthy (v : value) : is_object v = true -> truthy v = true.
Proof. destruct v; try discriminate; reflexivity. Qed.

Section NudgeFacts.

Variable completions_create : list message -> Z -> result value.
Variable number_to_string : jsnum -> jsstring.

(** A run with at least one step gives the nudge exactly when the
    first reply resolves and holds no command. *)
Lemma research_loop_nudges (tools : search_tools) (topic : jsstring) (n : nat)
  (messages : list message) :
  count_nudges (fst (research_loop completions_create number_to_string tools
                       topic (S n) 0 messages)) =
  match ask completions_create messages 3 with
  | Return r1 =>
      match _parseJsonCommand r1 with
      | Return None => 1
      | _ => 0
      end
  | Throw _ => 0
  end.
Proof.
  cbn [research_loop]. rewrite research_step_parts.
  set (k := fun out : step_outcome =>
              match out with
              | StepReturn summary => io_ret summary
              | StepNext messages' =>
                  research_loop completions_create number_to_string tools
                    topic n 1 messages'
              | StepBreak messages' =>
                  research_finish completions_create number_to_string messages'
              end).
  assert (Rest : forall response m' cmd',
            count_nudges
              (fst (research_dispatch number_to_string tools topic response
                      m' cmd')) = 0 /\
            count_nudges
              (fst (io_bind
                      ([], snd (research_dispatch number_to_string tools topic
                                  response m' cmd')) k)) = 0).
  { intros response m' cmd'.
    destruct (research_dispatch_cases number_to_string tools topic response m'
                cmd') as [dv [r [D [_ [Dn _]]]]].
    rewrite D. cbn [fst snd]. split; [exact Dn|].
    destruct r as [[s|m|m]|e]; cbn [io_bind k io_ret fst]; try reflexivity.
    - destruct (research_loop_conversation completions_create number_to_string
                  tools topic n 1 m) as [t [rest [_ [_ [_ C]]]]].
      destruct (research_loop completions_create number_to_string tools topic
                  n 1 m) as [ev2 r2].
      cbn [fst app Nat.eqb] in *. lia.
    - rewrite research_finish_eq. reflexivity. }
  pose proof (research_ask_cases completions_create 0 messages) as Cases.
  destruct (ask completions_create messages 3) as [r1|e] eqn:A1.
  2:{ rewrite Cases. reflexivity. }
  destruct Cases as [cmd [Pc Cases]]. rewrite Pc. cbn zeta in Cases.
  destruct cmd as [c|].
  - rewrite (object_truthy c (parse_gives_object r1 c Pc)) in Cases.
    cbn [negb andb] in Cases. rewrite Cases.
    destruct (Rest r1 (push messages Assistant r1) (Some c)) as [Dn C].
    rewrite io_bind_trace. cbn [fst].
    change (EvStep 0 :: ?a ++ ?b) with ([EvStep 0] ++ a ++ b).
    rewrite !count_nudges_app, Dn, C. reflexivity.
  - cbn [andb Nat.eqb] in Cases.
    destruct (ask completions_create _ 2) as [r2|e] eqn:A2.
    2:{ rewrite Cases. reflexivity. }
    destruct Cases as [cmd2 [_ Cases]]. rewrite Cases.
    match goal with
    | |- context [research_dispatch _ _ _ ?r ?m ?c] =>
        destruct (Rest r m c) as [Dn C]
    end.
    rewrite io_bind_trace. cbn [fst].
    change (EvStep 0 :: ?a ++ ?b) with ([EvStep 0] ++ a ++ b).
    rewrite !count_nudges_app, Dn, C. reflexivity.
Qed.

(** A step whose command carries an unknown action that converts to a
    string: the loop is left, the forced summary is asked on the
    conversation as it stands, and nothing is dispatched. *)
Lemma research_loop_gives_up (tools : search_tools) (topic : jsstring)
  (remaining step : nat) (messages : list message) (ev : list event)
  (response : jsstring) (messages' : list message) (c : value) (shown : jsstring) :
  research_ask completions_create step messages
    = (ev, Return (response, messages', Some c)) ->
  unknown_action c = true ->
  to_string number_to_string (get c (str "action")) = Return shown ->
  research_loop completions_create number_to_string tools topic (S remaining)
    step messages
  = (EvStep step :: ev ++ [EvChat (push messages' User FORCING) 3],
     forced_result completions_create number_to_string messages').
Proof.
  intros A U S. cbn [research_loop]. rewrite research_step_parts, A.
  rewrite (research_dispatch_unknown number_to_string tools topic response
             messages' c U).
  unfold String_. rewrite S. cbn [fst snd io_bind]. rewrite app_nil_r.
  rewrite research_finish_eq. reflexivity.
Qed.

(** The same step when the action does not convert: the run ends with
    the TypeError of the log line. *)
Lemma research_loop_log_throws (tools : search_tools) (topic : jsstring)
  (remaining step : nat) (messages : list message) (ev : list event)
  (response : jsstring) (messages' : list message) (c : value) (e : exn) :
  research_ask completions_create step messages
    = (ev, Return (response, messages', Some c)) ->
  unknown_action c = true ->
  to_string number_to_string (get c (str "action")) = Throw e ->
  research_loop completions_create number_to_string tools topic (S remaining)
    step messages
  = (EvStep step :: ev, Throw TypeError).
Proof.
  intros A U S. cbn [research_loop]. rewrite research_step_parts, A.
  rewrite (research_dispatch_unknown number_to_string tools topic response
             messages' c U).
  unfold String_. rewrite S. cbn [fst snd io_bind]. rewrite !app_nil_r.
  rewrite (to_string_TypeError _ _ _ S). reflexivity.
Qed.

End NudgeFacts.

(* ------------------------------------------------------------------ *)
(** ** Facts about the forced summary                                   *)
(* ------------------------------------------------------------------ *)

Lemma forced_summary_plain (number_to_string : jsnum -> jsstring)
  (finalResp : jsstring) :
  brace_match finalResp = None ->
  forced_summary number_to_string finalResp = slice0 1500 finalResp.
Proof. intros M. unfold forced_summary. rewrite M. reflexivity. Qed.

Lemma forced_summary_done (number_to_string number_to_json : jsnum -> jsstring)
  (p q summary text : jsstring) :
  JSON_stringify number_to_json (done_command summary) = Some text ->
  summary <> [] -> no_lbrace p = true -> no_rbrace q = true ->
  forced_summary number_to_string (p ++ text ++ q) = slice0 1500 summary.
Proof.
  intros S Ne Hp Hq.
  destruct (JSON_round_trip number_to_json (done_command summary) eq_refl)
    as [text' [S' P]].
  assert (text' = text) by congruence. subst text'.
  destruct (stringify_object_shape _ _ _ S) as [body B].
  assert (M : brace_match (p ++ text ++ q) = Some text).
  { rewrite B. cbn [app]. rewrite <- app_assoc. cbn [app].
    apply brace_match_between; assumption. }
  unfold forced_summary. rewrite M, P. cbn [bind].
  assert (Gs : get (done_command summary) (str "summary") = VString summary)
    by reflexivity.
  rewrite Gs. change (truthy (done_command summary)) with true.
  destruct summary as [|c r]; [congruence|].
  cbn [truthy nonempty andb String_ to_string bind fall_through].
  reflexivity.
Qed.

(* ------------------------------------------------------------------ *)
(** ** The properties                                                   *)
(* ------------------------------------------------------------------ *)

(** C1.  For every step budget [N], every model and every provider, a
    run of [research] performs at most [N] iterations of the reasoning
    loop, hence at most [N] Search or Read dispatches, at most [N + 2]
    completions and at most [3 N + 2] effects in all.  When all [N]
    iterations dispatched, the run ends with the completion that
    carries the forcing instruction, and its result is the summary read
    off the reply to it (the error of that completion when it fails);
    the one other end is the TypeError of a template that cannot
    convert what it prints (the address of the last Read, a field of
    the last search results), right after the last dispatch. *)
Theorem research_step_budget
  (completions_create : list message -> Z -> result value)
  (dateContext : jsstring) (number_to_string : jsnum -> jsstring)
  (searchTools : option search_tools) (N : nat) (topic : jsstring) :
  let run := research completions_create dateContext number_to_string
               searchTools N topic in
  count_steps (fst run) <= N /\
  count_dispatches (fst run) <= count_steps (fst run) /\
  count_dispatches (fst run) <= N /\
  count_chats (fst run) <= N + 2 /\
  length (fst run) <= 3 * N + 2 /\
  (searchTools <> None -> count_dispatches (fst run) = N ->
   (exists pre m,
      fst run = pre ++ [EvChat (push m User FORCING) 3] /\
      snd run = forced_result completions_create number_to_string m) \/
   (snd run = Throw TypeError /\
    exists pre d, fst run = pre ++ [d] /\ is_dispatch d = true)).
Proof.
  unfold research. destruct searchTools as [tools|].
  - match goal with
    | |- context [research_loop _ _ _ _ _ _ ?m] =>
        destruct (research_loop_spec completions_create number_to_string tools
                    topic N 0 m)
          as [ev [r [E [P1 [P2 [P3 [P4 [_ P6]]]]]]]]
    end.
    rewrite E. cbn [fst snd Nat.eqb] in *.
    repeat split; try lia. intros _ Hn. exact (P6 Hn).
  - cbn. repeat split; try lia. intros H. congruence.
Qed.

Lemma research_step_budget_witness :
  exists pre m,
    fst (research always_search [] plain_number (Some sample_tools) 2 (str "rust"))
      = pre ++ [EvChat (push m User FORCING) 3] /\
    snd (research always_search [] plain_number (Some sample_tools) 2 (str "rust"))
      = forced_result always_search plain_number m.
Proof.
  destruct (proj2 (proj2 (proj2 (proj2 (proj2
              (research_step_budget always_search [] plain_number
                 (Some sample_tools) 2 (str "rust")))))))
    as [H|[H _]].
  - discriminate.
  - vm_compute. reflexivity.
  - exact H.
  - exfalso. vm_compute in H. discriminate H.
Defined.

(** C5.  Every value [research] returns is at most 1500 code units
    long, on each of its terminal paths; a run that does not return
    ends with the TypeError of a template or conversion, or with the
    exception of one of the completions it asked.  In particular a run
    that ends on a Done command whose summary is longer than 1500 code
    units returns the first 1500 code units of that summary; a step
    whose reply holds no valid command returns the reply, cut to 1500
    code units; and the forced summary, asked after an unknown action
    or when the steps are used up, is returned with at most 1500 code
    units whenever its completion resolves. *)
Theorem research_summary_bounded
  (completions_create : list message -> Z -> result value)
  (dateContext : jsstring) (number_to_string : jsnum -> jsstring)
  (searchTools : option search_tools) (N : nat) (topic : jsstring) :
  let run := research completions_create dateContext number_to_string
               searchTools N topic in
  match snd run with
  | Return s => length s <= 1500
  | Throw e => e = TypeError \/ failed_completion completions_create (fst run) e
  end /\
  (forall tools remaining step messages ev response messages' c summary,
    research_ask completions_create step messages
      = (ev, Return (response, messages', Some c)) ->
    is_string (get c (str "action")) (str "done") = true ->
    get c (str "summary") = VString summary ->
    1500 < length summary ->
    snd (research_loop completions_create number_to_string tools topic
           (S remaining) step messages)
      = Return (slice0 1500 summary) /\
    length (slice0 1500 summary) = 1500) /\
  (forall tools remaining step messages ev response messages' cmd,
     research_ask completions_create step messages
       = (ev, Return (response, messages', cmd)) ->
     no_valid_command cmd = true ->
     research_loop completions_create number_to_string tools topic
       (S remaining) step messages
     = (EvStep step :: ev, Return (slice0 1500 response))) /\
  (forall messages reply,
     ask completions_create (push messages User FORCING) 3 = Return reply ->
     exists s,
       forced_result completions_create number_to_string messages = Return s /\
       length s <= 1500).
Proof.
  split; [|split; [|split]].
  - apply research_result_spec.
  - intros tools remaining step messages ev response messages' c summary A Hd Hs Hl.
    split; [|apply slice0_long; lia].
    cbn [research_loop]. unfold research_step. rewrite A. io_simpl.
    unfold research_dispatch.
    assert (Ha : get c (str "action") = VString (str "done")).
    { destruct (get c (str "action")) as [| | | |a| |]; try discriminate.
      f_equal. cbn [is_string] in Hd. apply string_eqb_eq, Hd. }
    assert (Tc : truthy c = true).
    { destruct c; try discriminate; reflexivity. }
    assert (Ta : truthy (get c (str "action")) = true) by (rewrite Ha; reflexivity).
    unfold no_valid_command. rewrite Tc, Ta. cbn [negb orb]. rewrite Hd.
    rewrite (research_done_string number_to_string c response summary Hs).
    + reflexivity.
    + intros ->. cbn in Hl. lia.
  - intros tools remaining step messages ev response messages' cmd A Nv.
    cbn [research_loop]. rewrite research_step_parts, A.
    unfold research_dispatch.
    destruct cmd as [c|]; [rewrite Nv|]; cbn [fst snd io_ret io_bind];
      rewrite !app_nil_r; reflexivity.
  - intros messages reply A.
    pose proof (forced_result_spec completions_create number_to_string messages)
      as F.
    unfold forced_result in *. rewrite A in *. cbn [bind] in *.
    eexists. split; [reflexivity | exact F].
Qed.

Lemma research_summary_bounded_witness :
  snd (research_loop long_done plain_number sample_tools (str "rust") 1 1 [])
    = Return (slice0 1500 long_summary) /\
  length (slice0 1500 long_summary) = 1500.
Proof.
  apply (proj1 (proj2 (research_summary_bounded long_done [] plain_number None
                         0 []))
           sample_tools 0 1 [] [EvChat [] 3] long_done_text
           (push [] Assistant long_done_text)
           (VObject [(str "action", VString (str "done"));
                     (str "summary", VString long_summary)])
           long_summary).
  - vm_compute. reflexivity.
  - reflexivity.
  - reflexivity.
  - apply Nat.ltb_lt. vm_compute. reflexivity.
Defined.

(** C9, at the reply where the code departs from it.  A command whose
    action is an object with a member named toString is a command with
    an action that is none of search, read and done; the template of
    the log line of line 300 cannot convert it, and the run rejects
    with a TypeError before the [break], without the forced summary.
    With the action think the same run gives up as the claim says: it
    asks for the forced summary on the conversation so far and returns
    it, without any Search or Read. *)
Theorem research_unknown_action_log_throws :
  (exists c,
     _parseJsonCommand (jq "{'action':{'toString':1}}") = Return (Some c) /\
     unknown_action c = true) /\
  research (fun _ _ => answers (jq "{'action':{'toString':1}}")) []
    plain_number (Some sample_tools) 6 (str "rust")
  = ([EvStep 0; EvChat (research_opening [] (str "rust")) 3], Throw TypeError) /\
  research always_think [] plain_number (Some sample_tools) 6 (str "rust")
  = ([EvStep 0; EvChat (research_opening [] (str "rust")) 3;
      EvChat (push (push (research_opening [] (str "rust")) Assistant
                      (jq "{'action':'think'}")) User FORCING) 3],
     Return (jq "{'action':'think'}")).
Proof.
  split; [|split].
  - eexists. split; vm_compute; reflexivity.
  - vm_compute. reflexivity.
  - vm_compute. reflexivity.
Qed.

(** C2, as it holds of the code.  For every input string,
    [_parseJsonCommand] returns without throwing, and what it returns is
    null or an object.  An object that comes from the parse of the whole
    text carries a truthy action; otherwise the object is the one the
    scan recovered, and the guard of the caller (line 274) takes an
    object without an action member for no command.  When the whole
    text gives no such object and the text holds no match of the
    command pattern, the result is null.  The parser never crashes the
    caller: the question the loop puts to the model rejects only with
    the exception of a completion it asked. *)
Theorem parseJsonCommand_total (text : jsstring) :
  (exists r,
     _parseJsonCommand text = Return r /\
     match r with
     | None => True
     | Some v =>
         is_object v = true /\
         (truthy (get v (str "action")) = true \/
          scan_attempt (strip_fences text) = Return (Some v)) /\
         (has_action v = false -> no_valid_command r = true)
     end /\
     (fall_through (whole_text_attempt (strip_fences text)) = None ->
      action_match (strip_fences text) = None -> r = None)) /\
  forall completions_create step messages ev e,
    research_ask completions_create step messages = (ev, Throw e) ->
    failed_completion completions_create ev e.
Proof.
  split.
  2:{ intros completions_create step messages ev e A.
      destruct (research_ask_spec completions_create step messages)
        as [ev0 [r0 [E [_ [_ [_ [_ [_ F]]]]]]]].
      rewrite A in E. injection E as <- <-. apply F. reflexivity. }
  assert (G : forall v, has_action v = false ->
                        no_valid_command (Some v) = true).
  { intros v H. unfold no_valid_command. apply orb_true_iff. right.
    destruct v as [| | | | | |ms]; try reflexivity.
    cbn [has_action get] in *.
    destruct (lookup (str "action") ms); [discriminate|].
    reflexivity. }
  destruct text as [|c t].
  { exists None. repeat split. }
  rewrite parse_nonempty. unfold after_cleaning.
  set (cleaned := strip_fences (c :: t)).
  destruct (fall_through (whole_text_attempt cleaned)) as [full|] eqn:W.
  - exists (Some full). split; [reflexivity|]. split; [|discriminate].
    unfold whole_text_attempt in W.
    destruct (JSON_parse cleaned) as [v|e]; cbn [bind fall_through] in W;
      [|discriminate].
    destruct (truthy v && truthy (get v (str "action"))) eqn:T;
      cbn [fall_through] in W; [|discriminate].
    inversion W; subst full. apply andb_prop in T. destruct T as [_ T].
    split; [apply get_action_object, T | split; [left; exact T | apply G]].
  - destruct (fall_through (scan_attempt cleaned)) as [v|] eqn:S.
    + exists (Some v). split; [reflexivity|].
      assert (E : scan_attempt cleaned = Return (Some v)).
      { destruct (scan_attempt cleaned) as [[x|]|e]; cbn [fall_through] in S;
          try discriminate. congruence. }
      split; [split; [exact (scan_attempt_object _ _ E)
                     | split; [right; exact E | apply G]]|].
      intros _ M. unfold scan_attempt in E. rewrite M in E. discriminate.
    + exists None. repeat split.
Qed.

Lemma parseJsonCommand_total_witness :
  _parseJsonCommand (str "no command here") = Return None /\
  (exists v,
    _parseJsonCommand escaped_key_reply = Return (Some v) /\
    no_valid_command (Some v) = true) /\
  failed_completion provider_down
    [EvChat (research_opening [] (str "rust")) 3] (Error (str "503")).
Proof.
  split; [|split].
  - destruct (proj1 (parseJsonCommand_total (str "no command here")))
      as [r [E [_ H]]].
    rewrite E. f_equal. apply H; vm_compute; reflexivity.
  - exists (VObject [(c_dquote :: str "action", VString (str "x"))]).
    split; [vm_compute; reflexivity|].
    destruct (proj1 (parseJsonCommand_total escaped_key_reply))
      as [r [E [H _]]].
    assert (Er : r = Some (VObject [(c_dquote :: str "action", VString (str "x"))])).
    { assert (P : _parseJsonCommand escaped_key_reply
                  = Return (Some (VObject [(c_dquote :: str "action",
                                            VString (str "x"))])))
        by (vm_compute; reflexivity).
      rewrite P in E. injection E as E. symmetry. exact E. }
    subst r. destruct H as [_ [_ H]]. apply H. vm_compute. reflexivity.
  - apply (proj2 (parseJsonCommand_total []) provider_down 0
             (research_opening [] (str "rust"))).
    vm_compute. reflexivity.
Defined.

(** C2, as stated, fails: on a reply whose single key is a quote
    followed by the word action, the parser returns an object that has
    no action member. *)
Lemma parseJsonCommand_object_without_action :
  ~ (exists r,
       _parseJsonCommand escaped_key_reply = Return r /\
       (r = None \/ exists v, r = Some v /\ has_action v = true)).
Proof.
  intros [r [E H]]. vm_compute in E. inversion E; subst r. clear E.
  destruct H as [H|[v [H A]]]; [discriminate|].
  inversion H; subst v. vm_compute in A. discriminate.
Qed.

(** C4, at the reply where the code departs from it.  A Done command
    whose summary holds a closing brace parses on its own; with prose
    in front of it the whole text is no JSON, the scan walks the braces
    without regard to strings and stops at the brace inside the
    summary, and the parser returns null: the prose has changed the
    result. *)
Theorem parse_prose_changes_result :
  (exists v,
     _parseJsonCommand brace_in_summary = Return (Some v) /\
     is_string (get v (str "action")) (str "done") = true) /\
  _parseJsonCommand (str "Sure: " ++ brace_in_summary) = Return None /\
  _parseJsonCommand (str "Sure: " ++ brace_in_summary)
    <> _parseJsonCommand brace_in_summary.
Proof.
  split; [|split].
  - eexists. split; vm_compute; reflexivity.
  - vm_compute. reflexivity.
  - vm_compute. discriminate.
Qed.

(** C3.  For every non-empty option list and every reply, [chooseVote]
    answers with a key, never with null, chosen by the ladder in this
    order: the reply itself (trimmed, the three quote characters
    removed) when it is the key of an option; else the key of the first
    option whose label or key equals it up to case; else the key of the
    first option whose key or label it contains up to case; else the
    key of the first option.  What is trimmed is the white space at the
    two ends, and case is folded by the ASCII rule on a text of ASCII
    code units and by the Unicode rule of the engine on any other.
    With the options a/Red and b/Blue the reply blue gives b.
    [chooseVote] resolves to the ladder's answer on the reply of the
    completion it asks after the research. *)
Theorem chooseVote_recovery_ladder
  (lower_unicode : jsstring -> jsstring)
  (first : survey_option) (rest : list survey_option) (response : jsstring) :
  let options := first :: rest in
  let k := filter (fun c => negb (N.eqb c 39 || N.eqb c 34 || N.eqb c 96))
             (trim response) in
  (exists answer,
     recover_vote lower_unicode options response = Some answer /\
     (((exists o, In o options /\ key o = k) /\ answer = k) \/
      ((forall o, In o options -> key o <> k) /\
       exists o, first_such (equal_up_to_case lower_unicode k) options o /\
                 answer = key o) \/
      ((forall o, In o options ->
                  key o <> k /\ ~ equal_up_to_case lower_unicode k o) /\
       exists o, first_such (holds_up_to_case lower_unicode k) options o /\
                 answer = key o) \/
      ((forall o, In o options ->
                  key o <> k /\ ~ equal_up_to_case lower_unicode k o /\
                  ~ holds_up_to_case lower_unicode k o) /\
       answer = key first /\ key first <> []))) /\
  (exists w1 w2,
     response = w1 ++ trim response ++ w2 /\
     Forall white_space w1 /\ Forall white_space w2 /\
     (forall c r, trim response = c :: r -> ~ white_space c) /\
     (forall r c, trim response = r ++ [c] -> ~ white_space c)) /\
  (forall s, (forall c, In c s -> (c < 128)%N) ->
             toLowerCase lower_unicode s =
             map (fun c => if N.leb 65 c && N.leb c 90 then (c + 32)%N else c) s) /\
  (forall s, (exists c, In c s /\ (128 <= c)%N) ->
             toLowerCase lower_unicode s = lower_unicode s) /\
  recover_vote lower_unicode red_blue (str "blue") = Some (str "b") /\
  forall completions_create dateContext number_to_string builtin_text
         searchTools maxResearchSteps s counts optionList summary ev reply,
    vote_option_list number_to_string builtin_text options counts
      = Return optionList ->
    research completions_create dateContext number_to_string searchTools
      maxResearchSteps (vote_topic s options) = (ev, Return summary) ->
    ask completions_create
      [{| msg_role := System; content := vote_system dateContext |};
       {| msg_role := User; content := vote_user s optionList summary |}] 5
      = Return reply ->
    chooseVote completions_create dateContext number_to_string builtin_text
      lower_unicode searchTools maxResearchSteps s options counts
    = (ev ++ [EvChat
                [{| msg_role := System; content := vote_system dateContext |};
                 {| msg_role := User;
                    content := vote_user s optionList summary |}] 5],
       Return (recover_vote lower_unicode options reply)).
Proof.
  intros options k.
  split; [|split; [|split; [|split; [|split]]]].
  - apply (recover_vote_ladder lower_unicode first rest response).
  - destruct (trim_decompose response) as [w1 [w2 [E [A1 [A2 [H1 H2]]]]]].
    exists w1, w2. split; [exact E|].
    split; [apply all_space_Forall, A1|]. split; [apply all_space_Forall, A2|].
    split.
    + intros c r T. apply not_space_unit, (H1 c r T).
    + intros r c T. apply not_space_unit, (H2 r c T).
  - intros s A. apply toLowerCase_ascii, forallb_is_ascii, A.
  - intros s. apply toLowerCase_other.
  - reflexivity.
  - intros completions_create dateContext number_to_string builtin_text
      searchTools maxResearchSteps s counts optionList summary ev reply L R A.
    rewrite (chooseVote_run completions_create dateContext number_to_string
               builtin_text lower_unicode searchTools maxResearchSteps s options
               counts optionList summary ev L R).
    cbn zeta. rewrite A. reflexivity.
Qed.

Lemma chooseVote_recovery_ladder_witness :
  chooseVote (fun _ _ => answers (str " 'Blue' ")) [] plain_number no_builtin
    no_unicode None 6 colour_survey red_blue []
  = ([EvChat
        [{| msg_role := System; content := vote_system [] |};
         {| msg_role := User;
            content := vote_user colour_survey
                         (str "- " ++ quoted (str "Red") ++
                          str " (key: a, current votes: 0)" ++ [c_newline] ++
                          str "- " ++ quoted (str "Blue") ++
                          str " (key: b, current votes: 0)") [] |}] 5],
     Return (Some (str "b"))).
Proof.
  apply (proj2 (proj2 (proj2 (proj2 (proj2
           (chooseVote_recovery_ladder no_unicode
              {| key := str "a"; label := str "Red" |}
              [{| key := str "b"; label := str "Blue" |}] [])))))
           (fun _ _ => answers (str " 'Blue' ")) [] plain_number no_builtin
           None 6 colour_survey [] _ [] [] (str "'Blue'")).
  - vm_compute. reflexivity.
  - reflexivity.
  - vm_compute. reflexivity.
Defined.

(** C10, at the configuration where the code departs from it.  With
    the image provider named constructor the lookup of line 91 reads a
    built-in off the preset table, [canGenerateImages] is undefined,
    and the suggestion read off a reply that asks for a picture carries
    a [wantsImage] that is undefined: neither a boolean nor false.
    With the provider openai the same reply gives true. *)
Theorem suggestOption_inherited_provider :
  canGenerateImages (str "openai") (str "constructor") [] = VUndefined /\
  snd (suggestOption suggests_picture [] plain_number None 6 (str "openai")
         (str "constructor") [] colour_survey red_blue)
  = Return {| suggestion_label := str "Green";
              wantsImage := VUndefined;
              imageDescription := str "a green field" |} /\
  snd (suggestOption suggests_picture [] plain_number None 6 (str "openai")
         [] [] colour_survey red_blue)
  = Return {| suggestion_label := str "Green";
              wantsImage := VBool true;
              imageDescription := str "a green field" |}.
Proof. split; [|split]; vm_compute; reflexivity. Qed.

(** C6.  [search] never throws.  The request is repeated while the
    endpoint answers 429, three times at most, after delays of 1200,
    2400 and 4800 ms; the answer that ends the attempts decides the
    result, which is empty when that answer is not a success, when the
    request was rejected, or when its body cannot be read.  A query
    that is not a string, or that is empty once sanitised, gives the
    empty result without a request. *)
Theorem search_degrades_to_empty
  (brave_fetch : nat -> result response) (apiKey : jsstring) (maxResults : nat)
  (lastSearchMs now : Z) (query : value) :
  let run := search_ brave_fetch apiKey maxResults lastSearchMs now query in
  let k := last_attempt brave_fetch in
  (exists rs, snd run = Return rs) /\
  k <= MAX_RETRIES /\
  (forall cleaned,
     attempts_trace cleaned maxResults 0 (MAX_RETRIES + 1) =
     [EvFetch cleaned maxResults; EvSleep 1200;
      EvFetch cleaned maxResults; EvSleep 2400;
      EvFetch cleaned maxResults; EvSleep 4800;
      EvFetch cleaned maxResults]) /\
  match sanitizeQuery query with
  | Return cleaned =>
      if nonempty apiKey && nonempty cleaned then
        fst run = pacing_trace lastSearchMs now ++
                  attempts_trace cleaned maxResults 0 (S k) /\
        snd run = Return (search_outcome maxResults (brave_fetch k)) /\
        match brave_fetch k with
        | Return resp => ok resp = false -> snd run = Return []
        | Throw _ => snd run = Return []
        end
      else fst run = pacing_trace lastSearchMs now /\ snd run = Return []
  | Throw _ => fst run = pacing_trace lastSearchMs now /\ snd run = Return []
  end.
Proof.
  intros run k.
  pose proof (search_spec brave_fetch apiKey maxResults lastSearchMs now query) as S.
  fold run in S. fold k in S.
  split; [|split; [apply last_attempt_bound | split; [reflexivity|]]].
  - destruct (sanitizeQuery query) as [cleaned|e].
    + destruct (nonempty apiKey && nonempty cleaned); rewrite S; eexists; reflexivity.
    + rewrite S. eexists; reflexivity.
  - destruct (sanitizeQuery query) as [cleaned|e].
    + destruct (nonempty apiKey && nonempty cleaned); rewrite S; cbn [fst snd].
      * split; [reflexivity|]. split; [reflexivity|].
        unfold search_outcome.
        destruct (brave_fetch k) as [resp|e]; [|reflexivity].
        intros H. rewrite H. reflexivity.
      * split; reflexivity.
    + rewrite S. split; reflexivity.
Qed.

Lemma search_degrades_to_empty_witness :
  snd (search_ (fun _ => Return {| status := 500;
                                   body_text := Return [];
                                   body_json := Throw SyntaxError |})
         (str "key") 5 0 5000 (VString (str "rust")))
  = Return [].
Proof.
  pose proof (search_degrades_to_empty
                (fun _ => Return {| status := 500;
                                    body_text := Return [];
                                    body_json := Throw SyntaxError |})
                (str "key") 5 0 5000 (VString (str "rust"))) as H.
  cbv zeta in H. destruct H as [_ [_ [_ H]]].
  change (sanitizeQuery (VString (str "rust"))) with (@Return jsstring (str "rust")) in H.
  cbn [nonempty str map list_ascii_of_string andb] in H.
  destruct H as [_ [_ H]].
  apply H. reflexivity.
Defined.

(** C7, as it holds of the code.  For calls of [search] made through one instance and
    awaited one after the other, with timers that do not fire early,
    any two requests begin at least 1200 ms apart; a call that starts
    sooner than 1200 ms after the time stamp waits until exactly
    1200 ms after it.  Callers that overlap are not serialised. *)
Theorem search_pacing_awaited (ts : list turn) :
  schedule_ok pacer_init 0 ts = true ->
  sequential pacer_init ts = true ->
  spaced (begun (run_turns ts)) = true /\
  forall lastSearchMs now,
    match pacing_delay lastSearchMs now with
    | Some d =>
        (now - lastSearchMs < BASE_DELAY_MS)%Z /\
        (now + d = lastSearchMs + BASE_DELAY_MS)%Z
    | None => (lastSearchMs + BASE_DELAY_MS <= now)%Z
    end.
Proof.
  intros Ok Seq. split; [|apply pacing_delay_spec].
  apply (paced_run ts pacer_init 0 paced_init Ok Seq).
Qed.

Lemma search_pacing_awaited_witness :
  spaced (begun (run_turns awaited_callers)) = true /\
  forall lastSearchMs now,
    match pacing_delay lastSearchMs now with
    | Some d =>
        (now - lastSearchMs < BASE_DELAY_MS)%Z /\
        (now + d = lastSearchMs + BASE_DELAY_MS)%Z
    | None => (lastSearchMs + BASE_DELAY_MS <= now)%Z
    end.
Proof.
  apply (search_pacing_awaited awaited_callers).
  - vm_compute. reflexivity.
  - vm_compute. reflexivity.
Defined.

(** C7, as stated, fails for concurrent callers: two callers that
    arrive while the interval runs both sleep until it is over and
    begin their requests at the same time. *)
Lemma search_pacing_concurrent_overlap :
  schedule_ok pacer_init 0 overlapping_callers = true /\
  begun (run_turns overlapping_callers)
    = [(0, 10000%Z); (1, 11200%Z); (2, 11200%Z)] /\
  ~ (forall ts, schedule_ok pacer_init 0 ts = true ->
                spaced (begun (run_turns ts)) = true).
Proof.
  split; [vm_compute; reflexivity|]. split; [vm_compute; reflexivity|].
  intros H. specialize (H overlapping_callers eq_refl). vm_compute in H.
  discriminate.
Qed.

(** C8.  [generateImage] never throws: an exception of the backend
    call becomes null, a value it returns is passed on.  With the
    native-REST backend and no store endpoint the result is null and
    the only request is the one to the Imagen endpoint: nothing is
    uploaded. *)
Theorem generateImage_degrades_to_null
  (completions_create : list message -> Z -> result value)
  (number_to_string : jsnum -> jsstring)
  (provider apiKey baseURL_arg imageProvider imageApiKey imageBaseURL
   imageModel_arg imageStoreURL : jsstring)
  (imagen_fetch : jsstring -> jsstring -> jsstring -> result response)
  (store_fetch : jsstring -> jsstring -> result response)
  (images_generate : client -> jsstring -> jsstring -> result value)
  (Buffer_from : value -> result jsstring) (description : jsstring) :
  let run := generateImage completions_create number_to_string provider apiKey
               baseURL_arg imageProvider imageApiKey imageBaseURL
               imageModel_arg imageStoreURL imagen_fetch
               store_fetch images_generate Buffer_from description in
  let call := image_backend_call completions_create number_to_string provider
                apiKey baseURL_arg imageProvider imageApiKey imageBaseURL
                imageModel_arg imageStoreURL
                imagen_fetch store_fetch images_generate Buffer_from description in
  (exists v, snd run = Return v) /\
  (if truthy (canGenerateImages provider imageProvider imageModel_arg)
   then snd run = Return match snd call with Return v => v | Throw _ => VNull end
   else run = ([], Return VNull)) /\
  (imgBackend provider imageProvider = GeminiNative -> imageStoreURL = [] ->
   snd run = Return VNull /\ existsb is_upload (fst run) = false).
Proof.
  intros run call. subst run call. unfold generateImage.
  destruct (truthy (canGenerateImages provider imageProvider imageModel_arg));
    cbn [negb].
  - rewrite io_try_returns, io_try_trace.
    split; [eexists; reflexivity|]. split; [reflexivity|].
    intros G S. unfold image_backend_call. rewrite G, S.
    destruct (gemini_without_store number_to_string provider apiKey
                imageProvider imageApiKey
                imageModel_arg imagen_fetch store_fetch Buffer_from description)
      as [T R].
    rewrite T. split; [|reflexivity].
    destruct (snd (_generateImageGemini _ _ _ _ _ _ _ _ _ _ _)) as [v|e];
      [rewrite R|]; reflexivity.
  - split; [eexists; reflexivity|]. split; [reflexivity|].
    intros _ _. split; reflexivity.
Qed.

Lemma generateImage_degrades_to_null_witness :
  snd (generateImage provider_down plain_number (str "gemini") (str "key")
         [] [] [] [] [] []
         imagen_ok no_store no_images no_buffer (str "a cat")) = Return VNull /\
  existsb is_upload
    (fst (generateImage provider_down plain_number (str "gemini") (str "key")
            [] [] [] [] [] []
            imagen_ok no_store no_images no_buffer (str "a cat"))) = false.
Proof.
  apply (generateImage_degrades_to_null provider_down plain_number (str "gemini")
           (str "key")
           [] [] [] [] [] [] imagen_ok no_store no_images no_buffer (str "a cat")).
  - reflexivity.
  - reflexivity.
Defined.

(* ------------------------------------------------------------------ *)
(** ** Further properties: the search module                            *)
(* ------------------------------------------------------------------ *)

(** X1.  [sanitizeQuery] turns every string into a query of at most
    [MAX_QUERY_LEN] = 300 code units in which every code unit is a word
    character, white space or one of the marks the class of line 332
    keeps (hyphen, apostrophe, double quote, comma, question mark,
    exclamation mark); the colon and the slashes of an address never
    come through. *)
Theorem sanitizeQuery_length_and_class (s : jsstring) :
  exists q,
    sanitizeQuery (VString s) = Return q /\
    length q <= MAX_QUERY_LEN /\
    forallb in_query_class q = true /\
    includes q (str "://") = false.
Proof.
  destruct (sanitizeQuery_spec s) as [q [E [L [C _]]]].
  exists q. repeat split; try assumption.
  clear E L. induction q as [|c q IH]; [reflexivity|].
  cbn [forallb] in C. apply andb_prop in C. destruct C as [Cc Cq].
  cbn [includes]. rewrite (IH Cq), orb_false_r.
  destruct (starts_with (str "://") (c :: q)) eqn:St; [|reflexivity].
  apply starts_with_cons in St. destruct St as [s' St].
  injection St as -> _. discriminate.
Qed.

(** X2.  A sanitised query never starts with white space and never
    holds two white-space code units side by side: every run of white
    space has been collapsed to one code unit. *)
Theorem sanitizeQuery_single_spaced (s : jsstring) :
  exists q,
    sanitizeQuery (VString s) = Return q /\
    single_spaced q = true /\
    starts_with_space q = false.
Proof.
  destruct (sanitizeQuery_spec s) as [q [E [_ [_ [S H]]]]].
  exists q. repeat split; assumption.
Qed.

(** X3.  Every request [search] sends to the endpoint carries the
    sanitised form of the query and the configured result count; the
    query sent is never empty and never longer than 300 code units, and
    nothing is sent without an API key. *)
Theorem search_requests_are_sanitised
  (brave_fetch : nat -> result response) (apiKey : jsstring) (maxResults : nat)
  (lastSearchMs now : Z) (query : value) (q : jsstring) (n : nat) :
  In (EvFetch q n)
     (fst (search_ brave_fetch apiKey maxResults lastSearchMs now query)) ->
  sanitizeQuery query = Return q /\ n = maxResults /\
  q <> [] /\ length q <= MAX_QUERY_LEN /\
  forallb in_query_class q = true /\ apiKey <> [].
Proof.
  intros H. apply search_request_spec in H. destruct H as [E [-> [Q K]]].
  split; [exact E|]. split; [reflexivity|].
  split; [intros ->; discriminate|].
  destruct query as [| | | |s| |]; try discriminate.
  destruct (sanitizeQuery_spec s) as [q' [E' [L [C _]]]].
  assert (q' = q) by congruence. subst q'.
  repeat split; try assumption. intros ->. discriminate.
Qed.

Lemma search_requests_are_sanitised_witness :
  sanitizeQuery (VString (str "rust  lang: https://rust-lang.org"))
    = Return (str "rust lang") /\
  5 = 5 /\ str "rust lang" <> [] /\ length (str "rust lang") <= MAX_QUERY_LEN /\
  forallb in_query_class (str "rust lang") = true /\ str "key" <> [].
Proof.
  apply (search_requests_are_sanitised one_result (str "key") 5 0 5000
           (VString (str "rust  lang: https://rust-lang.org"))
           (str "rust lang") 5).
  vm_compute. left. reflexivity.
Defined.

(** X4.  [search] resolves to at most [maxResults] results, and no
    field of a result is undefined or null: a title, description or
    address that is missing or falsy in the response is the empty
    string. *)
Theorem search_results_bounded
  (brave_fetch : nat -> result response) (apiKey : jsstring) (maxResults : nat)
  (lastSearchMs now : Z) (query : value) :
  exists rs,
    snd (search_ brave_fetch apiKey maxResults lastSearchMs now query) = Return rs /\
    length rs <= maxResults /\
    forallb result_ok rs = true.
Proof. apply search_results_spec. Qed.

(** X5.  [fetchPage] never resolves to the empty string, and each
    failure gives its own message in parentheses: a request that
    rejects and a body that cannot be read give (Error reading page:
    ...) with the message of the exception, a failure status gives
    (Failed to fetch: ...) with the status, and a page without text
    gives (No readable content).  The text of a page that could be read
    is cut to [MAX_PAGE_CHARS] = 3000 code units, plus an ellipsis when
    something was cut off. *)
Theorem fetchPage_never_empty
  (page_fetch : value -> result response) (error_message : exn -> jsstring)
  (pageUrl : value) :
  fetchPage_ page_fetch error_message pageUrl <> [] /\
  (forall e,
     page_fetch pageUrl = Throw e ->
     fetchPage_ page_fetch error_message pageUrl =
     str "(Error reading page: " ++ error_message e ++ str ")") /\
  (forall resp,
     page_fetch pageUrl = Return resp -> ok resp = false ->
     fetchPage_ page_fetch error_message pageUrl =
     str "(Failed to fetch: " ++ nat_to_string (status resp) ++ str ")") /\
  (forall resp e,
     page_fetch pageUrl = Return resp -> ok resp = true ->
     body_text resp = Throw e ->
     fetchPage_ page_fetch error_message pageUrl =
     str "(Error reading page: " ++ error_message e ++ str ")") /\
  forall resp html,
    page_fetch pageUrl = Return resp -> ok resp = true ->
    body_text resp = Return html ->
    length (fetchPage_ page_fetch error_message pageUrl) <= MAX_PAGE_CHARS + 1 /\
    (readable_text html = [] ->
     fetchPage_ page_fetch error_message pageUrl = str "(No readable content)") /\
    (length (readable_text html) <= MAX_PAGE_CHARS -> readable_text html <> [] ->
     fetchPage_ page_fetch error_message pageUrl = readable_text html).
Proof.
  split; [apply fetchPage_nonempty|].
  split; [intros e F; unfold fetchPage_; rewrite F; reflexivity|].
  split; [intros resp F O; unfold fetchPage_; rewrite F, O; reflexivity|].
  split; [intros resp e F O B; unfold fetchPage_; rewrite F, O, B; reflexivity|].
  intros resp html F O B.
  split; [apply (fetchPage_read_bound _ _ _ _ _ F O B)|].
  rewrite (fetchPage_read _ _ _ _ _ F O B).
  split.
  - intros ->. reflexivity.
  - intros L N. destruct (readable_text html) as [|c t]; [congruence|].
    apply Nat.leb_le in L. rewrite Nat.ltb_antisym, L. cbn [negb].
    rewrite app_nil_r. unfold slice0. apply firstn_all2. apply Nat.leb_le, L.
Qed.

Lemma fetchPage_never_empty_witness :
  fetchPage_ sample_fetch no_message VNull = str "Rust 1.0 more done" /\
  fetchPage_ (fun _ => Throw SyntaxError) no_message VNull
    = str "(Error reading page: )" /\
  fetchPage_ (fun _ => Return {| status := 404; body_text := Return [];
                                 body_json := Throw SyntaxError |})
    no_message VNull
    = str "(Failed to fetch: 404)".
Proof.
  split; [|split].
  - apply (proj2 (proj2 (proj2 (proj2
             (fetchPage_never_empty sample_fetch no_message VNull))))
             {| status := 200; body_text := Return sample_page;
                body_json := Throw SyntaxError |} sample_page).
    + reflexivity.
    + reflexivity.
    + reflexivity.
    + vm_compute. lia.
    + vm_compute. discriminate.
  - apply (proj1 (proj2 (fetchPage_never_empty (fun _ => Throw SyntaxError)
                           no_message VNull)) SyntaxError).
    reflexivity.
  - apply (proj1 (proj2 (proj2
             (fetchPage_never_empty
                (fun _ => Return {| status := 404; body_text := Return [];
                                    body_json := Throw SyntaxError |})
                no_message VNull)))
             {| status := 404; body_text := Return [];
                body_json := Throw SyntaxError |}).
    + reflexivity.
    + reflexivity.
Defined.

(** X6.  The readable text of a page holds no tag: after the
    replacements of lines 411-420 no text between an opening angle and
    the next closing angle is left, whatever the page was, and so the
    text [fetchPage] hands over for a page it could read holds none. *)
Theorem fetchPage_strips_every_tag
  (page_fetch : value -> result response) (error_message : exn -> jsstring)
  (pageUrl : value) (html : jsstring) :
  has_tag (readable_text html) = false /\
  forall resp,
    page_fetch pageUrl = Return resp -> ok resp = true ->
    body_text resp = Return html ->
    has_tag (fetchPage_ page_fetch error_message pageUrl) = false.
Proof.
  split; [apply readable_text_tagless|].
  intros resp F O B. apply (fetchPage_read_bound _ _ _ _ _ F O B).
Qed.

Lemma fetchPage_strips_every_tag_witness :
  has_tag (fetchPage_ sample_fetch no_message VNull) = false.
Proof.
  apply (proj2 (fetchPage_strips_every_tag sample_fetch no_message VNull sample_page)
           {| status := 200; body_text := Return sample_page;
              body_json := Throw SyntaxError |});
    reflexivity.
Defined.

(* ------------------------------------------------------------------ *)
(** ** Further properties: the research agent                           *)
(* ------------------------------------------------------------------ *)

(** X7.  A research run never drops or rewrites what was said: the
    first completion is asked with the system prompt and the topic
    (followed at once by the forcing instruction when the step budget
    is zero), and every later completion is asked with the whole
    conversation of the one before it, then the reply the model gave to
    it as an assistant turn, then one or two user turns (the nudge, the
    results of the dispatch, the forcing instruction). *)
Theorem research_keeps_conversation
  (completions_create : list message -> Z -> result value)
  (dateContext : jsstring)
  (number_to_string : jsnum -> jsstring) (tools : search_tools)
  (N : nat) (topic : jsstring) :
  let log := chat_log (fst (research completions_create dateContext
                              number_to_string (Some tools) N topic)) in
  (exists t rest,
     log = (match N with
            | 0 => push (research_opening dateContext topic) User FORCING
            | S _ => research_opening dateContext topic
            end, t) :: rest) /\
  linked completions_create log.
Proof.
  intros log. subst log. unfold research.
  destruct (research_loop_conversation completions_create number_to_string
              tools topic N 0
              (research_opening dateContext topic)) as [t [rest [L [K _]]]].
  split; [exists t, rest; exact L | exact K].
Qed.

(** X8.  The format nudge is given at most once in a research run,
    and exactly once when the run has search tools and a step budget
    above zero and the reply to the opening resolves and holds no
    command.  Every completion of a run is asked at temperature 0.3,
    except the one that follows the nudge, which is asked at 0.2 with
    the nudge as the last message. *)
Theorem research_nudges_once
  (completions_create : list message -> Z -> result value)
  (dateContext : jsstring)
  (number_to_string : jsnum -> jsstring) (searchTools : option search_tools)
  (N : nat) (topic : jsstring) :
  let tr := fst (research completions_create dateContext number_to_string
                   searchTools N topic) in
  count_nudges tr <= 1 /\
  Forall research_chat (chat_log tr) /\
  (count_nudges tr = 1 <->
   searchTools <> None /\ N <> 0 /\
   exists reply,
     ask completions_create (research_opening dateContext topic) 3
       = Return reply /\
     _parseJsonCommand reply = Return None) /\
  count_nudges (fst (research needs_nudge [] plain_number (Some sample_tools)
                       6 (str "rust"))) = 1.
Proof.
  intros tr. subst tr. unfold research. destruct searchTools as [tools|].
  - destruct (research_loop_conversation completions_create number_to_string
                tools topic N 0
                (research_opening dateContext topic)) as [t [rest [_ [_ [F C]]]]].
    split; [exact C|]. split; [exact F|]. split; [|reflexivity].
    destruct N as [|n].
    + cbn [research_loop]. rewrite research_finish_eq. cbn [fst].
      split; [intros H; cbn in H; discriminate | intros [_ [H _]]; congruence].
    + rewrite research_loop_nudges.
      destruct (ask completions_create (research_opening dateContext topic) 3)
        as [r1|e].
      * destruct (_parseJsonCommand r1) as [[c|]|e] eqn:P.
        -- split; [discriminate|]. intros [_ [_ [reply [A Pr]]]].
           injection A as <-. congruence.
        -- split; [|reflexivity]. intros _.
           split; [discriminate|]. split; [discriminate|].
           exists r1. split; [reflexivity | exact P].
        -- split; [discriminate|]. intros [_ [_ [reply [A Pr]]]].
           injection A as <-. congruence.
      * split; [discriminate|]. intros [_ [_ [reply [A _]]]]. discriminate.
  - cbn [fst io_ret chat_log]. split; [cbn; lia|]. split; [constructor|].
    split; [|reflexivity].
    split; [intros H; cbn in H; discriminate | intros [H _]; congruence].
Qed.

(* ------------------------------------------------------------------ *)
(** ** Further properties: the configuration and the image router       *)
(* ------------------------------------------------------------------ *)

(** X9.  [canGenerateImages] is true for every image provider but the
    twelve names every object inherits (constructor, toString,
    __proto__ and the like), for which the lookup in the preset table
    reads a built-in and [canGenerateImages] is undefined: every preset
    supports images and names an image model, and any other unknown
    provider falls back to the openai preset.  So the branch of
    [generateImage] for unavailable image generation is taken for these
    twelve names and no others, and an images client exists exactly for
    the openai-compat backend of a provider that is none of them. *)
Theorem image_generation_availability
  (completions_create : list message -> Z -> result value)
  (number_to_string : jsnum -> jsstring)
  (provider apiKey baseURL_arg imageProvider imageApiKey imageBaseURL
   imageModel_arg imageStoreURL : jsstring)
  (imagen_fetch : jsstring -> jsstring -> jsstring -> result response)
  (store_fetch : jsstring -> jsstring -> result response)
  (images_generate : client -> jsstring -> jsstring -> result value)
  (Buffer_from : value -> result jsstring) (description : jsstring) :
  let named_like_a_builtin :=
    In (imgProvider provider imageProvider)
       (map str ["constructor"; "toString"; "valueOf"; "hasOwnProperty";
                 "isPrototypeOf"; "propertyIsEnumerable"; "toLocaleString";
                 "__proto__"; "__defineGetter__"; "__defineSetter__";
                 "__lookupGetter__"; "__lookupSetter__"]%string) in
  (named_like_a_builtin ->
   canGenerateImages provider imageProvider imageModel_arg = VUndefined /\
   generateImage completions_create number_to_string provider apiKey
     baseURL_arg imageProvider imageApiKey imageBaseURL imageModel_arg
     imageStoreURL imagen_fetch store_fetch images_generate Buffer_from
     description = ([], Return VNull) /\
   imgClient provider apiKey baseURL_arg imageProvider imageApiKey
     imageBaseURL imageModel_arg = None) /\
  (~ named_like_a_builtin ->
   canGenerateImages provider imageProvider imageModel_arg = VBool true /\
   generateImage completions_create number_to_string provider apiKey
     baseURL_arg imageProvider imageApiKey imageBaseURL imageModel_arg
     imageStoreURL imagen_fetch store_fetch images_generate Buffer_from
     description =
   io_try (image_backend_call completions_create number_to_string provider
             apiKey baseURL_arg imageProvider imageApiKey imageBaseURL
             imageModel_arg imageStoreURL imagen_fetch store_fetch
             images_generate Buffer_from description)
          (fun _ => io_ret VNull) /\
   match imgBackend provider imageProvider with
   | OpenaiCompat =>
       exists c, imgClient provider apiKey baseURL_arg imageProvider imageApiKey
                   imageBaseURL imageModel_arg = Some c
   | _ => imgClient provider apiKey baseURL_arg imageProvider imageApiKey
            imageBaseURL imageModel_arg = None
   end).
Proof.
  intros named. subst named.
  pose proof (inherited_name_names (imgProvider provider imageProvider)) as Names.
  pose proof (canGenerateImages_cases provider imageProvider imageModel_arg) as Can.
  pose proof (imgClient_spec provider apiKey baseURL_arg imageProvider imageApiKey
                imageBaseURL imageModel_arg) as Client.
  split; intros H.
  - apply Names in H. rewrite H in Can, Client.
    split; [exact Can|]. split.
    + unfold generateImage. rewrite Can. reflexivity.
    + rewrite (imgBackend_inherited _ _ H) in Client. exact Client.
  - assert (I : inherited_name (imgProvider provider imageProvider) = false).
    { destruct (inherited_name _) eqn:I; [|reflexivity].
      exfalso. apply H, Names. reflexivity. }
    rewrite I in Can, Client.
    split; [exact Can|]. split; [|exact Client].
    unfold generateImage. rewrite Can. reflexivity.
Qed.

Lemma image_generation_availability_witness :
  canGenerateImages (str "openai") (str "constructor") [] = VUndefined /\
  canGenerateImages (str "mistral") [] [] = VBool true.
Proof.
  split.
  - apply (proj1 (image_generation_availability provider_down plain_number
                    (str "openai") (str "key") [] (str "constructor") [] [] []
                    [] imagen_ok no_store no_images no_buffer [])).
    simpl. tauto.
  - apply (proj2 (image_generation_availability provider_down plain_number
                    (str "mistral") (str "key") [] [] [] [] []
                    [] imagen_ok no_store no_images no_buffer [])).
    vm_compute. intros H.
    repeat (destruct H as [H|H]; [discriminate H|]). exact H.
Defined.

(** X10.  The refining backend is in use exactly when images are asked
    of anthropic, and its renderer is then always openai: the client it
    renders with is built from the image key (or the chat key) and the
    image address (or the openai address), whatever [imageProvider]
    was. *)
Theorem anthropic_refine_renders_with_openai
  (provider apiKey imageProvider imageApiKey imageBaseURL : jsstring) :
  imgBackend provider imageProvider = AnthropicRefine ->
  imgProvider provider imageProvider = str "anthropic" /\
  renderProvider imageProvider = str "openai" /\
  renderClient provider apiKey imageProvider imageApiKey imageBaseURL =
  Some {| client_key := or_string imageApiKey apiKey;
          client_url := or_string imageBaseURL (str "https://api.openai.com/v1") |}.
Proof.
  intros B. destruct (anthropic_refine_renderer _ _ B) as [P R].
  split; [exact P|]. split; [exact R|]. apply renderClient_spec, B.
Qed.

Lemma anthropic_refine_renders_with_openai_witness :
  imgProvider (str "grok") (str "anthropic") = str "anthropic" /\
  renderProvider (str "anthropic") = str "openai" /\
  renderClient (str "grok") (str "key") (str "anthropic") [] [] =
  Some {| client_key := str "key";
          client_url := str "https://api.openai.com/v1" |}.
Proof.
  apply (anthropic_refine_renders_with_openai (str "grok") (str "key")
           (str "anthropic") [] []).
  reflexivity.
Defined.

(** X11.  What [generateImage] asks of the outside, by backend, when
    the image provider is not one of the names every object inherits
    (for those it asks nothing).  With openai-compat it makes one call
    of the images API, with the image model and the description as the
    prompt.  With anthropic-refine it asks the chat model once, at
    temperature 0.9, and, when that completion resolves, makes one call
    of the images API whose prompt is the reply of the chat model, not
    the description.  With gemini-native it makes one request to the
    Imagen endpoint and at most one upload, and an upload only with a
    store address and after an Imagen answer that held image data. *)
Theorem generateImage_requests
  (completions_create : list message -> Z -> result value)
  (number_to_string : jsnum -> jsstring)
  (provider apiKey baseURL_arg imageProvider imageApiKey imageBaseURL
   imageModel_arg imageStoreURL : jsstring)
  (imagen_fetch : jsstring -> jsstring -> jsstring -> result response)
  (store_fetch : jsstring -> jsstring -> result response)
  (images_generate : client -> jsstring -> jsstring -> result value)
  (Buffer_from : value -> result jsstring) (description : jsstring) :
  let tr := fst (generateImage completions_create number_to_string provider
                   apiKey baseURL_arg
                   imageProvider imageApiKey imageBaseURL imageModel_arg
                   imageStoreURL imagen_fetch store_fetch images_generate
                   Buffer_from description) in
  match imgBackend provider imageProvider with
  | OpenaiCompat =>
      tr = if inherited_name (imgProvider provider imageProvider) then []
           else [EvImagesGenerate
                   (imgModel provider imageProvider imageModel_arg) description]
  | AnthropicRefine =>
      tr = EvChat (refine_conversation description) 9%Z ::
           match ask completions_create (refine_conversation description) 9 with
           | Return reply =>
               [EvImagesGenerate (renderModel imageProvider imageModel_arg) reply]
           | Throw _ => []
           end
  | GeminiNative =>
      tr = [EvImagen (imgModel provider imageProvider imageModel_arg) description] \/
      exists buf,
        tr = [EvImagen (imgModel provider imageProvider imageModel_arg) description;
              EvUpload imageStoreURL buf] /\
        imageStoreURL <> []
  end.
Proof.
  intros tr. subst tr. rewrite generateImage_trace.
  unfold image_backend_call.
  destruct (imgBackend provider imageProvider) eqn:B.
  - destruct (inherited_name _) eqn:I; [reflexivity|].
    apply openai_compat_default_trace; assumption.
  - rewrite (anthropic_refine_not_inherited _ _ B).
    unfold _generateImageClaudeRefine, chat. rewrite chatMultiTurn_eq.
    fold (refine_conversation description).
    destruct (ask completions_create (refine_conversation description) 9)
      as [reply|e]; [|reflexivity].
    rewrite (renderClient_spec _ _ _ _ _ B).
    pose proof (openai_compat_trace number_to_string provider apiKey baseURL_arg
                  imageProvider
                  imageApiKey imageBaseURL imageModel_arg images_generate reply
                  {| client_key := or_string imageApiKey apiKey;
                     client_url := or_string imageBaseURL
                                     (str "https://api.openai.com/v1") |}
                  (renderModel imageProvider imageModel_arg)
                  (renderModel_nonempty _ _)) as T.
    cbn [io_bind].
    destruct (_generateImageOpenAICompat _ _ _ _ _ _ _ _ _ _ _ _) as [ev r].
    cbn [fst] in *. subst ev. reflexivity.
  - rewrite (gemini_native_not_inherited _ _ B).
    destruct (gemini_trace number_to_string provider apiKey imageProvider
                imageApiKey
                imageModel_arg imageStoreURL imagen_fetch store_fetch
                Buffer_from description)
      as [T|[resp [data [predictions [buf [T [_ [_ [_ [_ [_ S]]]]]]]]]]].
    + left. exact T.
    + right. exists buf. split; assumption.
Qed.

(** X12.  [formatSearchResults] leaves no result out: the text it
    returns for a non-empty list holds, for every result of the list,
    its numbered line with the title, the snippet and the address as
    they convert to strings; the text is the note (no results) only for
    the empty list; and a list whose fields all convert is always
    formatted. *)
Theorem formatSearchResults_lists_every_result
  (number_to_string : jsnum -> jsstring) (rs : list search_result) :
  (forall text r,
     formatSearchResults number_to_string rs = Return text -> In r rs ->
     exists i t s u,
       i < length rs /\
       to_string number_to_string (title r) = Return t /\
       to_string number_to_string (snippet r) = Return s /\
       to_string number_to_string (url r) = Return u /\
       includes text
         (nat_to_string (i + 1) ++ str ". [" ++ t ++ str "] " ++ s ++
          [c_newline] ++ str "   URL: " ++ u) = true) /\
  (formatSearchResults number_to_string rs = Return (str "(no results)")
   <-> rs = []) /\
  ((forall r, In r rs ->
      exists t s u,
        to_string number_to_string (title r) = Return t /\
        to_string number_to_string (snippet r) = Return s /\
        to_string number_to_string (url r) = Return u) ->
   exists text, formatSearchResults number_to_string rs = Return text).
Proof.
  split; [|split].
  - intros text r F H. apply (formatSearchResults_line number_to_string r rs text F H).
  - apply formatSearchResults_note.
  - apply formatSearchResults_returns.
Qed.

Lemma formatSearchResults_lists_every_result_witness :
  exists i t s u,
    i < 1 /\
    to_string plain_number (title rust_result) = Return t /\
    to_string plain_number (snippet rust_result) = Return s /\
    to_string plain_number (url rust_result) = Return u /\
    includes (str "1. [Rust] A language" ++ [c_newline] ++
              str "   URL: https://rust-lang.org")
      (nat_to_string (i + 1) ++ str ". [" ++ t ++ str "] " ++ s ++
       [c_newline] ++ str "   URL: " ++ u) = true.
Proof.
  apply (proj1 (formatSearchResults_lists_every_result plain_number [rust_result])
           _ rust_result).
  - reflexivity.
  - simpl. left. reflexivity.
Defined.


(* ------------------------------------------------------------------ *)
(** ** Further properties: JSON texts                                   *)
(* ------------------------------------------------------------------ *)

(** X13.  [JSON.parse] undoes [JSON.stringify]: a value built from
    strings, booleans, null, arrays and objects is serialised to a text
    from which [JSON.parse] reads the same value back, whatever
    control characters, quotes, backslashes or surrogates its strings
    hold.  This is what lets [ensureUsername] recognise a memo that
    [makeMemo] wrote. *)
Theorem JSON_parse_inverts_stringify
  (number_to_json : jsnum -> jsstring) (v : value) :
  plain_json v = true ->
  exists text,
    JSON_stringify number_to_json v = Some text /\
    JSON_parse text = Return v.
Proof. apply JSON_round_trip. Qed.

Lemma JSON_parse_inverts_stringify_witness :
  exists text,
    JSON_stringify plain_number awkward_command = Some text /\
    JSON_parse text = Return awkward_command.
Proof.
  apply (JSON_parse_inverts_stringify plain_number awkward_command).
  reflexivity.
Defined.

(** X14.  The command parser accepts every command in its canonical
    form: for an object built from strings, booleans, null, arrays and
    objects whose action is truthy, [_parseJsonCommand] applied to its
    [JSON.stringify] text gives the object back, provided the text
    holds no three backticks in a row (which line 215 would delete);
    the same holds when the text stands in a json fence on lines of its
    own. *)
Theorem parser_accepts_serialised_command
  (number_to_json : jsnum -> jsstring) (v : value) (text : jsstring) :
  plain_json v = true ->
  truthy (get v (str "action")) = true ->
  JSON_stringify number_to_json v = Some text ->
  includes text fence = false ->
  _parseJsonCommand text = Return (Some v) /\
  _parseJsonCommand (fenced_json [c_newline] [c_newline] text) = Return (Some v).
Proof.
  intros Pl A S F.
  destruct (parse_serialised_command number_to_json v text Pl A S F) as [_ P].
  split; [exact P|].
  rewrite parse_fenced_json; [exact P | reflexivity | reflexivity | discriminate].
Qed.

Lemma parser_accepts_serialised_command_witness :
  _parseJsonCommand
    (jq "{'action':'done','summary':'two\nlines, a \'\\\ud83d and more','sources':['a',null,true]}")
    = Return (Some awkward_command) /\
  _parseJsonCommand
    (fenced_json [c_newline] [c_newline]
       (jq "{'action':'done','summary':'two\nlines, a \'\\\ud83d and more','sources':['a',null,true]}"))
    = Return (Some awkward_command).
Proof.
  apply (parser_accepts_serialised_command plain_number awkward_command).
  - reflexivity.
  - reflexivity.
  - vm_compute. reflexivity.
  - vm_compute. reflexivity.
Defined.

(* ------------------------------------------------------------------ *)
(** ** Further properties: the bot                                      *)
(* ------------------------------------------------------------------ *)

(** X15.  The user name of the bot is a non-empty base followed by the
    suffix of its address; the base is the word bot or a prefix of the
    configured name, and the whole name has at most 24 code units
    unless the suffix alone leaves no room for three.  A configured
    name that ends in an underscore and six letters or digits loses
    that tag before the suffix is put on: the base is then cut from
    what stands before the underscore; any other configured name is
    cut as it is. *)
Theorem botUsername_shape
  (BOT_ADDRESS BOT_NAME : jsstring) (usernameSuffix : jsstring -> jsstring) :
  let name := botUsername BOT_ADDRESS BOT_NAME usernameSuffix in
  let suffix := usernameSuffix BOT_ADDRESS in
  let room := Nat.max 1 (24 - length suffix) in
  let letter_or_digit (c : char) :=
    (48 <= c <= 57 \/ 65 <= c <= 90 \/ 97 <= c <= 122)%N in
  (exists base,
     name = base ++ suffix /\ base <> [] /\
     (base = str "bot" \/ base = firstn (length base) BOT_NAME)) /\
  length name <= Nat.max 24 (3 + length suffix) /\
  (forall stem tag : jsstring,
     BOT_NAME = stem ++ 95%N :: tag -> length tag = 6 ->
     Forall letter_or_digit tag ->
     name = match firstn room stem with
            | [] => str "bot"
            | base => base
            end ++ suffix) /\
  ((forall stem tag : jsstring,
      BOT_NAME = stem ++ 95%N :: tag -> length tag = 6 ->
      ~ Forall letter_or_digit tag) ->
   name = match firstn room BOT_NAME with
          | [] => str "bot"
          | base => base
          end ++ suffix) /\
  botUsername BOT_ADDRESS (str "chatgpt_bot_x1y2z3") sample_suffix
    = str "chatgpt_bot_a1b2c3".
Proof.
  intros name suffix room letter_or_digit. subst name suffix room.
  destruct (botUsername_spec BOT_ADDRESS BOT_NAME usernameSuffix)
    as [base [E [N [P L]]]].
  assert (Units : forall tag, Forall letter_or_digit tag <->
                              forallb is_alnum tag = true).
  { intros tag. rewrite forallb_forall, Forall_forall.
    split; intros H c I; apply is_alnum_units, H, I. }
  split; [exists base; repeat split; assumption|].
  split; [rewrite E, length_app; lia|].
  split; [|split; [|reflexivity]].
  - intros stem tag B Lt A.
    assert (St : strip_name_tag BOT_NAME = stem)
      by (rewrite B; apply strip_name_tag_tagged; [exact Lt | apply Units, A]).
    unfold botUsername. rewrite St.
    unfold slice0, or_string. destruct (firstn (Nat.max 1 _) stem); reflexivity.
  - intros H. unfold botUsername.
    rewrite (strip_name_tag_other BOT_NAME).
    + unfold slice0, or_string.
      destruct (firstn (Nat.max 1 _) BOT_NAME); reflexivity.
    + intros stem tag B Lt.
      destruct (forallb is_alnum tag) eqn:A; [|reflexivity].
      exfalso. apply (H stem tag B Lt), Units, A.
Qed.

Lemma botUsername_shape_witness :
  botUsername (str "ut1_bot") (str "survey_bot_Ab12Yz") sample_suffix
  = str "survey_bot_a1b2c3".
Proof.
  apply (proj1 (proj2 (proj2
           (botUsername_shape (str "ut1_bot") (str "survey_bot_Ab12Yz")
              sample_suffix)))
           (str "survey_bot") [65; 98; 49; 50; 89; 122]%N).
  - reflexivity.
  - reflexivity.
  - repeat constructor; lia.
Defined.

(** X16.  [ensureUsername] sends at most one transaction, whose memo
    is the set_username memo for the user name of the bot; and it sends
    none when the list holds a transaction from the address of the bot
    whose memo is that memo as [makeMemo] writes it, provided the
    senders of the transactions of the list convert to strings
    ([String(from)] of line 115 stands outside every [try]): the bot
    recognises its own transaction, whatever characters the name
    holds. *)
Theorem ensureUsername_sends_once
  (BOT_ADDRESS BOT_NAME : jsstring) (usernameSuffix : jsstring -> jsstring)
  (sendTransaction : value -> result unit)
  (number_to_string number_to_json : jsnum -> jsstring) (txs : list value) :
  let run := ensureUsername BOT_ADDRESS BOT_NAME usernameSuffix sendTransaction
               number_to_string number_to_json txs in
  let memo := makeMemo number_to_json
                (username_memo (botUsername BOT_ADDRESS BOT_NAME usernameSuffix)) in
  (fst run = [] \/ fst run = [BotSend memo]) /\
  forall tx,
    In tx txs -> is_object_type tx = true ->
    to_string number_to_string (tx_sender tx) = Return BOT_ADDRESS ->
    get tx (str "memo") = memo ->
    (forall t, In t txs -> is_object_type t = true ->
               exists sender,
                 to_string number_to_string (tx_sender t) = Return sender) ->
    run = ([], Return tt).
Proof.
  intros run memo. subst run memo. unfold ensureUsername. cbn zeta. split.
  - rewrite bot_lift_bind.
    destruct (username_is_set _ _ _ txs) as [[|]|e];
      [left; reflexivity | right; reflexivity | left; reflexivity].
  - intros tx I O S M C.
    rewrite (own_username_recognised BOT_ADDRESS number_to_string number_to_json
               _ txs tx I O S M C).
    reflexivity.
Qed.

Lemma ensureUsername_sends_once_witness :
  ensureUsername (str "ut1_bot") (str "chatgpt_bot") sample_suffix sends_ok
    plain_number plain_number
    [VNull;
     own_transaction (str "ut1_bot")
       (makeMemo plain_number
          (username_memo (botUsername (str "ut1_bot") (str "chatgpt_bot")
                            sample_suffix)))]
  = ([], Return tt).
Proof.
  apply (proj2 (ensureUsername_sends_once (str "ut1_bot") (str "chatgpt_bot")
                  sample_suffix sends_ok plain_number plain_number _)
           (own_transaction (str "ut1_bot")
              (makeMemo plain_number
                 (username_memo (botUsername (str "ut1_bot") (str "chatgpt_bot")
                                   sample_suffix))))).
  - simpl. right. left. reflexivity.
  - reflexivity.
  - reflexivity.
  - reflexivity.
  - intros t [<-|[<-|[]]] O; [discriminate O|].
    eexists. reflexivity.
Defined.

(** X17.  [considerVoting] sends at most one transaction, and what it
    sends is a vote for the key of one of the options it was given: the
    key is never empty, and when the bot has voted already the key is
    not the one it voted for and the period of reconsideration is over.
    With the options a/Red and b/Blue and a model that answers b, the
    vote for b is sent. *)
Theorem considerVoting_votes_for_an_option
  (VOTE_RECONSIDER_S : Z) (sendTransaction : value -> result unit)
  (number_to_string number_to_json : jsnum -> jsstring)
  (completions_create : list message -> Z -> result value)
  (dateContext : jsstring) (builtin_text lower_unicode : jsstring -> jsstring)
  (searchTools : option search_tools) (maxResearchSteps : nat)
  (entry : option Z) (now : Z) (id : value) (s : survey)
  (options : list survey_option) (counts : list (jsstring * value))
  (botEntry : value) :
  let tr := fst (considerVoting VOTE_RECONSIDER_S sendTransaction
                   number_to_string number_to_json completions_create
                   dateContext builtin_text lower_unicode
                   searchTools maxResearchSteps entry now id s options counts
                   botEntry) in
  (sends tr = [] \/
   exists o,
     In o options /\ key o <> [] /\
     sends tr = [makeMemo number_to_json (vote_memo id (key o))] /\
     (already_voted botEntry = true ->
      is_string (get botEntry (str "voteKey")) (key o) = false /\
      (VOTE_RECONSIDER_S * 1000 <=
       now - match entry with Some t => t | None => 0 end)%Z)) /\
  sends (fst (considerVoting 3600 sends_ok plain_number plain_number votes_b []
                no_builtin no_unicode
                None 6 None 5000000 (VString (str "s1")) colour_survey red_blue
                [] voted_a))
    = [VString (jq "{'app':'cis','type':'vote','survey':'s1','choice':'b'}")].
Proof.
  intros tr. subst tr. split; [apply considerVoting_sends|].
  vm_compute. reflexivity.
Qed.

Lemma considerVoting_votes_for_an_option_witness :
  exists o,
    In o red_blue /\ key o <> [] /\
    sends (fst (considerVoting 3600 sends_ok plain_number plain_number votes_b []
                  no_builtin no_unicode
                  None 6 None 5000000 (VString (str "s1")) colour_survey
                  red_blue [] voted_a))
      = [makeMemo plain_number (vote_memo (VString (str "s1")) (key o))] /\
    (already_voted voted_a = true ->
     is_string (get voted_a (str "voteKey")) (key o) = false /\
     (3600 * 1000 <= 5000000 - 0)%Z).
Proof.
  destruct (proj1 (considerVoting_votes_for_an_option 3600 sends_ok plain_number
                     plain_number votes_b [] no_builtin no_unicode None 6 None
                     5000000
                     (VString (str "s1")) colour_survey red_blue []
                     voted_a)) as [E|E].
  - exfalso. vm_compute in E. discriminate E.
  - exact E.
Defined.

(** X18.  A survey the bot has voted on is reconsidered at most once
    per period: a call of [considerVoting] that asked the model and
    resolved leaves the time of the call as the binding of the survey,
    and a call that finds a binding less than [VOTE_RECONSIDER_S]
    seconds old for a survey the bot has voted on does nothing at all:
    it asks no model and sends nothing. *)
Theorem considerVoting_respects_period
  (VOTE_RECONSIDER_S : Z) (sendTransaction : value -> result unit)
  (number_to_string number_to_json : jsnum -> jsstring)
  (completions_create : list message -> Z -> result value)
  (dateContext : jsstring) (builtin_text lower_unicode : jsstring -> jsstring)
  (searchTools : option search_tools) (maxResearchSteps : nat)
  (id : value) (s : survey) (options : list survey_option)
  (counts : list (jsstring * value)) (botEntry : value) :
  let voting := considerVoting VOTE_RECONSIDER_S sendTransaction
                  number_to_string number_to_json completions_create
                  dateContext builtin_text lower_unicode
                  searchTools maxResearchSteps in
  (forall entry now tr entry',
     voting entry now id s options counts botEntry = (tr, Return entry') ->
     tr <> [] -> entry' = Some now) /\
  (forall t now,
     already_voted botEntry = true ->
     (now - t < VOTE_RECONSIDER_S * 1000)%Z ->
     voting (Some t) now id s options counts botEntry = ([], Return (Some t))).
Proof.
  intros voting. subst voting. split.
  - intros entry now tr entry'. apply considerVoting_binding.
  - intros t now. apply considerVoting_waits.
Qed.

Lemma considerVoting_respects_period_witness :
  considerVoting 3600 sends_ok plain_number plain_number votes_b []
    no_builtin no_unicode None 6
    (Some 5000000%Z) 5060000 (VString (str "s1")) colour_survey red_blue
    [] voted_a
  = ([], Return (Some 5000000%Z)).
Proof.
  apply (proj2 (considerVoting_respects_period 3600 sends_ok plain_number
                  plain_number votes_b [] no_builtin no_unicode None 6
                  (VString (str "s1"))
                  colour_survey red_blue [] voted_a)).
  - reflexivity.
  - reflexivity.
Defined.

(** X19.  [considerAddingOption] adds at most one option per call and
    none to a survey the bot has added an option to: it then asks no
    model and sends nothing.  The label it sends starts with the label
    of the suggestion, which is not empty and at most 200 code units
    long, and goes on, if at all, with a space and the address of a
    picture; the key is the slug of the suggested label, or a key made
    from the clock when the slug is empty. *)
Theorem considerAddingOption_adds_once
  (ENABLE_IMAGES : bool) (slugify : jsstring -> jsstring)
  (sendTransaction : value -> result unit)
  (image_download : value -> result download)
  (store_upload : value -> jsstring -> result response)
  (number_to_string number_to_json : jsnum -> jsstring)
  (completions_create : list message -> Z -> result value)
  (dateContext : jsstring)
  (searchTools : option search_tools) (maxResearchSteps : nat)
  (provider apiKey baseURL_arg imageProvider imageApiKey imageBaseURL
   imageModel_arg imageStoreURL : jsstring)
  (imagen_fetch : jsstring -> jsstring -> jsstring -> result response)
  (store_fetch : jsstring -> jsstring -> result response)
  (images_generate : client -> jsstring -> jsstring -> result value)
  (Buffer_from : value -> result jsstring)
  (id : value) (s : survey) (options : list survey_option)
  (botAddedOption : value) (stamp : jsstring) :
  let run := considerAddingOption ENABLE_IMAGES slugify sendTransaction
               image_download store_upload number_to_string number_to_json
               completions_create dateContext searchTools maxResearchSteps
               provider
               apiKey baseURL_arg imageProvider imageApiKey imageBaseURL
               imageModel_arg imageStoreURL imagen_fetch store_fetch
               images_generate Buffer_from id s options botAddedOption stamp in
  (sends (fst run) = [] \/
   exists l extra,
     sends (fst run) =
       [makeMemo number_to_json
          (option_memo id (or_string (slugify l) (str "opt_" ++ stamp))
             (l ++ extra))] /\
     l <> [] /\ length l <= 200 /\
     (extra = [] \/ exists u, extra = 32%N :: u) /\
     truthy botAddedOption = false) /\
  (if truthy botAddedOption then run = ([], Return tt) else True) /\
  sends (fst (considerAddingOption true plain_slug sends_ok no_download no_upload
                plain_number plain_number suggests_green [] None 6
                (str "openai") (str "key") [] [] [] [] [] [] no_imagen no_store
                no_images no_buffer (VString (str "s1")) colour_survey red_blue
                VNull (str "lx2k9")))
    = [VString (jq "{'app':'cis','type':'add_option','survey':'s1','option':{'key':'green','label':'Green'}}")].
Proof.
  intros run. subst run. split; [apply considerAddingOption_sends|]. split.
  - destruct (truthy botAddedOption) eqn:B; [|exact I].
    apply considerAddingOption_once, B.
  - vm_compute. reflexivity.
Qed.


(* ------------------------------------------------------------------ *)
(** ** Further properties: prompts and replies of the decisions         *)
(* ------------------------------------------------------------------ *)

(** X20.  The completion that decides a vote is the last thing
    [chooseVote] asks, at temperature 0.5, and its user message leaves
    nothing out: it holds the summary the research came back with and,
    for every option, the line with its label, its key and its count as
    the template of line 327 prints it.  The count of a key is read off
    the plain object [counts]: a number that is not zero is printed as
    it is, a key without a count and a count of zero give 0, and a key
    that has no count but is one of the names every object inherits
    gives the text of that built-in.  Counts that are numbers are
    always printed.  The same holds of [suggestOption], at temperature
    0.7, with the line of the label of every existing option. *)
Theorem decision_prompts_are_complete
  (completions_create : list message -> Z -> result value)
  (dateContext : jsstring)
  (number_to_string : jsnum -> jsstring)
  (builtin_text lower_unicode : jsstring -> jsstring)
  (searchTools : option search_tools)
  (maxResearchSteps : nat) (provider imageProvider imageModel_arg : jsstring)
  (s : survey) (options : list survey_option)
  (counts : list (jsstring * value))
  (ev : list event) (summary optionList : jsstring) :
  (vote_option_list number_to_string builtin_text options counts
     = Return optionList ->
   research completions_create dateContext number_to_string searchTools
     maxResearchSteps (vote_topic s options) = (ev, Return summary) ->
   fst (chooseVote completions_create dateContext number_to_string builtin_text
          lower_unicode searchTools maxResearchSteps s options counts) =
   ev ++ [EvChat [{| msg_role := System; content := vote_system dateContext |};
                  {| msg_role := User;
                     content := vote_user s optionList summary |}] 5] /\
   includes (vote_user s optionList summary) summary = true /\
   forall o, In o options ->
     exists c,
       count_text number_to_string builtin_text counts (key o) = Return c /\
       includes (vote_user s optionList summary)
         (str "- " ++ quoted (label o) ++ str " (key: " ++ key o ++
          str ", current votes: " ++ c ++ str ")") = true) /\
  (forall k,
     (forall n, lookup k counts = Some (VNumber n) ->
                truthy (VNumber n) = true ->
                count_text number_to_string builtin_text counts k
                = Return (number_to_string n)) /\
     (forall v, lookup k counts = Some v -> truthy v = false ->
                count_text number_to_string builtin_text counts k
                = Return (str "0")) /\
     (lookup k counts = None -> inherited_name k = false ->
      count_text number_to_string builtin_text counts k = Return (str "0")) /\
     (lookup k counts = None -> inherited_name k = true ->
      count_text number_to_string builtin_text counts k =
      Return (if string_eqb k (str "__proto__") then str "[object Object]"
              else builtin_text k))) /\
  ((forall o v, In o options -> lookup (key o) counts = Some v ->
                exists n, v = VNumber n) ->
   exists text,
     vote_option_list number_to_string builtin_text options counts
     = Return text) /\
  (research completions_create dateContext number_to_string searchTools
     maxResearchSteps (suggest_topic s options) = (ev, Return summary) ->
   fst (suggestOption completions_create dateContext number_to_string
          searchTools
          maxResearchSteps provider imageProvider imageModel_arg s options) =
   ev ++ [EvChat [{| msg_role := System; content := suggest_system dateContext |};
                  {| msg_role := User;
                     content := suggest_user s options summary |}] 7] /\
   includes (suggest_user s options summary) summary = true /\
   forall o, In o options ->
     includes (suggest_user s options summary)
       (str "- " ++ quoted (label o)) = true).
Proof.
  split; [|split; [|split]].
  - intros L R.
    rewrite (chooseVote_run completions_create dateContext number_to_string
               builtin_text lower_unicode searchTools maxResearchSteps s options
               counts optionList summary ev L R).
    split; [reflexivity|].
    destruct (vote_user_complete s optionList summary) as [Hs Hl].
    split; [exact Hs|]. intros o I.
    destruct (vote_option_list_lines number_to_string builtin_text options
                counts optionList L o I) as [c [C Il]].
    exists c. split; [exact C | apply Hl, Il].
  - intros k. apply count_text_cases.
  - apply vote_option_list_returns.
  - intros R.
    rewrite (suggestOption_run completions_create dateContext number_to_string
               searchTools maxResearchSteps provider imageProvider
               imageModel_arg s options summary ev R).
    split; [reflexivity|]. apply suggest_user_complete.
Qed.

Lemma decision_prompts_are_complete_witness :
  (exists c,
     count_text plain_number no_builtin [] (str "b") = Return c /\
     includes (vote_user colour_survey
                 (str "- " ++ quoted (str "Red") ++
                  str " (key: a, current votes: 0)" ++ [c_newline] ++
                  str "- " ++ quoted (str "Blue") ++
                  str " (key: b, current votes: 0)") [])
       (str "- " ++ quoted (str "Blue") ++ str " (key: " ++ str "b" ++
        str ", current votes: " ++ c ++ str ")") = true) /\
  count_text plain_number no_builtin [] (str "constructor")
    = Return (no_builtin (str "constructor")).
Proof.
  split.
  - apply (proj2 (proj2 (proj1 (decision_prompts_are_complete votes_b []
                                  plain_number no_builtin no_unicode
                                  None 6 [] [] [] colour_survey red_blue
                                  [] [] [] _)
                           eq_refl eq_refl))
             {| key := str "b"; label := str "Blue" |}).
    simpl. right. left. reflexivity.
  - apply (proj2 (proj2 (proj2 (proj1 (proj2
             (decision_prompts_are_complete votes_b [] plain_number no_builtin
                no_unicode None 6 [] [] [] colour_survey red_blue [] [] [] []))
             (str "constructor"))))).
    + reflexivity.
    + reflexivity.
Defined.

(** X21.  [suggestOption] reads a well-formed reply exactly: when the
    reply holds the JSON text of an object with a label, a wantsImage
    flag and an image description, with any prose before it that holds
    no opening brace and any prose after it that holds no closing
    brace, the suggestion is the label trimmed and cut to 200 code
    units, the description trimmed, and the flag as it was given;
    only when the image provider is one of the names every object
    inherits is the flag undefined instead, as [canGenerateImages]
    then is. *)
Theorem suggestion_reply_is_read_back
  (number_to_string number_to_json : jsnum -> jsstring)
  (provider imageProvider imageModel_arg : jsstring)
  (l d : jsstring) (w : bool) (p q text : jsstring) :
  JSON_stringify number_to_json (suggestion_reply l w d) = Some text ->
  no_lbrace p = true -> no_rbrace q = true ->
  read_suggestion number_to_string provider imageProvider imageModel_arg
    (p ++ text ++ q) =
  {| suggestion_label := slice0 200 (trim l);
     wantsImage :=
       if inherited_name (imgProvider provider imageProvider)
       then VUndefined else VBool w;
     imageDescription := trim d |}.
Proof. apply read_suggestion_reply. Qed.

Lemma suggestion_reply_is_read_back_witness :
  read_suggestion plain_number (str "openai") [] []
    (str "Here you go: " ++
     jq "{'label':'  Green  ','wantsImage':true,'imageDescription':'a green field'}" ++
     str " Hope it helps.") =
  {| suggestion_label := str "Green";
     wantsImage := VBool true;
     imageDescription := str "a green field" |}.
Proof.
  apply (suggestion_reply_is_read_back plain_number plain_number (str "openai")
           [] [] (str "  Green  ") (str "a green field") true
           (str "Here you go: ")
           (str " Hope it helps.")
           (jq "{'label':'  Green  ','wantsImage':true,'imageDescription':'a green field'}")).
  - vm_compute. reflexivity.
  - reflexivity.
  - reflexivity.
Defined.

(* ------------------------------------------------------------------ *)
(** ** Further properties: the image store                              *)
(* ------------------------------------------------------------------ *)

(** X22.  The image store names every upload with one of five
    extensions, and the choice is stable: the type a stored file is
    served with leads back to the extension it was stored under.  The
    five image types the store serves come back as they were sent, so a
    picture the bot uploads as image/png is served as image/png; an
    upload without a content type is stored as a png. *)
Theorem image_store_types_round_trip
  (lower_unicode : jsstring -> jsstring) (ct : jsstring) :
  In (extFromContentType ct)
     [str ".jpg"; str ".gif"; str ".webp"; str ".svg"; str ".png"] /\
  extFromContentType (served_type lower_unicode (extFromContentType ct))
    = extFromContentType ct /\
  Forall (fun t => served_type lower_unicode (extFromContentType t) = t)
    [str "image/jpeg"; str "image/gif"; str "image/webp";
     str "image/svg+xml"; str "image/png"] /\
  extFromContentType [] = str ".png".
Proof.
  split; [|split; [|split; [|reflexivity]]].
  - destruct (extFromContentType_cases ct) as [E|[E|[E|[E|E]]]]; rewrite E;
      simpl; tauto.
  - destruct (extFromContentType_cases ct) as [E|[E|[E|[E|E]]]]; rewrite E;
      reflexivity.
  - repeat constructor.
Qed.

(* ------------------------------------------------------------------ *)
(** ** Further properties: clean queries, short runs, the bot as built  *)
(* ------------------------------------------------------------------ *)

(** X23.  [sanitizeQuery] leaves a clean query as it is: a string of
    at most 300 code units of the class of line 332, without white
    space at its ends and without two white-space code units side by
    side, comes back unchanged. *)
Theorem sanitizeQuery_keeps_clean_queries (q : jsstring) :
  clean_query q = true -> sanitizeQuery (VString q) = Return q.
Proof. apply sanitizeQuery_clean. Qed.

Lemma sanitizeQuery_keeps_clean_queries_witness :
  sanitizeQuery (VString (str "is rust-lang.org's book good?"))
    = Return (str "is rust-lang org's book good?") /\
  sanitizeQuery (VString (str "is rust-lang org's book good?"))
    = Return (str "is rust-lang org's book good?").
Proof.
  split; [reflexivity|].
  apply (sanitizeQuery_keeps_clean_queries (str "is rust-lang org's book good?")).
  reflexivity.
Defined.

(** X24.  A model whose reply to the opening of a research run is a
    done command in its canonical JSON form, with a summary that is not
    empty and a text that holds no three backticks in a row (which line
    215 would delete), ends the run at once: the run is one step with
    one completion, no nudge, no search and no forcing instruction, and
    it returns the summary of the command, cut to 1500 code units. *)
Theorem research_done_at_once
  (completions_create : list message -> Z -> result value)
  (dateContext : jsstring)
  (number_to_string number_to_json : jsnum -> jsstring)
  (tools : search_tools) (N : nat) (topic summary text : jsstring) :
  ask completions_create (research_opening dateContext topic) 3%Z
    = Return text ->
  JSON_stringify number_to_json (done_command summary) = Some text ->
  includes text fence = false ->
  summary <> [] ->
  research completions_create dateContext number_to_string (Some tools) (S N)
    topic =
  ([EvStep 0; EvChat (research_opening dateContext topic) 3],
   Return (slice0 1500 summary)).
Proof. apply research_done_run. Qed.

Lemma research_done_at_once_witness :
  research done_at_once [] plain_number (Some sample_tools) 6 (str "rust") =
  ([EvStep 0; EvChat (research_opening [] (str "rust")) 3],
   Return (slice0 1500 (str "Rust is a language."))).
Proof.
  apply (research_done_at_once done_at_once [] plain_number plain_number
           sample_tools 5 (str "rust") (str "Rust is a language.")
           (jq "{'action':'done','summary':'Rust is a language.'}")).
  - vm_compute. reflexivity.
  - vm_compute. reflexivity.
  - vm_compute. reflexivity.
  - discriminate.
Defined.

(** X25.  Without search tools, which is how [main] builds the wrapper
    (it passes no [searchTools]), a vote is decided by exactly one
    completion, asked without any research findings, once the list of
    the options has been written (a count that cannot be printed ends
    the call before anything is asked); [considerVoting] then does
    nothing at all, or asks that one completion, or asks it and sends
    one transaction, in this order. *)
Theorem considerVoting_without_search_tools
  (VOTE_RECONSIDER_S : Z) (sendTransaction : value -> result unit)
  (number_to_string number_to_json : jsnum -> jsstring)
  (completions_create : list message -> Z -> result value)
  (dateContext : jsstring) (builtin_text lower_unicode : jsstring -> jsstring)
  (maxResearchSteps : nat) (entry : option Z) (now : Z) (id : value)
  (s : survey) (options : list survey_option)
  (counts : list (jsstring * value)) (botEntry : value) :
  let tr := fst (considerVoting VOTE_RECONSIDER_S sendTransaction
                   number_to_string number_to_json completions_create
                   dateContext builtin_text lower_unicode
                   None maxResearchSteps entry now id s options counts
                   botEntry) in
  let choice := chooseVote completions_create dateContext number_to_string
                  builtin_text lower_unicode None maxResearchSteps s options
                  counts in
  match vote_option_list number_to_string builtin_text options counts with
  | Return optionList =>
      fst choice = [vote_chat dateContext s optionList] /\
      (tr = [] \/
       tr = [BotLlm (vote_chat dateContext s optionList)] \/
       exists memo,
         tr = [BotLlm (vote_chat dateContext s optionList); BotSend memo])
  | Throw e => choice = ([], Throw e) /\ tr = []
  end.
Proof.
  intros tr choice. subst tr choice.
  pose proof (considerVoting_without_search VOTE_RECONSIDER_S sendTransaction
                number_to_string number_to_json completions_create dateContext
                builtin_text lower_unicode maxResearchSteps entry now id s
                options counts botEntry) as V.
  cbv zeta in V. rewrite chooseVote_without_search.
  destruct (vote_option_list number_to_string builtin_text options counts)
    as [optionList|e].
  - split; [reflexivity|].
    destruct V as [V|[l [E [V|V]]]]; injection E as <- || idtac; tauto.
  - split; [reflexivity|].
    destruct V as [V|[l [E _]]]; [exact V | discriminate].
Qed.

(** X26.  A picture never stands in the way of an option: once
    [suggestOption] has come back with a label, [considerAddingOption]
    sends exactly one transaction, whatever happens to the picture, as
    long as the address of a generated picture converts to a string
    (the template of line 216 stands in the [catch] and is not
    guarded).  The label is sent alone when no picture is wanted or
    none was generated; when one was generated at an address, that
    address follows the label after a space unless [rehostImage]
    resolved, in which case the address the store answered with
    follows instead. *)
Theorem considerAddingOption_falls_back_on_temporary_address
  (ENABLE_IMAGES : bool) (slugify : jsstring -> jsstring)
  (sendTransaction : value -> result unit)
  (image_download : value -> result download)
  (store_upload : value -> jsstring -> result response)
  (number_to_string number_to_json : jsnum -> jsstring)
  (completions_create : list message -> Z -> result value)
  (dateContext : jsstring)
  (searchTools : option search_tools) (maxResearchSteps : nat)
  (provider apiKey baseURL_arg imageProvider imageApiKey imageBaseURL
   imageModel_arg imageStoreURL : jsstring)
  (imagen_fetch : jsstring -> jsstring -> jsstring -> result response)
  (store_fetch : jsstring -> jsstring -> result response)
  (images_generate : client -> jsstring -> jsstring -> result value)
  (Buffer_from : value -> result jsstring)
  (id : value) (s : survey) (options : list survey_option)
  (botAddedOption : value) (stamp : jsstring) (sg : suggestion) :
  truthy botAddedOption = false ->
  snd (suggestOption completions_create dateContext number_to_string
         searchTools
         maxResearchSteps provider imageProvider imageModel_arg s options)
    = Return sg ->
  suggestion_label sg <> [] ->
  let picture :=
    snd (generateImage completions_create number_to_string provider apiKey
           baseURL_arg imageProvider
           imageApiKey imageBaseURL imageModel_arg imageStoreURL imagen_fetch
           store_fetch images_generate Buffer_from (imageDescription sg)) in
  let wanted :=
    ENABLE_IMAGES && truthy (wantsImage sg) && nonempty (imageDescription sg) in
  (forall tempUrl,
     picture = Return tempUrl ->
     exists shown, to_string number_to_string tempUrl = Return shown) ->
  exists address,
    sends (fst (considerAddingOption ENABLE_IMAGES slugify sendTransaction
                  image_download store_upload number_to_string number_to_json
                  completions_create dateContext searchTools maxResearchSteps
                  provider
                  apiKey baseURL_arg imageProvider imageApiKey imageBaseURL
                  imageModel_arg imageStoreURL imagen_fetch store_fetch
                  images_generate Buffer_from id s options botAddedOption stamp))
      = [makeMemo number_to_json
           (option_memo id
              (or_string (slugify (suggestion_label sg)) (str "opt_" ++ stamp))
              (suggestion_label sg ++ address))] /\
    (wanted = false -> address = []) /\
    (forall tempUrl,
       picture = Return tempUrl -> truthy tempUrl = false -> address = []) /\
    (forall u,
       wanted = true -> picture = Return (VString u) -> u <> [] ->
       exists shown,
         to_string number_to_string
           match snd (rehostImage image_download store_upload number_to_string
                        (VString u)) with
           | Return permanentUrl => permanentUrl
           | Throw _ => VString u
           end = Return shown /\
         address = 32%N :: shown).
Proof.
  intros B R Hl picture wanted Conv. subst picture wanted.
  destruct (considerAddingOption_label ENABLE_IMAGES slugify sendTransaction
              image_download store_upload number_to_string number_to_json
              completions_create dateContext searchTools maxResearchSteps
              provider
              apiKey baseURL_arg imageProvider imageApiKey imageBaseURL
              imageModel_arg imageStoreURL imagen_fetch store_fetch
              images_generate Buffer_from id s options botAddedOption stamp sg
              B R Hl Conv) as [address [S [W A]]].
  exists address. split; [exact S|]. split; [exact W|]. split.
  - intros tempUrl G T. apply (proj1 (A tempUrl G) T).
  - intros u C G U. apply (proj2 (A (VString u) G) C).
    destruct u; [congruence | reflexivity].
Qed.

Lemma considerAddingOption_falls_back_on_temporary_address_witness :
  sends (fst (considerAddingOption true plain_slug sends_ok no_download no_upload
                plain_number plain_number suggests_picture [] None 6
                (str "openai") (str "key") [] [] [] [] [] [] no_imagen no_store
                one_image no_buffer (VString (str "s1")) colour_survey red_blue
                VNull (str "lx2k9")))
    = [VString (jq "{'app':'cis','type':'add_option','survey':'s1','option':{'key':'green','label':'Green https://img.example/1.png'}}")].
Proof.
  destruct (considerAddingOption_falls_back_on_temporary_address true plain_slug
              sends_ok no_download no_upload plain_number plain_number
              suggests_picture [] None 6 (str "openai") (str "key") [] [] [] []
              [] [] no_imagen no_store one_image no_buffer (VString (str "s1"))
              colour_survey red_blue VNull (str "lx2k9") green_with_picture)
    as [address [S [_ [_ A]]]].
  - reflexivity.
  - vm_compute. reflexivity.
  - discriminate.
  - intros tempUrl G. vm_compute in G. injection G as <-.
    eexists. reflexivity.
  - rewrite S.
    destruct (A (str "https://img.example/1.png")) as [shown [Sh ->]].
    + reflexivity.
    + vm_compute. reflexivity.
    + discriminate.
    + vm_compute in Sh. injection Sh as <-. vm_compute. reflexivity.
Defined.

(* ------------------------------------------------------------------ *)
(** ** Further properties: fences, unknown actions, suggestions        *)
(* ------------------------------------------------------------------ *)

(** X27.  Code fences around a reply never change what the parser
    returns: for every text, the text between a json fence or a plain
    fence and a closing fence parses as the text itself, when white
    space (at least one code unit before the closing fence, and after a
    plain opening fence) sets the fences apart.  Prose that holds no
    backtick and no opening brace, put in front of a command text (a
    text without backtick that starts with a match of the command
    pattern and whose brace walk closes at its last code unit), does
    not change the result either, alone or inside either fence. *)
Theorem parse_ignores_fences_and_plain_prose (t w1 w2 p : jsstring) :
  all_space w1 = true -> all_space w2 = true -> w2 <> [] ->
  _parseJsonCommand (fenced_json w1 w2 t) = _parseJsonCommand t /\
  (w1 <> [] -> _parseJsonCommand (fenced_plain w1 w2 t) = _parseJsonCommand t) /\
  (plain_prose p = true -> command_text t = true ->
   _parseJsonCommand (p ++ t) = _parseJsonCommand t /\
   _parseJsonCommand (fenced_json w1 w2 (p ++ t)) = _parseJsonCommand t /\
   (w1 <> [] ->
    _parseJsonCommand (fenced_plain w1 w2 (p ++ t)) = _parseJsonCommand t)).
Proof.
  intros H1 H2 N2.
  split; [apply parse_fenced_json; assumption|].
  split; [intros N1; apply parse_fenced_plain; assumption|].
  intros Hp Ht.
  assert (P : _parseJsonCommand (p ++ t) = _parseJsonCommand t)
    by (apply parse_prose_command; assumption).
  split; [exact P|]. split.
  - rewrite <- P. apply parse_fenced_json; assumption.
  - intros N1. rewrite <- P. apply parse_fenced_plain; assumption.
Qed.

Lemma parse_ignores_fences_and_plain_prose_witness :
  _parseJsonCommand (fenced_json [c_newline] [c_newline] sample_command)
    = _parseJsonCommand sample_command /\
  _parseJsonCommand (fenced_plain [c_newline] [c_newline]
                       (sample_prose ++ sample_command))
    = _parseJsonCommand sample_command.
Proof.
  destruct (parse_ignores_fences_and_plain_prose sample_command [c_newline]
              [c_newline] sample_prose) as [J [_ B]].
  - reflexivity.
  - reflexivity.
  - discriminate.
  - split; [exact J|].
    apply B; [vm_compute; reflexivity | vm_compute; reflexivity | discriminate].
Defined.

(** X28.  When the command of a reasoning step carries an action that
    is none of search, read and done, and the action converts to a
    string (an action that is a string always does), the loop is left
    at once: the run asks for the forced summary on the
    conversation as it stands and its result is the result of that
    completion, without any Search or Read in the step.  When the
    action does not convert, the step ends the run with the TypeError
    of the log line of line 300, again without any Search or Read. *)
Theorem research_unknown_action_gives_up
  (completions_create : list message -> Z -> result value)
  (number_to_string : jsnum -> jsstring) (tools : search_tools)
  (topic : jsstring) (remaining step : nat) (messages : list message)
  (ev : list event) (response : jsstring) (messages' : list message) (c : value) :
  research_ask completions_create step messages
    = (ev, Return (response, messages', Some c)) ->
  unknown_action c = true ->
  let run := research_loop completions_create number_to_string tools topic
               (S remaining) step messages in
  match to_string number_to_string (get c (str "action")) with
  | Return _ =>
      run = (EvStep step :: ev ++ [EvChat (push messages' User FORCING) 3],
             forced_result completions_create number_to_string messages')
  | Throw _ => run = (EvStep step :: ev, Throw TypeError)
  end /\
  count_dispatches (fst run) = 0 /\
  (forall a, get c (str "action") = VString a ->
             to_string number_to_string (get c (str "action")) = Return a).
Proof.
  intros A U run. subst run.
  assert (Ad : count_dispatches ev = 0).
  { destruct (research_ask_spec completions_create step messages)
      as [ev0 [r0 [A0 [_ [Ad _]]]]].
    rewrite A in A0. injection A0 as <- _. exact Ad. }
  split; [|split].
  - destruct (to_string number_to_string (get c (str "action"))) as [shown|e] eqn:S.
    + apply (research_loop_gives_up completions_create number_to_string tools
               topic remaining step messages ev response messages' c shown A U S).
    + apply (research_loop_log_throws completions_create number_to_string tools
               topic remaining step messages ev response messages' c e A U S).
  - destruct (to_string number_to_string (get c (str "action"))) as [shown|e] eqn:S.
    + rewrite (research_loop_gives_up completions_create number_to_string tools
                 topic remaining step messages ev response messages' c shown
                 A U S).
      cbn [fst].
      change (EvStep step :: ev ++ [EvChat (push messages' User FORCING) 3])
        with ([EvStep step] ++ ev ++ [EvChat (push messages' User FORCING) 3]).
      rewrite !count_dispatches_app, Ad. reflexivity.
    + rewrite (research_loop_log_throws completions_create number_to_string
                 tools topic remaining step messages ev response messages' c e
                 A U S).
      cbn [fst]. change (EvStep step :: ev) with ([EvStep step] ++ ev).
      rewrite count_dispatches_app, Ad. reflexivity.
  - intros a G. rewrite G. reflexivity.
Qed.

Lemma research_unknown_action_gives_up_witness :
  research_loop always_think plain_number sample_tools (str "rust") 3 1 []
  = (EvStep 1 :: [EvChat [] 3] ++
     [EvChat (push (push [] Assistant (jq "{'action':'think'}")) User FORCING) 3],
     forced_result always_think plain_number
       (push [] Assistant (jq "{'action':'think'}"))).
Proof.
  apply (proj1 (research_unknown_action_gives_up always_think plain_number
                  sample_tools (str "rust") 2 1 [] [EvChat [] 3]
                  (jq "{'action':'think'}")
                  (push [] Assistant (jq "{'action':'think'}"))
                  (VObject [(str "action", VString (str "think"))])
                  ltac:(vm_compute; reflexivity) ltac:(vm_compute; reflexivity))).
Defined.



(** X30.  The forced summary is read off the last reply: a reply that
    holds no pair of braces is returned as it is, cut to 1500 code
    units; a reply that holds a done command in its canonical JSON
    form, with a summary that is not empty, after prose without an
    opening brace and before prose without a closing brace, gives the
    summary of the command, cut to 1500 code units; and whatever the
    reply, what is returned has at most 1500 code units. *)
Theorem forced_summary_reads_the_reply
  (number_to_string number_to_json : jsnum -> jsstring)
  (finalResp p q summary text : jsstring) :
  length (forced_summary number_to_string finalResp) <= 1500 /\
  (brace_match finalResp = None ->
   forced_summary number_to_string finalResp = slice0 1500 finalResp) /\
  (JSON_stringify number_to_json (done_command summary) = Some text ->
   summary <> [] -> no_lbrace p = true -> no_rbrace q = true ->
   forced_summary number_to_string (p ++ text ++ q) = slice0 1500 summary).
Proof.
  split; [apply forced_summary_length|].
  split; [apply forced_summary_plain | apply forced_summary_done].
Qed.

Lemma forced_summary_reads_the_reply_witness :
  forced_summary plain_number (str "I give up.") = str "I give up." /\
  forced_summary plain_number
    (str "Done: " ++ jq "{'action':'done','summary':'Rust is a language.'}")
  = str "Rust is a language.".
Proof.
  split.
  - apply (proj1 (proj2 (forced_summary_reads_the_reply plain_number
                           plain_number (str "I give up.") [] [] [] []))).
    reflexivity.
  - apply (proj2 (proj2 (forced_summary_reads_the_reply plain_number
                           plain_number [] (str "Done: ") []
                           (str "Rust is a language.")
                           (jq "{'action':'done','summary':'Rust is a language.'}")))).
    + vm_compute. reflexivity.
    + discriminate.
    + reflexivity.
    + reflexivity.
Defined.
